(* ===== verification/_CoqProject ===== *)
-Q . S2P
Prelude.v
Net.v
Api.v
ApiServer.v
Model.v
VipAllocator.v
NetworkFilter.v
EventLoop.v
EnvoyFilterController.v
Xds.v
XdsServer.v
Routing.v
Validation.v
MetaProtocolPlugin.v
Authz.v
Dubbo.v
Redis.v
Plugins.v
ConfigController.v
Consistency.v
Webhook.v
Certificates.v
KubeControllers.v
Bootstrap.v
Wiring.v
Main.v
