(* ===== verification/Prelude.v ===== *)
(** * Verification of Aeraki

    Aeraki (Go, [src/]) is a control plane beside Istio: it reads Istio's service entries,
    virtual services, destination rules and gateways and its own custom resources, and
    writes (1) EnvoyFilter resources that install layer-7 protocol proxies, (2) Envoy route
    configurations served over xDS to the MetaProtocol proxies, and (3) addresses for
    service entries that have none.  An admission webhook checks the custom resources.
    This library is a shallow embedding of its core: Go functions are Rocq functions, a
    run-time panic is the constructor [Panic] of [outcome], a Go [error] result is a value
    ([res], or an [option error] beside the result), loops that return early run in [flow],
    and state that the code mutates is passed explicitly.

    ** Parts of the program and the files that model them

    - [Prelude]: the monads above; integers of 32 bits with wrap-around ([u32]); float64
      through the specification floats of the Standard Library; the functions of [strings]
      and [strconv] the sources use; [MapRange], an arbitrary order of iteration over a Go
      map, so that theorems hold for every order; shared lemmas, hint databases, tactics.
    - [Net]: the part of Go's [net] and [net/netip] that reads and prints IPv4 and IPv6
      addresses, and [internal/plugin/dubbo/authz/matcher/cidr.go].
    - [Api]: the messages and resources, field by field as far as the sources use them;
      the wrappers of [internal/model/config.go].
    - [Model]: [internal/model]: protocol names in port names, codecs, cluster and route
      names, hash policies, comparison of fully qualified names; [internal/util/protoconv].
    - [VipAllocator]: [internal/controller/kube/serviceentry.go].  The state is the
      controller record (addresses handed out, counter) and the API server.
    - [NetworkFilter]: [internal/envoyfilter/network_filter.go], the wrapping of a proxy
      message into EnvoyFilters; the service entry is threaded because the code writes to
      its label map.
    - [EventLoop]: the two identical [mainLoop]s of [internal/envoyfilter/controller.go] and
      [internal/xds/cache_mgr.go] as a step relation over all interleavings of events,
      debounced callbacks, failures and the stop signal.
    - [ApiServer]: the delete, update and create loops that bring the objects of the API
      server in line with a generated set, over an API server given by its laws, with an
      in-memory instance.
    - [EnvoyFilterController]: the rest of [internal/envoyfilter/controller.go], from the
      listing of resources to the push; the protocol plugins are behind the interface
      [Generator].
    - [ConfigController]: [internal/controller/istio/controller.go]: options, the choice of
      the secret manager, the collections asked for, the event filter, the connection loop.
    - [Xds]: [internal/xds/cache_mgr.go] and [utils.go]: routes from MetaRouters, their HTTP
      carrier, the snapshot cache behind the interface [SnapshotCache].
    - [XdsServer]: [internal/xds/server.go] and [callbacks.go]: the server and the stream
      callbacks, written against the interface [cacheMgr], which [cache_mgr.go] implements;
      a step relation [rds_step] for streams that open, watch and close.
    - [Routing]: the decision a proxy takes with the routes it is served, composed with
      [Xds], against the decision the MetaRouter prescribes.
    - [Consistency]: the event loops around their work: the interface [LoopWork] says what a
      loop needs of the work it runs, with the push of EnvoyFilters and the update of the
      route cache as instances, and configurations that change while the loops run, with an
      event or, where the event filters drop it or nothing watches, without one.
    - [Validation]: [internal/webhook/validation/scheme/validation.go]; [Webhook]: the
      handler, its counters, the schemas and the registration
      ([internal/webhook/validation/server], [scheme/collections.go], [configuration.go]).
    - [KubeControllers]: the other controllers of [internal/controller/kube], the text of
      [sidecar_bootstrap_config.go], and their wiring in [internal/bootstrap/server.go]; a step
      relation interleaves them with the two event loops.
    - [Certificates]: [internal/ca]; [Bootstrap]: [internal/bootstrap], the start and shutdown
      of [cmd/aeraki/main.go] and, as a step relation over the replicas of a deployment,
      [internal/leaderelection].
    - [Wiring]: the part of [NewServer] in [internal/bootstrap/server.go] that creates the
      controllers and registers their handlers, with the map of generators they share, and
      what a change of a watched resource sets off.
    - [Main]: the main function of [cmd/aeraki/main.go], the composition of [Bootstrap] and
      [Wiring].
    - [MetaProtocolPlugin], [Authz], [Dubbo], [Redis], [Plugins] (Thrift, Kafka and
      ZooKeeper, a module each, and the map of generators): [internal/plugin].

    The config controller and the Kubernetes controllers decide which events reach the two
    event loops; the loops call
    [EnvoyFilterController.pushEnvoyFilters2APIServer] and [Xds.updateRouteCache]; the
    former calls the generators, which call [NetworkFilter]; proxies of MetaProtocol
    services ask the xDS server for routes by name.  [Bootstrap] makes the certificate,
    registers the webhook and starts all of it.

    ** What the theorems show

    - Allocation: addresses given out by a pass over all entries are distinct and leave
      other entries alone; the allocation loop ends while addresses are left and never
      ends when they are exhausted; it is equal to a search for the first free address in
      the order of the counter; every address is the text of one of the subnet
      240.240.0.0/16.  Reading the text of an address gives the address back.
    - Push: on a server whose calls succeed, without collisions of map keys or with filters
      of others, the managed EnvoyFilters afterwards are exactly the generated ones; which namespaces a filter is exported to; which contexts a gateway
      port gives; that a gateway listener is never updated and that an entry without hosts
      cuts the generation short.
    - Event loops: in every interleaving the retry counter is the number of failed runs in a
      row modulo four, and while an event is not covered by a successful run another run is
      under way, unless the last four runs failed; without new events the loop comes to rest.
      Updates of service entries and gateways that the event filter drops leave the generated
      filters as they are as long as there is no Redis port; which virtual services count.
      Which changes of custom resources notify which loop; in every interleaving of
      controllers and loops the work is bounded and at rest no accepted change is left
      unserved, unless the retries were used up.  Eventual consistency: with resources that
      change at any time, at rest the managed EnvoyFilters and the served routes are those of
      the current resources, up to changes without an event, for every subscribed node whose
      watch was not created too late; the generated filters depend on no kind of resource
      that the event filter never lets through.
    - Routes: the generated matchers mean what the MetaRouter says, actions and names are
      the specified ones, the HTTP carrier loses nothing, every subscribed node gets
      the snapshot, requests and closed streams keep the cache in step.  End to end, the proxy
      that is served the routes of a MetaRouter sends a request where the first matching
      route says, with the clusters, hash headers, mirror and mutations that the MetaRouter and
      the destination rule ask for.  A closed stream starves the other streams of its
      node; a failed list of the MetaRouters sends every request to the default route.
    - Admission: the check accepts exactly the well-formed MetaRouters (a predicate
      on the resource that does not mention the check), and a router it accepts can be served and
      gives its filter chain without a panic.  The webhook allows exactly what the checks
      accept, answers every review that has a request, and its registration converges.
    - Process: what a process that came up runs; what a created server has and what a failed creation has
      written; what the default arguments start; that a change of a supported service entry
      reaches the loops of the created server, whose controller has a generator for it, and
      that a change of a destination rule can crash it; the certificate covers the name the
      webhook is called under; which loops a replica runs after losing the lock; the
      connection loop ends at the first success.
    - Plugins: the filters of a sidecar are complete and distinct, install the proxy of each
      port in the listeners of their own service and no others, and ask for route names the route server serves; the Dubbo routes
      and authorization policies mean what the resources say; Redis routes, endpoints and
      clusters.  Several theorems characterise where the code panics or loses rules.

    Each theorem with hypotheses is followed, at the end of its file, by a witness that
    applies it to a concrete input.

    ** Parameters

    Code outside [src/] is a parameter with named laws, always with a concrete instance in
    the witnesses: the Kubernetes API server ([ApiServer], [ServiceEntryClient]), the config
    store filled by Istio, the xDS snapshot cache, protojson, [proto.Equal], Istio's cluster
    key ([IstioNaming]), trust domains, regular expressions, go-control-plane's constants,
    the DNS label and visibility checks of Istio's packages ([ValidationEnv]), the cluster
    client with which the webhook is registered and which may be refused
    ([WebhookConfigClient]), and Istio's certificate authorities, which read and store a
    secret in the cluster ([CaLibrary]).

    ** Bounds

    A run of the work of a loop is one step of [Consistency]; calls of other parties fall
    before or after it.
    [VipAllocator.nextAvailableIP] and [ConfigController.connectIstio] are loops that need not
    end and take fuel: one round of the counter plus one step is enough when an address is
    free, one more than the number of failed attempts for the connection, and no fuel is
    enough otherwise (all are theorems).  The template of [KubeControllers.GetBootstrapConfig]
    runs with its length as fuel, more than its two actions need.  [strings.ToLower] and [strings.TrimSpace] are
    modelled on ASCII.

    ** Not modelled

    The parsing of the command line (a library's; the defaults and the environment are
    modelled), HTTP and gRPC serving, the messages of the connection to istiod, which
    Istio's libraries exchange, and logging: input/output around the modelled core.
    Istio's queue between the store and its handlers.  That the election library admits one
    leader at a time: replicas win and lose independently.  Values that decoding does not
    produce: nil elements of the lists of conditions, descriptors and mutations in
    [Validation], nil elements of the sources and operations of a rule in [Authz].  The panic
    of [updateServiceEntry] on an empty address, with which it is not called.
    The write of the selector into the labels of an entry is modelled in [NetworkFilter] and
    within one call of a generator, and is forgotten between calls, where it is idempotent.
    Functions without a caller in the program ([MetadataListMatcher], [PathMatcher],
    [ValidatePortName], [ValidateProtocol]).  The end-to-end tests. *)

From stdpp Require Export base gmap strings list pretty relations.
From Stdlib Require Export ZArith Lia.
From Stdlib Require Export Ascii.
From Stdlib Require Import SpecFloat.

Open Scope string_scope.
Open Scope list_scope.
Open Scope Z_scope.

(** Let [simpl] compute concatenations of string literals. *)
#[global] Arguments String.append !_ _ / : simpl nomatch.

(** ** Run-time panics

    A Go function either returns or panics (nil dereference, index out of
    range).  [outcome] records which; Go's own [error] results are ordinary
    values (see [res] below) and never confused with a panic. *)
Inductive outcome (A : Type) : Type :=
| Ret (a : A)
| Panic (why : string).
Arguments Ret {A} a.
Arguments Panic {A} why.

Global Instance outcome_ret : MRet outcome := fun A a => Ret a.
Global Instance outcome_bind : MBind outcome := fun A B f m =>
  match m with Ret a => f a | Panic w => Panic w end.
Global Instance outcome_fmap : FMap outcome := fun A B f m =>
  match m with Ret a => Ret (f a) | Panic w => Panic w end.

(** Go's [(T, error)] result, for functions that return the zero [T] with an
    error. *)
Definition error := string.
Inductive res (A : Type) : Type :=
| Ok (a : A)
| Err (e : error).
Arguments Ok {A} a.
Arguments Err {A} e.

Global Instance outcome_eq_dec {A} `{EqDecision A} : EqDecision (outcome A).
Proof. solve_decision. Defined.
Global Instance res_eq_dec {A} `{EqDecision A} : EqDecision (res A).
Proof. solve_decision. Defined.

(** [panics m] holds when the modelled call panics. *)
Definition panics {A} (m : outcome A) : bool :=
  match m with Panic _ => true | Ret _ => false end.

(** [l[i]] : panics when the index is out of range. *)
Definition index {A} (l : list A) (i : nat) : outcome A :=
  match l !! i with Some a => Ret a | None => Panic "index out of range" end.

(** [*p] or [p.Field] : panics on nil. *)
Definition deref {A} (p : option A) : outcome A :=
  match p with Some a => Ret a | None => Panic "nil pointer dereference" end.

(** [for _, a := range l { s = f(s, a) }] for a body that may panic. *)
Fixpoint for_each {S A} (f : S -> A -> outcome S) (l : list A) (s : S) : outcome S :=
  match l with
  | [] => Ret s
  | a :: l => match f s a with Ret s' => for_each f l s' | Panic w => Panic w end
  end.

(** A loop whose body may also leave the enclosing function: [Next] goes on with the
    state, [Done] returns. *)
Inductive flow (S R : Type) : Type :=
| Next (s : S)
| Done (r : R).
Arguments Next {S R} s.
Arguments Done {S R} r.

Fixpoint loop {S R A} (body : S -> A -> outcome (flow S R)) (l : list A) (s : S) : outcome (flow S R) :=
  match l with
  | [] => Ret (Next s)
  | a :: l => r ← body s a;
              match r with Next s' => loop body l s' | Done v => Ret (Done v) end
  end.

(** [for _, a := range l { out = append(out, f(a)) }]. *)
Fixpoint map_panic {A B} (f : A -> outcome B) (l : list A) : outcome (list B) :=
  match l with
  | [] => Ret []
  | a :: l => b ← f a; bs ← map_panic f l; Ret (b :: bs)
  end.

(** ** Machine integers *)
Definition u32 (z : Z) : Z := z mod 2^32.

(** [sum_u32 l] is what [for ... { total += w }] computes in a [uint32]. *)
Definition sum_u32 (l : list Z) : Z := fold_left (fun acc w => u32 (acc + w)) l 0.

(** ** IEEE-754 binary64, executable through the specification floats *)
Definition float64 := spec_float.
Definition f64_mul (x y : float64) : float64 := SFmul 53 1024 x y.
(** The float64 of a small non-negative integer literal. *)
Definition f64_of_Z (z : Z) : float64 := binary_normalize 53 1024 z 0 false.
(** Truncation towards zero, [uint32(x)] for [x] in range; Go leaves the value
    unspecified otherwise, and [oob] stands for it. *)
Definition f64_trunc (oob : Z) (x : float64) : Z :=
  match x with
  | S754_zero _ => 0
  | S754_finite false m e => Z.shiftl (Zpos m) e
  | S754_finite true m e => if Z.shiftl (Zpos m) e =? 0 then 0 else oob
  | _ => oob
  end.
Definition u32_of_f64 (oob : Z) (x : float64) : Z :=
  let z := f64_trunc oob x in if z <? 2^32 then z else oob.

(** ** The [strings] and [strconv] functions the sources use *)
Fixpoint HasPrefix (s p : string) {struct p} : bool :=
  match p, s with
  | EmptyString, _ => true
  | String a p, String b s => if Ascii.eqb a b then HasPrefix s p else false
  | String _ _, EmptyString => false
  end.

(** The string without its first [n] bytes, [s[n:]]. *)
Fixpoint drop_str (n : nat) (s : string) : string :=
  match n, s with
  | O, _ => s
  | S n, String _ s => drop_str n s
  | S _, EmptyString => EmptyString
  end.

Definition TrimPrefix (s p : string) : string :=
  if HasPrefix s p then drop_str (String.length p) s else s.

(** The first [n] bytes, [s[:n]]. *)
Fixpoint take_str (n : nat) (s : string) : string :=
  match n, s with
  | S n, String a s => String a (take_str n s)
  | _, _ => EmptyString
  end.

Definition HasSuffix (s p : string) : bool :=
  Nat.leb (String.length p) (String.length s) &&
  String.eqb (drop_str (String.length s - String.length p) s) p.

Definition TrimSuffix (s p : string) : string :=
  if HasSuffix s p then take_str (String.length s - String.length p) s else s.

(** [strings.Contains(s, c)] for a one-byte needle. *)
Fixpoint ContainsChar (s : string) (c : ascii) : bool :=
  match s with
  | EmptyString => false
  | String a s => if Ascii.eqb a c then true else ContainsChar s c
  end.

(** [strings.Split(s, sep)] for a one-byte separator: never empty. *)
Fixpoint Split (s : string) (sep : ascii) : list string :=
  match s with
  | EmptyString => [EmptyString]
  | String a s =>
      if Ascii.eqb a sep then EmptyString :: Split s sep
      else match Split s sep with
           | [] => [String a EmptyString]
           | w :: ws => String a w :: ws
           end
  end.

(** [strings.ReplaceAll(s, c, by)] for a one-byte pattern. *)
Fixpoint ReplaceAll (s : string) (c : ascii) (by_ : string) : string :=
  match s with
  | EmptyString => EmptyString
  | String a s => if Ascii.eqb a c then by_ +:+ ReplaceAll s c by_ else String a (ReplaceAll s c by_)
  end.

(** [strings.ToLower] on ASCII letters. *)
Definition lower_char (a : ascii) : ascii :=
  let n := N_of_ascii a in
  if (65 <=? n)%N && (n <=? 90)%N then ascii_of_N (n + 32) else a.
Fixpoint ToLower (s : string) : string :=
  match s with
  | EmptyString => EmptyString
  | String a s => String (lower_char a) (ToLower s)
  end.

(** A double-quoted string, as the [%q] verb prints one without special characters. *)
Definition quoted (s : string) : string := String "034" (s +:+ String "034" "").

(** [strconv.Itoa] and the [%d] verb. *)
Definition Itoa (z : Z) : string := pretty z.

Definition is_digit (a : ascii) : bool :=
  let n := N_of_ascii a in (48 <=? n)%N && (n <=? 57)%N.
Fixpoint all_digits (s : string) : bool :=
  match s with
  | EmptyString => true
  | String a s => is_digit a && all_digits s
  end.
Fixpoint digits_value (acc : Z) (s : string) : Z :=
  match s with
  | EmptyString => acc
  | String a s => digits_value (10 * acc + (Z.of_N (N_of_ascii a) - 48)) s
  end.
(** [strconv.Atoi]: an optional sign, at least one decimal digit, 64-bit range. *)
Definition Atoi (s : string) : option Z :=
  let '(neg, ds) := match s with
                    | String "-" r => (true, r)
                    | String "+" r => (false, r)
                    | _ => (false, s)
                    end in
  if negb (all_digits ds) || String.eqb ds "" then None
  else let v := digits_value 0 ds in
       let v := if neg : bool then - v else v in
       if (- 2^63 <=? v) && (v <? 2^63) then Some v else None.

(** ** Go map iteration

    [for k, v := range m] visits every entry once, in an order the language
    leaves unspecified.  Every definition that ranges over a map takes the order
    from an instance of this class, so that what is proved holds for all orders. *)
Class MapRange := {
  range : forall {V : Type}, gmap string V -> list (string * V);
  range_perm : forall {V : Type} (m : gmap string V), range m ≡ₚ map_to_list m
}.

(** One admissible order, used by the witnesses. *)
Definition canonical_range : MapRange :=
  {| range := fun V m => map_to_list m; range_perm := fun V m => Permutation_refl _ |}.

(** [m[k]] on a possibly absent key returns the zero value. *)
Definition lookup_str (m : gmap string string) (k : string) : string := default "" (m !! k).

(** ** Automation *)
Create HintDb aeraki discriminated.
Create Rewrite HintDb go_str.

(** Case analysis on the scrutinee of the first [match] or [if] in the goal or in
    a hypothesis, with the trivial branches closed. *)
Ltac split_match :=
  match goal with
  | |- context [match ?x with _ => _ end] => destruct x eqn:?; try done
  | H : context [match ?x with _ => _ end] |- _ => destruct x eqn:?; try done
  end.
Ltac split_matches := repeat (split_match; simplify_eq/=).

(** ** Lemmas on panics and loops *)
Lemma bind_Ret_inv {A B} (m : outcome A) (f : A -> outcome B) (b : B) :
  (m ≫= f) = Ret b -> exists a, m = Ret a /\ f a = Ret b.
Proof. destruct m as [a|w]; simpl; [by eauto|done]. Qed.

Lemma bind_not_panics {A B} (m : outcome A) (f : A -> outcome B) :
  panics (m ≫= f) = false <-> exists a, m = Ret a /\ panics (f a) = false.
Proof.
  destruct m as [a|w]; simpl; split.
  - by eauto.
  - by intros (a' & [= <-] & ?).
  - done.
  - by intros (a' & ? & ?).
Qed.

Section outcome_lemmas.
Context {A B S : Type}.

Lemma map_panic_Ret (f : A -> outcome B) (g : A -> B) (l : list A) :
  (forall a, a ∈ l -> f a = Ret (g a)) -> map_panic f l = Ret (g <$> l).
Proof.
  induction l as [|a l IH]; intros H; simpl; [done|].
  rewrite H; [|by left]. simpl. rewrite IH; [done|]. intros a' ?. apply H. by right.
Qed.

Lemma map_panic_inv (f : A -> outcome B) (l : list A) (bs : list B) :
  map_panic f l = Ret bs <-> Forall2 (fun a b => f a = Ret b) l bs.
Proof.
  revert bs. induction l as [|a l IH]; intros bs; simpl.
  - split; [intros [= <-]; constructor|by inversion 1].
  - split.
    + intros (b & Hb & H)%bind_Ret_inv.
      apply bind_Ret_inv in H as (bs' & Hbs & [= <-]). constructor; [done|]. by apply IH.
    + inversion 1 as [|? b ? bs' Hb Hbs]; subst. rewrite Hb. simpl.
      apply IH in Hbs. by rewrite Hbs.
Qed.

Lemma map_panic_ex (f : A -> outcome B) (l : list A) :
  (forall a, a ∈ l -> exists b, f a = Ret b) -> exists bs, map_panic f l = Ret bs.
Proof.
  induction l as [|a l IH]; intros H; simpl; [by eauto|].
  destruct (H a) as [b Hb]; [by left|]. rewrite Hb. simpl.
  destruct IH as [bs Hbs]; [intros ??; apply H; by right|]. rewrite Hbs. simpl. by eauto.
Qed.

Lemma for_each_app (f : S -> A -> outcome S) l1 l2 s :
  for_each f (l1 ++ l2) s = (for_each f l1 s ≫= for_each f l2).
Proof. revert s. induction l1 as [|a l1 IH]; intros s; simpl; [done|]. by destruct (f s a). Qed.

(** Loop invariant rule: an invariant that every iteration keeps, and that excludes
    a panic, holds when the loop ends. *)
Lemma for_each_inv (P : list A -> S -> Prop) (f : S -> A -> outcome S) (l : list A) (s : S) :
  P [] s ->
  (forall done_ a s, P done_ s -> a ∈ l -> exists s', f s a = Ret s' /\ P (done_ ++ [a]) s') ->
  exists s', for_each f l s = Ret s' /\ P l s'.
Proof.
  intros H0 Hstep.
  enough (forall done_ s, P done_ s -> exists s', for_each f l s = Ret s' /\ P (done_ ++ l) s')
    as H by (by apply (H [] s)).
  clear H0 s. induction l as [|a l IH]; intros d s HP; simpl.
  - exists s. by rewrite app_nil_r.
  - destruct (Hstep d a s HP) as (s1 & -> & HP1); [by left|].
    destruct (IH ltac:(intros; apply Hstep; [done|by right]) (d ++ [a]) s1 HP1) as (s2 & -> & HP2).
    exists s2. split; [done|]. by rewrite <- app_assoc in HP2.
Qed.

(** The same for a loop that may leave the function. *)
Lemma loop_inv {R} (P : S -> Prop) (Q : R -> Prop) (body : S -> A -> outcome (flow S R)) (l : list A) s r :
  (forall s a r, a ∈ l -> P s -> body s a = Ret r -> match r with Next s' => P s' | Done v => Q v end) ->
  P s -> loop body l s = Ret r -> match r with Next s' => P s' | Done v => Q v end.
Proof.
  intros Hbody. revert s. induction l as [|a l IH]; intros s Hs; cbn [loop]; [by intros [= <-]|].
  intros (r1 & Hr1 & Hrest)%bind_Ret_inv. pose proof (Hbody s a r1 ltac:(by left) Hs Hr1) as Hstep.
  destruct r1 as [s1|v]; [|by injection Hrest as <-].
  apply (IH ltac:(intros; eapply Hbody; [by right|done..]) s1 Hstep Hrest).
Qed.

Lemma for_each_preserve (P : S -> Prop) (f : S -> A -> outcome S) (l : list A) s s' :
  (forall s a s', a ∈ l -> P s -> f s a = Ret s' -> P s') -> P s -> for_each f l s = Ret s' -> P s'.
Proof.
  intros Hf. revert s. induction l as [|a l IH]; intros s Hs; cbn [for_each]; [by intros [= <-]|].
  destruct (f s a) as [s1|] eqn:E; [|done]. apply IH; [intros; eapply Hf; [by right|done..]|].
  eapply Hf; [by left|done..].
Qed.

Lemma loop_app {R} (body : S -> A -> outcome (flow S R)) l1 l2 s :
  loop body (l1 ++ l2) s =
  (r ← loop body l1 s; match r with Next s' => loop body l2 s' | Done v => Ret (Done v) end).
Proof.
  revert s. induction l1 as [|a l1 IH]; intros s; simpl; [done|].
  destruct (body s a) as [[s1|v]|w]; simpl; [apply IH|done..].
Qed.
End outcome_lemmas.

(** ** Wrap-around sums *)
Lemma u32_id z : 0 <= z < 2^32 -> u32 z = z.
Proof. apply Z.mod_small. Qed.

Lemma sum_u32_mod l : sum_u32 l = u32 (foldr Z.add 0 l).
Proof.
  unfold sum_u32, u32.
  enough (forall acc, fold_left (fun acc w => (acc + w) mod 2^32) l (acc mod 2^32)
                      = (acc + foldr Z.add 0 l) mod 2^32) as H by (by apply (H 0)).
  induction l as [|w l IH]; intros acc; simpl; [by rewrite Z.add_0_r|].
  rewrite Z.add_mod_idemp_l by lia. rewrite IH. f_equal. lia.
Qed.

(** ** String lemmas *)
Lemma str_app_nil_r s : s +:+ "" = s.
Proof. by induction s as [|a s IH]; simpl; [|rewrite IH]. Qed.

Lemma str_app_assoc s1 s2 s3 : (s1 +:+ s2) +:+ s3 = s1 +:+ (s2 +:+ s3).
Proof. by induction s1 as [|a s IH]; simpl; [|rewrite IH]. Qed.

Lemma str_app_inv_head s s1 s2 : s +:+ s1 = s +:+ s2 -> s1 = s2.
Proof. induction s as [|a s IH]; simpl; [done|]. intros [= H]. auto. Qed.

Lemma str_app_cons s c t : s +:+ String c t = (s +:+ String c "") +:+ t.
Proof. by rewrite str_app_assoc. Qed.

Lemma ascii_eqb_refl c : Ascii.eqb c c = true.
Proof. by rewrite Ascii.eqb_refl. Qed.

Lemma ContainsChar_app s t c : ContainsChar (s +:+ t) c = ContainsChar s c || ContainsChar t c.
Proof. induction s as [|a s IH]; simpl; [done|]. by destruct (Ascii.eqb a c). Qed.

Lemma Split_nonempty s c : Split s c <> [].
Proof. destruct s as [|a s]; simpl; [done|]. by split_matches. Qed.

(** Splitting at a separator: the pieces of the two halves. *)
Lemma Split_app s t c : Split (s +:+ String c t) c = Split s c ++ Split t c.
Proof.
  induction s as [|a s IH]; simpl; [by rewrite ascii_eqb_refl|].
  destruct (Ascii.eqb a c); [by rewrite IH|]. rewrite IH.
  destruct (Split s c) eqn:E; [by apply Split_nonempty in E|done].
Qed.

Lemma Split_free s c : ContainsChar s c = false -> Split s c = [s].
Proof.
  induction s as [|a s IH]; simpl; [done|]. destruct (Ascii.eqb a c); [done|].
  intros H. by rewrite IH.
Qed.

Lemma Split_length_1 s c : length (Split s c) = 1%nat <-> ContainsChar s c = false.
Proof.
  split; [|by intros ->%Split_free].
  induction s as [|a s IH]; simpl; [done|]. destruct (Ascii.eqb a c); simpl.
  - destruct (Split s c) eqn:E; [by apply Split_nonempty in E|done].
  - destruct (Split s c) eqn:E; [by apply Split_nonempty in E|done].
Qed.

(** [strings.Join], the inverse of [Split]. *)
Fixpoint Join (l : list string) (c : ascii) : string :=
  match l with
  | [] => ""
  | [w] => w
  | w :: ws => w +:+ String c (Join ws c)
  end.

Lemma Join_Split s c : Join (Split s c) c = s.
Proof.
  induction s as [|a s IH]; simpl; [done|]. destruct (Ascii.eqb a c) eqn:E.
  - apply Ascii.eqb_eq in E as ->.
    destruct (Split s c) eqn:Es; [by apply Split_nonempty in Es|]. simpl in *. by rewrite IH.
  - destruct (Split s c) as [|w ws]; [by rewrite <- IH|].
    rewrite <- IH. by destruct ws.
Qed.

Lemma Split_inj s t c : Split s c = Split t c -> s = t.
Proof. intros H. rewrite <- (Join_Split s c), <- (Join_Split t c). by rewrite H. Qed.

(** Fields separated by [c] are recovered from the left ... *)
Lemma sep_inj_l s1 s2 t1 t2 c :
  ContainsChar s1 c = false -> ContainsChar s2 c = false ->
  s1 +:+ String c t1 = s2 +:+ String c t2 -> s1 = s2 /\ t1 = t2.
Proof.
  intros H1 H2 H. apply (f_equal (fun s => Split s c)) in H. rewrite !Split_app in H.
  rewrite (Split_free s1), (Split_free s2) in H by done. simpl in H.
  injection H as -> H. split; [done|]. by eapply Split_inj.
Qed.

(** ... and from the right. *)
Lemma sep_inj_r s1 s2 t1 t2 c :
  ContainsChar t1 c = false -> ContainsChar t2 c = false ->
  s1 +:+ String c t1 = s2 +:+ String c t2 -> s1 = s2 /\ t1 = t2.
Proof.
  intros H1 H2 H. apply (f_equal (fun s => Split s c)) in H. rewrite !Split_app in H.
  rewrite (Split_free t1), (Split_free t2) in H by done.
  apply app_inj_tail in H as [H ->]. split; [|done]. by eapply Split_inj.
Qed.

(** Decimal numerals contain digits and possibly a minus sign only. *)
Definition numeral_char (a : ascii) : bool := is_digit a || Ascii.eqb a "-".
Fixpoint numeral (s : string) : bool :=
  match s with EmptyString => true | String a s => numeral_char a && numeral s end.

Lemma pretty_N_char_digit n : is_digit (pretty_N_char n) = true.
Proof. destruct n as [|p]; [done|]. by do 4 (try destruct p as [p|p|]). Qed.

Lemma pretty_N_go_digits x s : all_digits s = true -> all_digits (pretty_N_go x s) = true.
Proof.
  revert s. induction (N.lt_wf_0 x) as [x _ IH]; intros s Hs.
  destruct (decide (0 < x)%N) as [Hx|Hx].
  - rewrite pretty_N_go_step by done. apply IH; [by apply N.div_lt|].
    simpl. by rewrite pretty_N_char_digit.
  - assert (x = 0)%N as -> by lia. done.
Qed.

Lemma all_digits_numeral s : all_digits s = true -> numeral s = true.
Proof.
  induction s as [|a s IH]; simpl; [done|]. intros [H1 H2]%andb_prop.
  unfold numeral_char. by rewrite H1, IH.
Qed.

Lemma pretty_N_numeral (n : N) : all_digits (pretty n) = true.
Proof.
  unfold pretty, pretty_N. case_decide; [done|]. by apply pretty_N_go_digits.
Qed.

Lemma Itoa_pos p : Itoa (Zpos p) = pretty (Npos p).
Proof. done. Qed.

Lemma Itoa_numeral z : numeral (Itoa z) = true.
Proof.
  destruct z; [done|by rewrite Itoa_pos; apply all_digits_numeral, pretty_N_numeral|].
  change (numeral (String "-" (pretty (Npos p))) = true). simpl.
  apply all_digits_numeral, pretty_N_numeral.
Qed.

Lemma Itoa_inj z1 z2 : Itoa z1 = Itoa z2 -> z1 = z2.
Proof. apply (inj pretty). Qed.

Lemma Itoa_nonempty z : Itoa z <> "".
Proof.
  intros Hz. destruct z as [|p|p]; [done| |done].
  rewrite Itoa_pos in Hz. unfold pretty, pretty_N in Hz. case_decide; [done|].
  rewrite pretty_N_go_step in Hz by lia. revert Hz.
  enough (forall x s, s <> "" -> pretty_N_go x s <> "") as Hgo by (by apply Hgo).
  intros x. induction (N.lt_wf_0 x) as [x _ IH]; intros s Hs.
  destruct (decide (0 < x)%N) as [Hx|Hx].
  - rewrite pretty_N_go_step by done. apply IH; [by apply N.div_lt|done].
  - assert (x = 0)%N as -> by lia. done.
Qed.

(** A numeral contains no separator that is not a digit or a minus sign. *)
Lemma numeral_free s c : numeral_char c = false -> numeral s = true -> ContainsChar s c = false.
Proof.
  intros Hc. induction s as [|a s IH]; simpl; [done|]. intros [Ha Hs]%andb_prop.
  destruct (Ascii.eqb a c) eqn:E; [|by apply IH]. apply Ascii.eqb_eq in E as ->. congruence.
Qed.

Lemma Itoa_free z c : numeral_char c = false -> ContainsChar (Itoa z) c = false.
Proof. intros. apply numeral_free; [done|apply Itoa_numeral]. Qed.

Lemma Itoa_nonneg_free z : 0 <= z -> ContainsChar (Itoa z) "-" = false.
Proof.
  intros Hz. destruct z; [done| |lia]. rewrite Itoa_pos.
  pose proof (pretty_N_numeral (Npos p)) as H. revert H. generalize (pretty (Npos p)).
  induction s as [|a s IH]; simpl; [done|]. intros [Ha Hs]%andb_prop.
  destruct (Ascii.eqb a "-") eqn:E; [|by apply IH].
  apply Ascii.eqb_eq in E as ->. by vm_compute in Ha.
Qed.

Lemma HasPrefix_spec s p : HasPrefix s p = true <-> exists t, s = p +:+ t.
Proof.
  revert s. induction p as [|a p IH]; intros s; simpl; [split; [by exists s|done]|].
  destruct s as [|b s]; [split; [done|by intros [t [=]]]|]. destruct (Ascii.eqb a b) eqn:E.
  - apply Ascii.eqb_eq in E as ->. rewrite IH. split; intros [t H]; exists t; [by rewrite H|by injection H].
  - split; [done|]. intros [t [= -> _]]. by rewrite ascii_eqb_refl in E.
Qed.

Lemma HasPrefix_app p t : HasPrefix (p +:+ t) p = true.
Proof. apply HasPrefix_spec. by exists t. Qed.

Lemma drop_str_app p t : drop_str (String.length p) (p +:+ t) = t.
Proof. by induction p. Qed.

Lemma str_length_app s t : String.length (s +:+ t) = (String.length s + String.length t)%nat.
Proof. by induction s as [|a s IH]; simpl; [|rewrite IH]. Qed.

Lemma take_drop_str n s : take_str n s +:+ drop_str n s = s.
Proof. revert s. induction n as [|n IH]; intros [|a s]; simpl; try done. by rewrite IH. Qed.

Lemma take_str_app p t : take_str (String.length p) (p +:+ t) = p.
Proof. induction p as [|a p IH]; simpl; [by destruct t|by rewrite IH]. Qed.

Lemma HasSuffix_spec s p : HasSuffix s p = true <-> exists t, s = t +:+ p.
Proof.
  unfold HasSuffix. rewrite andb_true_iff, Nat.leb_le, String.eqb_eq. split.
  - intros [Hl Hd]. exists (take_str (String.length s - String.length p) s).
    rewrite <- Hd at 2. by rewrite take_drop_str.
  - intros [t ->]. rewrite str_length_app.
    replace (String.length t + String.length p - String.length p)%nat with (String.length t) by lia.
    split; [lia|apply drop_str_app].
Qed.

Lemma TrimPrefix_app p t : TrimPrefix (p +:+ t) p = t.
Proof. unfold TrimPrefix. by rewrite HasPrefix_app, drop_str_app. Qed.

Lemma TrimSuffix_app p t : TrimSuffix (t +:+ p) p = t.
Proof.
  unfold TrimSuffix. destruct (HasSuffix (t +:+ p) p) eqn:E.
  - rewrite str_length_app.
    replace (String.length t + String.length p - String.length p)%nat with (String.length t) by lia.
    apply take_str_app.
  - assert (HasSuffix (t +:+ p) p = true) by (apply HasSuffix_spec; by exists t). congruence.
Qed.

(** ** Lists and maps *)
Lemma NoDup_fmap_elem_inj {A B} (f : A -> B) (l : list A) x y :
  NoDup (f <$> l) -> x ∈ l -> y ∈ l -> f x = f y -> x = y.
Proof.
  induction l as [|a l IH]; [by intros _ Hx%elem_of_nil|]. rewrite fmap_cons.
  inversion_clear 1 as [|?? Hno Hnd']. intros [->|Hx]%elem_of_cons [->|Hy]%elem_of_cons Heq; auto.
  - destruct Hno. rewrite Heq. by apply list_elem_of_fmap_2.
  - destruct Hno. rewrite <- Heq. by apply list_elem_of_fmap_2.
Qed.

Lemma decide_elem_of_cons {A} `{EqDecision A} {B} (x k : A) (l : list A) (d : option B) :
  (if decide (k ∈ l) then None else if decide (x = k) then None else d) =
  (if decide (k ∈ x :: l) then None else d).
Proof.
  destruct (decide (k ∈ x :: l)) as [Hd|Hd]; rewrite elem_of_cons in Hd;
    repeat case_decide; naive_solver.
Qed.

Lemma range_elem `{MapRange} {V} (m : gmap string V) k v : (k, v) ∈ range m <-> m !! k = Some v.
Proof. rewrite range_perm. apply elem_of_map_to_list. Qed.

Lemma elem_of_concat {A} (x : A) (ls : list (list A)) : x ∈ concat ls <-> exists l, x ∈ l /\ l ∈ ls.
Proof.
  induction ls as [|l ls IH]; cbn [concat].
  - rewrite elem_of_nil. split; [done|]. by intros (l & _ & ?%elem_of_nil).
  - rewrite elem_of_app, IH. setoid_rewrite elem_of_cons. naive_solver.
Qed.

Lemma existsb_false_filter {A} (f : A -> bool) (l : list A) :
  existsb f l = false -> filter (fun x => f x) l = [].
Proof.
  induction l as [|a l IH]; [done|]. cbn [existsb]. intros [Ha Hl]%orb_false_iff.
  rewrite filter_cons_False; [by apply IH|]. rewrite Ha. by intros [].
Qed.

#[export] Hint Resolve Itoa_free Itoa_inj HasPrefix_app : aeraki.
#[export] Hint Rewrite Split_app str_app_nil_r str_app_assoc ContainsChar_app : go_str.

Lemma find_fmap {A B} (f : B -> bool) (g : A -> B) (l : list A) :
  List.find f (g <$> l) = g <$> List.find (fun a => f (g a)) l.
Proof. induction l as [|a l IH]; [done|]. cbn. destruct (f (g a)); [done|]. exact IH. Qed.

Lemma Forall2_elem_l {A B} (P : A -> B -> Prop) l k x :
  Forall2 P l k -> x ∈ l -> exists y, y ∈ k /\ P x y.
Proof.
  intros H. induction H as [|a b l k Hab _ IH]; [by intros ?%elem_of_nil|].
  intros [->|Hx]%elem_of_cons; [exists b; split; [by left|done]|].
  destruct (IH Hx) as (y & ? & ?). exists y. split; [by right|done].
Qed.

Lemma Forall2_elem_r {A B} (P : A -> B -> Prop) l k y :
  Forall2 P l k -> y ∈ k -> exists x, x ∈ l /\ P x y.
Proof. intros H%Forall2_flip. apply (Forall2_elem_l _ _ _ _ H). Qed.

Lemma NoDup_fmap_elem {A B} (f : A -> B) l x y :
  NoDup (f <$> l) -> x ∈ l -> y ∈ l -> f x = f y -> x = y.
Proof.
  induction l as [|a l IH]; [by intros _ ?%elem_of_nil|]. cbn. intros [Hna Hnd]%NoDup_cons Hx Hy Heq.
  apply elem_of_cons in Hx as [->|Hx], Hy as [->|Hy]; [done|..|by apply IH]; destruct Hna.
  - rewrite Heq. by apply list_elem_of_fmap_2.
  - rewrite <- Heq. by apply list_elem_of_fmap_2.
Qed.

Lemma loop_ext {S R A} (f g : S -> A -> outcome (flow S R)) l s :
  (forall s a, f s a = g s a) -> loop f l s = loop g l s.
Proof.
  intros Hfg. revert s. induction l as [|a l IH]; intros s; [done|]. cbn. rewrite Hfg.
  destruct (g s a) as [[s'|r]|w]; [apply IH|done..].
Qed.

Lemma map_panic_ext {A B} (f g : A -> outcome B) l : (forall a, f a = g a) -> map_panic f l = map_panic g l.
Proof. intros Hfg. induction l as [|a l IH]; [done|]. cbn. by rewrite Hfg, IH. Qed.

(** ** Transition systems *)
(** Rule induction: what holds at the start and survives every step holds in every state
    reached. *)
Lemma rtc_invariant {A} (R : relation A) (I : A -> Prop) x y :
  (forall a b, I a -> R a b -> I b) -> I x -> rtc R x y -> I y.
Proof. intros Hstep Hx Hr. induction Hr as [|a b c Hab _ IH]; [done|]. by eapply IH, Hstep. Qed.

(** A measure that every step lowers bounds the number of steps. *)
Lemma nsteps_measure {A} (R : relation A) (I : A -> Prop) (f : A -> Z) n x y :
  (forall a b, I a -> R a b -> I b /\ f b < f a) -> I x -> nsteps R n x y ->
  I y /\ Z.of_nat n + f y <= f x.
Proof.
  intros Hstep Hx Hn. induction Hn as [a|n a b c Hab _ IH]; [split; [done|lia]|].
  destruct (Hstep a b Hx Hab) as [Hb Hlt]. destruct (IH Hb) as [Hc Hle]. split; [done|]. lia.
Qed.
