(* ===== verification/Net.v ===== *)
(** * IP addresses and CIDR ranges

    The functions of Go's [net] and [net/netip] that [src/internal/plugin/dubbo/authz/matcher/
    cidr.go] uses: [ParseIP], [ParseCIDR] and [IP.String], on 16-byte addresses in which the
    IPv4 ones are mapped ([::ffff:a.b.c.d]).  The addresses that [VipAllocator] hands out are
    read with them. *)

From S2P Require Import Prelude.

(** ** Reading *)

(** [parseIPv4Fields]; no field has a leading zero. *)
Fixpoint parseIPv4Fields (s : string) (val digLen : Z) (fields : list Z) : option (list Z) :=
  match s with
  | EmptyString => if (length fields <? 3)%nat then None else Some (fields ++ [val])
  | String c s =>
      if is_digit c then
        if (digLen =? 1) && (val =? 0) then None
        else let val := val * 10 + (Z.of_N (N_of_ascii c) - 48) in
             if 255 <? val then None else parseIPv4Fields s val (digLen + 1) fields
      else if Ascii.eqb c "." then
        if (digLen =? 0) || String.eqb s "" then None
        else if (length fields =? 3)%nat then None
        else parseIPv4Fields s 0 0 (fields ++ [val])
      else None
  end.

Definition hex_value (c : ascii) : option Z :=
  let n := Z.of_N (N_of_ascii c) in
  if (48 <=? n) && (n <=? 57) then Some (n - 48)
  else if (97 <=? n) && (n <=? 102) then Some (n - 97 + 10)
  else if (65 <=? n) && (n <=? 70) then Some (n - 65 + 10)
  else None.

(** A group of at most four hex digits: its value, its length and what follows. *)
Fixpoint parse_group (s : string) (off acc : Z) : option (Z * Z * string) :=
  match s with
  | String c s' =>
      match hex_value c with
      | Some d => if 3 <? off then None else parse_group s' (off + 1) (16 * acc + d)
      | None => Some (acc, off, s)
      end
  | EmptyString => Some (acc, off, s)
  end.

(** The bytes of a 16-bit group. *)
Definition group_bytes (g : Z) : list Z := [Z.shiftr g 8; Z.land g 255].

(** The loop over the groups: the bytes read, the position of [::] and what is left. [n] is
    the number of groups there is still room for. *)
Fixpoint parse_groups (n : nat) (s : string) (ip : list Z) (ellipsis : option nat)
    : option (list Z * option nat * string) :=
  match n with
  | O => Some (ip, ellipsis, s)
  | S n =>
      match parse_group s 0 0 with
      | None => None
      | Some (acc, off, rest) =>
          if off =? 0 then None
          else match rest with
               | EmptyString => Some (ip ++ group_bytes acc, ellipsis, "")
               | String c rest =>
                   if Ascii.eqb c "." then
                     if bool_decide (ellipsis = None) && negb (length ip =? 12)%nat then None
                     else if (16 <? length ip + 4)%nat then None
                     else match parseIPv4Fields s 0 0 [] with
                          | None => None
                          | Some fields => Some (ip ++ fields, ellipsis, "")
                          end
                   else if Ascii.eqb c ":" then
                     let ip := ip ++ group_bytes acc in
                     match rest with
                     | EmptyString => None
                     | String c' rest' =>
                         if Ascii.eqb c' ":" then
                           match ellipsis, rest' with
                           | Some _, _ => None
                           | None, EmptyString => Some (ip, Some (length ip), "")
                           | None, _ => parse_groups n rest' ip (Some (length ip))
                           end
                         else parse_groups n rest ip ellipsis
                     end
                   else None
               end
      end
  end.

(** Zeros in the place of [::], which stands for at least one group. *)
Definition expand (ip : list Z) (ellipsis : option nat) : option (list Z) :=
  if (length ip <? 16)%nat then
    match ellipsis with
    | None => None
    | Some e => Some (take e ip ++ replicate (16 - length ip) 0 ++ drop e ip)
    end
  else match ellipsis with Some _ => None | None => Some ip end.

Definition parseIPv6 (s : string) : option (list Z) :=
  match (if HasPrefix s "::" then
           if String.eqb s "::" then Some ([], Some 0%nat, "")
           else parse_groups 8 (drop_str 2 s) [] (Some 0%nat)
         else parse_groups 8 s [] None) with
  | Some (ip, ellipsis, EmptyString) => expand ip ellipsis
  | _ => None
  end.

Definition v4InV6Prefix : list Z := replicate 10 0 ++ [255; 255].

(** The kind of address is told by the first dot, colon or percent sign. *)
Fixpoint address_kind (s : string) : option bool :=
  match s with
  | EmptyString => None
  | String "." _ => Some true
  | String ":" _ => Some false
  | String "%" _ => None
  | String _ s => address_kind s
  end.

(** [netip.ParseAddr] for addresses without zone: the bytes and whether it is written as an
    IPv4 address. An address with a zone is refused by all callers. *)
Definition ParseAddr (s : string) : option (list Z * bool) :=
  match address_kind s with
  | Some true => ip4 ← parseIPv4Fields s 0 0 []; Some (v4InV6Prefix ++ ip4, true)
  | Some false => if ContainsChar s "%" then None else ip ← parseIPv6 s; Some (ip, false)
  | None => None
  end.

Definition ParseIP (s : string) : option (list Z) := fst <$> ParseAddr s.

(** [dtoi] on the whole string. *)
Definition prefix_length (s : string) : option Z :=
  if negb (all_digits s) || String.eqb s "" then None
  else let n := digits_value 0 s in if 16777215 <=? n then None else Some n.

(** The address, and the size of the mask. *)
Definition ParseCIDR (s : string) : res (list Z * Z) :=
  let err := Err ("invalid CIDR address: " +:+ s) in
  match Split s "/" with
  | addr :: mask :: masks =>
      match ParseAddr addr, prefix_length (Join (mask :: masks) "/") with
      | Some (ip, is4), Some n => if (if is4 : bool then 32 else 128) <? n then err else Ok (ip, n)
      | _, _ => err
      end
  | _ => err
  end.

(** ** Printing *)
Definition hex_digit (d : Z) : ascii :=
  ascii_of_N (Z.to_N (if d <? 10 then 48 + d else 87 + d)).

(** [appendHex]: no leading zeros. *)
Definition hex (x : Z) : string :=
  (if 4096 <=? x then String (hex_digit (Z.shiftr x 12)) else id)
  ((if 256 <=? x then String (hex_digit (Z.land (Z.shiftr x 8) 15)) else id)
  ((if 16 <=? x then String (hex_digit (Z.land (Z.shiftr x 4) 15)) else id)
  (String (hex_digit (Z.land x 15)) ""))).

Fixpoint zero_run (gs : list Z) : nat :=
  match gs with g :: gs => if g =? 0 then S (zero_run gs) else 0 | [] => 0 end.

(** The first longest run of at least two zero groups, as its start and end. *)
Fixpoint longest_run (i : nat) (gs : list Z) (best : nat * nat) : nat * nat :=
  match gs with
  | [] => best
  | _ :: gs' =>
      let l := zero_run gs in
      longest_run (S i) gs' (if (2 <=? l)%nat && (snd best - fst best <? l)%nat then (i, (i + l)%nat) else best)
  end.

Definition string6 (gs : list Z) : string :=
  let '(zeroStart, zeroEnd) := longest_run 0 gs (255%nat, 255%nat) in
  if (zeroStart =? 255)%nat then Join (hex <$> gs) ":"
  else Join (hex <$> take zeroStart gs) ":" +:+ "::" +:+ Join (hex <$> drop zeroEnd gs) ":".

Definition string4 (ip4 : list Z) : string := Join (Itoa <$> ip4) ".".

Fixpoint groups (ip : list Z) : list Z :=
  match ip with hi :: lo :: ip => 256 * hi + lo :: groups ip | _ => [] end.

(** [IP.String] of a 16-byte address. *)
Definition IP_String (ip : list Z) : string :=
  if bool_decide (take 12 ip = v4InV6Prefix) then string4 (drop 12 ip) else string6 (groups ip).

(** ** [matcher/cidr.go] *)
Record CidrRangeMsg := { AddressPrefix : string; PrefixLen : Z }.

Definition CidrRange (v : string) : res CidrRangeMsg :=
  if ContainsChar v "/" then
    match ParseCIDR v with
    | Ok (ip, prefixLen) => Ok {| AddressPrefix := IP_String ip; PrefixLen := u32 prefixLen |}
    | Err err => Err ("invalid cidr range: " +:+ err)
    end
  else match ParseIP v with
       | Some ip =>
           if ContainsChar v "." then Ok {| AddressPrefix := IP_String ip; PrefixLen := 32 |}
           else if ContainsChar v ":" then Ok {| AddressPrefix := IP_String ip; PrefixLen := 128 |}
           else Err ("invalid ip address: " +:+ v)
       | None => Err ("invalid ip address: " +:+ v)
       end.

Example cidr_examples :
  CidrRange "192.168.0.0/16" = Ok {| AddressPrefix := "192.168.0.0"; PrefixLen := 16 |} /\
  CidrRange "192.168.0.0" = Ok {| AddressPrefix := "192.168.0.0"; PrefixLen := 32 |} /\
  CidrRange "2001:abcd:85a3::8a2e:370:1234" =
    Ok {| AddressPrefix := "2001:abcd:85a3::8a2e:370:1234"; PrefixLen := 128 |} /\
  CidrRange "192.168.0.0//16" = Err "invalid cidr range: invalid CIDR address: 192.168.0.0//16" /\
  CidrRange "192.168.0.0/ab" = Err "invalid cidr range: invalid CIDR address: 192.168.0.0/ab" /\
  CidrRange "192.168.0.0/-16" = Err "invalid cidr range: invalid CIDR address: 192.168.0.0/-16" /\
  CidrRange "19216800" = Err "invalid ip address: 19216800" /\
  CidrRange "::/0" = Ok {| AddressPrefix := "::"; PrefixLen := 0 |} /\
  CidrRange "1::8:0:0:0" = Ok {| AddressPrefix := "1::8:0:0:0"; PrefixLen := 128 |} /\
  CidrRange "1:2:3:4:5:6:7::" = Ok {| AddressPrefix := "1:2:3:4:5:6:7:0"; PrefixLen := 128 |}.
Proof. by vm_compute. Qed.

Definition is_byte (b : Z) : Prop := 0 <= b < 256.
Definition is_group (g : Z) : Prop := 0 <= g < 65536.
Definition is_address (ip : list Z) : Prop := length ip = 16%nat /\ Forall is_byte ip.

(** ** IPv4 *)
Lemma digit_range c : is_digit c = true -> 0 <= Z.of_N (N_of_ascii c) - 48 <= 9.
Proof. unfold is_digit. rewrite andb_true_iff, !N.leb_le. lia. Qed.

Lemma digits_value_le s acc : all_digits s = true -> 0 <= acc -> acc <= digits_value acc s.
Proof.
  revert acc. induction s as [|c s IH]; intros acc; cbn; [lia|].
  intros [Hc%digit_range Hs]%andb_true_iff Ha. specialize (IH (10 * acc + (Z.of_N (N_of_ascii c) - 48)) Hs). lia.
Qed.

(** Digits after a first one that is not zero. *)
Lemma fields_digits s rest val dl fields :
  all_digits s = true -> 0 < val -> 0 < dl -> digits_value val s <= 255 ->
  exists n, 0 < n /\ parseIPv4Fields (s +:+ rest) val dl fields = parseIPv4Fields rest (digits_value val s) n fields.
Proof.
  revert val dl. induction s as [|c s IH]; intros val dl; cbn; [intros _ _ ? _; by exists dl|].
  intros [Hc Hs]%andb_true_iff Hv Hd Hb. rewrite Hc.
  replace (val =? 0) with false by lia. rewrite andb_false_r.
  replace (val * 10 + (Z.of_N (N_of_ascii c) - 48)) with (10 * val + (Z.of_N (N_of_ascii c) - 48)) by lia.
  apply digit_range in Hc. pose proof (digits_value_le s (10 * val + (Z.of_N (N_of_ascii c) - 48)) Hs).
  rewrite (proj2 (Z.ltb_ge 255 _)) by lia. apply IH; lia || done.
Qed.

(** The numerals of bytes, by computation. *)
Lemma byte_numeral b :
  is_byte b -> exists c s, Itoa b = String c s /\ is_digit c = true /\ all_digits s = true /\
    digits_value (Z.of_N (N_of_ascii c) - 48) s = b /\ (0 < Z.of_N (N_of_ascii c) - 48 \/ s = "").
Proof.
  intros Hb. set (ok := fun b => match Itoa b with
    | String c s => is_digit c && all_digits s && (digits_value (Z.of_N (N_of_ascii c) - 48) s =? b) &&
                    ((0 <? Z.of_N (N_of_ascii c) - 48) || String.eqb s "")
    | EmptyString => false end).
  assert (Hall : forallb ok (seqZ 0 256) = true) by (by vm_compute).
  rewrite forallb_forall in Hall. specialize (Hall b). unfold ok in Hall.
  destruct (Itoa b) as [|c s]; [|exists c, s].
  - by discriminate Hall; apply list_elem_of_In, elem_of_seqZ; unfold is_byte in Hb; lia.
  - rewrite !andb_true_iff, orb_true_iff, Z.eqb_eq, Z.ltb_lt, String.eqb_eq in Hall.
    split; [done|]. apply and_assoc, and_assoc, Hall, list_elem_of_In, elem_of_seqZ. unfold is_byte in Hb. lia.
Qed.

Lemma parse_octet b rest fields :
  is_byte b -> exists n, 0 < n /\ parseIPv4Fields (Itoa b +:+ rest) 0 0 fields = parseIPv4Fields rest b n fields.
Proof.
  intros Hb. destruct (byte_numeral b Hb) as (c & s & -> & Hc & Hs & Hv & Hor). unfold is_byte in Hb.
  cbn [String.append parseIPv4Fields]. rewrite Hc. cbn [Z.eqb andb]. rewrite Z.mul_0_l, Z.add_0_l.
  set (d := Z.of_N (N_of_ascii c) - 48) in *.
  pose proof (digit_range c Hc). fold d in H. pose proof (digits_value_le s d Hs).
  rewrite (proj2 (Z.ltb_ge 255 d)) by lia. destruct Hor as [Hpos| ->].
  - rewrite <- Hv. apply fields_digits; lia || done.
  - cbn in Hv. subst b. by exists 1.
Qed.

Lemma fields_dot s val n fields :
  0 < n -> s <> "" -> length fields <> 3%nat ->
  parseIPv4Fields (String "." s) val n fields = parseIPv4Fields s 0 0 (fields ++ [val]).
Proof.
  intros Hn Hs Hf. cbn [parseIPv4Fields]. change (is_digit ".") with false. change (Ascii.eqb "." ".") with true.
  cbv iota. rewrite (proj2 (Z.eqb_neq n 0)), (proj2 (String.eqb_neq s "") Hs) by lia.
  by rewrite (proj2 (Nat.eqb_neq _ 3) Hf).
Qed.

Lemma string4_cons b b' l : string4 (b :: b' :: l) = Itoa b +:+ String "." (string4 (b' :: l)).
Proof. done. Qed.

Lemma string4_nonempty b l : string4 (b :: l) <> "".
Proof. unfold string4. pose proof (Itoa_nonempty b). cbn. by destruct (Itoa b), l. Qed.

(** Reading the dotted form of four bytes. *)
Lemma parse_dotted l : forall fields, Forall is_byte l -> l <> [] -> (length l + length fields = 4)%nat ->
  parseIPv4Fields (string4 l) 0 0 fields = Some (fields ++ l).
Proof.
  induction l as [|b [|b' l] IH]; intros fields Hl Hne Hlen; [done|..]; apply Forall_cons in Hl as [Hb Hl].
  - destruct (parse_octet b "" fields Hb) as (n & _ & Hp). rewrite str_app_nil_r in Hp.
    change (string4 [b]) with (Itoa b). rewrite Hp. cbn. cbn in Hlen. by replace (length fields) with 3%nat by lia.
  - rewrite string4_cons. destruct (parse_octet b (String "." (string4 (b' :: l))) fields Hb) as (n & Hn & ->).
    cbn [length] in Hlen. rewrite fields_dot; [|done|apply string4_nonempty|lia].
    rewrite (IH (fields ++ [b])); [by rewrite <- app_assoc|done..|]. rewrite length_app. cbn. lia.
Qed.

Lemma digit_kind c s : is_digit c = true -> address_kind (String c s) = address_kind s.
Proof. by destruct c as [[] [] [] [] [] [] [] []]. Qed.

Lemma string4_kind b b' l : is_byte b -> address_kind (string4 (b :: b' :: l)) = Some true.
Proof.
  intros Hb. rewrite string4_cons. destruct (byte_numeral b Hb) as (c & s & -> & Hc & Hs & _).
  cbn [String.append]. rewrite digit_kind by done. clear c Hc. induction s as [|c s IH]; [done|].
  apply andb_true_iff in Hs as [Hc Hs]. cbn [String.append]. rewrite digit_kind by done. auto.
Qed.

(** ** IPv6 *)
Lemma hex_value_digit d : 0 <= d < 16 -> hex_value (hex_digit d) = Some d.
Proof.
  intros Hd. assert (Hall : forallb (fun d => bool_decide (hex_value (hex_digit d) = Some d)) (seqZ 0 16) = true)
    by (by vm_compute).
  rewrite forallb_forall in Hall. eapply bool_decide_eq_true_1, Hall, list_elem_of_In, elem_of_seqZ. lia.
Qed.

Lemma parse_group_digit d s off acc :
  0 <= d < 16 -> off <= 3 -> parse_group (String (hex_digit d) s) off acc = parse_group s (off + 1) (16 * acc + d).
Proof. intros Hd Ho. cbn [parse_group]. rewrite hex_value_digit by done. by rewrite (proj2 (Z.ltb_ge 3 off)). Qed.

(** A string at which a group ends. *)
Definition ends_group (s : string) : bool :=
  match s with EmptyString => true | String c _ => bool_decide (hex_value c = None) end.

Lemma parse_group_end s off acc : ends_group s = true -> parse_group s off acc = Some (acc, off, s).
Proof. destruct s as [|c s]; [done|]. cbn. by intros ->%bool_decide_eq_true. Qed.

(** The digits of a group, and its value from them. *)
Definition hex_string (ds : list Z) (s : string) : string := foldr (fun d => String (hex_digit d)) s ds.
Definition is_hex (d : Z) : Prop := 0 <= d < 16.

Lemma hex_digits g :
  is_group g -> exists ds, (forall s, hex g +:+ s = hex_string ds s) /\ Forall is_hex ds /\
    (0 < length ds <= 4)%nat /\ foldl (fun acc d => 16 * acc + d) 0 ds = g.
Proof.
  unfold is_group, hex. intros Hg. change 15 with (Z.ones 4). rewrite !Z.land_ones, !Z.shiftr_div_pow2 by lia.
  change (2 ^ 4) with 16. change (2 ^ 8) with 256. change (2 ^ 12) with 4096.
  exists ((if 4096 <=? g then [g / 4096] else []) ++ (if 256 <=? g then [(g / 256) mod 16] else []) ++
          (if 16 <=? g then [(g / 16) mod 16] else []) ++ [g mod 16]).
  destruct (Z.leb_spec 4096 g), (Z.leb_spec 256 g), (Z.leb_spec 16 g); try lia; (split; [done|]);
    (split; [repeat constructor; unfold is_hex; Z.to_euclidean_division_equations; lia|]);
    (split; [cbn; lia|]); cbn [foldl app]; Z.to_euclidean_division_equations; lia.
Qed.

Lemma parse_group_digits ds s : forall off acc,
  Forall is_hex ds -> ends_group s = true -> 0 <= off -> off + Z.of_nat (length ds) <= 4 ->
  parse_group (hex_string ds s) off acc =
  Some (foldl (fun acc d => 16 * acc + d) acc ds, off + Z.of_nat (length ds), s).
Proof.
  induction ds as [|d ds IH]; intros off acc Hds Hs Ho Hlen.
  - cbn. rewrite Z.add_0_r. by apply parse_group_end.
  - apply Forall_cons in Hds as [Hd Hds]. cbn [hex_string foldr length] in *.
    rewrite parse_group_digit by (done || lia). fold (hex_string ds s). rewrite IH by (done || lia).
    cbn [foldl]. do 2 f_equal. f_equal. lia.
Qed.

Lemma parse_group_hex g rest :
  is_group g -> ends_group rest = true -> exists off, 0 < off /\ parse_group (hex g +:+ rest) 0 0 = Some (g, off, rest).
Proof.
  intros Hg Hr. destruct (hex_digits g Hg) as (ds & Hh & Hds & Hlen & Hv).
  rewrite Hh, parse_group_digits, Hv by (done || lia). eexists. split; [|done]. lia.
Qed.

Definition join6 (l : list Z) : string := Join (hex <$> l) ":".
Definition bytes6 (l : list Z) : list Z := concat (group_bytes <$> l).

Lemma bytes6_app l k : bytes6 (l ++ k) = bytes6 l ++ bytes6 k.
Proof. unfold bytes6. by rewrite fmap_app, concat_app. Qed.

Lemma bytes6_length l : length (bytes6 l) = (2 * length l)%nat.
Proof. induction l as [|g l IH]; [done|]. unfold bytes6 in *. cbn in *. rewrite IH. lia. Qed.

Lemma bytes6_zeros n : bytes6 (replicate n 0) = replicate (2 * n) 0.
Proof.
  induction n as [|n IH]; [done|]. replace (2 * S n)%nat with (S (S (2 * n))) by lia. cbn [replicate].
  by rewrite <- IH.
Qed.

Lemma hex_head g : is_group g -> exists c s d, hex g = String c s /\ hex_value c = Some d.
Proof.
  intros Hg. destruct (hex_digits g Hg) as ([|d ds] & Hh & Hds & Hlen & _); [cbn in Hlen; lia|].
  apply Forall_cons in Hds as [Hd _]. specialize (Hh ""). rewrite str_app_nil_r in Hh. rewrite Hh.
  do 3 eexists. split; [done|]. by apply hex_value_digit.
Qed.

Lemma hex_no_colon c d : hex_value c = Some d -> Ascii.eqb c ":" = false.
Proof. intros Hc. apply Ascii.eqb_neq. by intros ->. Qed.

Lemma join6_cons g g' l : join6 (g :: g' :: l) = hex g +:+ String ":" (join6 (g' :: l)).
Proof. done. Qed.

Lemma join6_head g l s : is_group g -> exists c s' d, join6 (g :: l) +:+ s = String c s' /\ hex_value c = Some d.
Proof.
  intros Hg. destruct (hex_head g Hg) as (c & t & d & Hh & Hc). destruct l as [|g' l].
  - change (join6 [g]) with (hex g). rewrite Hh. by exists c, (t +:+ s), d.
  - rewrite join6_cons, Hh. by do 3 eexists.
Qed.

(** One group and a colon, with a group after it. *)
Lemma parse_groups_colon n g c s d ip ell :
  is_group g -> hex_value c = Some d ->
  parse_groups (S n) (hex g +:+ String ":" (String c s)) ip ell =
  parse_groups n (String c s) (ip ++ group_bytes g) ell.
Proof.
  intros Hg Hc. destruct (parse_group_hex g (String ":" (String c s)) Hg) as (off & Hoff & Hp); [done|].
  cbn [parse_groups]. rewrite Hp, (proj2 (Z.eqb_neq off 0)), (hex_no_colon c d Hc) by (done || lia). done.
Qed.

Lemma parse_join l : forall n ip ell, Forall is_group l -> l <> [] -> (length l <= n)%nat ->
  parse_groups n (join6 l) ip ell = Some (ip ++ bytes6 l, ell, "").
Proof.
  induction l as [|g [|g' l] IH]; intros n ip ell Hl Hne Hn; [done|..]; (destruct n as [|n]; [cbn in Hn; lia|]);
    apply Forall_cons in Hl as [Hg Hl].
  - destruct (parse_group_hex g "" Hg) as (off & Hoff & Hp); [done|]. rewrite str_app_nil_r in Hp.
    change (join6 [g]) with (hex g). cbn [parse_groups]. by rewrite Hp, (proj2 (Z.eqb_neq off 0)) by lia.
  - rewrite join6_cons. apply Forall_cons in Hl as Hg'. destruct Hg' as [Hg' _].
    destruct (join6_head g' l "" Hg') as (c & s & d & Hj & Hc). rewrite str_app_nil_r in Hj.
    rewrite Hj, (parse_groups_colon n g c s d), <- Hj by done. cbn [length] in Hn.
    rewrite IH by (done || cbn [length]; lia). by rewrite <- app_assoc.
Qed.

Lemma parse_join_ellipsis l : forall n ip r, Forall is_group l -> l <> [] -> (length l <= n)%nat ->
  parse_groups n (join6 l +:+ "::" +:+ r) ip None =
  if String.eqb r "" then Some (ip ++ bytes6 l, Some (length (ip ++ bytes6 l)), "")
  else parse_groups (n - length l) r (ip ++ bytes6 l) (Some (length (ip ++ bytes6 l))).
Proof.
  induction l as [|g [|g' l] IH]; intros n ip r Hl Hne Hn; [done|..]; (destruct n as [|n]; [cbn in Hn; lia|]);
    apply Forall_cons in Hl as [Hg Hl].
  - destruct (parse_group_hex g ("::" +:+ r) Hg) as (off & Hoff & Hp); [done|].
    change (join6 [g]) with (hex g). cbn [parse_groups]. rewrite Hp, (proj2 (Z.eqb_neq off 0)) by lia.
    cbn. rewrite Nat.sub_0_r. by destruct r.
  - rewrite join6_cons, str_app_assoc. cbn [String.append]. apply Forall_cons in Hl as Hg'. destruct Hg' as [Hg' _].
    destruct (join6_head g' l ("::" +:+ r) Hg') as (c & s & d & Hj & Hc). cbn [String.append] in Hj.
    rewrite Hj, (parse_groups_colon n g c s d), <- Hj by done. cbn [length] in Hn.
    change (String ":" (String ":" r)) with ("::" +:+ r).
    rewrite (IH n (ip ++ group_bytes g) r) by (done || cbn [length]; lia).
    by rewrite <- !app_assoc.
Qed.

(** The run that is left out consists of zeros. *)
Lemma zero_run_spec gs : exists r, gs = replicate (zero_run gs) 0 ++ r.
Proof.
  induction gs as [|g gs [r IH]]; [by exists []|]. cbn. destruct (Z.eqb_spec g 0) as [->|]; [|by exists (g :: gs)].
  exists r. cbn. by f_equal.
Qed.

Lemma longest_run_spec gs : forall i best,
  longest_run i gs best = best \/
  exists l n r, longest_run i gs best = ((i + length l)%nat, (i + length l + n)%nat) /\
    (2 <= n)%nat /\ gs = l ++ replicate n 0 ++ r.
Proof.
  induction gs as [|g gs IH]; intros i best; [by left|]. cbn [longest_run].
  set (n := zero_run (g :: gs)). set (best' := if _ && _ then _ else _).
  destruct (IH (S i) best') as [Hb|(l & k & r & Hb & Hk & Hgs)].
  - rewrite Hb. unfold best'. destruct (2 <=? n)%nat eqn:Hn; [|by left].
    destruct (snd best - fst best <? n)%nat; [|by left]. right. destruct (zero_run_spec (g :: gs)) as [r Hr].
    exists [], n, r. apply Nat.leb_le in Hn. by rewrite Nat.add_0_r.
  - right. exists (g :: l), k, r. rewrite Hb, Hgs. cbn. split; [f_equal; lia|done].
Qed.

Lemma expand_run l n r :
  (2 <= n)%nat -> (length l + n + length r = 8)%nat ->
  expand (bytes6 l ++ bytes6 r) (Some (length (bytes6 l))) = Some (bytes6 (l ++ replicate n 0 ++ r)).
Proof.
  intros Hn Hlen. unfold expand. rewrite length_app, !bytes6_length.
  rewrite (proj2 (Nat.ltb_lt _ 16)) by lia.
  rewrite take_app_length', drop_app_length' by (by rewrite bytes6_length).
  rewrite !bytes6_app, bytes6_zeros. by replace (16 - (2 * length l + 2 * length r))%nat with (2 * n)%nat by lia.
Qed.

Lemma join6_nonempty g l : is_group g -> String.eqb (join6 (g :: l)) "" = false.
Proof.
  intros Hg. destruct (join6_head g l "" Hg) as (c & s & d & Hj & _). rewrite str_app_nil_r in Hj. by rewrite Hj.
Qed.

Lemma join6_no_prefix g l s : is_group g -> HasPrefix (join6 (g :: l) +:+ s) "::" = false.
Proof.
  intros Hg. destruct (join6_head g l s Hg) as (c & s' & d & -> & Hc). cbn [HasPrefix].
  rewrite Ascii.eqb_sym, (hex_no_colon c d Hc). done.
Qed.

Lemma parse_string6 gs :
  length gs = 8%nat -> Forall is_group gs -> parseIPv6 (string6 gs) = Some (bytes6 gs).
Proof.
  intros Hlen Hgs. unfold string6.
  destruct (longest_run_spec gs 0 (255%nat, 255%nat)) as [->|(l & n & r & -> & Hn & Hl)].
  - cbn [Nat.eqb]. fold (join6 gs). destruct gs as [|g gs]; [done|]. apply Forall_cons in Hgs as Hg. destruct Hg as [Hg _].
    unfold parseIPv6. rewrite <- (str_app_nil_r (join6 (g :: gs))), join6_no_prefix, str_app_nil_r by done.
    rewrite parse_join by (done || lia). unfold expand. rewrite app_nil_l, bytes6_length, Hlen. done.
  - cbn [Nat.add]. subst gs. rewrite !length_app, length_replicate in Hlen.
    apply Forall_app in Hgs as [Hgl [_ Hgr]%Forall_app].
    rewrite (proj2 (Nat.eqb_neq _ 255)) by lia. rewrite take_app_length.
    rewrite (drop_app_ge l) by lia. replace (length l + n - length l)%nat with n by lia.
    rewrite drop_app_length' by (by rewrite length_replicate). fold (join6 l) (join6 r). unfold parseIPv6.
    destruct l as [|g l].
    + change (join6 []) with "". cbn [String.append]. change (HasPrefix (String ":" (String ":" (join6 r))) "::") with true.
      cbv iota. destruct r as [|g r]; [cbn; cbn in Hlen; by replace n with 8%nat by lia|].
      apply Forall_cons in Hgr as Hg. destruct Hg as [Hg _].
      cbn [String.eqb]. rewrite !Ascii.eqb_refl, join6_nonempty by done. cbn [drop_str].
      rewrite parse_join by (done || cbn in *; lia). apply (expand_run [] n (g :: r)); [done|cbn in *; lia].
    + apply Forall_cons in Hgl as Hg. destruct Hg as [Hg _].
      rewrite join6_no_prefix, parse_join_ellipsis by (done || cbn in *; lia). rewrite !app_nil_l.
      destruct r as [|g' r].
      * change (join6 []) with "". cbn [String.eqb]. rewrite <- (app_nil_r (bytes6 (g :: l))) at 1.
        apply (expand_run (g :: l) n []); [done|cbn in *; lia].
      * apply Forall_cons in Hgr as Hg'. destruct Hg' as [Hg' _]. rewrite join6_nonempty by done.
        rewrite parse_join by (done || cbn in *; lia). apply expand_run; [done|cbn in *; lia].
Qed.

(** ** Reading gives addresses *)
Lemma fields_sound s : forall val dl fields l,
  parseIPv4Fields s val dl fields = Some l -> is_byte val -> Forall is_byte fields -> (length fields <= 3)%nat ->
  length l = 4%nat /\ Forall is_byte l.
Proof.
  induction s as [|c s IH]; intros val dl fields l; cbn [parseIPv4Fields].
  - destruct (Nat.ltb_spec (length fields) 3); [done|]. intros [= <-] Hv Hf Hlen. rewrite length_app. cbn.
    split; [lia|]. apply Forall_app. auto.
  - destruct (is_digit c) eqn:Hc.
    + destruct (_ && _); [done|]. destruct (Z.ltb_spec 255 (val * 10 + (Z.of_N (N_of_ascii c) - 48))); [done|].
      intros Hp Hv. apply (IH _ _ _ _ Hp). apply digit_range in Hc. unfold is_byte in *. lia.
    + destruct (Ascii.eqb c "."); [|done]. destruct (_ || _); [done|].
      destruct (Nat.eqb_spec (length fields) 3); [done|]. intros Hp Hv Hf Hlen. apply (IH _ _ _ _ Hp); [done|..].
      * apply Forall_app. auto.
      * rewrite length_app. cbn. lia.
Qed.

Lemma hex_value_range c d : hex_value c = Some d -> 0 <= d < 16.
Proof. unfold hex_value. repeat case_match; naive_solver lia. Qed.

Lemma parse_group_sound s : forall off acc g off' rest,
  parse_group s off acc = Some (g, off', rest) -> 0 <= off <= 4 -> 0 <= acc < 16 ^ off ->
  0 <= off' <= 4 /\ 0 <= g < 16 ^ off'.
Proof.
  induction s as [|c s IH]; intros off acc g off' rest; cbn [parse_group]; [by intros [= <- <- _]|].
  destruct (hex_value c) as [d|] eqn:Hc; [|by intros [= <- <- _]].
  destruct (Z.ltb_spec 3 off); [done|]. intros Hp Ho Ha. apply (IH _ _ _ _ _ Hp); [lia|].
  apply hex_value_range in Hc. rewrite Z.pow_add_r by lia. lia.
Qed.

Lemma group_bytes_ok g : is_group g -> Forall is_byte (group_bytes g).
Proof.
  unfold is_group, is_byte, group_bytes. intros Hg. change 255 with (Z.ones 8).
  rewrite Z.land_ones, Z.shiftr_div_pow2 by lia. change (2 ^ 8) with 256.
  repeat constructor; Z.to_euclidean_division_equations; lia.
Qed.

Lemma parse_groups_sound n : forall s ip ell ip' ell' rest,
  parse_groups n s ip ell = Some (ip', ell', rest) ->
  Forall is_byte ip -> (length ip + 2 * n = 16)%nat -> (forall e, ell = Some e -> e <= length ip)%nat ->
  Forall is_byte ip' /\ (length ip' <= 16)%nat /\ (forall e, ell' = Some e -> e <= length ip')%nat.
Proof.
  induction n as [|n IH]; intros s ip ell ip' ell' rest; cbn [parse_groups].
  { intros [= <- <- _] ? ? ?. split_and!; [done|lia|done]. }
  destruct (parse_group s 0 0) as [[[g off] rest']|] eqn:Hg; [|done].
  apply parse_group_sound in Hg as [Ho Hg]; [|lia..]. destruct (off =? 0); [done|].
  assert (is_group g) as Hgr.
  { unfold is_group. assert (16 ^ off <= 16 ^ 4) by (apply Z.pow_le_mono_r; lia). lia. }
  intros Hp Hip Hlen He. pose proof (group_bytes_ok g Hgr) as Hgb.
  assert (Forall is_byte (ip ++ group_bytes g)) as Hip' by (by apply Forall_app).
  assert (length (ip ++ group_bytes g) = (length ip + 2)%nat) as Hl by (by rewrite length_app).
  destruct rest' as [|c rest'].
  { injection Hp as <- <- _. split_and!; [done|lia|]. intros e Hee. specialize (He e Hee). lia. }
  destruct (Ascii.eqb c ".").
  { destruct (_ && _); [done|]. destruct (Nat.ltb_spec 16 (length ip + 4)); [done|].
    destruct (parseIPv4Fields s 0 0 []) as [f|] eqn:Hf; [|done]. injection Hp as <- <- _.
    apply fields_sound in Hf as [Hf1 Hf2]; [|done|constructor|cbn; lia]. rewrite length_app, Hf1.
    split_and!; [by apply Forall_app|lia|]. intros e Hee. specialize (He e Hee). lia. }
  destruct (Ascii.eqb c ":"); [|done]. destruct rest' as [|c' rest2]; [done|].
  destruct (Ascii.eqb c' ":").
  - destruct ell as [e0|]; [done|]. destruct rest2 as [|c2 rest2].
    + injection Hp as <- <- _. split_and!; [done|lia|]. by intros e [= <-].
    + apply (IH _ _ _ _ _ _ Hp); [done|lia|]. by intros e [= <-].
  - apply (IH _ _ _ _ _ _ Hp); [done|lia|]. intros e Hee. specialize (He e Hee). lia.
Qed.

Lemma expand_sound ip ell l :
  expand ip ell = Some l -> Forall is_byte ip -> (length ip <= 16)%nat -> (forall e, ell = Some e -> e <= length ip)%nat ->
  is_address l.
Proof.
  unfold expand. intros Hx Hip Hlen He. destruct (Nat.ltb_spec (length ip) 16).
  - destruct ell as [e|]; [|done]. injection Hx as <-. specialize (He e eq_refl). split.
    + rewrite !length_app, length_take, length_replicate, length_drop. lia.
    + rewrite !Forall_app. split_and!; [by apply Forall_take|by apply Forall_replicate|by apply Forall_drop].
  - destruct ell; [done|]. injection Hx as <-. split; [lia|done].
Qed.

Lemma parseIPv6_sound s ip : parseIPv6 s = Some ip -> is_address ip.
Proof.
  unfold parseIPv6. set (r := if HasPrefix s "::" then _ else _). intros Hp.
  assert (Hr : forall l ell rest, r = Some (l, ell, rest) ->
    Forall is_byte l /\ (length l <= 16)%nat /\ (forall e, ell = Some e -> e <= length l)%nat).
  { intros l ell rest. unfold r. destruct (HasPrefix s "::"); [destruct (String.eqb s "::")|].
    - intros [= <- <- _]. split_and!; [constructor|cbn; lia|by intros e [= <-]].
    - intros Hg. apply (parse_groups_sound _ _ _ _ _ _ _ Hg); [constructor|done|by intros e [= <-]].
    - intros Hg. by apply (parse_groups_sound _ _ _ _ _ _ _ Hg). }
  destruct r as [[[l ell] [|]]|]; [|done..]. destruct (Hr _ _ _ eq_refl) as (? & ? & ?). by eapply expand_sound.
Qed.

Lemma ParseAddr_sound s ip is4 : ParseAddr s = Some (ip, is4) -> is_address ip.
Proof.
  unfold ParseAddr. destruct (address_kind s) as [[]|]; [..|done].
  - destruct (parseIPv4Fields s 0 0 []) as [l|] eqn:Hl; [|done]. cbn. intros [= <- _].
    apply fields_sound in Hl as [Hl1 Hl2]; [|done|constructor|cbn; lia]. split; [cbn; lia|].
    repeat constructor; done.
  - destruct (ContainsChar s "%"); [done|]. destruct (parseIPv6 s) as [l|] eqn:Hl; [|done]. intros [= <- _].
    by eapply parseIPv6_sound.
Qed.

(** ** Printing and reading back *)
Lemma groups_ok n : forall ip, length ip = (2 * n)%nat -> Forall is_byte ip ->
  length (groups ip) = n /\ Forall is_group (groups ip) /\ bytes6 (groups ip) = ip.
Proof.
  induction n as [|n IH]; intros ip Hlen Hip; [by destruct ip|].
  destruct ip as [|hi [|lo ip]]; [cbn in Hlen; lia..|]. apply Forall_cons in Hip as [Hhi [Hlo Hip]%Forall_cons].
  destruct (IH ip) as (Hl & Hg & Hb); [cbn in Hlen; lia|done|]. unfold is_byte in *. cbn [groups length].
  split_and!; [by f_equal|constructor; [unfold is_group; lia|done]|].
  unfold bytes6 in *. cbn [fmap list_fmap concat]. rewrite Hb. unfold group_bytes. change 255 with (Z.ones 8).
  rewrite Z.land_ones, Z.shiftr_div_pow2 by lia. change (2 ^ 8) with 256. cbn.
  f_equal; [|f_equal]; Z.to_euclidean_division_equations; lia.
Qed.

Definition is_v4 (ip : list Z) : bool := bool_decide (take 12 ip = v4InV6Prefix).

Lemma hex_free g c : is_group g -> hex_value c = None -> ContainsChar (hex g) c = false.
Proof.
  intros Hg Hc. destruct (hex_digits g Hg) as (ds & Hh & Hds & _). specialize (Hh "").
  rewrite str_app_nil_r in Hh. rewrite Hh. clear Hh. induction Hds as [|d ds Hd _ IH]; [done|].
  cbn [hex_string foldr ContainsChar]. rewrite (proj2 (Ascii.eqb_neq _ c)); [exact IH|].
  intros <-. by rewrite hex_value_digit in Hc.
Qed.

Lemma join6_free l c : Forall is_group l -> hex_value c = None -> c <> ":"%char -> ContainsChar (join6 l) c = false.
Proof.
  intros Hl Hc Hne. induction Hl as [|g [|g' l] Hg Hl IH]; [done|by apply hex_free|].
  rewrite join6_cons, ContainsChar_app, hex_free by done. cbn [orb ContainsChar].
  rewrite (proj2 (Ascii.eqb_neq ":" c)) by done. exact IH.
Qed.

Lemma string6_free gs c :
  Forall is_group gs -> hex_value c = None -> c <> ":"%char -> ContainsChar (string6 gs) c = false.
Proof.
  intros Hgs Hc Hne. unfold string6. destruct (longest_run 0 gs (255%nat, 255%nat)) as [zs ze].
  destruct (zs =? 255)%nat; [by apply join6_free|]. fold (join6 (take zs gs)) (join6 (drop ze gs)).
  rewrite !ContainsChar_app, !join6_free by (done || by apply Forall_take || by apply Forall_drop).
  cbn [orb ContainsChar String.append]. by rewrite (proj2 (Ascii.eqb_neq ":" c)) by done.
Qed.

(** The first character that is no hex digit is a colon. *)
Lemma hex_kind g s : is_group g -> address_kind (hex g +:+ s) = address_kind s.
Proof.
  intros Hg. destruct (hex_digits g Hg) as (ds & -> & Hds & _). induction Hds as [|d ds Hd _ IH]; [done|].
  cbn [hex_string foldr]. rewrite <- IH. apply hex_value_digit in Hd.
  by destruct (hex_digit d) as [[] [] [] [] [] [] [] []].
Qed.

Lemma string6_kind gs : length gs = 8%nat -> Forall is_group gs ->
  address_kind (string6 gs) = Some false /\ ContainsChar (string6 gs) ":" = true.
Proof.
  intros Hlen Hgs.
  assert (Hhex : forall g s, is_group g -> ContainsChar (hex g +:+ String ":" s) ":" = true)
    by (intros; by rewrite ContainsChar_app; cbn; rewrite orb_true_r).
  assert (Hpre : exists p s, string6 gs = p +:+ String ":" s /\ (p = "" \/ exists g, is_group g /\ p = hex g)).
  { unfold string6. destruct (longest_run_spec gs 0 (255%nat, 255%nat)) as [->|(l & n & r & -> & Hn & Hl)].
    - cbn [Nat.eqb]. destruct gs as [|g [|g' gs]]; [done..|]. apply Forall_cons in Hgs as [Hg _].
      exists (hex g). eexists. split; [done|]. right. by exists g.
    - cbn [Nat.add]. subst gs. rewrite !length_app, length_replicate in Hlen. rewrite (proj2 (Nat.eqb_neq _ 255)) by lia.
      rewrite take_app_length. apply Forall_app in Hgs as [Hgl _]. destruct l as [|g [|g' l]].
      + by exists "", (String ":" (Join (hex <$> drop (0 + n) ([] ++ replicate n 0 ++ r)) ":")); split; [|left].
      + apply Forall_cons in Hgl as [Hg _]. exists (hex g). eexists. split; [done|]. right. by exists g.
      + apply Forall_cons in Hgl as [Hg _]. exists (hex g). eexists. split; [|right; by exists g].
        fold (join6 (g :: g' :: l)). rewrite join6_cons, str_app_assoc. done. }
  destruct Hpre as (p & s & -> & [->|(g & Hg & ->)]); [done|]. by rewrite hex_kind, Hhex.
Qed.

Lemma string4_free l c : Forall is_byte l -> is_digit c = false -> c <> "."%char -> ContainsChar (string4 l) c = false.
Proof.
  intros Hl Hc Hne.
  assert (Hnum : forall b, is_byte b -> ContainsChar (Itoa b) c = false).
  { intros b Hb. destruct (byte_numeral b Hb) as (c' & s & -> & Hc' & Hs & _).
    assert (Hd : forall s, all_digits s = true -> ContainsChar s c = false); [|apply Hd; cbn; by rewrite Hc'].
    clear -Hc. intros s. induction s as [|a s IH]; [done|]. cbn. intros [Ha Hs]%andb_true_iff.
    rewrite (proj2 (Ascii.eqb_neq a c)); [auto|]. intros ->. congruence. }
  induction Hl as [|b [|b' l] Hb Hl IH]; [done|by apply Hnum|].
  rewrite string4_cons, ContainsChar_app, Hnum by done. cbn [orb ContainsChar].
  rewrite (proj2 (Ascii.eqb_neq "." c)) by done. exact IH.
Qed.

(** Reading a dotted address. *)
Lemma ParseIP_dotted a b c d :
  Forall is_byte [a; b; c; d] -> ParseIP (string4 [a; b; c; d]) = Some (v4InV6Prefix ++ [a; b; c; d]).
Proof.
  intros Hb. apply Forall_cons in Hb as Ha. unfold ParseIP, ParseAddr. rewrite string4_kind by apply Ha.
  by rewrite parse_dotted.
Qed.

(** An address is a mapped IPv4 address or printed as IPv6. *)
Lemma address_cases ip :
  is_address ip ->
  (is_v4 ip = true /\ exists a b c d, Forall is_byte [a; b; c; d] /\ ip = v4InV6Prefix ++ [a; b; c; d] /\
     IP_String ip = string4 [a; b; c; d]) \/
  (is_v4 ip = false /\ exists gs, length gs = 8%nat /\ Forall is_group gs /\ ip = bytes6 gs /\ IP_String ip = string6 gs).
Proof.
  intros [Hlen Hip]. unfold is_v4, IP_String. destruct (bool_decide_reflect (take 12 ip = v4InV6Prefix)) as [Ht|Ht].
  - left. split; [done|]. rewrite <- (take_drop 12 ip) in Hip |- *. rewrite Ht in Hip |- *. rewrite drop_app_length' by done.
    assert (Hd : length (drop 12 ip) = 4%nat) by (rewrite length_drop; lia).
    destruct (drop 12 ip) as [|a [|b [|c [|d [|]]]]]; try done. exists a, b, c, d.
    apply Forall_app in Hip as [_ Hip]. done.
  - right. split; [done|]. destruct (groups_ok 8 ip Hlen Hip) as (Hl & Hg & Hb). by exists (groups ip).
Qed.

Lemma ParseAddr_String ip : is_address ip -> ParseAddr (IP_String ip) = Some (ip, is_v4 ip).
Proof.
  intros [(-> & a & b & c & d & Hb & -> & ->)|(-> & gs & Hlen & Hgs & -> & ->)]%address_cases; unfold ParseAddr.
  - apply Forall_cons in Hb as Ha. rewrite string4_kind by apply Ha. by rewrite parse_dotted.
  - rewrite (proj1 (string6_kind gs Hlen Hgs)), string6_free, parse_string6 by done. done.
Qed.

Lemma IP_String_slash ip : is_address ip -> ContainsChar (IP_String ip) "/" = false.
Proof.
  intros [(_ & a & b & c & d & Hb & -> & ->)|(_ & gs & Hlen & Hgs & -> & ->)]%address_cases.
  - by apply string4_free.
  - by apply string6_free.
Qed.

Lemma prefix_length_Itoa n : 0 <= n <= 128 -> prefix_length (Itoa n) = Some n.
Proof.
  intros Hn. assert (Hall : forallb (fun n => bool_decide (prefix_length (Itoa n) = Some n)) (seqZ 0 129) = true)
    by (by vm_compute).
  rewrite forallb_forall in Hall. eapply bool_decide_eq_true_1, Hall, list_elem_of_In, elem_of_seqZ. lia.
Qed.

Lemma prefix_length_nonneg s n : prefix_length s = Some n -> 0 <= n.
Proof.
  unfold prefix_length. destruct (negb _ || _) eqn:Hd; [done|]. destruct (_ <=? _); [done|]. intros [= <-].
  apply orb_false_iff in Hd as [Hd%negb_false_iff _]. by apply digits_value_le.
Qed.

Definition address_bits (ip : list Z) : Z := if is_v4 ip then 32 else 128.

Lemma ParseCIDR_String ip n :
  is_address ip -> 0 <= n <= address_bits ip -> ParseCIDR (IP_String ip +:+ "/" +:+ Itoa n) = Ok (ip, n).
Proof.
  intros Hip Hn. assert (Hn' : 0 <= n <= 128) by (unfold address_bits in Hn; destruct (is_v4 ip); lia).
  unfold ParseCIDR. cbn [String.append]. rewrite Split_app, (Split_free (IP_String ip)) by (by apply IP_String_slash).
  rewrite (Split_free (Itoa n)) by (by apply Itoa_free). cbn [app Join].
  rewrite ParseAddr_String, prefix_length_Itoa by done.
  rewrite (proj2 (Z.ltb_ge _ n)); [done|]. unfold address_bits in Hn. destruct (is_v4 ip); lia.
Qed.

(** C37: Printing and reading addresses are inverse to each other. For every 16-byte address
    the printed form (dotted for mapped IPv4 addresses, colon-separated groups with the
    first longest run of zeros left out otherwise) is read back as the address, and
    [CidrRange] turns it, alone or with a prefix length that fits, into itself with 32, 128 or
    the given length. *)
Theorem cidr_range_roundtrip ip n :
  is_address ip -> 0 <= n <= address_bits ip ->
  ParseIP (IP_String ip) = Some ip /\
  CidrRange (IP_String ip) = Ok {| AddressPrefix := IP_String ip; PrefixLen := address_bits ip |} /\
  CidrRange (IP_String ip +:+ "/" +:+ Itoa n) = Ok {| AddressPrefix := IP_String ip; PrefixLen := n |}.
Proof.
  intros Hip Hn. assert (Hp : ParseIP (IP_String ip) = Some ip) by (unfold ParseIP; by rewrite ParseAddr_String).
  split_and!; [done|..]; unfold CidrRange.
  - rewrite IP_String_slash, Hp by done. unfold address_bits.
    destruct (address_cases ip Hip) as [(-> & a & b & c & d & Hb & _ & Hs)|(-> & gs & Hlen & Hgs & _ & Hs)]; rewrite Hs.
    + by rewrite string4_cons, ContainsChar_app; cbn; rewrite orb_true_r.
    + rewrite string6_free by done. by rewrite (proj2 (string6_kind gs Hlen Hgs)).
  - rewrite ContainsChar_app. replace (ContainsChar ("/" +:+ Itoa n) "/") with true by done. rewrite orb_true_r.
    rewrite ParseCIDR_String by done. rewrite u32_id; [done|]. unfold address_bits in Hn. destruct (is_v4 ip); lia.
Qed.

(** What [CidrRange] returns is a canonical address, that of its argument, and a length of at
    most 128. *)
Theorem cidr_range_sound v r :
  CidrRange v = Ok r ->
  exists ip, is_address ip /\ AddressPrefix r = IP_String ip /\ ParseIP (AddressPrefix r) = Some ip /\
    0 <= PrefixLen r <= 128.
Proof.
  assert (Hgo : forall ip is4 s n, ParseAddr s = Some (ip, is4) -> 0 <= n <= 128 ->
    r = {| AddressPrefix := IP_String ip; PrefixLen := n |} ->
    exists ip, is_address ip /\ AddressPrefix r = IP_String ip /\ ParseIP (AddressPrefix r) = Some ip /\
      0 <= PrefixLen r <= 128).
  { intros ip is4 s n Hp%ParseAddr_sound Hn ->. exists ip. unfold ParseIP. cbn [AddressPrefix PrefixLen].
    by rewrite ParseAddr_String. }
  unfold CidrRange. destruct (ContainsChar v "/").
  - unfold ParseCIDR. destruct (Split v "/") as [|addr [|mask masks]]; [done..|].
    destruct (ParseAddr addr) as [[ip is4]|] eqn:Ha; [|done].
    destruct (prefix_length _) as [n|] eqn:Hn; [|done].
    destruct (Z.ltb_spec (if is4 then 32 else 128) n); [done|]. intros [= <-].
    assert (0 <= n <= 128); [|apply (Hgo ip is4 addr (u32 n)); [done|rewrite u32_id; lia|done]].
    apply prefix_length_nonneg in Hn. destruct is4; lia.
  - unfold ParseIP. destruct (ParseAddr v) as [[ip is4]|] eqn:Ha; [|done]. cbn.
    destruct (ContainsChar v "."); [intros [= <-]; by apply (Hgo ip is4 v 32)|].
    destruct (ContainsChar v ":"); [intros [= <-]; by apply (Hgo ip is4 v 128)|done].
Qed.

Lemma cidr_range_roundtrip_witness :
  CidrRange "2001:db8::1:0:0:1/48" = Ok {| AddressPrefix := "2001:db8::1:0:0:1"; PrefixLen := 48 |}.
Proof.
  refine (proj2 (proj2 (cidr_range_roundtrip [32; 1; 13; 184; 0; 0; 0; 0; 0; 1; 0; 0; 0; 0; 0; 1] 48 _ _))).
  - split; [reflexivity|]. repeat constructor; unfold is_byte; lia.
  - vm_compute. split; discriminate.
Defined.

(** A mapped IPv4 address that is written without dots gives a dotted address with the
    prefix length of an IPv6 one. *)
Lemma cidr_range_mapped :
  CidrRange "::ffff:102:304" = Ok {| AddressPrefix := "1.2.3.4"; PrefixLen := 128 |}.
Proof. by vm_compute. Qed.
