(* ===== verification/Api.v ===== *)
(** * Data types of the APIs Aeraki reads and writes

    Records and variants for the protobuf messages and Kubernetes objects the Go
    sources manipulate: Istio networking resources, Aeraki's own CRDs, the Envoy
    route and filter messages.  They carry the fields the sources read or write.
    A pointer that the sources may find nil is an [option]; a [oneof] is an
    inductive type with one constructor per alternative and one for "unset";
    numbers of width [w] are [Z].  The wrapper structs of
    [src/internal/model/config.go] are at the end. *)

From S2P Require Import Prelude.

(** ** google.protobuf.Struct *)
Inductive PValue :=
| NumberValue (n : Z)
| StringValue (s : string)
| StructValue (fields : gmap string PValue)
| ListValue (values : list PValue).

Global Instance PValue_eq_dec : EqDecision PValue.
Proof.
  refine (fix go v1 v2 := let _ : EqDecision PValue := @go in
    match v1, v2 return Decision (v1 = v2) with
    | NumberValue a, NumberValue b => cast_if (decide (a = b))
    | StringValue a, StringValue b => cast_if (decide (a = b))
    | StructValue a, StructValue b => cast_if (decide (a = b))
    | ListValue a, ListValue b => cast_if (decide (a = b))
    | _, _ => right _
    end); try clear r; clear go; abstract congruence.
Defined.

Record Duration := { Seconds : Z; Nanos : Z }.

(** ** Istio networking *)
(** Istio's and Aeraki's [StringMatch] oneof. *)
Inductive StringMatch :=
| StringMatch_Exact (s : string)
| StringMatch_Prefix (s : string)
| StringMatch_Regex (s : string)
| StringMatch_Unset.

Record ServicePort := {
  sp_Number : Z; sp_Protocol : string; sp_Name : string; sp_TargetPort : Z }.

Record WorkloadSelector := { ws_Labels : option (gmap string string) }.

Inductive Resolution := NONE | STATIC | DNS | DNS_ROUND_ROBIN.

Record ServiceEntry := {
  se_Hosts : list string;
  se_Addresses : list string;
  se_Ports : list ServicePort;
  se_Resolution : Resolution;
  se_WorkloadSelector : option WorkloadSelector }.

Record PortSelector := { ps_Number : Z }.
Record Destination := { d_Host : string; d_Subset : string; d_Port : option PortSelector }.

Record HTTPMatchRequest := {
  hm_Method : option StringMatch; hm_Headers : gmap string StringMatch }.
Record HTTPRouteDestination := { hrd_Destination : option Destination; hrd_Weight : Z }.
Record HTTPRoute := { hr_Match : list HTTPMatchRequest; hr_Route : list HTTPRouteDestination }.

Record L4MatchAttributes := { l4_Port : Z }.
Record RouteDestination := { rd_Destination : Destination }.
Record TCPRoute := { tcp_Match : list L4MatchAttributes; tcp_Route : list RouteDestination }.

Record VirtualService := {
  vs_Hosts : list string; vs_Gateways : list string;
  vs_Http : list HTTPRoute; vs_Tcp : list TCPRoute }.

Record ConsistentHashLB := { ch_HttpHeaderName : string }.
Record LoadBalancerSettings := { lb_ConsistentHash : option ConsistentHashLB }.
Record TrafficPolicy := { tp_LoadBalancer : option LoadBalancerSettings }.
Record Subset := { sub_Name : string; sub_TrafficPolicy : option TrafficPolicy }.
Record DestinationRule := {
  dr_Host : string; dr_TrafficPolicy : option TrafficPolicy; dr_Subsets : list Subset }.

Record Port := { p_Number : Z; p_Protocol : string; p_Name : string }.
Record Server := { srv_Port : option Port; srv_Name : string }.
Record Gateway := { gw_Servers : list Server; gw_Selector : gmap string string }.

(** EnvoyFilter. *)
Inductive PatchOperation := INSERT_BEFORE | REPLACE | ADD | REMOVE.
Inductive ApplyTo := NETWORK_FILTER | CLUSTER.
Inductive ObjectTypes :=
| ListenerMatch (name : string) (filterChainDestinationPort : Z) (filterName : string)
| ClusterMatch (name : string).
Record EnvoyConfigObjectPatch := {
  cp_ApplyTo : ApplyTo;
  cp_Match : option ObjectTypes;
  cp_Operation : PatchOperation;
  cp_Value : option PValue }.
Record EnvoyFilter := {
  ef_WorkloadSelector : option WorkloadSelector;
  ef_ConfigPatches : list EnvoyConfigObjectPatch }.

Global Instance Resolution_eq_dec : EqDecision Resolution.
Proof. solve_decision. Defined.
Global Instance PatchOperation_eq_dec : EqDecision PatchOperation.
Proof. solve_decision. Defined.
Global Instance ApplyTo_eq_dec : EqDecision ApplyTo.
Proof. solve_decision. Defined.
Global Instance ObjectTypes_eq_dec : EqDecision ObjectTypes.
Proof. solve_decision. Defined.
Global Instance WorkloadSelector_eq_dec : EqDecision WorkloadSelector.
Proof. solve_decision. Defined.
Global Instance EnvoyConfigObjectPatch_eq_dec : EqDecision EnvoyConfigObjectPatch.
Proof. solve_decision. Defined.
Global Instance EnvoyFilter_eq_dec : EqDecision EnvoyFilter.
Proof. solve_decision. Defined.
Global Instance StringMatch_eq_dec : EqDecision StringMatch.
Proof. solve_decision. Defined.
Global Instance PortSelector_eq_dec : EqDecision PortSelector.
Proof. solve_decision. Defined.
Global Instance Destination_eq_dec : EqDecision Destination.
Proof. solve_decision. Defined.
Global Instance HTTPMatchRequest_eq_dec : EqDecision HTTPMatchRequest.
Proof. solve_decision. Defined.
Global Instance HTTPRouteDestination_eq_dec : EqDecision HTTPRouteDestination.
Proof. solve_decision. Defined.
Global Instance HTTPRoute_eq_dec : EqDecision HTTPRoute.
Proof. solve_decision. Defined.
Global Instance L4MatchAttributes_eq_dec : EqDecision L4MatchAttributes.
Proof. solve_decision. Defined.
Global Instance RouteDestination_eq_dec : EqDecision RouteDestination.
Proof. solve_decision. Defined.
Global Instance TCPRoute_eq_dec : EqDecision TCPRoute.
Proof. solve_decision. Defined.
Global Instance VirtualService_eq_dec : EqDecision VirtualService.
Proof. solve_decision. Defined.

(** ** Aeraki CRDs (metaprotocol/v1alpha1)

    Elements of repeated fields that the admission webhook tests against nil are
    options. *)
Record MetaRouteMatch := { mrm_Attributes : gmap string (option StringMatch) }.
Record MetaRouteDestination := { mrd_Destination : option Destination; mrd_Weight : Z }.
Record KeyValue := { kv_Key : string; kv_Value : string }.
Record MetaRoute := {
  mr_Name : string;
  mr_Match : option MetaRouteMatch;
  mr_Route : list (option MetaRouteDestination);
  mr_Mirror : option Destination;
  mr_MirrorPercentage : option float64;
  mr_RequestMutation : list KeyValue;
  mr_ResponseMutation : list KeyValue }.

Record TokenBucketCrd := {
  tb_MaxTokens : Z; tb_TokensPerFill : option Z; tb_FillInterval : option Duration }.
Record LocalRateLimit_Condition := {
  lc_TokenBucket : option TokenBucketCrd; lc_Match : option MetaRouteMatch }.
Record LocalRateLimit := {
  lrl_TokenBucket : option TokenBucketCrd; lrl_Conditions : list LocalRateLimit_Condition }.
Record GlobalRateLimit_Descriptor := { gd_Property : string; gd_DescriptorKey : string }.
Record GlobalRateLimit := {
  grl_Match : option MetaRouteMatch;
  grl_Domain : string;
  grl_RequestTimeout : option Duration;
  grl_DenyOnFail : bool;
  grl_RateLimitService : string;
  grl_Descriptors : list GlobalRateLimit_Descriptor }.
Record MetaRouterSpec := {
  mrs_Hosts : list string;
  mrs_Gateways : list string;
  mrs_Routes : list (option MetaRoute);
  mrs_LocalRateLimit : option LocalRateLimit;
  mrs_GlobalRateLimit : option GlobalRateLimit;
  mrs_ExportTo : list string }.
Record MetaRouter := { mtr_Name : string; mtr_Namespace : string; mtr_Spec : MetaRouterSpec }.
Record ApplicationProtocol := { ap_Protocol : string; ap_Codec : string }.

(** ** Envoy route messages *)
Inductive HeaderMatchSpecifier :=
| PresentMatch (b : bool)
| ExactMatch (s : string)
| PrefixMatch (s : string)
| SuffixMatch (s : string)
| SafeRegexMatch (re : string).
Record HeaderMatcher := { hdr_Name : string; hdr_Specifier : HeaderMatchSpecifier; hdr_InvertMatch : bool }.
Record ClusterWeight := { cw_Name : string; cw_Weight : Z }.
Record WeightedCluster := { wc_Clusters : list ClusterWeight; wc_TotalWeight : option Z }.
Inductive ClusterSpecifier :=
| Cluster (name : string)
| WeightedClusters (w : WeightedCluster)
| NoClusterSpecifier.
Inductive PercentDenominator := HUNDRED | TEN_THOUSAND | MILLION.
Record FractionalPercent := { fp_Numerator : Z; fp_Denominator : PercentDenominator }.

(** ** MetaProtocol route configuration (meta_protocol_proxy/config/route/v1alpha) *)
Record RequestMirrorPolicy := { rmp_Cluster : string; rmp_RuntimeFraction : option FractionalPercent }.
Record RouteAction := {
  ra_ClusterSpecifier : ClusterSpecifier;
  ra_HashPolicy : list string;
  ra_RequestMirrorPolicies : list RequestMirrorPolicy }.
(** [mroute_Match] is the metadata of the match, [None] for a nil match. *)
Record MetaRouteEntry := {
  mroute_Name : string;
  mroute_Match : option (list HeaderMatcher);
  mroute_Route : option RouteAction;
  mroute_RequestMutation : list KeyValue;
  mroute_ResponseMutation : list KeyValue }.
Record MetaRouteConfiguration := { mrc_Name : string; mrc_Routes : list MetaRouteEntry }.

(** ** HTTP route configuration (envoy.config.route.v3), used as carrier

    Its header matchers and weighted clusters are also the ones of the MetaProtocol
    configuration; its actions, policies and header values are messages of their own. *)
Inductive HashPolicySpecifier :=
| HashPolicy_Header (headerName : string)
| HashPolicy_Cookie (name : string)
| HashPolicy_QueryParameter (name : string).
Record HttpHashPolicy := { hhp_PolicySpecifier : HashPolicySpecifier; hhp_Terminal : bool }.
Record HttpRequestMirrorPolicy := { hmp_Cluster : string; hmp_RuntimeFraction : option FractionalPercent }.
Record HttpRouteAction := {
  hra_ClusterSpecifier : ClusterSpecifier;
  hra_HashPolicy : list HttpHashPolicy;
  hra_RequestMirrorPolicies : list HttpRequestMirrorPolicy }.
Record HeaderValue := { hv_Key : string; hv_Value : string }.
Record HeaderValueOption := { hvo_Header : option HeaderValue }.
Record HttpRouteMatch := { hrm_Prefix : string; hrm_Headers : list HeaderMatcher }.
Record HttpRouteEntry := {
  hre_Name : string;
  hre_Match : HttpRouteMatch;
  hre_Route : HttpRouteAction;
  hre_RequestHeadersToAdd : list HeaderValueOption;
  hre_ResponseHeadersToAdd : list HeaderValueOption }.
Record VirtualHost := { vh_Name : string; vh_Domains : list string; vh_Routes : list HttpRouteEntry }.
Record HttpRouteConfiguration := { hrc_Name : string; hrc_VirtualHosts : list VirtualHost }.

(** ** Istio's config store *)
(** [GvkOther] is any other kind, and the zero [GroupVersionKind]. *)
Inductive GVK :=
| GvkServiceEntry | GvkVirtualService | GvkDestinationRule | GvkEnvoyFilter | GvkGateway | GvkOther.
Global Instance GVK_eq_dec : EqDecision GVK.
Proof. solve_decision. Defined.

Record Meta := {
  m_GroupVersionKind : GVK;
  m_Name : string;
  m_Namespace : string;
  m_Labels : gmap string string;
  m_Annotations : gmap string string }.

(** The dynamic type and value of [Config.Spec]. *)
Inductive ConfigSpec :=
| SpecServiceEntry (se : ServiceEntry)
| SpecVirtualService (vs : VirtualService)
| SpecDestinationRule (dr : DestinationRule)
| SpecGateway (gw : Gateway)
| SpecOther
| SpecNil.
(** [config.Meta{}]. *)
Definition zeroMeta : Meta :=
  {| m_GroupVersionKind := GvkOther; m_Name := ""; m_Namespace := ""; m_Labels := ∅; m_Annotations := ∅ |}.

Record Config := { c_Meta : Meta; c_Spec : ConfigSpec }.

(** [istiomodel.ConfigStore], as far as the sources use it: [List(gvk, ns)], where
    the empty namespace selects all of them. *)
Record ConfigStore := { store_List : GVK -> string -> list Config }.

(** The type assertions [spec.( *networking.ServiceEntry)] and friends. *)
Definition asServiceEntry (s : ConfigSpec) : option ServiceEntry :=
  match s with SpecServiceEntry se => Some se | _ => None end.
Definition asVirtualService (s : ConfigSpec) : option VirtualService :=
  match s with SpecVirtualService vs => Some vs | _ => None end.
Definition asDestinationRule (s : ConfigSpec) : option DestinationRule :=
  match s with SpecDestinationRule dr => Some dr | _ => None end.
Definition asGateway (s : ConfigSpec) : option Gateway :=
  match s with SpecGateway gw => Some gw | _ => None end.

(** ** src/internal/model/config.go *)
Record ServiceEntryWrapper := { sew_Meta : Meta; sew_Spec : ServiceEntry }.
Record GatewayWrapper := { gww_Meta : Meta; gww_Spec : Gateway }.
Record VirtualServiceWrapper := { vsw_Meta : Meta; vsw_Spec : VirtualService }.
Record DestinationRuleWrapper := { drw_Meta : Meta; drw_Spec : option DestinationRule }.
Record EnvoyFilterWrapper := {
  efw_Name : string; efw_Namespace : string; efw_Envoyfilter : EnvoyFilter }.

(** The fields of Istio's [meshconfig.MeshConfig] the generators read; of its default
    proxy configuration, which may be nil, the sampling of its tracing, which may be nil. *)
Inductive AccessLogEncoding := TEXT | JSON | OtherEncoding.
Record MeshConfig := {
  mesh_AccessLogFile : string;
  mesh_AccessLogFormat : string;
  mesh_AccessLogEncoding : AccessLogEncoding;
  mesh_EnableTracing : bool;
  mesh_DefaultConfig : option (option float64) }.

Record EnvoyFilterContext := {
  ctx_MeshConfig : MeshConfig;
  ctx_Gateway : option GatewayWrapper;
  ctx_ServiceEntry : ServiceEntryWrapper;
  ctx_VirtualService : option VirtualServiceWrapper;
  ctx_MetaRouter : option MetaRouter }.
