(* ===== verification/ApiServer.v ===== *)
(** * Synchronising a set of generated objects with the Kubernetes API server

    The three loops (delete, update, create) that [pushEnvoyFilters2APIServer] and
    [generateListenerForGateway] of [src/internal/envoyfilter/controller.go] both run
    after listing the objects labelled with Aeraki's field manager.  The loops are
    written once, over the object's [Spec] type, the type [W] of the generated entries,
    the map key and the conversion of an entry to an API object.

    The API server is a parameter, the class [ApiServer]; [ApiServerLaws] is its
    documented behaviour when requests reach it: objects are addressed by namespace
    and name, a create needs the address to be free, an update needs the address to be
    taken and the current resource version.  [proto.Equal] is a parameter too. *)

From S2P Require Import Prelude Api.

Definition AerakiFieldManager : string := "Aeraki".

Record Object (Spec : Type) := {
  o_Name : string; o_Namespace : string; o_Labels : gmap string string;
  o_ResourceVersion : string; o_Spec : Spec }.
Arguments o_Name {Spec} _.
Arguments o_Namespace {Spec} _.
Arguments o_Labels {Spec} _.
Arguments o_ResourceVersion {Spec} _.
Arguments o_Spec {Spec} _.

Definition okey {Spec} (o : Object Spec) : string * string := (o_Namespace o, o_Name o).

(** A typed client: [List] over all namespaces with a label selector (its error is
    dropped by the callers, the items are then empty), [Delete], [Update], [Create]. *)
Class ApiServer (St Spec : Type) := {
  api_List : St -> string -> list (Object Spec);
  api_Delete : St -> string -> string -> option error * St;
  api_Update : St -> Object Spec -> option error * St;
  api_Create : St -> Object Spec -> option error * St }.

Class ProtoEqual (Spec : Type) := proto_Equal : Spec -> Spec -> bool.

(** What a write stored: all but the resource version, which the server assigns. *)
Definition same_object {Spec} (o o' : Object Spec) : Prop :=
  okey o' = okey o /\ o_Labels o' = o_Labels o /\ o_Spec o' = o_Spec o.

Definition managed {Spec} (o : Object Spec) : Prop :=
  o_Labels o !! "manager" = Some AerakiFieldManager.
Global Instance managed_dec {Spec} (o : Object Spec) : Decision (managed o).
Proof. unfold managed. apply _. Defined.

Class ApiServerLaws (St Spec : Type) `{ApiServer St Spec} := {
  api_get : St -> string * string -> option (Object Spec);
  api_get_key : forall s k o, api_get s k = Some o -> k = okey o;
  api_List_spec : forall s o,
    o ∈ api_List s ("manager=" +:+ AerakiFieldManager) <-> api_get s (okey o) = Some o /\ managed o;
  api_List_NoDup : forall s l, NoDup (okey <$> api_List s l);
  api_Delete_spec : forall s ns name o, api_get s (ns, name) = Some o ->
    exists s', api_Delete s ns name = (None, s') /\
      forall k, api_get s' k = if decide (k = (ns, name)) then None else api_get s k;
  api_Update_spec : forall s o old, api_get s (okey o) = Some old ->
    o_ResourceVersion o = o_ResourceVersion old ->
    exists s' o', api_Update s o = (None, s') /\ same_object o o' /\
      forall k, api_get s' k = if decide (k = okey o) then Some o' else api_get s k;
  api_Update_unversioned : forall s o, o_ResourceVersion o = "" ->
    exists e, api_Update s o = (Some e, s);
  api_Create_spec : forall s o, api_get s (okey o) = None ->
    exists s' o', api_Create s o = (None, s') /\ same_object o o' /\
      forall k, api_get s' k = if decide (k = okey o) then Some o' else api_get s k;
  api_Create_taken : forall s o old, api_get s (okey o) = Some old ->
    exists e, api_Create s o = (Some e, s) }.

Class ProtoEqualLaws (Spec : Type) `{ProtoEqual Spec} :=
  proto_Equal_spec : forall a b, proto_Equal a b = true <-> a = b.

(** ** The three loops *)
Section sync.
Context {St Spec W : Type} `{ApiServer St Spec, ProtoEqual Spec, MapRange}.
Variable mapKey : string -> string -> string.
Variable w_spec : W -> Spec.
Variable toCRD : W -> option (Object Spec) -> Object Spec.

(** [err = ...Delete(...)] for an object that is no longer generated. *)
Definition delete_stale (generated : gmap string W) (acc : option error * St) (old : Object Spec)
    : option error * St :=
  match generated !! mapKey (o_Name old) (o_Namespace old) with
  | Some _ => acc
  | None => api_Delete (snd acc) (o_Namespace old) (o_Name old)
  end.

(** An existing object that is generated again leaves the map, and is updated when its
    spec changed. *)
Definition update_changed (acc : gmap string W * (option error * St)) (old : Object Spec)
    : gmap string W * (option error * St) :=
  let '(generated, es) := acc in
  let key := mapKey (o_Name old) (o_Namespace old) in
  match generated !! key with
  | Some new =>
      (delete key generated,
       if negb (proto_Equal (w_spec new) (o_Spec old))
       then api_Update (snd es) (toCRD new (Some old)) else es)
  | None => acc
  end.

Definition create_new (acc : option error * St) (entry : string * W) : option error * St :=
  api_Create (snd acc) (toCRD (snd entry) None).

Definition sync_items (items : list (Object Spec)) (generated : gmap string W) (err : option error) (s : St)
    : option error * St :=
  let es := foldl (delete_stale generated) (err, s) items in
  let '(generated', es) := foldl update_changed (generated, es) items in
  foldl create_new es (range generated').

Definition sync (generated : gmap string W) (err : option error) (s : St) : option error * St :=
  sync_items (api_List s ("manager=" +:+ AerakiFieldManager)) generated err s.
End sync.

(** ** What the loops achieve *)
Section sync_correct.
Context {St Spec W : Type} `{ApiServerLaws St Spec, ProtoEqualLaws Spec, MapRange}.
Variable mapKey : string -> string -> string.
Variable w_spec : W -> Spec.
Variable toCRD : W -> option (Object Spec) -> Object Spec.

Abbreviation mk o := (mapKey (o_Name o) (o_Namespace o)).
Abbreviation wkey w := (okey (toCRD w None)).

Hypothesis toCRD_managed : forall w old, managed (toCRD w old).
Hypothesis toCRD_spec : forall w old, o_Spec (toCRD w old) = w_spec w.
Hypothesis toCRD_key : forall w old, okey (toCRD w old) = wkey w.

(** What an entry leaves at its address. *)
Definition holds (s : St) (w : W) : Prop :=
  exists o, api_get s (wkey w) = Some o /\ managed o /\ o_Spec o = w_spec w.

Lemma stored_holds (o' : Object Spec) w old :
  same_object (toCRD w old) o' -> managed o' /\ o_Spec o' = w_spec w.
Proof.
  intros (_ & Hl & Hs). split; [|by rewrite Hs].
  unfold managed. rewrite Hl. apply toCRD_managed.
Qed.

Lemma delete_loop (g : gmap string W) (items : list (Object Spec)) err s :
  NoDup (okey <$> items) -> (forall o, o ∈ items -> exists o', api_get s (okey o) = Some o') ->
  exists err' s', foldl (delete_stale mapKey g) (err, s) items = (err', s') /\
    (err = None -> err' = None) /\
    (forall o, o ∈ items -> g !! mk o = None -> api_get s' (okey o) = None) /\
    (forall k, (forall o, o ∈ items -> okey o = k -> g !! mk o <> None) -> api_get s' k = api_get s k).
Proof.
  revert err s. induction items as [|o items IH]; intros err s Hnd Hin; cbn [foldl].
  { exists err, s. split_and!; [done|done| |done]. intros o Ho. by apply elem_of_nil in Ho. }
  inversion_clear Hnd as [|?? Hno Hnd']. unfold delete_stale at 2. destruct (g !! mk o) as [w|] eqn:Eg.
  - destruct (IH err s Hnd') as (err' & s' & Hf & He & Hd & Hk); [intros; apply Hin; by right|].
    exists err', s'. split_and!; [done..| |].
    + intros o' [->|Ho']%elem_of_cons; [congruence|by apply Hd].
    + intros k Hk'. apply Hk. intros o' Ho'. apply Hk'. by right.
  - destruct (Hin o) as [oo Hoo]; [by left|]. cbn [snd].
    destruct (api_Delete_spec s (o_Namespace o) (o_Name o) oo Hoo) as (s1 & -> & Hs1).
    change (o_Namespace o, o_Name o) with (okey o) in Hs1.
    destruct (IH None s1 Hnd') as (err' & s' & Hf & He & Hd & Hk).
    { intros o' Ho'. rewrite Hs1, decide_False; [apply Hin; by right|].
      intros Heq. apply Hno. rewrite <- Heq. by apply list_elem_of_fmap_2. }
    exists err', s'. split_and!; [done|auto| |].
    + intros o' [->|Ho']%elem_of_cons Hg; [|by apply Hd].
      rewrite Hk, Hs1, decide_True; [done..|]. intros o2 Ho2 Heq. destruct Hno.
      rewrite <- Heq. by apply list_elem_of_fmap_2.
    + intros k Hk'. rewrite Hk, Hs1.
      * rewrite decide_False; [done|]. intros ->. by apply (Hk' o); [left|..].
      * intros o' Ho'. apply Hk'. by right.
Qed.

Hypothesis toCRD_version : forall w old,
  o_ResourceVersion (toCRD w (Some old)) = o_ResourceVersion old.

(** One iteration of the update loop, for an object that is generated again. *)
Lemma update_one (w : W) (o : Object Spec) err s :
  api_get s (okey o) = Some o -> managed o -> wkey w = okey o ->
  exists err' s', (if negb (proto_Equal (w_spec w) (o_Spec o))
                   then api_Update s (toCRD w (Some o)) else (err, s)) = (err', s') /\
    (err = None -> err' = None) /\ holds s' w /\
    (forall k, k <> okey o -> api_get s' k = api_get s k).
Proof.
  intros Hs Hm Hk. destruct (proto_Equal (w_spec w) (o_Spec o)) eqn:E; cbn [negb].
  - apply proto_Equal_spec in E. exists err, s. split_and!; [done..| |done].
    exists o. by rewrite Hk.
  - destruct (api_Update_spec s (toCRD w (Some o)) o) as (s' & o' & -> & Hsame & Hs').
    { by rewrite toCRD_key, Hk. }
    { apply toCRD_version. }
    rewrite toCRD_key, Hk in Hs'. exists None, s'. split_and!; [done..| |].
    + exists o'. rewrite Hk, Hs', decide_True by done. split; [done|]. by eapply stored_holds.
    + intros k Hne. by rewrite Hs', decide_False.
Qed.

Lemma update_loop (items : list (Object Spec)) (g : gmap string W) err s :
  NoDup (okey <$> items) ->
  (forall o, o ∈ items -> g !! mk o <> None -> api_get s (okey o) = Some o /\ managed o) ->
  (forall o w, o ∈ items -> g !! mk o = Some w -> wkey w = okey o) ->
  exists g' err' s', foldl (update_changed mapKey w_spec toCRD) (g, (err, s)) items = (g', (err', s')) /\
    (err = None -> err' = None) /\
    (forall k, g' !! k = if decide (k ∈ (fun o => mk o) <$> items) then None else g !! k) /\
    (forall o w, o ∈ items -> g !! mk o = Some w -> holds s' w) /\
    (forall k, (forall o, o ∈ items -> okey o = k -> g !! mk o = None) -> api_get s' k = api_get s k).
Proof.
  revert g err s. induction items as [|o items IH]; intros g err s Hnd Hin Hinj; cbn [foldl].
  { exists g, err, s. split_and!; [done|done|done| |done]. intros o w Ho. by apply elem_of_nil in Ho. }
  inversion_clear Hnd as [|?? Hno Hnd']. destruct (g !! mk o) as [w|] eqn:Eg.
  - destruct (Hin o) as [Hs Hm]; [by left|congruence|].
    assert (wkey w = okey o) as Hwk by (by apply Hinj; [left|]).
    destruct (update_one w o err s Hs Hm Hwk) as (err1 & s1 & Hu & He1 & Hh1 & Hk1).
    assert (update_changed mapKey w_spec toCRD (g, (err, s)) o = (delete (mk o) g, (err1, s1))) as ->
      by (unfold update_changed; rewrite Eg; cbn [snd]; by rewrite Hu).
    assert (Hne : forall o2, o2 ∈ items -> okey o2 <> okey o).
    { intros o2 Ho2 Heq. apply Hno. rewrite <- Heq. by apply list_elem_of_fmap_2. }
    assert (Hg1 : forall o2, o2 ∈ items -> delete (mk o) g !! mk o2 = g !! mk o2).
    { intros o2 Ho2. destruct (decide (mk o = mk o2)) as [Heq|Hmk]; [|by rewrite lookup_delete_ne].
      exfalso. apply (Hne o2 Ho2). rewrite <- Hwk. symmetry. apply Hinj; [by right|]. by rewrite <- Heq. }
    destruct (IH (delete (mk o) g) err1 s1 Hnd') as (g' & err' & s' & Hf & He & Hg' & Hh & Hk).
    { intros o2 Ho2. rewrite Hg1, Hk1 by auto. apply Hin. by right. }
    { intros o2 w2 Ho2. rewrite Hg1 by done. apply Hinj. by right. }
    exists g', err', s'. split_and!; [done|auto|..].
    + intros k. rewrite Hg', fmap_cons, lookup_delete. apply decide_elem_of_cons.
    + intros o2 w2 [->|Ho2]%elem_of_cons Hg2.
      * rewrite Eg in Hg2. injection Hg2 as <-. destruct Hh1 as (x & Hx & ?). exists x.
        rewrite Hk; [done|]. intros o3 Ho3 Heq. by destruct (Hne o3 Ho3); rewrite Heq, Hwk.
      * apply (Hh o2); [done|]. by rewrite Hg1.
    + intros k Hk'. rewrite Hk.
      * apply Hk1. intros ->. rewrite (Hk' o) in Eg; [done|by left|done].
      * intros o2 Ho2 Heq. rewrite Hg1 by done. apply Hk'; [by right|done].
  - assert (update_changed mapKey w_spec toCRD (g, (err, s)) o = (g, (err, s))) as ->
      by (unfold update_changed; by rewrite Eg).
    destruct (IH g err s Hnd') as (g' & err' & s' & Hf & He & Hg' & Hh & Hk).
    { intros o2 Ho2. apply Hin. by right. }
    { intros o2 w2 Ho2. apply Hinj. by right. }
    exists g', err', s'. split_and!; [done|done|..].
    + intros k. rewrite Hg', fmap_cons. rewrite <- decide_elem_of_cons. case_decide; [done|].
      case_decide as Hd; [|done]. by rewrite <- Hd.
    + intros o2 w2 [->|Ho2]%elem_of_cons Hg2; [congruence|by apply (Hh o2)].
    + intros k Hk'. apply Hk. intros o2 Ho2. apply Hk'. by right.
Qed.

(** The create loop, on entries with distinct and free addresses. *)
Lemma create_loop (l : list (string * W)) (err : option error) (s : St) :
  NoDup ((fun e => wkey (snd e)) <$> l) -> (forall e, e ∈ l -> api_get s (wkey (snd e)) = None) ->
  exists (err' : option error) (s' : St), foldl (create_new toCRD) (err, s) l = (err', s') /\
    (err = None -> err' = None) /\
    (forall e, e ∈ l -> holds s' (snd e)) /\
    (forall k, k ∉ (fun e => wkey (snd e)) <$> l -> api_get s' k = api_get s k).
Proof.
  revert err s. induction l as [|e l IH]; intros err s Hnd Hfree; cbn [foldl].
  { exists err, s. split_and!; [done|done| |done]. intros e Ho. by apply elem_of_nil in Ho. }
  rewrite fmap_cons in Hnd. inversion_clear Hnd as [|?? Hno Hnd'].
  destruct (api_Create_spec s (toCRD (snd e) None)) as (s1 & o1 & Hc & Hsame & Hs1); [apply Hfree; by left|].
  unfold create_new at 2. cbn [snd]. rewrite Hc.
  assert (Hne : forall e2, e2 ∈ l -> wkey (snd e2) <> wkey (snd e)).
  { intros e2 He2 Heq. apply Hno. rewrite <- Heq. by apply (list_elem_of_fmap_2 (fun e => wkey (snd e))). }
  destruct (IH None s1 Hnd') as (err' & s' & Hf & He & Hh & Hk).
  { intros e2 He2. rewrite Hs1, decide_False by auto. apply Hfree. by right. }
  exists err', s'. split_and!; [done|auto|..].
  - intros e2 [->|He2]%elem_of_cons; [|by apply Hh]. exists o1.
    rewrite Hk, Hs1, decide_True by done. split; [done|]. by eapply stored_holds.
  - intros k Hk'. rewrite fmap_cons, not_elem_of_cons in Hk'. destruct Hk' as [Hk1 Hk2].
    by rewrite Hk, Hs1, decide_False.
Qed.

(** What the callers must ensure of the generated map: its keys are computed from the
    entries; an existing managed object whose key is generated has that entry's address;
    no address of an entry is held by an object that Aeraki does not manage. *)
Record syncable (g : gmap string W) (s : St) : Prop := {
  sync_keyed : forall k w, g !! k = Some w -> k = mk (toCRD w None);
  sync_inj : forall o w, api_get s (okey o) = Some o -> managed o ->
    g !! mk o = Some w -> wkey w = okey o;
  sync_free : forall k w o, g !! k = Some w -> api_get s (wkey w) = Some o -> managed o }.

(** The specification: the managed objects are the generated entries. *)
Definition in_sync (g : gmap string W) (s : St) : Prop :=
  forall a sp, (exists o, api_get s a = Some o /\ managed o /\ o_Spec o = sp) <->
               (exists k w, g !! k = Some w /\ wkey w = a /\ w_spec w = sp).

Lemma keyed_wkey_inj g s k1 w1 k2 w2 :
  syncable g s -> g !! k1 = Some w1 -> g !! k2 = Some w2 -> wkey w1 = wkey w2 -> k1 = k2 /\ w1 = w2.
Proof.
  intros Hs H1' H2' [= Hns Hn]. pose proof (sync_keyed _ _ Hs _ _ H1') as ->.
  pose proof (sync_keyed _ _ Hs _ _ H2') as ->. rewrite Hns, Hn in *. split; [done|]. congruence.
Qed.

Lemma NoDup_range_wkey g s (g' : gmap string W) :
  syncable g s -> (forall k w, g' !! k = Some w -> g !! k = Some w) ->
  NoDup ((fun e => wkey (snd e)) <$> range g').
Proof.
  intros Hs Hsub. apply NoDup_fmap_2_strong.
  - intros [k1 w1] [k2 w2] He1 He2 Heq. apply range_elem in He1, He2.
    destruct (keyed_wkey_inj g s k1 w1 k2 w2) as [-> ->]; auto.
  - rewrite range_perm. apply NoDup_map_to_list.
Qed.

(** The state the loops leave, address by address. *)
Lemma sync_state (g : gmap string W) (s : St) :
  syncable g s ->
  exists s', sync mapKey w_spec toCRD g None s = (None, s') /\
    (forall k w, g !! k = Some w -> holds s' w) /\
    (forall a, (forall k w, g !! k = Some w -> wkey w <> a) ->
       api_get s' a = match api_get s a with
                      | Some o => if decide (managed o) then None else Some o
                      | None => None
                      end).
Proof.
  intros Hs. unfold sync, sync_items. set (items := api_List s _).
  assert (Hitems : forall o, o ∈ items <-> api_get s (okey o) = Some o /\ managed o)
    by (intros o; apply api_List_spec).
  assert (Hnd : NoDup (okey <$> items)) by apply api_List_NoDup. clearbody items.
  destruct (delete_loop g items None s Hnd) as (e1 & s1 & -> & He1 & Hd1 & Hk1); [naive_solver|].
  specialize (He1 eq_refl) as ->.
  destruct (update_loop items g None s1 Hnd) as (g2 & e2 & s2 & -> & He2 & Hg2 & Hh2 & Hk2).
  { intros o Ho Hg. rewrite Hk1; [by apply Hitems|]. intros o' Ho' Heq.
    by rewrite (NoDup_fmap_elem_inj okey _ _ _ Hnd Ho' Ho Heq). }
  { intros o w Ho. apply (sync_inj _ _ Hs); by apply Hitems. }
  specialize (He2 eq_refl) as ->.
  assert (Hsub : forall k w, g2 !! k = Some w -> g !! k = Some w /\ k ∉ (fun o => mk o) <$> items)
    by (intros k w; rewrite Hg2; by case_decide).
  assert (Hfresh : forall k w, g2 !! k = Some w -> forall o, o ∈ items -> okey o <> wkey w).
  { intros k w [Hg Hk]%Hsub o Ho [= Hns Hn]. apply Hk. rewrite (sync_keyed _ _ Hs k w Hg), <- Hns, <- Hn.
    by apply (list_elem_of_fmap_2 (fun o => mk o)). }
  destruct (create_loop (range g2) None s2) as (e3 & s3 & -> & He3 & Hh3 & Hk3).
  { apply (NoDup_range_wkey g s); naive_solver. }
  { intros [k w] He. apply range_elem in He. cbn [snd].
    rewrite Hk2, Hk1 by (intros o Ho Heq; by destruct (Hfresh k w He o Ho)).
    destruct (api_get s (wkey w)) as [o|] eqn:Eo; [|done]. pose proof (api_get_key _ _ _ Eo) as Hko.
    destruct (Hfresh k w He o); [|done]. apply Hitems. rewrite <- Hko. split; [done|].
    apply (sync_free _ _ Hs k w); [by apply Hsub|done]. }
  specialize (He3 eq_refl) as ->. exists s3. split; [done|]. split.
  - intros k w Hg. destruct (decide (k ∈ (fun o => mk o) <$> items)) as [Hk|Hk].
    + pose proof Hk as (o & -> & Ho)%list_elem_of_fmap. destruct (Hh2 o w Ho Hg) as (x & Hx & Hm).
      exists x. rewrite Hk3; [done|]. intros ([k2 w2] & Heq & [Hg2' Hk2']%range_elem%Hsub)%list_elem_of_fmap.
      by destruct (keyed_wkey_inj g s _ _ _ _ Hs Hg Hg2' Heq) as [<- _].
    + apply (Hh3 (k, w)), range_elem. by rewrite Hg2, decide_False.
  - intros a Ha.
    assert (Hstale : forall o, o ∈ items -> okey o = a -> g !! mk o = None).
    { intros o Ho <-. destruct (g !! mk o) as [w|] eqn:Ew; [|done]. destruct (Ha _ _ Ew).
      apply (sync_inj _ _ Hs o w); [by apply Hitems..|done]. }
    rewrite Hk3, Hk2; [|done|].
    + destruct (api_get s a) as [o|] eqn:Eo; [case_decide as Hm|].
      * pose proof (api_get_key _ _ _ Eo) as ->. apply Hd1; [by apply Hitems|].
        apply Hstale; [by apply Hitems|done].
      * rewrite Hk1; [done|]. intros o' [Ho' Hm']%Hitems <-. congruence.
      * rewrite Hk1; [done|]. intros o' [Ho' Hm']%Hitems <-. congruence.
    + intros ([k2 w2] & -> & [Hg2' _]%range_elem%Hsub)%list_elem_of_fmap. by destruct (Ha _ _ Hg2').
Qed.

(** The loops report no error and bring the server in sync; objects that Aeraki does not
    manage are untouched. *)
Lemma sync_correct (g : gmap string W) (s : St) :
  syncable g s ->
  exists s', sync mapKey w_spec toCRD g None s = (None, s') /\ in_sync g s' /\
    (forall a o, ~ managed o -> api_get s' a = Some o <-> api_get s a = Some o).
Proof.
  intros Hs. destruct (sync_state g s Hs) as (s' & Hsync & Hgen & Hother). exists s'.
  assert (Hcase : forall a, (exists k w, g !! k = Some w /\ wkey w = a) \/
                            (forall k w, g !! k = Some w -> wkey w <> a)).
  { intros a. destruct (decide (Exists (fun e => wkey e.2 = a) (map_to_list g))) as [He|He].
    - apply Exists_exists in He as ([k w] & Hin%elem_of_map_to_list & <-). left. by exists k, w.
    - right. intros k w Hg Heq. apply He, Exists_exists. exists (k, w).
      split; [by apply elem_of_map_to_list|done]. }
  split; [done|]. split.
  - intros a sp. split.
    + intros (o & Ho & Hm & <-). destruct (Hcase a) as [(k & w & Hg & <-)|Ha].
      * exists k, w. destruct (Hgen k w Hg) as (o' & Ho' & _ & Hsp). naive_solver congruence.
      * rewrite Hother in Ho by done. destruct (api_get s a); [|done]. by case_decide; simplify_eq.
    + intros (k & w & Hg & <- & <-). by apply (Hgen k w).
  - intros a o Hm. destruct (Hcase a) as [(k & w & Hg & <-)|Ha].
    + destruct (Hgen k w Hg) as (o' & Ho' & Hm' & _). split; intros Ho; [congruence|].
      by destruct Hm; apply (sync_free _ _ Hs k w).
    + rewrite Hother by done. destruct (api_get s a) as [o'|]; [|done]. case_decide; naive_solver.
Qed.
End sync_correct.

(** ** Entries without a resource version

    When the object built for an existing one carries no resource version, the update is
    refused: an existing object keeps its old spec. *)
Section sync_unversioned.
Context {St Spec W : Type} `{ApiServerLaws St Spec, ProtoEqual Spec, MapRange}.
Variable mapKey : string -> string -> string.
Variable w_spec : W -> Spec.
Variable toCRD : W -> option (Object Spec) -> Object Spec.

Definition unversioned (g : gmap string W) : Prop :=
  forall k w old, g !! k = Some w -> o_ResourceVersion (toCRD w old) = "".

Lemma update_loop_unversioned (items : list (Object Spec)) (g : gmap string W) err s :
  unversioned g -> exists g' err', foldl (update_changed mapKey w_spec toCRD) (g, (err, s)) items = (g', (err', s)) /\
    (forall k w, g' !! k = Some w -> g !! k = Some w) /\
    (forall o, o ∈ items -> g' !! mapKey (o_Name o) (o_Namespace o) = None).
Proof.
  revert g err. induction items as [|o items IH]; intros g err Hv; cbn [foldl].
  { exists g, err. split_and!; [done..|]. intros o Ho. by apply elem_of_nil in Ho. }
  set (key := mapKey (o_Name o) (o_Namespace o)). destruct (g !! key) as [w|] eqn:Eg.
  - assert (exists err1, update_changed mapKey w_spec toCRD (g, (err, s)) o = (delete key g, (err1, s)))
      as [err1 ->].
    { unfold update_changed. fold key. rewrite Eg. cbn [snd].
      destruct (api_Update_unversioned s (toCRD w (Some o)) (Hv _ _ _ Eg)) as [e He].
      destruct (proto_Equal _ _); cbn [negb]; [by exists err|exists (Some e); by rewrite He]. }
    destruct (IH (delete key g) err1) as (g' & err' & Hf & Hsub & Hout);
      [intros k' w' old [_ Hk']%lookup_delete_Some; by apply (Hv k')|]. exists g', err'.
    split_and!; [done|..].
    + intros k w' Hk. apply Hsub, lookup_delete_Some in Hk. tauto.
    + intros o' [->|Ho']%elem_of_cons; [|by apply Hout]. fold key.
      destruct (g' !! key) eqn:E; [|done]. apply Hsub in E. by rewrite lookup_delete_eq in E.
  - assert (update_changed mapKey w_spec toCRD (g, (err, s)) o = (g, (err, s))) as ->
      by (unfold update_changed; fold key; by rewrite Eg).
    destruct (IH g err Hv) as (g' & err' & Hf & Hsub & Hout). exists g', err'. split_and!; [done|done|].
    intros o' [->|Ho']%elem_of_cons; [|by apply Hout]. fold key.
    destruct (g' !! key) eqn:E; [|done]. apply Hsub in E. congruence.
Qed.

Lemma create_loop_frame (l : list (string * W)) (err : option error) (s : St) :
  exists (err' : option error) (s' : St), foldl (create_new toCRD) (err, s) l = (err', s') /\
    forall k, k ∉ (fun e => okey (toCRD (snd e) None)) <$> l -> api_get s' k = api_get s k.
Proof.
  revert err s. induction l as [|e l IH]; intros err s; cbn [foldl]; [by exists err, s|].
  unfold create_new at 2. cbn [snd]. set (o := toCRD (snd e) None).
  destruct (api_get s (okey o)) as [old|] eqn:Eo.
  - destruct (api_Create_taken s o old Eo) as [er ->].
    destruct (IH (Some er) s) as (err' & s' & Hf & Hk). exists err', s'. split; [done|].
    intros k Hk'. apply Hk. rewrite fmap_cons, not_elem_of_cons in Hk'. tauto.
  - destruct (api_Create_spec s o Eo) as (s1 & o1 & -> & _ & Hs1).
    destruct (IH None s1) as (err' & s' & Hf & Hk). exists err', s'. split; [done|].
    intros k Hk'. rewrite fmap_cons, not_elem_of_cons in Hk'. rewrite Hk by tauto.
    rewrite Hs1, decide_False by tauto. done.
Qed.

Lemma sync_unversioned (g : gmap string W) (s : St) o w :
  unversioned g ->
  (forall k w, g !! k = Some w -> k = mapKey (o_Name (toCRD w None)) (o_Namespace (toCRD w None))) ->
  api_get s (okey o) = Some o -> managed o ->
  g !! mapKey (o_Name o) (o_Namespace o) = Some w ->
  api_get (snd (sync mapKey w_spec toCRD g None s)) (okey o) = Some o.
Proof.
  intros Hv Hkeyed Ho Hm Hg. unfold sync, sync_items. set (items := api_List s _).
  assert (Hin : o ∈ items) by (by apply api_List_spec).
  assert (Hnd : NoDup (okey <$> items)) by apply api_List_NoDup.
  assert (Hall : forall o', o' ∈ items -> exists o'', api_get s (okey o') = Some o'').
  { intros o' Ho'. exists o'. by apply api_List_spec. }
  clearbody items.
  destruct (delete_loop mapKey g items None s Hnd Hall) as (e1 & s1 & -> & _ & _ & Hk1).
  destruct (update_loop_unversioned items g e1 s1 Hv) as (g2 & e2 & -> & Hsub & Hout).
  destruct (create_loop_frame (range g2) e2 s1) as (e3 & s3 & -> & Hk3). cbn [snd].
  rewrite Hk3, Hk1; [done|..].
  - intros o' Ho' Heq. rewrite (NoDup_fmap_elem_inj okey _ _ _ Hnd Ho' Hin Heq). congruence.
  - intros ([k2 w2] & Heq & Hr%range_elem)%list_elem_of_fmap.
    specialize (Hout o Hin). unfold okey in Heq. injection Heq as Hns Hn. cbn [snd] in *.
    rewrite Hns, Hn, <- (Hkeyed k2 w2) in Hout by auto. congruence.
Qed.
End sync_unversioned.

(** ** A list that fails

    The code drops the error of the list; the client then returns an empty list. *)
Section sync_blind.
Context {St Spec W : Type} `{ApiServerLaws St Spec, ProtoEqual Spec, MapRange}.
Variable mapKey : string -> string -> string.
Variable w_spec : W -> Spec.
Variable toCRD : W -> option (Object Spec) -> Object Spec.

Lemma create_keeps l es k o :
  api_get (snd es) k = Some o -> api_get (snd (foldl (create_new toCRD) es l)) k = Some o.
Proof.
  revert es. induction l as [|e l IH]; intros es Hk; [done|]. cbn [foldl]. apply IH. unfold create_new.
  destruct (api_get (snd es) (okey (toCRD (snd e) None))) as [old|] eqn:Hold.
  - by destruct (api_Create_taken _ _ _ Hold) as (err & ->).
  - destruct (api_Create_spec _ _ Hold) as (s' & o' & -> & _ & Hs'). cbn [snd]. rewrite Hs', decide_False; [done|].
    intros ->. congruence.
Qed.

(** A push after a failed list deletes and changes nothing: every object of the server is
    still there as it was. *)
Theorem failed_list_changes_nothing (g : gmap string W) err s k o :
  api_get s k = Some o -> api_get (snd (sync_items mapKey w_spec toCRD [] g err s)) k = Some o.
Proof. intros Hk. unfold sync_items. cbn [foldl]. by apply create_keeps. Qed.
End sync_blind.

(** ** A concrete API server

    Objects in a finite map, resource versions from a counter.  It shows that the laws
    can hold, and the witnesses run on it. *)
Section mem_server.
Context {Spec : Type}.

Record MemServer := { mem_objects : gmap (string * string) (Object Spec); mem_version : Z }.

Definition mem_valid (e : (string * string) * Object Spec) : Prop :=
  fst e = okey (snd e) /\ o_ResourceVersion (snd e) <> "".
Local Instance mem_valid_dec e : Decision (mem_valid e).
Proof. unfold mem_valid. apply _. Defined.

Definition mem_get (s : MemServer) (k : string * string) : option (Object Spec) :=
  match mem_objects s !! k with
  | Some o => if decide (mem_valid (k, o)) then Some o else None
  | None => None
  end.

Definition with_version (o : Object Spec) (v : string) : Object Spec :=
  {| o_Name := o_Name o; o_Namespace := o_Namespace o; o_Labels := o_Labels o;
     o_ResourceVersion := v; o_Spec := o_Spec o |}.

Definition mem_store (s : MemServer) (o : Object Spec) : MemServer :=
  {| mem_objects := <[okey o := with_version o (Itoa (mem_version s))]> (mem_objects s);
     mem_version := mem_version s + 1 |}.

Definition mem_server : ApiServer MemServer Spec :=
  {| api_List := fun s sel =>
       snd <$> filter (fun e => mem_valid e /\ "manager=" +:+ lookup_str (o_Labels (snd e)) "manager" = sel)
                 (map_to_list (mem_objects s));
     api_Delete := fun s ns name =>
       match mem_get s (ns, name) with
       | None => (Some "not found", s)
       | Some _ => (None, {| mem_objects := delete (ns, name) (mem_objects s);
                             mem_version := mem_version s |})
       end;
     api_Update := fun s o =>
       match mem_get s (okey o) with
       | None => (Some "not found", s)
       | Some old => if String.eqb (o_ResourceVersion o) (o_ResourceVersion old)
                     then (None, mem_store s o) else (Some "conflict", s)
       end;
     api_Create := fun s o =>
       match mem_get s (okey o) with
       | None => (None, mem_store s o)
       | Some _ => (Some "already exists", s)
       end |}.

Lemma mem_get_valid s k o : mem_get s k = Some o -> mem_valid (k, o) /\ mem_objects s !! k = Some o.
Proof. unfold mem_get. case_match; [|done]. case_decide; [|done]. by intros [= <-]. Qed.

Lemma mem_get_store s o k :
  mem_get (mem_store s o) k =
  if decide (k = okey o) then Some (with_version o (Itoa (mem_version s))) else mem_get s k.
Proof.
  unfold mem_get, mem_store; cbn [mem_objects]. destruct (decide (k = okey o)) as [->|Hk].
  - rewrite lookup_insert_eq, decide_True; [done|]. split; [done|apply Itoa_nonempty].
  - by rewrite lookup_insert_ne.
Qed.

Lemma mem_server_laws : @ApiServerLaws MemServer Spec mem_server.
Proof.
  refine {| api_get := mem_get |}; cbn [mem_server api_List api_Delete api_Update api_Create].
  - intros s k o [[Hk _] _]%mem_get_valid. done.
  - intros s o. unfold managed, lookup_str. rewrite list_elem_of_fmap. split.
    + intros ([k o'] & -> & [[Hv Hl] Hin%elem_of_map_to_list]%list_elem_of_filter).
      apply str_app_inv_head in Hl. pose proof Hv as [Hk _]. simpl in *. subst k. split.
      * unfold mem_get. by rewrite Hin, decide_True.
      * by destruct (o_Labels o' !! "manager"); simplify_eq/=.
    + intros [[Hv Hin]%mem_get_valid Hm]. exists (okey o, o). split; [done|].
      apply list_elem_of_filter. split; [|by apply elem_of_map_to_list]. split; [done|].
      simpl. by rewrite Hm.
  - intros s l. rewrite <- list_fmap_compose.
    assert (forall es : list ((string * string) * Object Spec), NoDup (fst <$> es) ->
      NoDup (okey ∘ snd <$> filter (fun e => mem_valid e /\
        "manager=" +:+ lookup_str (o_Labels (snd e)) "manager" = l) es)) as Hes.
    { induction es as [|e es IH]; [constructor|]. rewrite fmap_cons. inversion_clear 1 as [|?? Hno Hnd].
      rewrite filter_cons. case_decide as Hd; [|auto]. destruct Hd as [[Hk _] _].
      rewrite fmap_cons. constructor; [|auto].
      intros (e' & Heq & [[[Hk' _] _] Hin]%list_elem_of_filter)%list_elem_of_fmap.
      apply Hno. rewrite Hk. simpl in Heq. rewrite Heq, <- Hk'. by apply list_elem_of_fmap_2. }
    apply Hes, NoDup_fst_map_to_list.
  - intros s ns name o Hg. rewrite Hg. eexists. split; [done|]. intros k.
    unfold mem_get; cbn [mem_objects]. rewrite lookup_delete. repeat case_decide; naive_solver.
  - intros s o old Hg Hv. rewrite Hg, Hv, String.eqb_refl. eexists _, _.
    split; [done|]. split; [|intros k; apply mem_get_store]. done.
  - intros s o Hv. rewrite Hv. destruct (mem_get s (okey o)) as [old|] eqn:E; [|by eauto].
    apply mem_get_valid in E as [[_ Hne] _]. simpl in Hne.
    rewrite (proj2 (String.eqb_neq _ _)) by auto. by eauto.
  - intros s o Hg. rewrite Hg. eexists _, _. split; [done|]. split; [|intros k; apply mem_get_store]. done.
  - intros s o old Hg. rewrite Hg. by eauto.
Defined.
End mem_server.
Arguments MemServer Spec : clear implicits.

(** [proto.Equal] on specs with decidable equality. *)
Definition spec_equal {Spec} `{EqDecision Spec} : ProtoEqual Spec := fun a b => bool_decide (a = b).
Lemma spec_equal_laws {Spec} `{EqDecision Spec} : @ProtoEqualLaws Spec spec_equal.
Proof. intros a b. apply bool_decide_eq_true. Qed.
