(* ===== verification/Model.v ===== *)
(** * Names, protocols and host matching

    [src/internal/model/protocol/instance.go] (port-name protocols),
    [src/internal/model/metaprotocol/application_protocol.go] (codec registry) and
    [src/internal/model/utils.go] (cluster and route names, hash policies, FQDN
    comparison).  Istio's [BuildSubsetKey] is a parameter, [IstioNaming]; what the
    sources rely on, that distinct (direction, subset, host, port) give distinct
    keys, is the class [IstioNamingLaws]. *)

From S2P Require Import Prelude Api.

(** ** protocol.Instance *)
Definition Instance_ := string.
Definition Dubbo : Instance_ := "Dubbo".
Definition Thrift : Instance_ := "Thrift".
Definition Mongo : Instance_ := "Mongo".
Definition Redis : Instance_ := "Redis".
Definition MySQL : Instance_ := "MySQL".
Definition Kafka : Instance_ := "Kafka".
Definition Zookeeper : Instance_ := "Zookeeper".
Definition MetaProtocol : Instance_ := "MetaProtocol".
Definition Unsupported : Instance_ := "UnsupportedProtocol".

(** The package variable [protocolMap] after [init]. *)
Definition protocolMap_init : gmap string Instance_ :=
  <["metaprotocol" := MetaProtocol]> (<["zookeeper" := Zookeeper]> (<["kafka" := Kafka]>
  (<["mysql" := MySQL]> (<["redis" := Redis]> (<["mongo" := Mongo]>
  (<["thrift" := Thrift]> (<["dubbo" := Dubbo]> ∅))))))).

Definition RegisterProtocol (name : string) (protocol : Instance_)
    (protocolMap : gmap string Instance_) : gmap string Instance_ :=
  <[name := protocol]> protocolMap.

Definition Parse (protocolMap : gmap string Instance_) (s : string) : Instance_ :=
  match protocolMap !! ToLower s with Some instance => instance | None => Unsupported end.

Definition IsDubbo (i : Instance_) : bool := String.eqb i Dubbo.
Definition IsThrift (i : Instance_) : bool := String.eqb i Thrift.
Definition IsMetaProtocol (i : Instance_) : bool := String.eqb i MetaProtocol.
Definition IsUnsupported (i : Instance_) : bool := String.eqb i Unsupported.

Definition GetLayer7ProtocolFromPortName (protocolMap : gmap string Instance_)
    (name : string) : Instance_ :=
  let s := Split name "-" in
  match s !! 1%nat with
  | Some s1 => Parse protocolMap s1
  | None => Unsupported
  end.

Definition IsAerakiSupportedProtocols (protocolMap : gmap string Instance_) (name : string) : bool :=
  let protocol := GetLayer7ProtocolFromPortName protocolMap name in
  negb (String.eqb protocol Unsupported).

(** ** Application protocol codecs ([sync.Map] used as a map) *)
Definition applicationProtocols_init : gmap string string :=
  <["thrift" := "aeraki.meta_protocol.codec.thrift"]>
  (<["dubbo" := "aeraki.meta_protocol.codec.dubbo"]> ∅).

Definition SetApplicationProtocolCodec (protocol codec : string)
    (applicationProtocols : gmap string string) : gmap string string :=
  <[protocol := codec]> applicationProtocols.

Definition GetApplicationProtocolCodec (applicationProtocols : gmap string string)
    (protocol : string) : res string :=
  match applicationProtocols !! protocol with
  | None => Err ("can't find codec for protocol: " +:+ protocol)
  | Some codec => Ok codec
  end.

(** [s[2]] is read as soon as there are two pieces. *)
Definition GetApplicationProtocolFromPortName (portName : string) : outcome (res string) :=
  let s := Split portName "-" in
  if (1 <? length s)%nat then w ← index s 2; Ret (Ok w)
  else Ret (Err ("can't find application protocol in port name: " +:+ portName)).

(** ** Cluster and route names *)
Definition TrafficDirection := string.
Definition TrafficDirectionInbound : TrafficDirection := "inbound".
Definition TrafficDirectionOutbound : TrafficDirection := "outbound".

(** Istio's [model.BuildSubsetKey(direction, subset, hostname, port)]. *)
Class IstioNaming := BuildSubsetKey : TrafficDirection -> string -> string -> Z -> string.

(** Istio's key separates its four fields with a bar. *)
Class IstioNamingLaws `{IstioNaming} := BuildSubsetKey_inj : forall d s h p d' s' h' p',
  ContainsChar d "|" = false -> ContainsChar d' "|" = false ->
  ContainsChar s "|" = false -> ContainsChar s' "|" = false ->
  BuildSubsetKey d s h p = BuildSubsetKey d' s' h' p' ->
  d = d' /\ s = s' /\ h = h' /\ p = p'.

(** The format Istio documents, used to instantiate the parameter in witnesses. *)
Definition istio_subset_key : IstioNaming := fun direction subset host port =>
  direction +:+ String "|" (Itoa port +:+ String "|" (subset +:+ String "|" host)).

Section cluster_names.
Context `{IstioNaming}.

Definition BuildClusterName (direction : TrafficDirection) (subsetName hostname : string)
    (port : Z) : string :=
  if String.eqb direction TrafficDirectionInbound
  then BuildSubsetKey direction subsetName "" port
  else BuildSubsetKey direction subsetName hostname port.

Definition BuildMetaProtocolRouteName (host : string) (port : Z) : string :=
  host +:+ "_" +:+ Itoa port.
End cluster_names.

(** ** Hash policies *)
Definition getConsistentHashHeaderName (tp : option TrafficPolicy) : string :=
  match tp with
  | Some tp =>
      match tp_LoadBalancer tp with
      | Some lb =>
          match lb_ConsistentHash lb with
          | Some ch => ch_HttpHeaderName ch
          | None => ""
          end
      | None => ""
      end
  | None => ""
  end.

Fixpoint find_subset_policy (subsets : list Subset) (subsetName : string) : string :=
  match subsets with
  | [] => ""
  | subset :: rest =>
      if String.eqb subsetName (sub_Name subset)
      then getConsistentHashHeaderName (sub_TrafficPolicy subset)
      else find_subset_policy rest subsetName
  end.

Definition GetHashPolicy (dr : option DestinationRuleWrapper) (subsetName : string) : string :=
  if String.eqb subsetName "" then
    match dr ≫= drw_Spec with
    | Some spec => getConsistentHashHeaderName (dr_TrafficPolicy spec)
    | None => ""
    end
  else
    match dr ≫= drw_Spec with
    | Some spec => find_subset_policy (dr_Subsets spec) subsetName
    | None => ""
    end.

(** ** FQDN comparison *)
Definition IsFQDNEquals (name1 ns1 name2 ns2 : string) : bool :=
  let fqdn1 := if negb (ContainsChar name1 ".")
               then name1 +:+ "." +:+ ns1 +:+ ".svc.cluster.local" else name1 in
  let fqdn2 := if negb (ContainsChar name2 ".")
               then name2 +:+ "." +:+ ns2 +:+ ".svc.cluster.local" else name2 in
  String.eqb fqdn1 fqdn2.

(** ** Lemmas *)

Lemma istio_subset_key_laws : @IstioNamingLaws istio_subset_key.
Proof.
  intros d s h p d' s' h' p' Hd Hd' Hs Hs' H.
  apply sep_inj_l in H as [-> H]; [|done|done].
  apply sep_inj_l in H as [Hp H]; [|by apply Itoa_free..].
  apply sep_inj_l in H as [-> ->]; [|done|done]. by apply Itoa_inj in Hp.
Qed.

Section name_lemmas.
Context `{IstioNamingLaws}.

Lemma BuildClusterName_outbound_inj s h p s' h' p' :
  ContainsChar s "|" = false -> ContainsChar s' "|" = false ->
  BuildClusterName TrafficDirectionOutbound s h p = BuildClusterName TrafficDirectionOutbound s' h' p' ->
  s = s' /\ h = h' /\ p = p'.
Proof.
  intros Hs Hs' Heq. unfold BuildClusterName in Heq. simpl in Heq.
  by apply BuildSubsetKey_inj in Heq as (_ & ? & ? & ?).
Qed.
End name_lemmas.

Lemma BuildMetaProtocolRouteName_inj h p h' p' :
  BuildMetaProtocolRouteName h p = BuildMetaProtocolRouteName h' p' -> h = h' /\ p = p'.
Proof.
  unfold BuildMetaProtocolRouteName. intros H.
  apply (sep_inj_r h h' (Itoa p) (Itoa p') "_") in H as [-> Hp]; [|by apply Itoa_free..].
  by apply Itoa_inj in Hp.
Qed.

Lemma lookup_1_length {A} (l : list A) : (exists x, l !! 1%nat = Some x) <-> (1 < length l)%nat.
Proof.
  split; [by intros [x Hx%lookup_lt_Some]|]. intros Hl. by apply lookup_lt_is_Some in Hl.
Qed.

(** The prefix of a port name up to the first hyphen plays no role. *)
Lemma layer7_of_parts pm pre proto :
  ContainsChar pre "-" = false -> ContainsChar proto "-" = false ->
  GetLayer7ProtocolFromPortName pm (pre +:+ "-" +:+ proto) = Parse pm proto /\
  forall rest, GetLayer7ProtocolFromPortName pm (pre +:+ "-" +:+ proto +:+ "-" +:+ rest) = Parse pm proto.
Proof.
  intros Hpre Hproto. unfold GetLayer7ProtocolFromPortName. split; [|intros rest];
    cbn [String.append]; rewrite Split_app, Split_free by done; simpl.
  - by rewrite Split_free.
  - by rewrite Split_app, Split_free.
Qed.

Lemma ToLower_idemp s : ToLower (ToLower s) = ToLower s.
Proof.
  induction s as [|[[] [] [] [] [] [] [] []] s IH]; simpl; rewrite ?IH; done.
Qed.

(** [IsFQDNEquals] compares normal forms. *)
Definition fqdn (name ns : string) : string :=
  if negb (ContainsChar name ".") then name +:+ "." +:+ ns +:+ ".svc.cluster.local" else name.

Lemma IsFQDNEquals_fqdn n1 ns1 n2 ns2 :
  IsFQDNEquals n1 ns1 n2 ns2 = true <-> fqdn n1 ns1 = fqdn n2 ns2.
Proof. apply String.eqb_eq. Qed.

Lemma fqdn_short_inj n1 ns1 n2 ns2 :
  ContainsChar n1 "." = false -> ContainsChar n2 "." = false ->
  fqdn n1 ns1 = fqdn n2 ns2 -> n1 = n2 /\ ns1 = ns2.
Proof.
  unfold fqdn. intros H1 H2. rewrite H1, H2. simpl. intros H.
  apply (sep_inj_l n1 n2 _ _ ".") in H as [-> H]; [|done|done]. split; [done|].
  apply (f_equal (fun s => TrimSuffix s ".svc.cluster.local")) in H. by rewrite !TrimSuffix_app in H.
Qed.

(** ** Properties of port names *)
Lemma Split_cons_inv s c w ws :
  Split s c = w :: ws ->
  ContainsChar w c = false /\
  (ws = [] /\ s = w \/ exists t, ws = Split t c /\ s = w +:+ String c t).
Proof.
  revert w ws. induction s as [|a s IH]; intros w ws; simpl; [intros [= <- <-]; auto|].
  destruct (Ascii.eqb a c) eqn:E.
  - apply Ascii.eqb_eq in E as ->. intros [= <- <-]. split; [done|]. right. by exists s.
  - destruct (Split s c) as [|w' ws'] eqn:Es; [by apply Split_nonempty in Es|]. intros [= <- <-].
    destruct (IH w' ws' eq_refl) as [Hf Hr]. simpl. rewrite E. split; [done|].
    destruct Hr as [[-> ->]|(t & -> & ->)]; [by left|right]. by exists t.
Qed.

Definition supported_names : list string :=
  ["dubbo"; "thrift"; "mongo"; "redis"; "mysql"; "kafka"; "zookeeper"; "metaprotocol"].

Lemma Parse_init_supported s :
  Parse protocolMap_init s <> Unsupported <-> ToLower s ∈ supported_names.
Proof.
  unfold Parse. set (l := ToLower s). clearbody l. split.
  - destruct (protocolMap_init !! l) as [i|] eqn:E; [|done]. intros _.
    unfold protocolMap_init in E. unfold supported_names.
    repeat (apply lookup_insert_Some in E as [[<- _]|[_ E]]; [set_solver|]).
    by rewrite lookup_empty in E.
  - unfold supported_names. rewrite !elem_of_cons, elem_of_nil.
    by intros Hl; destruct_or!; subst.
Qed.

(** With the protocols the package registers itself, a port is Aeraki's exactly when
    its name is <prefix>-<protocol> or <prefix>-<protocol>-<rest>, with a hyphen-free
    prefix and <protocol> one of the eight names in any letter case. *)
Theorem port_name_supported name :
  IsAerakiSupportedProtocols protocolMap_init name = true <->
  exists pre proto rest,
    ContainsChar pre "-" = false /\ ContainsChar proto "-" = false /\
    ToLower proto ∈ supported_names /\
    name = pre +:+ "-" +:+ proto +:+ rest /\ (rest = "" \/ exists r, rest = "-" +:+ r).
Proof.
  unfold IsAerakiSupportedProtocols. rewrite negb_true_iff, String.eqb_neq. split.
  - unfold GetLayer7ProtocolFromPortName.
    destruct (Split name "-") as [|pre [|proto ws]] eqn:E; [done..|]. simpl.
    intros Hp%Parse_init_supported.
    apply Split_cons_inv in E as [Hpre [[? _]|(t & Ht & ->)]]; [done|]. symmetry in Ht.
    apply Split_cons_inv in Ht as [Hproto Hr].
    destruct Hr as [[-> ->]|(r & -> & ->)].
    + exists pre, proto, "". repeat split; [done..| |by left]. by rewrite str_app_nil_r.
    + exists pre, proto, ("-" +:+ r). repeat split; [done..|]. right. by exists r.
  - intros (pre & proto & rest & Hpre & Hproto & Hin & -> & Hr).
    destruct (layer7_of_parts protocolMap_init pre proto Hpre Hproto) as [H0 H1].
    destruct Hr as [->|(r & ->)]; rewrite ?str_app_nil_r, ?H0, ?H1; by apply Parse_init_supported.
Qed.

(** The application protocol is the third hyphen-separated piece of a port name; a
    name without hyphen gives an error, and a name with exactly one hyphen (a valid port
    name such as tcp-metaprotocol, which the protocol parser accepts) makes the lookup
    index out of range and panic. *)
Theorem app_protocol_of_port name :
  match Split name "-" with
  | _ :: _ :: p :: _ => GetApplicationProtocolFromPortName name = Ret (Ok p)
  | [_; _] => panics (GetApplicationProtocolFromPortName name) = true
  | _ => ContainsChar name "-" = false /\ exists e, GetApplicationProtocolFromPortName name = Ret (Err e)
  end.
Proof.
  unfold GetApplicationProtocolFromPortName.
  destruct (Split name "-") as [|a [|b [|c l]]] eqn:E; [by apply Split_nonempty in E| |done..].
  split; [|by eauto]. apply Split_length_1. by rewrite E.
Qed.

Example port_examples :
  IsAerakiSupportedProtocols protocolMap_init "tcp-metaprotocol" = true /\
  panics (GetApplicationProtocolFromPortName "tcp-metaprotocol") = true /\
  GetApplicationProtocolFromPortName "tcp-metaprotocol-dubbo-svc" = Ret (Ok "dubbo") /\
  IsAerakiSupportedProtocols protocolMap_init "http" = false.
Proof. by vm_compute. Qed.

(** A registered name is found only through its lower-case spelling, and the registration
    does not lower it. *)
Lemma Parse_RegisterProtocol name p pm s :
  Parse (RegisterProtocol name p pm) s = if decide (ToLower s = name) then p else Parse pm s.
Proof.
  unfold Parse, RegisterProtocol. case_decide as Hd; [by rewrite Hd, lookup_insert_eq|].
  by rewrite lookup_insert_ne.
Qed.

Corollary Parse_RegisterProtocol_upper name p pm s :
  ToLower name <> name -> Parse (RegisterProtocol name p pm) s = Parse pm s.
Proof.
  intros Hn. rewrite Parse_RegisterProtocol. case_decide as Hd; [|done].
  subst name. by rewrite ToLower_idemp in Hn.
Qed.

(** ** Properties of host names and hash policies *)

(** FQDN equality is an equivalence on (name, namespace) pairs; two short names are
    equal exactly when name and namespace agree, a short name equals the full name
    <name>.<ns>.svc.cluster.local, and for two full names the namespaces play no role. *)
Theorem fqdn_equals_spec n1 ns1 n2 ns2 n3 ns3 :
  IsFQDNEquals n1 ns1 n1 ns1 = true /\
  IsFQDNEquals n1 ns1 n2 ns2 = IsFQDNEquals n2 ns2 n1 ns1 /\
  (IsFQDNEquals n1 ns1 n2 ns2 = true -> IsFQDNEquals n2 ns2 n3 ns3 = true ->
   IsFQDNEquals n1 ns1 n3 ns3 = true) /\
  (ContainsChar n1 "." = false -> ContainsChar n2 "." = false ->
   (IsFQDNEquals n1 ns1 n2 ns2 = true <-> n1 = n2 /\ ns1 = ns2)) /\
  (ContainsChar n1 "." = false ->
   IsFQDNEquals n1 ns1 (n1 +:+ "." +:+ ns1 +:+ ".svc.cluster.local") ns2 = true) /\
  (ContainsChar n1 "." = true -> ContainsChar n2 "." = true ->
   (IsFQDNEquals n1 ns1 n2 ns2 = true <-> n1 = n2)).
Proof.
  rewrite !IsFQDNEquals_fqdn. split; [done|]. split; [apply String.eqb_sym|]. split; [congruence|].
  split; [|split].
  - intros H1 H2. split; [by apply fqdn_short_inj|by intros [-> ->]].
  - intros H1. unfold fqdn. rewrite H1, !ContainsChar_app. simpl. by rewrite orb_true_r.
  - intros H1 H2. unfold fqdn. by rewrite H1, H2.
Qed.

(** The hash header of a named subset is the one of the first subset of that name,
    and empty when that subset has none: the rule-level policy is used only for the empty
    subset name and is never a fallback. *)
Theorem hash_policy_subset spec m name sub pre post :
  dr_Subsets spec = pre ++ sub :: post -> sub_Name sub = name -> name <> "" ->
  Forall (fun s => sub_Name s <> name) pre ->
  GetHashPolicy (Some {| drw_Meta := m; drw_Spec := Some spec |}) name =
    getConsistentHashHeaderName (sub_TrafficPolicy sub) /\
  GetHashPolicy (Some {| drw_Meta := m; drw_Spec := Some spec |}) "" =
    getConsistentHashHeaderName (dr_TrafficPolicy spec).
Proof.
  intros Hsubs <- Hne Hpre. split; [|done].
  unfold GetHashPolicy. simpl. rewrite (proj2 (String.eqb_neq _ _)) by done.
  rewrite Hsubs. clear Hsubs. induction Hpre as [|s pre Hs _ IH]; simpl; [by rewrite String.eqb_refl|].
  by rewrite (proj2 (String.eqb_neq _ _)) by congruence.
Qed.

Definition demo_policy : TrafficPolicy :=
  {| tp_LoadBalancer := Some {| lb_ConsistentHash := Some {| ch_HttpHeaderName := "user" |} |} |}.
Definition demo_rule : DestinationRule :=
  {| dr_Host := "h"; dr_TrafficPolicy := Some demo_policy;
     dr_Subsets := [{| sub_Name := "v1"; sub_TrafficPolicy := None |}] |}.
Definition demo_meta : Meta :=
  {| m_GroupVersionKind := GvkDestinationRule; m_Name := "dr"; m_Namespace := "ns";
     m_Labels := ∅; m_Annotations := ∅ |}.

Lemma hash_policy_subset_witness :
  GetHashPolicy (Some {| drw_Meta := demo_meta; drw_Spec := Some demo_rule |}) "v1" = "" /\
  GetHashPolicy (Some {| drw_Meta := demo_meta; drw_Spec := Some demo_rule |}) "" = "user".
Proof.
  destruct (hash_policy_subset demo_rule demo_meta "v1" {| sub_Name := "v1"; sub_TrafficPolicy := None |}
              [] []) as [H1 H2]; [done|done|done|constructor|].
  rewrite H1, H2. done.
Defined.

(** ** Packing of messages

    [src/internal/util/protoconv/protoconv.go]; marshalling and the names of messages are
    parameters. *)
Record AnyMsg := { any_TypeUrl : string; any_Value : string }.

Section protoconv.
Context {Msg : Type} (Marshal : Msg -> res string) (FullName : Msg -> string).

Definition MessageToAnyWithError (msg : Msg) : res AnyMsg :=
  match Marshal msg with
  | Err err => Err err
  | Ok b => Ok {| any_TypeUrl := "type.googleapis.com/" +:+ FullName msg; any_Value := b |}
  end.

Definition MessageToAny (msg : Msg) : option AnyMsg :=
  match MessageToAnyWithError msg with Err _ => None | Ok out => Some out end.

(** [typed_struct] makes the message with the given type URL and no value. *)
Definition TypedStruct (typed_struct : string -> Msg) (typeURL : string) : option AnyMsg :=
  MessageToAny (typed_struct typeURL).

(** A packed message can be unpacked by the type in its URL; a message that cannot be
    marshalled becomes nil. *)
Lemma MessageToAny_unpack (Unmarshal : string -> string -> option Msg) msg :
  (forall m b, Marshal m = Ok b -> Unmarshal (FullName m) b = Some m) ->
  match MessageToAny msg with
  | Some a => Unmarshal (TrimPrefix (any_TypeUrl a) "type.googleapis.com/") (any_Value a) = Some msg
  | None => exists err, Marshal msg = Err err
  end.
Proof.
  intros Hlaw. unfold MessageToAny, MessageToAnyWithError. destruct (Marshal msg) as [b|err] eqn:Hm; [|by exists err].
  cbn [any_TypeUrl any_Value]. rewrite TrimPrefix_app. by apply Hlaw.
Qed.
End protoconv.
