(* ===== verification/VipAllocator.v ===== *)
(** * The service entry controller: virtual IP allocation

    [src/internal/controller/kube/serviceentry.go].  The controller keeps a map
    from virtual IPs to the service entries that own them and a rotating counter;
    [Reconcile] gives a service entry an address of 240.240.0.0/16 or resolves a
    conflict.  The Kubernetes client is the interface [ServiceEntryClient], over
    an abstract server state; [ServiceEntryClientLaws] and [ReliableClient] state
    what the API server promises, and [map_client] implements them.

    The loop of [nextAvailableIP] is bounded by a fuel argument.  One full turn of
    the counter visits every address, so 65026 rounds are enough whenever an
    address is free ([nextAvailableIP_total]); when none is free no fuel is enough
    ([nextAvailableIP_exhausted]). *)

From S2P Require Import Prelude Net Api.

(** [controllerclient.ObjectKey]: namespace and name. *)
Abbreviation ObjectKey := (string * string)%type.

Inductive GetResult :=
| GetOk (s : ServiceEntry)
| GetNotFound
| GetErr (e : error).

(** The client's [Get] and [Update], on the state of the API server. *)
Class ServiceEntryClient (Server : Type) := {
  client_Get : Server -> ObjectKey -> GetResult;
  client_Update : Server -> ObjectKey -> ServiceEntry -> Server * option error }.

(** An update that succeeds is read back and touches nothing else; one that fails
    changes nothing. *)
Class ServiceEntryClientLaws (Server : Type) `{ServiceEntryClient Server} := {
  Get_Update_eq : forall srv srv' k s,
    client_Update srv k s = (srv', None) -> client_Get srv' k = GetOk s;
  Get_Update_ne : forall srv srv' k k' s e,
    client_Update srv k s = (srv', e) -> k <> k' -> client_Get srv' k' = client_Get srv k';
  Get_Update_err : forall srv srv' k k' s e,
    client_Update srv k s = (srv', Some e) -> client_Get srv' k' = client_Get srv k' }.

(** A server whose calls do not fail. *)
Class ReliableClient (Server : Type) `{ServiceEntryClient Server} := {
  Get_reliable : forall srv k e, client_Get srv k <> GetErr e;
  Update_reliable : forall srv k s, snd (client_Update srv k s) = None }.

Record serviceEntryController := {
  serviceIPs : gmap string ObjectKey;
  maxIP : Z }.

Definition set_serviceIPs (f : gmap string ObjectKey -> gmap string ObjectKey)
    (c : serviceEntryController) : serviceEntryController :=
  {| serviceIPs := f (serviceIPs c); maxIP := maxIP c |}.

Definition set_addresses (s : ServiceEntry) (addrs : list string) : ServiceEntry :=
  {| se_Hosts := se_Hosts s; se_Addresses := addrs; se_Ports := se_Ports s;
     se_Resolution := se_Resolution s; se_WorkloadSelector := se_WorkloadSelector s |}.

(** [AddServiceEntryController] starts with an empty map and counter zero. *)
Definition newServiceEntryController : serviceEntryController :=
  {| serviceIPs := ∅; maxIP := 0 |}.

(** [fmt.Sprintf("240.240.%d.%d", m/255, m%255)]. *)
Definition vip_string (m : Z) : string :=
  "240.240." +:+ Itoa (Z.quot m 255) +:+ "." +:+ Itoa (Z.rem m 255).

Definition getNextIP (c : serviceEntryController) : string * serviceEntryController :=
  let m := if Z.rem (maxIP c) 255 =? 0 then maxIP c + 1 else maxIP c in
  let m := if 255 * 255 <=? m then 0 else m in
  (vip_string m, {| serviceIPs := serviceIPs c; maxIP := m + 1 |}).

Section controller.
Context {Server : Type} `{ServiceEntryClient Server}.

Fixpoint nextAvailableIP (fuel : nat) (srv : Server) (c : serviceEntryController)
    : option (string * serviceEntryController) :=
  match fuel with
  | O => None
  | S fuel =>
      let '(nextIP, c) := getNextIP c in
      match serviceIPs c !! nextIP with
      | Some key =>
          match client_Get srv key with
          | GetNotFound => Some (nextIP, set_serviceIPs (delete nextIP) c)
          | GetErr _ => nextAvailableIP fuel srv c
          | GetOk _ => nextAvailableIP fuel srv c
          end
      | None => Some (nextIP, c)
      end
  end.

Definition updateServiceEntry (srv : Server) (c : serviceEntryController)
    (s : ServiceEntry) (key : ObjectKey) : Server * serviceEntryController :=
  match client_Update srv key s with
  | (srv', None) =>
      match se_Addresses s with
      | addr :: _ => (srv', set_serviceIPs <[addr := key]> c)
      | [] => (srv', c)
      end
  | (srv', Some _) => (srv', c)
  end.

Definition autoAllocateIP (fuel : nat) (srv : Server) (c : serviceEntryController)
    (key : ObjectKey) (s : ServiceEntry) : option (Server * serviceEntryController) :=
  if bool_decide (se_Resolution s = NONE) then Some (srv, c)
  else
    match se_Addresses s with
    | addr :: rest =>
        if negb (HasPrefix addr "240.240") then Some (srv, c)
        else
          match serviceIPs c !! addr with
          | Some existingKey =>
              if bool_decide (existingKey = key) then Some (srv, c)
              else
                match client_Get srv existingKey with
                | GetOk _ =>
                    '(ip, c) ← nextAvailableIP fuel srv c;
                    Some (updateServiceEntry srv c (set_addresses s (ip :: rest)) key)
                | GetNotFound => Some (srv, set_serviceIPs <[addr := key]> c)
                | GetErr _ => Some (srv, c)
                end
          | None => Some (srv, set_serviceIPs <[addr := key]> c)
          end
    | [] =>
        '(ip, c) ← nextAvailableIP fuel srv c;
        Some (updateServiceEntry srv c (set_addresses s [ip]) key)
    end.

(** The third component is [Reconcile]'s error. *)
Definition Reconcile (fuel : nat) (srv : Server) (c : serviceEntryController)
    (request : ObjectKey) : option (Server * serviceEntryController * option error) :=
  match client_Get srv request with
  | GetNotFound => Some (srv, c, None)
  | GetErr e => Some (srv, c, Some ("could not fetch ServiceEntry: " +:+ e))
  | GetOk se => sc ← autoAllocateIP fuel srv c request se; Some (sc.1, sc.2, None)
  end.

(** The work queue handled in order. *)
Fixpoint reconcile_all (fuel : nat) (srv : Server) (c : serviceEntryController)
    (requests : list ObjectKey) : option (Server * serviceEntryController) :=
  match requests with
  | [] => Some (srv, c)
  | k :: requests =>
      r ← Reconcile fuel srv c k; reconcile_all fuel r.1.1 r.1.2 requests
  end.
End controller.

(** ** The reference server: a map of service entries that never fails *)
#[export] Instance map_client : ServiceEntryClient (gmap ObjectKey ServiceEntry) := {
  client_Get := fun srv k => match srv !! k with Some s => GetOk s | None => GetNotFound end;
  client_Update := fun srv k s => (<[k := s]> srv, None) }.

#[export] Instance map_client_laws : ServiceEntryClientLaws (gmap ObjectKey ServiceEntry).
Proof.
  split; simpl; intros; simplify_eq.
  - by rewrite lookup_insert_eq.
  - by rewrite lookup_insert_ne.
Qed.

#[export] Instance map_client_reliable : ReliableClient (gmap ObjectKey ServiceEntry).
Proof. split; simpl; [|done]. intros srv k e. by destruct (srv !! k). Qed.

(** ** The address counter *)
Ltac div_lia := Z.to_euclidean_division_equations; lia.

Definition counter_ok (c : serviceEntryController) : Prop := 0 <= maxIP c <= 255 * 255.

(** The counter value the next address is printed from. *)
Definition next_slot (x : Z) : Z :=
  let m := if Z.rem x 255 =? 0 then x + 1 else x in if 255 * 255 <=? m then 0 else m.

Lemma getNextIP_slot c :
  getNextIP c = (vip_string (next_slot (maxIP c)),
                 {| serviceIPs := serviceIPs c; maxIP := next_slot (maxIP c) + 1 |}).
Proof. done. Qed.

Lemma next_slot_range x : 0 <= x <= 255 * 255 -> 0 <= next_slot x < 255 * 255.
Proof. unfold next_slot. intros. repeat case_match; lia. Qed.

(** The slots the counter stops at: the multiples of 255 are skipped, except slot 0,
    which is used when the counter wraps. *)
Definition slot_used (m : Z) : Prop := 0 <= m < 255 * 255 /\ (m = 0 \/ Z.rem m 255 <> 0).

Lemma next_slot_used x : 0 <= x <= 255 * 255 -> slot_used (next_slot x).
Proof.
  intros Hx. split; [by apply next_slot_range|].
  unfold next_slot. repeat case_match; div_lia.
Qed.

Lemma vip_string_inj m m' : 0 <= m -> 0 <= m' -> vip_string m = vip_string m' -> m = m'.
Proof.
  intros Hm Hm' H. unfold vip_string in H. apply str_app_inv_head in H.
  apply (sep_inj_l (Itoa (Z.quot m 255)) (Itoa (Z.quot m' 255)) _ _ ".") in H as [Hq Hr];
    [|by apply Itoa_free..].
  apply Itoa_inj in Hq, Hr. div_lia.
Qed.

Lemma vip_string_prefix m : HasPrefix (vip_string m) "240.240" = true.
Proof. done. Qed.

(** Rounds until the counter, at [x], stops at slot [t]. *)
Definition distance (t x : Z) : Z := if x <=? t then t - x else 255 * 255 - x + 1 + t.

Lemma distance_step t x :
  0 < t < 255 * 255 -> Z.rem t 255 <> 0 -> 0 <= x <= 255 * 255 ->
  next_slot x = t \/ 0 <= distance t (next_slot x + 1) < distance t x.
Proof.
  intros Ht Hr Hx. unfold distance, next_slot. repeat case_match; div_lia.
Qed.

Lemma distance_bound t x : 0 < t < 255 * 255 -> 0 <= x <= 255 * 255 -> 0 <= distance t x <= 255 * 255.
Proof. intros. unfold distance. case_match; lia. Qed.

Section allocator_facts.
Context {Server : Type} `{ServiceEntryClient Server}.

(** An address the controller may hand out: unknown, or owned by a service entry
    that no longer exists. *)
Definition free_ip (srv : Server) (ips : gmap string ObjectKey) (ip : string) : Prop :=
  match ips !! ip with Some key => client_Get srv key = GetNotFound | None => True end.

(** What the loop returns is free, is not recorded any more, and nothing but its
    record and the counter has changed. *)
Lemma nextAvailableIP_spec fuel srv c ip c' :
  nextAvailableIP fuel srv c = Some (ip, c') -> counter_ok c ->
  free_ip srv (serviceIPs c) ip /\ serviceIPs c' = delete ip (serviceIPs c) /\
  counter_ok c' /\ exists m, slot_used m /\ ip = vip_string m.
Proof.
  revert c. induction fuel as [|fuel IH]; intros c; simpl; [done|].
  intros Hres Hc. assert (Hx := next_slot_used _ Hc). assert (Hr := next_slot_range _ Hc).
  set (m := next_slot (maxIP c)) in *.
  set (c1 := {| serviceIPs := serviceIPs c; maxIP := m + 1 |}) in *.
  assert (Hc1 : counter_ok c1) by (unfold counter_ok; simpl; lia).
  fold (next_slot (maxIP c)) in Hres. fold m in Hres.
  destruct (serviceIPs c !! vip_string m) as [key|] eqn:Hl.
  - destruct (client_Get srv key) eqn:Hg.
    + apply (IH c1 Hres Hc1).
    + simplify_eq/=. unfold free_ip. rewrite Hl. eauto 10.
    + apply (IH c1 Hres Hc1).
  - simplify_eq/=. unfold free_ip. rewrite Hl, delete_id by done. eauto 10.
Qed.

(** The loop ends as soon as some slot is free, within one turn of the counter. *)
Lemma nextAvailableIP_reaches srv t fuel c :
  0 < t < 255 * 255 -> Z.rem t 255 <> 0 -> free_ip srv (serviceIPs c) (vip_string t) ->
  counter_ok c -> distance t (maxIP c) < Z.of_nat fuel ->
  exists ip c', nextAvailableIP fuel srv c = Some (ip, c').
Proof.
  intros Ht Hr. revert c. induction fuel as [|fuel IH]; intros c Hfree Hc Hfuel.
  { pose proof (distance_bound t (maxIP c) Ht Hc). lia. }
  assert (Hx := next_slot_range _ Hc). assert (Hd := distance_step t (maxIP c) Ht Hr Hc).
  simpl. fold (next_slot (maxIP c)). set (m := next_slot (maxIP c)) in *.
  destruct (serviceIPs c !! vip_string m) as [key|] eqn:Hl; [|by eauto].
  assert (client_Get srv key <> GetNotFound -> exists ip c', nextAvailableIP fuel srv
    {| serviceIPs := serviceIPs c; maxIP := m + 1 |} = Some (ip, c')) as Hnext.
  { intros Hne. apply IH; [done|unfold counter_ok; simpl; lia|]. simpl.
    destruct Hd as [Hd|Hd]; [|lia]. unfold free_ip in Hfree. rewrite <- Hd, Hl in Hfree. done. }
  destruct (client_Get srv key); [by apply Hnext|by eauto|by apply Hnext].
Qed.

(** The pool the counter enumerates without its wrap-around slot. *)
Definition pool : list Z := t ← seqZ 0 255; (fun f => 255 * t + f) <$> seqZ 1 254.

Lemma pool_spec m : m ∈ pool -> 0 < m < 255 * 255 /\ Z.rem m 255 <> 0.
Proof.
  unfold pool. intros (t & Hm & Ht)%list_elem_of_bind.
  apply list_elem_of_fmap in Hm as (f & -> & Hf). apply elem_of_seqZ in Ht, Hf.
  split; [lia|]. rewrite Z.rem_mod_nonneg by lia.
  replace (255 * t + f) with (f + t * 255) by lia. rewrite Z.mod_add, Z.mod_small by lia. lia.
Qed.

Lemma NoDup_bind_offset (l : list Z) :
  NoDup l -> NoDup (t ← l; (fun f => 255 * t + f) <$> seqZ 1 254).
Proof.
  induction 1 as [|t l Hnin Hl IH]; [constructor|]. rewrite bind_cons.
  apply NoDup_app. split; [|split; [|done]].
  - apply NoDup_fmap_2; [intros ?? ?; lia|apply NoDup_seqZ].
  - intros x Hx (t' & Hx' & Ht')%list_elem_of_bind.
    apply list_elem_of_fmap in Hx as (f & -> & Hf), Hx' as (f' & Heq & Hf').
    apply elem_of_seqZ in Hf, Hf'. assert (t = t') as -> by lia. done.
Qed.

Lemma pool_length : Z.of_nat (length pool) = 64770.
Proof.
  assert (forall l : list Z, Z.of_nat (length (t ← l; (fun f => 255 * t + f) <$> seqZ 1 254))
                             = 254 * Z.of_nat (length l)) as Hlen.
  { induction l as [|t l IH]; [done|].
    rewrite bind_cons, length_app, length_fmap, length_seqZ. cbn [length]. lia. }
  unfold pool. rewrite Hlen, length_seqZ. lia.
Qed.

(** Fewer records than addresses leave an address free. *)
Lemma pool_pigeonhole srv (ips : gmap string ObjectKey) :
  Z.of_nat (size ips) < 64770 -> exists m, m ∈ pool /\ free_ip srv ips (vip_string m).
Proof.
  intros Hsize.
  destruct (decide (Exists (fun m => ips !! vip_string m = None) pool)) as [Hex|Hno].
  { apply Exists_exists in Hex as (m & Hm & Hl). exists m. split; [done|].
    unfold free_ip. by rewrite Hl. }
  exfalso. assert (Hsub : list_to_set (vip_string <$> pool) ⊆ dom ips).
  { intros ip (m & -> & Hm)%elem_of_list_to_set%list_elem_of_fmap.
    apply elem_of_dom. destruct (ips !! vip_string m) eqn:E; [by eauto|].
    exfalso. apply Hno, Exists_exists. by eauto. }
  apply subseteq_size in Hsub. rewrite size_dom in Hsub.
  rewrite size_list_to_set, length_fmap in Hsub; [pose proof pool_length; lia|].
  assert (NoDup pool) as Hnd by apply NoDup_bind_offset, NoDup_seqZ.
  revert Hnd. generalize pool_spec. generalize pool.
  induction l as [|m l IH]; intros Hspec Hnd; [constructor|].
  apply NoDup_cons in Hnd as [Hnin Hnd]. constructor.
  - intros (m' & Heq & Hm')%list_elem_of_fmap.
    pose proof (Hspec m ltac:(by left)) as [Hm _].
    pose proof (Hspec m' ltac:(by right)) as [Hm2 _].
    apply vip_string_inj in Heq; [by subst|lia..].
  - apply IH; [|done]. intros. apply Hspec. by right.
Qed.
End allocator_facts.

(** ** Ownership of addresses *)
(** The address of the managed range a service entry asks for, if any. *)
Definition vip_of (s : ServiceEntry) : option string :=
  if bool_decide (se_Resolution s = NONE) then None
  else match se_Addresses s with
       | addr :: _ => if HasPrefix addr "240.240" then Some addr else None
       | [] => None
       end.

Section ownership.
Context {Server : Type} `{ServiceEntryClientLaws Server}.

(** Service entry [k], when it wants an address, has one, and if it is of the managed
    range the controller records [k] as its owner. *)
Definition settled (srv : Server) (c : serviceEntryController) (k : ObjectKey) : Prop :=
  forall s, client_Get srv k = GetOk s -> se_Resolution s <> NONE ->
  match se_Addresses s with
  | [] => False
  | a :: _ => HasPrefix a "240.240" = true -> serviceIPs c !! a = Some k
  end.

Lemma settled_vip srv c k s a :
  settled srv c k -> client_Get srv k = GetOk s -> vip_of s = Some a -> serviceIPs c !! a = Some k.
Proof.
  unfold vip_of. intros Hs Hg Hv. case_bool_decide as Hn; [done|].
  specialize (Hs s Hg Hn). destruct (se_Addresses s) as [|b r]; [done|].
  by destruct (HasPrefix b _); simplify_eq; apply Hs.
Qed.

Lemma free_ip_not_owned srv ips ip a k s :
  free_ip srv ips ip -> client_Get srv k = GetOk s -> ips !! a = Some k -> ip <> a.
Proof. unfold free_ip. intros Hf Hg Hl ->. rewrite Hl in Hf. congruence. Qed.

Lemma updateServiceEntry_spec srv c s key srv' c' ip rest :
  updateServiceEntry srv c s key = (srv', c') -> se_Addresses s = ip :: rest ->
  (forall k, k <> key -> client_Get srv' k = client_Get srv k) /\ maxIP c' = maxIP c /\
  ((client_Get srv' key = GetOk s /\ serviceIPs c' = <[ip := key]> (serviceIPs c)) \/
   (exists e, client_Update srv key s = (srv', Some e) /\
      client_Get srv' key = client_Get srv key /\ c' = c)).
Proof.
  unfold updateServiceEntry. intros Hu Ha. rewrite Ha in Hu.
  destruct (client_Update srv key s) as [srv1 [e|]] eqn:E; simplify_eq.
  - split; [|split; [done|right]].
    + intros k Hk. by apply (Get_Update_err srv srv' key k s e).
    + exists e. split; [done|split; [|done]]. by apply (Get_Update_err srv srv' key key s e).
  - split; [|split; [done|left]].
    + intros k Hk. by apply (Get_Update_ne srv srv' key k s None).
    + split; [by apply (Get_Update_eq srv srv' key s)|done].
Qed.

(** Every way [autoAllocateIP] can end: nothing changes; a free address already
    written in the entry is recorded; or a free address is allocated and written. *)
Inductive alloc_outcome (srv : Server) (c : serviceEntryController) (key : ObjectKey)
    (s : ServiceEntry) : Server -> serviceEntryController -> Prop :=
| alloc_same :
    (se_Resolution s = NONE \/ (exists a r, se_Addresses s = a :: r /\ HasPrefix a "240.240" = false) \/
     (exists a r, se_Addresses s = a :: r /\ serviceIPs c !! a = Some key) \/
     (exists k e, client_Get srv k = GetErr e)) ->
    alloc_outcome srv c key s srv c
| alloc_record a r :
    se_Addresses s = a :: r -> free_ip srv (serviceIPs c) a ->
    alloc_outcome srv c key s srv (set_serviceIPs <[a := key]> c)
| alloc_new ip r c1 srv' c' :
    free_ip srv (serviceIPs c) ip -> serviceIPs c1 = delete ip (serviceIPs c) ->
    counter_ok c1 -> (exists m, slot_used m /\ ip = vip_string m) ->
    updateServiceEntry srv c1 (set_addresses s (ip :: r)) key = (srv', c') ->
    alloc_outcome srv c key s srv' c'.

Lemma autoAllocateIP_outcome fuel srv c key s srv' c' :
  autoAllocateIP fuel srv c key s = Some (srv', c') -> counter_ok c ->
  alloc_outcome srv c key s srv' c'.
Proof.
  unfold autoAllocateIP. intros Hres Hc.
  assert (forall r ip c1, nextAvailableIP fuel srv c = Some (ip, c1) ->
    Some (updateServiceEntry srv c1 (set_addresses s (ip :: r)) key) = Some (srv', c') ->
    alloc_outcome srv c key s srv' c') as Hnew.
  { intros r ip c1 Hn [= Hu].
    destruct (nextAvailableIP_spec _ _ _ _ _ Hn Hc) as (Hf & Hi & Hc1 & Hm).
    by apply (alloc_new _ _ _ _ ip r c1). }
  case_bool_decide; [simplify_eq; apply alloc_same; by left|].
  destruct (se_Addresses s) as [|addr rest] eqn:Ha.
  { destruct (nextAvailableIP fuel srv c) as [[ip c1]|] eqn:E; [|done]. by apply (Hnew []  ip c1). }
  destruct (HasPrefix addr "240.240") eqn:Hp; simpl in Hres;
    [|simplify_eq; apply alloc_same; right; left; by eauto].
  destruct (serviceIPs c !! addr) as [ek|] eqn:Hl.
  - case_bool_decide; [simplify_eq; apply alloc_same; right; right; left; by eauto|].
    destruct (client_Get srv ek) eqn:Hg; simplify_eq.
    + destruct (nextAvailableIP fuel srv c) as [[ip c1]|] eqn:E; [|done]. by apply (Hnew rest ip c1).
    + apply (alloc_record _ _ _ _ addr rest); [done|]. unfold free_ip. by rewrite Hl.
    + apply alloc_same. right; right; right. by eauto.
  - simplify_eq. apply (alloc_record _ _ _ _ addr rest); [done|]. unfold free_ip. by rewrite Hl.
Qed.

(** Frame: reconciling [key] leaves every other service entry and every record of a
    live owner alone, keeps the counter in range and adds at most one record. *)
Lemma alloc_frame srv c key s srv' c' :
  alloc_outcome srv c key s srv' c' -> counter_ok c ->
  (forall k, k <> key -> client_Get srv' k = client_Get srv k) /\
  (forall a k sk, client_Get srv k = GetOk sk -> serviceIPs c !! a = Some k -> serviceIPs c' !! a = Some k) /\
  counter_ok c' /\ (size (serviceIPs c') <= size (serviceIPs c) + 1)%nat.
Proof.
  intros Halloc Hc. destruct Halloc as [_|a r Ha Hf|ip r c1 srv' c' Hf Hi Hc1 _ Hu].
  - split; [done|split; [done|split; [done|lia]]].
  - split; [done|split; [|split; [done|]]]; simpl.
    + intros b k sk Hg Hl. rewrite lookup_insert_ne; [done|]. by apply (free_ip_not_owned srv (serviceIPs c) a b k sk).
    + rewrite map_size_insert. case_match; unfold id; lia.
  - destruct (updateServiceEntry_spec _ _ _ _ _ _ ip r Hu eq_refl) as (Hg & Hm & Hcase).
    split; [done|]. unfold counter_ok in *. rewrite Hm.
    destruct Hcase as [[_ ->]|(e & _ & _ & ->)]; rewrite Hi.
    + split; [|split; [done|]].
      * intros b k sk Hgk Hl. assert (ip <> b) by by apply (free_ip_not_owned srv (serviceIPs c) ip b k sk).
        by rewrite lookup_insert_ne, lookup_delete_ne.
      * rewrite map_size_insert, lookup_delete_eq, map_size_delete. case_match; unfold id; lia.
    + split; [|split; [done|]].
      * intros b k sk Hgk Hl. rewrite lookup_delete_ne; [done|].
        by apply (free_ip_not_owned srv (serviceIPs c) ip b k sk).
      * rewrite map_size_delete. case_match; unfold id; lia.
Qed.

Lemma Reconcile_frame fuel srv c key srv' c' e :
  Reconcile fuel srv c key = Some (srv', c', e) -> counter_ok c ->
  (forall k, k <> key -> client_Get srv' k = client_Get srv k) /\
  (forall a k sk, client_Get srv k = GetOk sk -> serviceIPs c !! a = Some k -> serviceIPs c' !! a = Some k) /\
  counter_ok c' /\ (size (serviceIPs c') <= size (serviceIPs c) + 1)%nat.
Proof.
  unfold Reconcile. intros Hr Hc. destruct (client_Get srv key) as [s| |e'] eqn:Hg; simplify_eq/=.
  - destruct (autoAllocateIP fuel srv c key s) as [[srv1 c1]|] eqn:Ha; simplify_eq/=.
    by apply (alloc_frame srv c key s), Hc; apply (autoAllocateIP_outcome fuel).
  - split; [done|split; [done|split; [done|lia]]].
  - split; [done|split; [done|split; [done|lia]]].
Qed.

Lemma Reconcile_keeps_settled fuel srv c key srv' c' e k :
  Reconcile fuel srv c key = Some (srv', c', e) -> counter_ok c ->
  k <> key -> settled srv c k -> settled srv' c' k.
Proof.
  intros Hr Hc Hk Hs s Hg Hn.
  destruct (Reconcile_frame _ _ _ _ _ _ _ Hr Hc) as (Hget & Hips & _).
  rewrite Hget in Hg by done. specialize (Hs s Hg Hn).
  destruct (se_Addresses s) as [|a r]; [done|]. intros Hp. by apply (Hips a k s), Hs.
Qed.

Section reliable.
Context `{!ReliableClient Server}.

Lemma alloc_settles srv c key s srv' c' :
  alloc_outcome srv c key s srv' c' -> client_Get srv key = GetOk s -> settled srv' c' key.
Proof.
  intros Halloc Hg. destruct Halloc as [Hwhy|a r Ha Hf|ip r c1 srv' c' Hf Hi Hc1 _ Hu];
    intros s' Hg' Hn.
  - rewrite Hg in Hg'. simplify_eq.
    destruct Hwhy as [?|[(b&r&->&Hp)|[(b&r&->&Hl)|(k&e&He)]]]; [done|congruence|done|].
    by apply Get_reliable in He.
  - rewrite Hg in Hg'. simplify_eq. rewrite Ha. intros _. simpl. by rewrite lookup_insert_eq.
  - destruct (updateServiceEntry_spec _ _ _ _ _ _ ip r Hu eq_refl) as (_ & _ & [[Hg2 ->]|(e & He & _)]).
    + rewrite Hg2 in Hg'. simplify_eq/=. intros _. by rewrite lookup_insert_eq.
    + pose proof (Update_reliable srv key (set_addresses s (ip :: r))) as Hr. by rewrite He in Hr.
Qed.

Lemma Reconcile_settles fuel srv c key srv' c' e :
  Reconcile fuel srv c key = Some (srv', c', e) -> counter_ok c -> settled srv' c' key.
Proof.
  unfold Reconcile. intros Hr Hc. destruct (client_Get srv key) as [s| |e'] eqn:Hg; simplify_eq/=.
  - destruct (autoAllocateIP fuel srv c key s) as [[srv1 c1]|] eqn:Ha; simplify_eq/=.
    apply (alloc_settles srv c key s); [by eapply autoAllocateIP_outcome|done].
  - intros s Hg'. congruence.
  - by apply Get_reliable in Hg.
Qed.

(** One pass over the work queue settles every entry of the queue and keeps the
    entries that were settled before. *)
Lemma reconcile_all_settles fuel requests : forall srv c srv' c' k,
  reconcile_all fuel srv c requests = Some (srv', c') -> counter_ok c ->
  k ∈ requests \/ settled srv c k -> settled srv' c' k.
Proof.
  induction requests as [|r requests IH]; intros srv c srv' c' k Hr Hc Hk; simpl in Hr.
  { simplify_eq. destruct Hk as [Hk|Hk]; [by apply elem_of_nil in Hk|done]. }
  destruct (Reconcile fuel srv c r) as [[[srv1 c1] e1]|] eqn:Er; [|done]. simpl in Hr.
  destruct (Reconcile_frame _ _ _ _ _ _ _ Er Hc) as (_ & _ & Hc1 & _).
  apply (IH srv1 c1 srv' c' k Hr Hc1). destruct (decide (k = r)) as [->|Hne].
  - right. by eapply Reconcile_settles.
  - destruct Hk as [[?|?]%elem_of_cons|Hk]; [done|by left|]. right. by eapply Reconcile_keeps_settled.
Qed.

(** With an address left for every request the pass completes. *)
Lemma reconcile_all_total requests : forall srv c,
  counter_ok c -> Z.of_nat (size (serviceIPs c)) + Z.of_nat (length requests) <= 64770 ->
  exists srv' c', reconcile_all (Z.to_nat 65026) srv c requests = Some (srv', c').
Proof.
  assert (Hfuel : 65026 = Z.of_nat (Z.to_nat 65026)) by lia. revert Hfuel.
  generalize (Z.to_nat 65026) as fuel. intros fuel Hfuel.
  induction requests as [|r requests IH]; intros srv c Hc Hsize; cbn [reconcile_all]; [by eauto|].
  cbn [length] in Hsize.
  assert (exists ip c', nextAvailableIP fuel srv c = Some (ip, c')) as (ip & cn & Hn).
  { destruct (pool_pigeonhole srv (serviceIPs c)) as (m & Hm & Hf); [lia|].
    apply pool_spec in Hm as [Hm Hr]. apply (nextAvailableIP_reaches srv m); [done..|].
    pose proof (distance_bound m (maxIP c) Hm Hc). lia. }
  assert (exists r1, Reconcile fuel srv c r = Some r1) as [[[srv1 c1] e1] Hr].
  { unfold Reconcile, autoAllocateIP. rewrite Hn. repeat case_match; simpl; eauto. }
  rewrite Hr. simpl. destruct (Reconcile_frame _ _ _ _ _ _ _ Hr Hc) as (_ & _ & Hc1 & Hs1).
  apply IH; [done|lia].
Qed.
End reliable.
End ownership.

(** ** Properties *)
Section properties.
Context {Server : Type} `{ServiceEntryClientLaws Server}.

(** C1: VIP uniqueness.  On an API server whose calls succeed, one pass of the
    controller over any queue of service entries, from any controller state, ends
    (65026 rounds of the allocation loop suffice) provided records and requests
    together do not exceed the 64770 addresses of the pool; afterwards every entry
    of the queue that wants an address has one, and no two of them share an address
    of the managed range. *)
Theorem reconcile_all_unique_vips `{!ReliableClient Server} srv c requests :
  counter_ok c ->
  Z.of_nat (size (serviceIPs c)) + Z.of_nat (length requests) <= 64770 ->
  exists srv' c',
    reconcile_all (Z.to_nat 65026) srv c requests = Some (srv', c') /\
    (forall k s, k ∈ requests -> client_Get srv' k = GetOk s ->
       se_Resolution s <> NONE -> se_Addresses s <> []) /\
    (forall k1 k2 s1 s2 a, k1 ∈ requests -> k2 ∈ requests ->
       client_Get srv' k1 = GetOk s1 -> client_Get srv' k2 = GetOk s2 ->
       vip_of s1 = Some a -> vip_of s2 = Some a -> k1 = k2).
Proof.
  intros Hc Hsize. destruct (reconcile_all_total requests srv c Hc Hsize) as (srv' & c' & Hr).
  assert (Hset : forall k, k ∈ requests -> settled srv' c' k).
  { intros k Hk. apply (reconcile_all_settles _ _ _ _ _ _ k Hr Hc). by left. }
  exists srv', c'. split; [done|split].
  - intros k s Hk Hg Hn. specialize (Hset k Hk s Hg Hn). by destruct (se_Addresses s).
  - intros k1 k2 s1 s2 a H1 H2 Hg1 Hg2 Hv1 Hv2.
    assert (serviceIPs c' !! a = Some k1) by by apply (settled_vip srv' c' k1 s1 a (Hset k1 H1)).
    assert (serviceIPs c' !! a = Some k2) by by apply (settled_vip srv' c' k2 s2 a (Hset k2 H2)).
    congruence.
Qed.

(** C23: Isolation.  Whatever calls fail, reconciling one service entry changes no
    other service entry, takes no address away from a live owner, and leaves every
    other settled entry settled. *)
Theorem reconcile_isolates fuel srv c key srv' c' e :
  counter_ok c -> Reconcile fuel srv c key = Some (srv', c', e) ->
  counter_ok c' /\
  (forall k, k <> key -> client_Get srv' k = client_Get srv k) /\
  (forall a k s, client_Get srv k = GetOk s -> serviceIPs c !! a = Some k -> serviceIPs c' !! a = Some k) /\
  (forall k, k <> key -> settled srv c k -> settled srv' c' k).
Proof.
  intros Hc Hr. destruct (Reconcile_frame _ _ _ _ _ _ _ Hr Hc) as (Hg & Hips & Hc' & _).
  split; [done|split; [done|split; [done|]]]. intros k Hk. by apply (Reconcile_keeps_settled fuel srv c key srv' c' e).
Qed.

(** C24: Termination of the allocation loop.  From any counter in range, with fewer
    records than pool addresses, one turn of the counter (65026 rounds) returns an
    address that is free on the server and not recorded afterwards. *)
Theorem nextAvailableIP_total srv c :
  counter_ok c -> Z.of_nat (size (serviceIPs c)) < 64770 ->
  exists ip c', nextAvailableIP (Z.to_nat 65026) srv c = Some (ip, c') /\
    free_ip srv (serviceIPs c) ip /\ serviceIPs c' !! ip = None /\ counter_ok c'.
Proof.
  intros Hc Hsize. destruct (pool_pigeonhole srv (serviceIPs c) Hsize) as (m & Hm & Hf).
  apply pool_spec in Hm as [Hm Hr]. pose proof (distance_bound m (maxIP c) Hm Hc) as Hd.
  destruct (nextAvailableIP_reaches srv m (Z.to_nat 65026) c) as (ip & c' & Hn); [done..|lia|].
  exists ip, c'. split; [done|].
  destruct (nextAvailableIP_spec _ _ _ _ _ Hn Hc) as (Hfree & Hips & Hc' & _).
  split; [done|split; [|done]]. by rewrite Hips, lookup_delete_eq.
Qed.

(** C25: Exhaustion.  When every address the counter can produce is owned by a service
    entry that still exists (or whose lookup fails), the loop of nextAvailableIP
    never ends: no number of rounds returns. *)
Theorem nextAvailableIP_exhausted srv c fuel :
  counter_ok c ->
  (forall m, slot_used m -> exists key, serviceIPs c !! vip_string m = Some key /\
     client_Get srv key <> GetNotFound) ->
  nextAvailableIP fuel srv c = None.
Proof.
  intros Hc Hall. destruct (nextAvailableIP fuel srv c) as [[ip c']|] eqn:E; [|done].
  destruct (nextAvailableIP_spec _ _ _ _ _ E Hc) as (Hf & _ & _ & m & Hm & ->).
  destruct (Hall m Hm) as (key & Hl & Hne). unfold free_ip in Hf. by rewrite Hl in Hf.
Qed.

(** An entry whose update the API server refuses, as it does on a conflict, is left without
    an address: the failure is not returned, so that the entry is not queued again, while the
    address tried is not offered again before the counter wraps. *)
Theorem failed_update_dropped fuel srv c key s srv' c' r :
  client_Get srv key = GetOk s -> se_Resolution s <> NONE -> se_Addresses s = [] ->
  (forall s', exists srv' e, client_Update srv key s' = (srv', Some e)) ->
  Reconcile fuel srv c key = Some (srv', c', r) ->
  r = None /\ client_Get srv' key = GetOk s /\
  exists ip c1, nextAvailableIP fuel srv c = Some (ip, c1) /\ c' = c1.
Proof.
  intros Hs Hres Ha Hfail. unfold Reconcile, autoAllocateIP. rewrite Hs, bool_decide_false, Ha by done.
  destruct (nextAvailableIP fuel srv c) as [[ip c1]|]; [|done]. cbn. unfold updateServiceEntry.
  destruct (Hfail (set_addresses s [ip])) as (srv1 & e & Hu). rewrite Hu. cbn. intros [= <- <- <-].
  split_and!; [done| |by eauto]. by rewrite (Get_Update_err _ _ _ _ _ _ Hu).
Qed.
End properties.

(** Range of the generated addresses.  The counter stays within 0..255*255, both
    printed octets are at most 254, distinct slots print distinct addresses, and the
    last octet is zero only for 240.240.0.0, which is handed out exactly when the
    counter wraps. *)
Theorem getNextIP_range c :
  counter_ok c ->
  exists m, getNextIP c = (vip_string m, {| serviceIPs := serviceIPs c; maxIP := m + 1 |}) /\
    0 <= Z.quot m 255 <= 254 /\ 0 <= Z.rem m 255 <= 254 /\ 1 <= m + 1 <= 255 * 255 /\
    (Z.rem m 255 = 0 <-> maxIP c = 255 * 255) /\
    (fst (getNextIP c) = "240.240.0.0" <-> maxIP c = 255 * 255).
Proof.
  intros Hc. exists (next_slot (maxIP c)). rewrite getNextIP_slot.
  pose proof (next_slot_range _ Hc) as Hr. split; [done|].
  assert (Hz : next_slot (maxIP c) = 0 <-> maxIP c = 255 * 255).
  { unfold counter_ok in Hc. unfold next_slot. repeat case_match; div_lia. }
  assert (Hz' : Z.rem (next_slot (maxIP c)) 255 = 0 <-> next_slot (maxIP c) = 0).
  { destruct (next_slot_used _ Hc) as [_ [->|Hne]]; [done|]. split; [done|]. by intros ->. }
  split; [div_lia|split; [div_lia|split; [lia|split; [by rewrite Hz'|]]]].
  simpl. rewrite <- Hz. split; [|by intros ->].
  intros He. apply (vip_string_inj _ 0); [lia|done|]. exact He.
Qed.

Lemma vip_string4 m : vip_string m = string4 [240; 240; Z.quot m 255; Z.rem m 255].
Proof. unfold string4. cbn. replace (Itoa 240) with "240" by (by vm_compute). done. Qed.

(** C16: Every address that the allocation loop returns is an IPv4 address of 240.240.0.0/16 as
    [net.ParseIP] reads it, with third and fourth byte at most 254; the fourth is zero only in
    240.240.0.0. *)
Theorem allocated_vip_in_subnet {Server} `{ServiceEntryClient Server} fuel (srv : Server) c ip c' :
  nextAvailableIP fuel srv c = Some (ip, c') -> counter_ok c ->
  exists hi lo, ParseIP ip = Some (v4InV6Prefix ++ [240; 240; hi; lo]) /\
    0 <= hi <= 254 /\ 0 <= lo <= 254 /\ (lo = 0 -> hi = 0).
Proof.
  intros Hn Hc. destruct (nextAvailableIP_spec _ _ _ _ _ Hn Hc) as (_ & _ & _ & m & [Hm Hz] & ->).
  exists (Z.quot m 255), (Z.rem m 255). rewrite vip_string4. split; [|div_lia].
  apply ParseIP_dotted. repeat constructor; unfold is_byte; div_lia.
Qed.

(** ** The loop and its specification *)
(** The slots that the counter visits from [x] on. *)
Fixpoint slots (n : nat) (x : Z) : list Z :=
  match n with
  | O => []
  | S n => next_slot x :: slots n (next_slot x + 1)
  end.

Section reference.
Context {Server : Type} `{ServiceEntryClient Server}.

Global Instance free_ip_dec (srv : Server) ips ip : Decision (free_ip srv ips ip).
Proof.
  unfold free_ip. destruct (ips !! ip) as [key|]; [|left; done].
  destruct (client_Get srv key); [right; discriminate|left; reflexivity|right; discriminate].
Defined.

(** C15: Equivalence with a reference definition: within any number of rounds the loop
    returns the first address, in the order of the counter, that is unrecorded or whose
    owner is gone; it forgets the record of that address and leaves the counter just behind
    it; and it returns nothing exactly when none of these addresses is free. *)
Theorem nextAvailableIP_first_free fuel (srv : Server) c :
  nextAvailableIP fuel srv c =
  match list_find (fun m => free_ip srv (serviceIPs c) (vip_string m)) (slots fuel (maxIP c)) with
  | Some (_, m) => Some (vip_string m, {| serviceIPs := delete (vip_string m) (serviceIPs c); maxIP := m + 1 |})
  | None => None
  end.
Proof.
  revert c. induction fuel as [|fuel IH]; intros c; [done|]. cbn [nextAvailableIP slots list_find].
  rewrite getNextIP_slot. set (m := next_slot (maxIP c)). cbn [serviceIPs].
  specialize (IH {| serviceIPs := serviceIPs c; maxIP := m + 1 |}). cbn [serviceIPs maxIP] in IH.
  assert (Hnext : match prod_map S id <$> list_find (fun m => free_ip srv (serviceIPs c) (vip_string m)) (slots fuel (m + 1)) with
    | Some (_, m) => Some (vip_string m, {| serviceIPs := delete (vip_string m) (serviceIPs c); maxIP := m + 1 |})
    | None => None end = nextAvailableIP fuel srv {| serviceIPs := serviceIPs c; maxIP := m + 1 |}).
  { rewrite IH. by destruct (list_find _ _) as [[i t]|]. }
  case_decide as Hfree; unfold free_ip in Hfree; destruct (serviceIPs c !! vip_string m) as [key|] eqn:Hl.
  - by rewrite Hfree.
  - by rewrite delete_id.
  - rewrite Hnext. by destruct (client_Get srv key).
  - by destruct Hfree.
Qed.
End reference.

(** ** Witnesses *)
Definition demo_se (addrs : list string) : ServiceEntry :=
  {| se_Hosts := ["a"]; se_Addresses := addrs; se_Ports := []; se_Resolution := STATIC;
     se_WorkloadSelector := None |}.
Definition demo_server : gmap ObjectKey ServiceEntry :=
  <[("ns", "b") := demo_se ["240.240.0.1"]]> (<[("ns", "a") := demo_se ["240.240.0.1"]]> ∅).

Lemma reconcile_all_unique_vips_witness :
  exists srv' c', reconcile_all (Z.to_nat 65026) demo_server newServiceEntryController
    [("ns", "a"); ("ns", "b")] = Some (srv', c').
Proof.
  destruct (reconcile_all_unique_vips demo_server newServiceEntryController
    [("ns", "a"); ("ns", "b")]) as (srv' & c' & Hr & _).
  - unfold counter_ok; simpl; lia.
  - by vm_compute.
  - exists srv', c'. exact Hr.
Defined.

Lemma reconcile_isolates_witness :
  exists srv' c' e, Reconcile 3 demo_server newServiceEntryController ("ns", "a") = Some (srv', c', e) /\
    client_Get srv' ("ns", "b") = client_Get demo_server ("ns", "b").
Proof.
  destruct (Reconcile 3 demo_server newServiceEntryController ("ns", "a"))
    as [[[srv' c'] e]|] eqn:E;
    [|apply (f_equal (fun r => match r with Some _ => true | None => false end)) in E;
      vm_compute in E; discriminate E].
  exists srv', c', e. split; [reflexivity|].
  apply (reconcile_isolates 3 demo_server newServiceEntryController ("ns", "a") srv' c' e).
  - unfold counter_ok; simpl; lia.
  - exact E.
  - discriminate.
Defined.

Lemma nextAvailableIP_total_witness :
  exists ip c', nextAvailableIP (Z.to_nat 65026) demo_server newServiceEntryController = Some (ip, c').
Proof.
  destruct (nextAvailableIP_total demo_server newServiceEntryController) as (ip & c' & Hn & _).
  - unfold counter_ok; simpl; lia.
  - by vm_compute.
  - exists ip, c'. exact Hn.
Defined.

Lemma allocated_vip_in_subnet_witness :
  exists hi lo, ParseIP "240.240.0.1" = Some (v4InV6Prefix ++ [240; 240; hi; lo]) /\ 0 <= lo <= 254.
Proof.
  destruct (nextAvailableIP 1 demo_server newServiceEntryController) as [[ip c']|] eqn:E; [|vm_compute in E; discriminate E].
  destruct (allocated_vip_in_subnet 1 demo_server newServiceEntryController ip c' E) as (hi & lo & Hp & _ & Hlo & _);
    [unfold counter_ok; simpl; lia|].
  vm_compute in E. injection E as <- <-. exists hi, lo. split; [exact Hp|exact Hlo].
Defined.

(** A map in which one live service entry owns every address of the pool. *)
Definition full_ips : gmap string ObjectKey :=
  list_to_map ((fun m => (vip_string m, ("ns", "a"))) <$> seqZ 0 (255 * 255)).

Lemma full_ips_lookup m : 0 <= m < 255 * 255 -> full_ips !! vip_string m = Some ("ns", "a").
Proof.
  intros Hm. unfold full_ips.
  assert (m ∈ seqZ 0 (255 * 255)) as Hin by (apply elem_of_seqZ; lia).
  revert Hin. generalize (seqZ 0 (255 * 255)). induction l as [|x l IH]; simpl.
  - by intros ?%elem_of_nil.
  - intros [->|Hin]%elem_of_cons; [by rewrite lookup_insert_eq|].
    destruct (decide (vip_string x = vip_string m)) as [->|Hne]; [by rewrite lookup_insert_eq|].
    rewrite lookup_insert_ne by done. by apply IH.
Qed.

Lemma nextAvailableIP_exhausted_witness :
  nextAvailableIP 100 demo_server {| serviceIPs := full_ips; maxIP := 7 |} = None.
Proof.
  apply nextAvailableIP_exhausted.
  - unfold counter_ok; cbn [maxIP]; lia.
  - intros m [Hm _]. exists ("ns", "a"). split; [by apply full_ips_lookup|done].
Defined.

Lemma getNextIP_range_witness :
  counter_ok {| serviceIPs := ∅; maxIP := 255 * 255 |} /\
  fst (getNextIP {| serviceIPs := ∅; maxIP := 255 * 255 |}) = "240.240.0.0".
Proof.
  split; [unfold counter_ok; simpl; lia|].
  destruct (getNextIP_range {| serviceIPs := ∅; maxIP := 255 * 255 |}) as (m & _ & _ & _ & _ & _ & H).
  - unfold counter_ok; simpl; lia.
  - apply H. reflexivity.
Defined.

(** The cases of the repository's own unit test. *)
Example nextAvailableIP_test_first :
  fst <$> nextAvailableIP 5 demo_server newServiceEntryController = Some "240.240.0.1".
Proof. reflexivity. Qed.
Example nextAvailableIP_test_skip_255 :
  fst <$> nextAvailableIP 5 demo_server {| serviceIPs := ∅; maxIP := 255 |} = Some "240.240.1.1".
Proof. reflexivity. Qed.
Example nextAvailableIP_test_last_block :
  fst <$> nextAvailableIP 5 demo_server {| serviceIPs := ∅; maxIP := 255 * 254 + 100 |}
  = Some "240.240.254.100".
Proof. reflexivity. Qed.
