(* ===== verification/NetworkFilter.v ===== *)
(** * EnvoyFilter generation for a protocol proxy

    [src/internal/envoyfilter/network_filter.go], shared by all protocol plugins: it
    wraps a proxy message into one EnvoyFilter per outbound listener (service
    address) and one for the inbound listener.

    [proto.Message] is a Go interface: its values are the nil interface, a nil
    pointer with a type, or a message ([ProtoMessage]).  protojson is a parameter:
    [protojson_Marshal] and [protojson_Unmarshal]; constants of go-control-plane are
    the class [WellKnown].

    [inboundEnvoyFilterWorkloadSelector] writes into the label map of the service
    entry it is given when that map is present and empty; the model returns the
    service entry after the call. *)

From S2P Require Import Prelude Api Model.

Inductive ProtoMessage (M : Type) :=
| NilInterface
| NilPointer
| Message (m : M).
Arguments NilInterface {M}.
Arguments NilPointer {M}.
Arguments Message {M} m.

(** A typed Go pointer converted to the interface. *)
Definition of_pointer {M} (p : option M) : ProtoMessage M :=
  match p with Some m => Message m | None => NilPointer end.

Class ProtoJSON (M : Type) := protojson_Marshal : ProtoMessage M -> res string.
Class ProtoJSONStruct := protojson_Unmarshal : string -> res (gmap string PValue).
Class WellKnown := {
  TCPProxy : string; FileAccessLog : string; TransportSocketRawBuffer : string }.

Definition outboundEnvoyFilterName (host vip : string) (port : Z) : string :=
  "aeraki-outbound-" +:+ host +:+ "-" +:+ vip +:+ "-" +:+ Itoa port.

Definition inboundEnvoyFilterName (host : string) (port : Z) : string :=
  "aeraki-inbound-" +:+ host +:+ "-" +:+ Itoa port.

Definition hasInboundWorkloadSelector (selector : WorkloadSelector) : bool :=
  match ws_Labels selector with
  | Some labels => negb (bool_decide (size labels = 0%nat))
  | None => false
  end.

Definition set_selector (service : ServiceEntryWrapper) (sel : WorkloadSelector) : ServiceEntryWrapper :=
  {| sew_Meta := sew_Meta service;
     sew_Spec := {| se_Hosts := se_Hosts (sew_Spec service);
                    se_Addresses := se_Addresses (sew_Spec service);
                    se_Ports := se_Ports (sew_Spec service);
                    se_Resolution := se_Resolution (sew_Spec service);
                    se_WorkloadSelector := Some sel |} |}.

(** The labels the annotation asks for, added to an empty label map. *)
Definition annotation_labels (service : ServiceEntryWrapper) : gmap string string :=
  let label := ReplaceAll (lookup_str (m_Annotations (sew_Meta service)) "workloadSelector") " " "" in
  match Split label ":" with
  | [_] => <["app" := label]> ∅
  | [k; v] => <[k := v]> ∅
  | _ => ∅
  end.

(** Returns the selector and the service entry after the call: a label map that is
    present and empty is written in place. *)
Definition inboundEnvoyFilterWorkloadSelector (service : ServiceEntryWrapper)
    : WorkloadSelector * ServiceEntryWrapper :=
  let shared := match se_WorkloadSelector (sew_Spec service) with
                | Some sel => ws_Labels sel
                | None => None
                end in
  match shared with
  | None => ({| ws_Labels := Some (annotation_labels service) |}, service)
  | Some labels =>
      if bool_decide (size labels = 0%nat) then
        let sel := {| ws_Labels := Some (annotation_labels service) |} in
        (sel, set_selector service sel)
      else ({| ws_Labels := Some labels |}, service)
  end.

Section generate.
Context {M : Type} `{ProtoJSON M, ProtoJSONStruct, WellKnown}.

Definition generateValue (proxy : ProtoMessage M) (filterName filterType : string) : res PValue :=
  match protojson_Marshal proxy with
  | Err e => Err e
  | Ok buf =>
      match protojson_Unmarshal buf with
      | Err e => Err e
      | Ok value =>
          let out := <["value" := StructValue value]> (<["type_url" := StringValue filterType]>
            (<["@type" := StringValue "type.googleapis.com/udpa.type.v1.TypedStruct"]> ∅)) in
          Ok (StructValue (<["typed_config" := StructValue out]>
                          (<["name" := StringValue filterName]> ∅)))
      end
  end.

Definition outboundProxyPatch (addr : string) (port : ServicePort)
    (operation : PatchOperation) (value : PValue) : EnvoyConfigObjectPatch :=
  {| cp_ApplyTo := NETWORK_FILTER;
     cp_Match := Some (ListenerMatch (addr +:+ "_" +:+ Itoa (sp_Number port)) 0 TCPProxy);
     cp_Operation := operation;
     cp_Value := Some value |}.

Definition inboundProxyPatch (port : ServicePort) (operation : PatchOperation) (value : PValue)
    : EnvoyConfigObjectPatch :=
  {| cp_ApplyTo := NETWORK_FILTER;
     cp_Match := Some (ListenerMatch "virtualInbound" (sp_Number port) TCPProxy);
     cp_Operation := operation;
     cp_Value := Some value |}.

Definition generateOutboundListenerEnvoyFilters (service : ServiceEntryWrapper) (port : ServicePort)
    (outboundProxy : ProtoMessage M) (filterName filterType : string) (operation : PatchOperation)
    : outcome (list EnvoyFilterWrapper) :=
  match generateValue outboundProxy filterName filterType with
  | Err _ => Ret []
  | Ok value =>
      map_panic (fun addr =>
        host ← index (se_Hosts (sew_Spec service)) 0;
        Ret {| efw_Name := outboundEnvoyFilterName host addr (sp_Number port);
               efw_Namespace := "";
               efw_Envoyfilter := {| ef_WorkloadSelector := None;
                 ef_ConfigPatches := [outboundProxyPatch addr port operation value] |} |})
        (se_Addresses (sew_Spec service))
  end.

Definition generateInboundListenerEnvoyFilters (service : ServiceEntryWrapper) (port : ServicePort)
    (inboundProxy : ProtoMessage M) (filterName filterType : string) (operation : PatchOperation)
    (workloadSelector : WorkloadSelector) : outcome (list EnvoyFilterWrapper) :=
  match generateValue inboundProxy filterName filterType with
  | Err _ => Ret []
  | Ok value =>
      host ← index (se_Hosts (sew_Spec service)) 0;
      Ret [{| efw_Name := inboundEnvoyFilterName host (sp_Number port);
              efw_Namespace := "";
              efw_Envoyfilter := {| ef_WorkloadSelector := Some workloadSelector;
                ef_ConfigPatches := [inboundProxyPatch port operation value] |} |}]
  end.

(** The filters, and the service entry after the call. *)
Definition generateNetworkFilter (service : ServiceEntryWrapper) (port : ServicePort)
    (outboundProxy inboundProxy : ProtoMessage M) (filterName filterType : string)
    (operation : PatchOperation) : outcome (list EnvoyFilterWrapper * ServiceEntryWrapper) :=
  outs ← match outboundProxy with
         | NilInterface => Ret []
         | _ => generateOutboundListenerEnvoyFilters service port outboundProxy filterName filterType operation
         end;
  let '(selector, service') := inboundEnvoyFilterWorkloadSelector service in
  ins ← match inboundProxy with
        | NilInterface => Ret []
        | _ => if hasInboundWorkloadSelector selector
               then generateInboundListenerEnvoyFilters service' port inboundProxy filterName filterType
                      operation selector
               else Ret []
        end;
  Ret (outs ++ ins, service').

Definition GenerateInsertBeforeNetworkFilter (service : ServiceEntryWrapper)
    (outboundProxy inboundProxy : ProtoMessage M) (filterName filterType : string)
    : outcome (list EnvoyFilterWrapper * ServiceEntryWrapper) :=
  port ← index (se_Ports (sew_Spec service)) 0;
  generateNetworkFilter service port outboundProxy inboundProxy filterName filterType INSERT_BEFORE.

Definition GenerateReplaceNetworkFilter (service : ServiceEntryWrapper) (port : ServicePort)
    (outboundProxy inboundProxy : ProtoMessage M) (filterName filterType : string)
    : outcome (list EnvoyFilterWrapper * ServiceEntryWrapper) :=
  generateNetworkFilter service port outboundProxy inboundProxy filterName filterType REPLACE.
End generate.

(** ** Names *)
Lemma outboundEnvoyFilterName_vip_inj host vip vip' port :
  0 <= port -> outboundEnvoyFilterName host vip port = outboundEnvoyFilterName host vip' port -> vip = vip'.
Proof.
  unfold outboundEnvoyFilterName. intros Hp Heq. do 3 apply str_app_inv_head in Heq.
  by apply (sep_inj_r vip vip' (Itoa port) (Itoa port) "-") in Heq as [? _]; [|by apply Itoa_nonneg_free..].
Qed.

Lemma outboundEnvoyFilterName_inj host vip port host' vip' port' :
  ContainsChar vip "-" = false -> ContainsChar vip' "-" = false -> 0 <= port -> 0 <= port' ->
  outboundEnvoyFilterName host vip port = outboundEnvoyFilterName host' vip' port' ->
  host = host' /\ vip = vip' /\ port = port'.
Proof.
  unfold outboundEnvoyFilterName. intros Hv Hv' Hp Hp' Heq. apply str_app_inv_head in Heq.
  rewrite <- !(str_app_assoc host), <- !(str_app_assoc (host +:+ "-")) in Heq.
  rewrite <- !(str_app_assoc host'), <- !(str_app_assoc (host' +:+ "-")) in Heq.
  apply (sep_inj_r _ _ (Itoa port) (Itoa port') "-") in Heq as [Heq Hport];
    [|by apply Itoa_nonneg_free..].
  rewrite !str_app_assoc in Heq.
  apply (sep_inj_r host host' vip vip' "-") in Heq as [-> ->]; [|done|done].
  by apply Itoa_inj in Hport.
Qed.

(** ** The filters generated for a service

    What is expected, written out: one patch of the TCP proxy filter of one listener, with
    the configuration of the proxy as a typed struct. *)
Definition filter_value (filterName filterType : string) (fields : gmap string PValue) : PValue :=
  StructValue (list_to_map
    [("name", StringValue filterName);
     ("typed_config", StructValue (list_to_map
        [("@type", StringValue "type.googleapis.com/udpa.type.v1.TypedStruct");
         ("type_url", StringValue filterType);
         ("value", StructValue fields)]))]).

Section expected.
Context `{WellKnown}.

Definition one_listener (sel : option WorkloadSelector) (listener : string) (number : Z) (op : PatchOperation)
    (v : PValue) : EnvoyFilter :=
  {| ef_WorkloadSelector := sel;
     ef_ConfigPatches := [{| cp_ApplyTo := NETWORK_FILTER; cp_Match := Some (ListenerMatch listener number TCPProxy);
                             cp_Operation := op; cp_Value := Some v |}] |}.

(** The listener of an address and a port: "address_port". *)
Definition expected_outbound (host : string) (port : ServicePort) (op : PatchOperation) (v : PValue)
    (addr : string) : EnvoyFilterWrapper :=
  {| efw_Name := "aeraki-outbound-" +:+ host +:+ "-" +:+ addr +:+ "-" +:+ Itoa (sp_Number port);
     efw_Namespace := "";
     efw_Envoyfilter := one_listener None (addr +:+ "_" +:+ Itoa (sp_Number port)) 0 op v |}.

(** The inbound listener, at the port. *)
Definition expected_inbound (host : string) (port : ServicePort) (op : PatchOperation) (v : PValue)
    (sel : WorkloadSelector) : EnvoyFilterWrapper :=
  {| efw_Name := "aeraki-inbound-" +:+ host +:+ "-" +:+ Itoa (sp_Number port);
     efw_Namespace := "";
     efw_Envoyfilter := one_listener (Some sel) "virtualInbound" (sp_Number port) op v |}.

Lemma expected_names_NoDup host port op v sel vi (addrs : list string) (b : bool) :
  0 <= sp_Number port -> NoDup addrs ->
  NoDup (efw_Name <$> ((expected_outbound host port op v <$> addrs) ++
                       (if b then [expected_inbound host port op vi sel] else []))).
Proof.
  intros Hp Hnd. rewrite fmap_app, <- list_fmap_compose. apply NoDup_app. split; [|split].
  - apply NoDup_fmap_2_strong; [|done]. intros a a' _ _ Heq.
    by apply (outboundEnvoyFilterName_vip_inj host a a' (sp_Number port)).
  - intros n (a & -> & _)%list_elem_of_fmap Hn. destruct b; simpl in Hn;
      [apply list_elem_of_singleton in Hn; discriminate Hn|by apply elem_of_nil in Hn].
  - destruct b; simpl; [apply NoDup_singleton|constructor].
Qed.
End expected.

Lemma selector_hosts service :
  se_Hosts (sew_Spec (snd (inboundEnvoyFilterWorkloadSelector service))) = se_Hosts (sew_Spec service).
Proof. unfold inboundEnvoyFilterWorkloadSelector. by repeat case_match. Qed.

Section properties.
Context {M : Type} `{ProtoJSON M, ProtoJSONStruct, WellKnown}.

(** The message has a JSON form with these fields. *)
Definition marshals (p : ProtoMessage M) (fields : gmap string PValue) : Prop :=
  exists buf, protojson_Marshal p = Ok buf /\ protojson_Unmarshal buf = Ok fields.

Lemma generateValue_marshals p name ty fields :
  marshals p fields -> generateValue p name ty = Ok (filter_value name ty fields).
Proof. intros (buf & Hm & Hu). unfold generateValue. rewrite Hm, Hu. reflexivity. Qed.

Lemma hasInboundWorkloadSelector_spec sel :
  hasInboundWorkloadSelector sel = negb (bool_decide (default ∅ (ws_Labels sel) = ∅)).
Proof.
  unfold hasInboundWorkloadSelector. destruct (ws_Labels sel) as [labels|]; cbn; [|by rewrite bool_decide_true].
  f_equal. apply bool_decide_ext. apply map_size_empty_iff.
Qed.

Lemma generateNetworkFilter_spec service port (o i : ProtoMessage M) name ty op h hs vo vi sel service' :
  se_Hosts (sew_Spec service) = h :: hs -> o <> NilInterface -> i <> NilInterface ->
  generateValue o name ty = Ok vo -> generateValue i name ty = Ok vi ->
  inboundEnvoyFilterWorkloadSelector service = (sel, service') ->
  generateNetworkFilter service port o i name ty op =
    Ret ((expected_outbound h port op vo <$> se_Addresses (sew_Spec service)) ++
         (if hasInboundWorkloadSelector sel then [expected_inbound h port op vi sel] else []), service').
Proof.
  intros Hh Ho Hi Hvo Hvi Es.
  pose proof (selector_hosts service) as Hh'. rewrite Es, Hh in Hh'. simpl in Hh'.
  unfold generateNetworkFilter, generateOutboundListenerEnvoyFilters, generateInboundListenerEnvoyFilters.
  rewrite Es, Hvo, Hvi, Hh, Hh'.
  erewrite (map_panic_Ret _ (expected_outbound h port op vo)) by (intros; reflexivity).
  destruct o, i; try done; simpl; by destruct (hasInboundWorkloadSelector sel).
Qed.

(** The service entry is left as it was but for its workload selector. *)
Lemma generateNetworkFilter_frame service port (o i : ProtoMessage M) name ty op fs s' :
  generateNetworkFilter service port o i name ty op = Ret (fs, s') ->
  sew_Meta s' = sew_Meta service /\ se_Hosts (sew_Spec s') = se_Hosts (sew_Spec service) /\
  se_Ports (sew_Spec s') = se_Ports (sew_Spec service) /\
  se_Addresses (sew_Spec s') = se_Addresses (sew_Spec service).
Proof.
  unfold generateNetworkFilter. intros (outs & _ & Hg)%bind_Ret_inv.
  destruct (inboundEnvoyFilterWorkloadSelector service) as [sel s1] eqn:Es.
  apply bind_Ret_inv in Hg as (ins & _ & [= _ <-]).
  revert Es. unfold inboundEnvoyFilterWorkloadSelector. by repeat case_match; intros [= _ <-].
Qed.

(** Whatever the proxies, every filter generated is one of the expected ones. *)
Lemma generateNetworkFilter_elem service port (o i : ProtoMessage M) name ty op fs s' w :
  generateNetworkFilter service port o i name ty op = Ret (fs, s') -> w ∈ fs ->
  exists h v, index (se_Hosts (sew_Spec service)) 0 = Ret h /\
    ((exists addr, addr ∈ se_Addresses (sew_Spec service) /\ w = expected_outbound h port op v addr) \/
     (exists sel, hasInboundWorkloadSelector sel = true /\ w = expected_inbound h port op v sel)).
Proof.
  unfold generateNetworkFilter. intros (outs & Ho & Hrest)%bind_Ret_inv.
  destruct (inboundEnvoyFilterWorkloadSelector service) as [sel s1] eqn:Es.
  pose proof (selector_hosts service) as Hh. rewrite Es in Hh. cbn [snd] in Hh.
  apply bind_Ret_inv in Hrest as (ins & Hi & [= <- <-]). intros [Hw|Hw]%elem_of_app.
  - assert (Hout : generateOutboundListenerEnvoyFilters service port o name ty op = Ret outs)
      by (destruct o; [injection Ho as <-; by apply elem_of_nil in Hw|done..]).
    unfold generateOutboundListenerEnvoyFilters in Hout.
    destruct (generateValue o name ty) as [v|e]; [|injection Hout as <-; by apply elem_of_nil in Hw].
    apply map_panic_inv in Hout. apply list_elem_of_lookup in Hw as [k Hk].
    destruct (Forall2_lookup_r _ _ _ _ _ Hout Hk) as (addr & Ha%list_elem_of_lookup_2 & Hf).
    apply bind_Ret_inv in Hf as (h & Hh0 & [= <-]). exists h, v. split; [done|]. left. by exists addr.
  - destruct (hasInboundWorkloadSelector sel) eqn:Ehas;
      [|by destruct i; injection Hi as <-; apply elem_of_nil in Hw].
    assert (Hin : generateInboundListenerEnvoyFilters s1 port i name ty op sel = Ret ins)
      by (destruct i; [injection Hi as <-; by apply elem_of_nil in Hw|done..]).
    unfold generateInboundListenerEnvoyFilters in Hin.
    destruct (generateValue i name ty) as [v|e]; [|injection Hin as <-; by apply elem_of_nil in Hw].
    apply bind_Ret_inv in Hin as (h & Hh0 & [= <-]). apply list_elem_of_singleton in Hw as ->.
    exists h, v. rewrite Hh in Hh0. split; [done|]. right. by exists sel.
Qed.

(** C13: For a service with a host, proxies that are present and have a JSON form, and
    distinct addresses, generation does not panic: it gives exactly one filter per service
    address, in order, with the outbound proxy as the TCP proxy of the listener named after
    that address and port, then, if and only if the workload selector has labels, one with
    the inbound proxy as the TCP proxy of the inbound listener at the port, for the workloads
    of the selector; all filter names differ. *)
Theorem network_filters_per_listener service port (o i : ProtoMessage M) name ty op h hs fo fi :
  se_Hosts (sew_Spec service) = h :: hs ->
  o <> NilInterface -> i <> NilInterface -> marshals o fo -> marshals i fi ->
  0 <= sp_Number port -> NoDup (se_Addresses (sew_Spec service)) ->
  exists sel service' fs,
    inboundEnvoyFilterWorkloadSelector service = (sel, service') /\
    generateNetworkFilter service port o i name ty op = Ret (fs, service') /\
    fs = (expected_outbound h port op (filter_value name ty fo) <$> se_Addresses (sew_Spec service)) ++
         (if decide (default ∅ (ws_Labels sel) = ∅) then []
          else [expected_inbound h port op (filter_value name ty fi) sel]) /\
    NoDup (efw_Name <$> fs).
Proof.
  intros Hh Ho Hi Hvo%(generateValue_marshals _ name ty) Hvi%(generateValue_marshals _ name ty) Hp Hnd.
  destruct (inboundEnvoyFilterWorkloadSelector service) as [sel service'] eqn:Es.
  eexists sel, service', _. split; [done|]. split; [by apply (generateNetworkFilter_spec _ _ _ _ _ _ _ h hs)|].
  split; [|by apply expected_names_NoDup].
  rewrite hasInboundWorkloadSelector_spec, decide_bool_decide. by case_bool_decide.
Qed.
End properties.

(** The annotation gives no label exactly when it has more than one colon. *)
Lemma annotation_labels_size service :
  size (annotation_labels service) = 0%nat <->
  (2 < length (Split (ReplaceAll (lookup_str (m_Annotations (sew_Meta service)) "workloadSelector") " " "") ":"))%nat.
Proof.
  unfold annotation_labels. set (label := ReplaceAll _ _ _). clearbody label.
  pose proof (Split_nonempty label ":").
  destruct (Split label ":") as [|a [|b [|c l]]]; [done|..];
    rewrite ?insert_empty, ?map_size_singleton, ?map_size_empty; cbn [length]; lia.
Qed.

Lemma annotation_labels_none service :
  ReplaceAll (lookup_str (m_Annotations (sew_Meta service)) "workloadSelector") " " "" = "" ->
  annotation_labels service = {["app" := ""]}.
Proof. unfold annotation_labels. by intros ->. Qed.

Lemma hasInboundWorkloadSelector_false m :
  hasInboundWorkloadSelector {| ws_Labels := Some m |} = false <-> size m = 0%nat.
Proof. unfold hasInboundWorkloadSelector. simpl. by rewrite negb_false_iff, bool_decide_eq_true. Qed.

Lemma inbound_selector_idemp service sel service' :
  inboundEnvoyFilterWorkloadSelector service = (sel, service') ->
  inboundEnvoyFilterWorkloadSelector service' = (sel, service').
Proof.
  unfold inboundEnvoyFilterWorkloadSelector.
  destruct (se_WorkloadSelector (sew_Spec service)) as [[[labels|]]|] eqn:Esel; cbn [ws_Labels].
  - case_bool_decide as Hl; intros [= <- <-]; cbn; [by case_bool_decide|].
    rewrite Esel. cbn. by rewrite bool_decide_false.
  - intros [= <- <-]. by rewrite Esel.
  - intros [= <- <-]. by rewrite Esel.
Qed.

(** The inbound selector is stable (asking again, on the service entry as the first
    call left it, gives the same selector and changes nothing), it is the entry's own
    labels when there are any, and it is empty exactly when the entry has no labels and
    the annotation has more than one colon: an entry with neither labels nor annotation
    gets a selector on the label app with an empty value. *)
Theorem inbound_selector_stable service :
  let '(sel, service') := inboundEnvoyFilterWorkloadSelector service in
  let own := default ∅ (se_WorkloadSelector (sew_Spec service) ≫= ws_Labels) in
  let label := ReplaceAll (lookup_str (m_Annotations (sew_Meta service)) "workloadSelector") " " "" in
  inboundEnvoyFilterWorkloadSelector service' = (sel, service') /\
  (own <> ∅ -> ws_Labels sel = Some own) /\
  (hasInboundWorkloadSelector sel = false <-> own = ∅ /\ (2 < length (Split label ":"))%nat) /\
  (own = ∅ -> label = "" -> ws_Labels sel = Some {["app" := ""]}).
Proof.
  set (label := ReplaceAll _ _ _).
  pose proof (annotation_labels_size service) as Hsize. fold label in Hsize.
  pose proof (annotation_labels_none service) as Hnone. fold label in Hnone.
  unfold inboundEnvoyFilterWorkloadSelector.
  destruct (se_WorkloadSelector (sew_Spec service)) as [[[labels|]]|] eqn:Esel; cbn [ws_Labels].
  - case_bool_decide as Hl; rewrite hasInboundWorkloadSelector_false.
    + apply map_size_empty_iff in Hl as ->. rewrite Hsize. cbn.
      split; [by case_bool_decide|]. split; [done|]. split; [naive_solver|]. intros _ Hlab. by rewrite Hnone.
    + rewrite Esel. cbn [default mbind option_bind from_option ws_Labels].
      rewrite bool_decide_false by done. rewrite map_size_empty_iff in *. naive_solver.
  - rewrite Esel, hasInboundWorkloadSelector_false, Hsize. cbn. naive_solver congruence.
  - rewrite Esel, hasInboundWorkloadSelector_false, Hsize. cbn. naive_solver congruence.
Qed.

(** ** A concrete instance *)
Definition demo_json : ProtoJSON string := fun m =>
  match m with Message s => Ok s | NilPointer => Ok "{}" | NilInterface => Err "nil" end.
Definition demo_json_struct : ProtoJSONStruct := fun s =>
  if HasPrefix s "{" then Ok {["json" := StringValue s]} else Err "not an object".
Definition demo_well_known : WellKnown :=
  {| TCPProxy := "envoy.filters.network.tcp_proxy"; FileAccessLog := "envoy.access_loggers.file";
     TransportSocketRawBuffer := "envoy.transport_sockets.raw_buffer" |}.
Definition demo_port : ServicePort :=
  {| sp_Number := 20880; sp_Protocol := "tcp"; sp_Name := "tcp-metaprotocol-dubbo"; sp_TargetPort := 20880 |}.
Definition demo_service : ServiceEntryWrapper :=
  {| sew_Meta := {| m_GroupVersionKind := GvkServiceEntry; m_Name := "demo"; m_Namespace := "ns";
                    m_Labels := ∅; m_Annotations := {["workloadSelector" := "app: demo"]} |};
     sew_Spec := {| se_Hosts := ["demo.svc"]; se_Addresses := ["240.240.0.1"; "240.240.0.2"];
                    se_Ports := [demo_port]; se_Resolution := STATIC; se_WorkloadSelector := None |} |}.

Lemma network_filters_per_listener_witness :
  exists sel service' fs,
    inboundEnvoyFilterWorkloadSelector demo_service = (sel, service') /\
    @generateNetworkFilter string demo_json demo_json_struct demo_well_known demo_service demo_port
      (Message "{o}") (Message "{i}") "f" "t" REPLACE = Ret (fs, service') /\ length fs = 3%nat.
Proof.
  destruct (@network_filters_per_listener string demo_json demo_json_struct demo_well_known
    demo_service demo_port (Message "{o}") (Message "{i}") "f" "t" REPLACE "demo.svc" []
    {["json" := StringValue "{o}"]} {["json" := StringValue "{i}"]}
    eq_refl ltac:(discriminate) ltac:(discriminate) (ex_intro _ "{o}" (conj eq_refl eq_refl))
    (ex_intro _ "{i}" (conj eq_refl eq_refl)) ltac:(discriminate) ltac:(apply (bool_decide_unpack _); vm_compute; exact I))
    as (sel & service' & fs & Hs & Hg & Hf & _).
  exists sel, service', fs. split; [exact Hs|]. split; [exact Hg|].
  rewrite Hf. vm_compute in Hs. injection Hs as <- <-. vm_compute. reflexivity.
Defined.
