(* ===== verification/EventLoop.v ===== *)
(** * The main loop of the controllers

    [mainLoop] of [src/internal/envoyfilter/controller.go] and of
    [src/internal/xds/cache_mgr.go], which are the same program around a different
    work function: events arrive on a channel of capacity 100, the loop passes them to a
    debouncer, and the debouncer runs a callback that does the work and, when it fails,
    sends another event, at most three times in a row.

    The debouncer (github.com/zhaohuabing/debounce) is modelled by what the loop relies
    on: after [Bounce] the callback is run once, at some later time.  Interleavings are
    explicit: a step is the environment sending an event, the loop receiving one, the
    debouncer firing, the stop channel being closed, or the loop taking the stop case. *)

From S2P Require Import Prelude.

Definition maxRetries : Z := 3.
Definition channelCapacity : Z := 100.

(** The callback of [mainLoop] after the work: the retry counter and whether an event is
    sent to the channel. *)
Definition callback (failed : bool) (retries : Z) : Z * bool :=
  if failed then
    if retries >=? maxRetries then (0, false)
    else (retries + 1, true)
  else (0, false).

(** [stale], [failures] and [tried] are ghost state, which no step of the program reads: an
    event arrived since the last successful run; how many runs in a row have failed, counted
    from the last successful one; a run was made since the last event arrived. *)
Record loop_state := {
  pending : Z; bounced : bool; retries : Z; stopped : bool;
  stale : bool; failures : Z; tried : bool }.

(** The loop has given up: the last event was tried, that run failed, and it was a fourth
    failure in a row (or an eighth, when it had given up before, and so on). *)
Definition given_up (s : loop_state) : Prop :=
  tried s = true /\ exists k, 0 < k /\ failures s = 4 * k.

Definition initial : loop_state :=
  {| pending := 0; bounced := false; retries := 0; stopped := false; stale := false;
     failures := 0; tried := false |}.

Inductive label := SendEvent | ReceiveEvent | Fire (failed : bool) | CloseStop | TakeStop.

Definition send (s : loop_state) : loop_state :=
  {| pending := pending s + 1; bounced := bounced s; retries := retries s; stopped := stopped s;
     stale := true; failures := failures s; tried := false |}.

Definition receive (s : loop_state) : loop_state :=
  {| pending := pending s - 1; bounced := true; retries := retries s; stopped := stopped s;
     stale := stale s; failures := failures s; tried := tried s |}.

Definition fire (failed : bool) (s : loop_state) : loop_state :=
  let '(r, push) := callback failed (retries s) in
  {| pending := if push then pending s + 1 else pending s; bounced := false; retries := r;
     stopped := stopped s; stale := if failed then stale s else false;
     failures := if failed then failures s + 1 else 0; tried := true |}.

Definition close_stop (s : loop_state) : loop_state :=
  {| pending := pending s; bounced := bounced s; retries := retries s; stopped := true;
     stale := stale s; failures := failures s; tried := tried s |}.

(** [break] inside [select] leaves the select only, so that taking the stop case changes
    nothing. A send blocks while the channel is full. *)
Inductive step : loop_state -> label -> loop_state -> Prop :=
| step_send s : pending s < channelCapacity -> step s SendEvent (send s)
| step_receive s : 0 < pending s -> step s ReceiveEvent (receive s)
| step_fire s failed : bounced s = true ->
    (snd (callback failed (retries s)) = true -> pending s < channelCapacity) ->
    step s (Fire failed) (fire failed s)
| step_close s : step s CloseStop (close_stop s)
| step_stop s : stopped s = true -> step s TakeStop s.

Definition any_step (s s' : loop_state) : Prop := exists l, step s l s'.
Definition reachable (s : loop_state) : Prop := rtc any_step initial s.

(** The steps the program takes on its own, stop apart. *)
Definition internal (l : label) : Prop := match l with ReceiveEvent | Fire _ => True | _ => False end.

Definition internal_step (s s' : loop_state) : Prop := exists l, internal l /\ step s l s'.
Definition run : nat -> loop_state -> loop_state -> Prop := nsteps internal_step.

Lemma callback_cases failed r :
  callback failed r = (0, false) \/ (failed = true /\ r < maxRetries /\ callback failed r = (r + 1, true)).
Proof.
  unfold callback. destruct failed; [|by left].
  destruct (r >=? maxRetries) eqn:E; [by left|right]. rewrite Z.geb_leb, Z.leb_gt in E. auto.
Qed.

Definition loop_inv (s : loop_state) : Prop :=
  (0 <= retries s <= maxRetries /\ exists k, 0 <= k /\ failures s = 4 * k + retries s) /\
  0 <= pending s <= channelCapacity /\
  (stale s = true -> 0 < pending s \/ bounced s = true \/ given_up s).

Lemma callback_counts failed r push r' k :
  0 <= r <= maxRetries -> callback failed r = (r', push) ->
  0 <= r' <= maxRetries /\
  (if failed then 4 * k + r + 1 = (if push then 4 * k + r' else 4 * (k + 1)) /\ (push = false -> r' = 0)
   else r' = 0 /\ push = false).
Proof.
  unfold maxRetries. intros Hr He. destruct (callback_cases failed r) as [Hc|(-> & Hlt & Hc)];
    unfold maxRetries in *; rewrite He in Hc; injection Hc as -> ->; [|lia].
  destruct failed; [|lia]. unfold callback, maxRetries in He. destruct (r >=? 3) eqn:E; [|congruence].
  rewrite Z.geb_leb, Z.leb_le in E. lia.
Qed.

Lemma fire_inv s failed :
  loop_inv s -> (snd (callback failed (retries s)) = true -> pending s < channelCapacity) ->
  loop_inv (fire failed s).
Proof.
  intros ([Hr (k & Hk & Hf)] & Hp & Hs) Hc. unfold fire, loop_inv, given_up.
  destruct (callback failed (retries s)) as [r push] eqn:E. simpl in *.
  destruct (callback_counts failed _ _ _ k Hr E) as [Hr' Hcases]. split_and!; [lia|lia|..].
  - destruct failed; [|exists 0; lia]. destruct Hcases as [He Hz]. destruct push; [exists k; lia|].
    exists (k + 1). rewrite (Hz eq_refl). lia.
  - destruct push; lia.
  - destruct push; [specialize (Hc eq_refl); lia|lia].
  - destruct failed; [|done]. intros _. destruct push; [left; lia|]. right; right. split; [done|].
    exists (k + 1). lia.
Qed.

Lemma step_inv s l s' : loop_inv s -> step s l s' -> loop_inv s'.
Proof.
  intros Hinv Hstep. destruct Hstep as [s Hc|s Hc|s failed Hb Hc|s|s Hst]; [| |by apply fire_inv|done..];
    destruct Hinv as (Hr & Hp & Hs); (split; [done|]); unfold channelCapacity in *; simpl; intuition lia.
Qed.

Lemma reachable_inv s : reachable s -> loop_inv s.
Proof.
  apply rtc_invariant.
  - intros a b Ha [l Hl]. by eapply step_inv.
  - split_and!; simpl; unfold maxRetries, channelCapacity; try done. by exists 0.
Qed.

(** C17: In every interleaving the retry counter stays within 0..3 and counts the runs that
    failed in a row, modulo four; the channel stays within its capacity; and no event is
    lost: as long as an event has arrived since the last successful run, another run is
    under way (an event is queued or the debouncer is armed), unless a run was made since
    the last event and it and the three runs before it all failed. *)
Theorem no_event_lost s :
  reachable s ->
  0 <= retries s <= 3 /\ retries s = failures s mod 4 /\ 0 <= pending s <= 100 /\
  (stale s = true ->
   0 < pending s \/ bounced s = true \/ (tried s = true /\ 4 <= failures s /\ failures s mod 4 = 0)).
Proof.
  intros [[Hr (k & Hk & Hf)] [Hp Hs]]%reachable_inv. unfold maxRetries, channelCapacity in *.
  split_and!; [lia..| |lia|lia|].
  - rewrite Hf. apply Z.mod_unique_pos with k; lia.
  - intros [?|[?|(Ht & k' & ?)]]%Hs; [auto..|]. right; right. split_and!; [done|lia|].
    replace (failures s) with (k' * 4) by lia. apply Z.mod_mul. lia.
Qed.

(** ** Termination of retries *)
Definition potential (s : loop_state) : Z :=
  8 * pending s + (if bounced s then 7 else 0) + 2 * (maxRetries - retries s).

Lemma potential_decreases s l s' :
  loop_inv s -> internal l -> step s l s' -> 0 <= potential s' < potential s.
Proof.
  intros Hinv Hl Hstep. pose proof (step_inv _ _ _ Hinv Hstep) as Hinv'.
  unfold loop_inv, maxRetries in *. unfold potential, maxRetries.
  split; [destruct (bounced s'); lia|].
  destruct Hstep as [s Hc|s Hc|s failed Hb Hc|s|s Hst]; simpl in *; try done.
  - destruct (bounced s); lia.
  - unfold fire in *. rewrite Hb.
    destruct (callback_cases failed (retries s)) as [He|(-> & Hlt & He)]; rewrite He in *; simpl in *; lia.
Qed.

Lemma loop_inv_potential t : loop_inv t -> 0 <= potential t.
Proof. intros (Hr & Hp & _). unfold potential. destruct (bounced t); lia. Qed.

Lemma potential_send t : potential (send t) = potential t + 8.
Proof. unfold potential. simpl. lia. Qed.

(** Without new events the loop comes to rest: from a reachable state the receives and
    callback runs number at most 8 per queued event plus 13, whatever the runs return, and
    when no such step is possible the channel is empty and the debouncer is not armed. *)
Theorem retries_terminate n s s' :
  reachable s -> run n s s' ->
  Z.of_nat n <= 8 * pending s + 13 /\
  ((forall l s'', internal l -> ~ step s' l s'') -> pending s' = 0 /\ bounced s' = false).
Proof.
  intros Hr Hrun. pose proof (reachable_inv s Hr) as Hinv.
  destruct (nsteps_measure internal_step loop_inv potential n s s') as [Hinv' Hn]; [|done..|].
  { intros a b Ha (l & Hl & Hstep). split; [by eapply step_inv|]. by eapply potential_decreases. }
  pose proof (loop_inv_potential s' Hinv').
  split.
  - unfold potential, loop_inv, maxRetries in *. destruct (bounced s); lia.
  - intros Hrest. destruct Hinv' as (_ & Hp' & _). split.
    + destruct (decide (0 < pending s')) as [Hpos|]; [|lia].
      by destruct (Hrest ReceiveEvent (receive s') I); constructor.
    + destruct (bounced s') eqn:Hb; [|done].
      by destruct (Hrest (Fire false) (fire false s') I); constructor.
Qed.

(** One event and a work function that always fails: the first run and three retries. *)
Definition fail_rounds (n : nat) (s : loop_state) : loop_state :=
  Nat.iter n (fun s => fire true (receive s)) s.

Example four_attempts :
  pending (fail_rounds 3 (send initial)) = 1 /\
  fail_rounds 4 (send initial) =
    {| pending := 0; bounced := false; retries := 0; stopped := false; stale := true;
       failures := 4; tried := true |}.
Proof. by vm_compute. Qed.

Lemma four_attempts_run : run 8 (send initial) (fail_rounds 4 (send initial)).
Proof.
  do 4 (eapply nsteps_l; [by exists ReceiveEvent; split; [exact I|constructor]|];
        eapply nsteps_l; [by exists (Fire true); split; [exact I|constructor]|]).
  vm_compute. constructor.
Defined.

Lemma no_event_lost_witness :
  stale (send initial) = true /\ (0 < pending (send initial) \/ bounced (send initial) = true \/
                                  tried (send initial) = true /\ 4 <= failures (send initial) /\
                                  failures (send initial) mod 4 = 0).
Proof.
  split; [reflexivity|].
  apply (no_event_lost (send initial)); [|reflexivity].
  apply rtc_once. exists SendEvent. constructor. reflexivity.
Defined.

Lemma retries_terminate_witness : Z.of_nat 8 <= 8 * pending (send initial) + 13.
Proof.
  apply (retries_terminate 8 (send initial) (fail_rounds 4 (send initial))).
  - apply rtc_once. exists SendEvent. constructor. reflexivity.
  - apply four_attempts_run.
Defined.

(** Closing the stop channel does not end the loop: once closed, the stop case can be
    taken again and again without effect, while events are still received and the callback
    still run as before. *)
Theorem stop_is_ignored s :
  stopped s = true ->
  step s TakeStop s /\ (forall l s', step s l s' -> stopped s' = true) /\
  (0 < pending s -> step s ReceiveEvent (receive s)) /\
  (bounced s = true -> step s (Fire false) (fire false s)).
Proof.
  intros Hs. split_and!; [by constructor|..].
  - intros l s' Hstep. destruct Hstep as [|? ?|? failed ? ?|?|]; try done.
    unfold fire. by destruct (callback failed _).
  - intros Hp. by constructor.
  - intros Hb. by constructor.
Qed.

Lemma stop_is_ignored_witness : step (close_stop (send initial)) TakeStop (close_stop (send initial)).
Proof. apply (stop_is_ignored (close_stop (send initial))). reflexivity. Defined.
