(* ===== verification/EnvoyFilterController.v ===== *)
(** * The EnvoyFilter controller

    [src/internal/envoyfilter/controller.go]: from the service entries, virtual
    services, gateways and MetaRouters to the EnvoyFilters (and, for gateways, the
    VirtualServices) on the API server.

    Parameters: the two typed clients ([ApiServer]), the result of listing MetaRouters,
    [proto.Equal].  The protocol plugins are behind the interface [Generator], as in
    the code. *)

From S2P Require Import Prelude Api ApiServer Model.

(** [envoyfilter.Generator]. *)
Definition Generator := EnvoyFilterContext -> outcome (list EnvoyFilterWrapper * option error).

Record Controller := {
  configStore : ConfigStore;
  metaRouterList : res (list MetaRouter);   (* MetaRouterControllerClient.List *)
  generators : gmap Instance_ Generator;
  namespaceScoped : bool;
  namespace : string;
  meshConfig : MeshConfig;
  protocolMap : gmap string Instance_ }.

Definition envoyFilterMapKey (name ns : string) : string := ns +:+ "-" +:+ name.
Definition virtualServiceMapKey (name namespace : string) : string := namespace +:+ "/" +:+ name.

Definition defaultEnvoyFilterNS (c : Controller) (serviceNS : string) : string :=
  if namespaceScoped c then serviceNS else namespace c.

(** ** Related resources *)
(** [for _, host := range hosts { if host == service.Hosts[0] {...} }]. *)
Fixpoint hosts_contain (hosts : list string) (service : ServiceEntry) : outcome bool :=
  match hosts with
  | [] => Ret false
  | host :: rest =>
      h0 ← index (se_Hosts service) 0;
      if String.eqb host h0 then Ret true else hosts_contain rest service
  end.

Fixpoint find_virtual_service (virtualServices : list Config) (service : ServiceEntry)
    : outcome (res (option VirtualServiceWrapper)) :=
  match virtualServices with
  | [] => Ret (Ok None)
  | config :: rest =>
      match asVirtualService (c_Spec config) with
      | None => Ret (Err ("failed in getting a virtual service: " +:+ m_Name (c_Meta config)))
      | Some vs =>
          found ← hosts_contain (vs_Hosts vs) service;
          if found : bool then Ret (Ok (Some {| vsw_Meta := c_Meta config; vsw_Spec := vs |}))
          else find_virtual_service rest service
      end
  end.

Definition findRelatedVirtualService (c : Controller) (service : ServiceEntry)
    : outcome (res (option VirtualServiceWrapper)) :=
  find_virtual_service (store_List (configStore c) GvkVirtualService "") service.

Fixpoint find_meta_router (items : list MetaRouter) (service : ServiceEntry)
    : outcome (option MetaRouter) :=
  match items with
  | [] => Ret None
  | mr :: rest =>
      found ← hosts_contain (mrs_Hosts (mtr_Spec mr)) service;
      if found : bool then Ret (Some mr) else find_meta_router rest service
  end.

Definition findRelatedMetaRouter (c : Controller) (service : ServiceEntry)
    : outcome (res (option MetaRouter)) :=
  match metaRouterList c with
  | Err e => Ret (Err e)
  | Ok items => mr ← find_meta_router items service; Ret (Ok mr)
  end.

Definition envoyFilterContext (c : Controller) (service : ServiceEntry) (serviceEntry : Config)
    : outcome (res EnvoyFilterContext) :=
  relatedVs ← findRelatedVirtualService c service;
  match relatedVs with
  | Err err =>
      h ← index (se_Hosts service) 0;
      Ret (Err ("failed in finding the related virtual service : " +:+ h +:+ ": " +:+ err))
  | Ok vs =>
      relatedMr ← findRelatedMetaRouter c service;
      match relatedMr with
      | Err err =>
          h ← index (se_Hosts service) 0;
          Ret (Err ("failed in finding the related meta router : " +:+ h +:+ ": " +:+ err))
      | Ok mr =>
          Ret (Ok {| ctx_MeshConfig := meshConfig c;
                     ctx_Gateway := None;
                     ctx_ServiceEntry := {| sew_Meta := c_Meta serviceEntry; sew_Spec := service |};
                     ctx_VirtualService := vs;
                     ctx_MetaRouter := mr |})
      end
  end.

(** ** Where a filter is created *)
Definition createEnvoyFiltersOnExportNSs (c : Controller) (ctx : EnvoyFilterContext)
    (wrapper : EnvoyFilterWrapper) (envoyFilters : gmap string EnvoyFilterWrapper)
    : gmap string EnvoyFilterWrapper :=
  let exportNSs := match ctx_MetaRouter ctx with
                   | Some mr => mrs_ExportTo (mtr_Spec mr)
                   | None => []
                   end in
  let put (m : gmap string EnvoyFilterWrapper) ns :=
    <[envoyFilterMapKey (efw_Name wrapper) ns :=
        {| efw_Name := efw_Name wrapper; efw_Namespace := ns;
           efw_Envoyfilter := efw_Envoyfilter wrapper |}]> m in
  match exportNSs with
  | [] => put envoyFilters (defaultEnvoyFilterNS c (m_Namespace (sew_Meta (ctx_ServiceEntry ctx))))
  | _ =>
      foldl (fun m exportNS =>
        let exportNS :=
          if String.eqb exportNS "."
          then match ctx_MetaRouter ctx with Some mr => mtr_Namespace mr | None => "" end
          else if String.eqb exportNS "*" then namespace c else exportNS in
        put m exportNS) envoyFilters exportNSs
  end.

(** ** Services *)
(** The generator of the first port that has one. *)
Fixpoint first_generator (c : Controller) (ports : list ServicePort) : option Generator :=
  match ports with
  | [] => None
  | port :: rest =>
      match generators c !! GetLayer7ProtocolFromPortName (protocolMap c) (sp_Name port) with
      | Some generator => Some generator
      | None => first_generator c rest
      end
  end.

(** One iteration over the service entries; [Done] is an early [return]. The message of the
    first leaves out the labels it prints. *)
Definition service_step (c : Controller) (envoyFilters : gmap string EnvoyFilterWrapper) (config : Config)
    : outcome (flow (gmap string EnvoyFilterWrapper) (gmap string EnvoyFilterWrapper * option error)) :=
  match asServiceEntry (c_Spec config) with
  | None => Ret (Done (envoyFilters, Some "failed in getting a service entry"))
  | Some service =>
      match se_Hosts service with
      | [] => Ret (Done (envoyFilters, None))
      | _ =>
          match first_generator c (se_Ports service) with
          | None => Ret (Next envoyFilters)
          | Some generate =>
              ctx ← envoyFilterContext c service config;
              match ctx with
              | Err err => Ret (Done (envoyFilters, Some err))
              | Ok ctx =>
                  r ← generate ctx;
                  match r with
                  | (wrappers, None) =>
                      Ret (Next (foldl (fun m w => createEnvoyFiltersOnExportNSs c ctx w m)
                                   envoyFilters wrappers))
                  | (_, Some _) => Ret (Next envoyFilters)
                  end
              end
          end
      end
  end.

(** ** Gateways *)
Definition buildVirtualServiceWrapper (portNumber : Z) (gatewayName gatewayNs host : string)
    : VirtualServiceWrapper :=
  {| vsw_Meta := {| m_GroupVersionKind := GvkOther;
                    m_Name := "aeraki-vs-" +:+ gatewayNs +:+ "." +:+ gatewayName +:+ "-" +:+ Itoa portNumber;
                    m_Namespace := gatewayNs;
                    m_Labels := {["manager" := AerakiFieldManager]};
                    m_Annotations := ∅ |};
     vsw_Spec := {| vs_Hosts := [host];
                    vs_Gateways := [gatewayNs +:+ "/" +:+ gatewayName];
                    vs_Http := [];
                    vs_Tcp := [{| tcp_Match := [{| l4_Port := portNumber |}];
                                  tcp_Route := [{| rd_Destination :=
                                    {| d_Host := host; d_Subset := "";
                                       d_Port := Some {| ps_Number := portNumber |} |} |}] |}] |} |}.

Fixpoint match_destinations (portNumber : Z) (ds : list (option MetaRouteDestination)) : outcome bool :=
  match ds with
  | [] => Ret false
  | destination :: rest =>
      destination ← deref destination;
      match mrd_Destination destination with
      | Some {| d_Port := Some p |} =>
          if ps_Number p =? portNumber then Ret true else match_destinations portNumber rest
      | _ => match_destinations portNumber rest
      end
  end.

Fixpoint isMatchPort (portNumber : Z) (routes : list (option MetaRoute)) : outcome bool :=
  match routes with
  | [] => Ret false
  | route :: rest =>
      route ← deref route;
      found ← match_destinations portNumber (mr_Route route);
      if found : bool then Ret true else isMatchPort portNumber rest
  end.

(** The gateway reference of a MetaRouter, with the router's namespace when it has none. *)
Definition qualified_gateway (mr : MetaRouter) (gw : string) : string :=
  if negb (ContainsChar gw "/") then mtr_Namespace mr +:+ "/" +:+ gw else gw.

Fixpoint gateway_context (c : Controller) (gatewaySpec : Gateway) (gateway : Config) (portNumber : Z)
    (mr : MetaRouter) (gws : list string) : outcome (option EnvoyFilterContext) :=
  let gatewayName := m_Namespace (c_Meta gateway) +:+ "/" +:+ m_Name (c_Meta gateway) in
  match gws with
  | [] => Ret None
  | gw :: rest =>
      if negb (String.eqb (qualified_gateway mr gw) gatewayName)
      then gateway_context c gatewaySpec gateway portNumber mr rest
      else
        matches ← isMatchPort portNumber (mrs_Routes (mtr_Spec mr));
        if negb matches then gateway_context c gatewaySpec gateway portNumber mr rest
        else
          host ← index (mrs_Hosts (mtr_Spec mr)) 0;
          Ret (Some {| ctx_MeshConfig := meshConfig c;
                       ctx_Gateway := Some {| gww_Meta := c_Meta gateway; gww_Spec := gatewaySpec |};
                       ctx_ServiceEntry :=
                         {| sew_Meta := zeroMeta;
                            sew_Spec := {| se_Hosts := mrs_Hosts (mtr_Spec mr);
                                           se_Addresses := ["0.0.0.0"]; se_Ports := [];
                                           se_Resolution := NONE; se_WorkloadSelector := None |} |};
                       ctx_MetaRouter := Some mr;
                       ctx_VirtualService := Some (buildVirtualServiceWrapper portNumber
                         (m_Name (c_Meta gateway)) (m_Namespace (c_Meta gateway)) host) |})
  end.

Definition gatewayEnvoyFilterContexts (c : Controller) (gatewaySpec : Gateway) (gateway : Config)
    (portNumber : Z) : outcome (res (list EnvoyFilterContext)) :=
  match metaRouterList c with
  | Err e => Ret (Err e)
  | Ok items =>
      ctxs ← map_panic (fun mr => gateway_context c gatewaySpec gateway portNumber mr
                                    (mrs_Gateways (mtr_Spec mr))) items;
      Ret (Ok (omap (M:=list) (fun ctx : option EnvoyFilterContext => ctx) ctxs))
  end.

Section push.
Context {StE StV : Type} `{ApiServer StE EnvoyFilter, ApiServer StV VirtualService}.
Context `{ProtoEqual EnvoyFilter, ProtoEqual VirtualService, MapRange}.

(** The VirtualService object of a context. *)
Definition virtualServiceObject (vs : VirtualServiceWrapper) : Object VirtualService :=
  {| o_Name := m_Name (vsw_Meta vs); o_Namespace := m_Namespace (vsw_Meta vs);
     o_Labels := m_Labels (vsw_Meta vs); o_ResourceVersion := "";
     o_Spec := {| vs_Hosts := vs_Hosts (vsw_Spec vs); vs_Gateways := vs_Gateways (vsw_Spec vs);
                  vs_Http := []; vs_Tcp := vs_Tcp (vsw_Spec vs) |} |}.

Definition generatedVirtualServices (ctxs : list EnvoyFilterContext) : gmap string (Object VirtualService) :=
  foldl (fun m ctx =>
    match ctx_VirtualService ctx with
    | None => m
    | Some vs => <[virtualServiceMapKey (m_Name (vsw_Meta vs)) (m_Namespace (vsw_Meta vs)) :=
                     virtualServiceObject vs]> m
    end) ∅ ctxs.

Definition generateListenerForGateway (ctxs : list EnvoyFilterContext) (s : StV) : option error * StV :=
  sync virtualServiceMapKey o_Spec (fun vs _ => vs) (generatedVirtualServices ctxs) None s.

Definition gateway_state : Type := gmap string EnvoyFilterWrapper * list EnvoyFilterContext.

(** [for _, ctx := range ctxs]: a failing generator is skipped. *)
Definition gateway_ctx_step (generate : Generator) (m : gmap string EnvoyFilterWrapper)
    (ctx : EnvoyFilterContext) : outcome (gmap string EnvoyFilterWrapper) :=
  r ← generate ctx;
  match r with
  | (_, Some _) => Ret m
  | (wrappers, None) =>
      Ret (foldl (fun m w => <[envoyFilterMapKey (efw_Name w) (efw_Namespace w) := w]> m) m wrappers)
  end.

(** One server of a gateway; [Done] is [return nil]. *)
Definition gateway_server_step (c : Controller) (gw : Gateway) (config : Config)
    (st : gateway_state) (server : Server)
    : outcome (flow gateway_state (gmap string EnvoyFilterWrapper)) :=
  match srv_Port server with
  | None => Ret (Next st)
  | Some port =>
      let instance := GetLayer7ProtocolFromPortName (protocolMap c) (p_Name port) in
      if negb (IsMetaProtocol instance) then Ret (Next st)
      else
        match generators c !! instance with
        | None => Ret (Next st)
        | Some generate =>
            r ← gatewayEnvoyFilterContexts c gw config (p_Number port);
            match r with
            | Err _ => Ret (Done (fst st))
            | Ok ctxs =>
                m ← for_each (gateway_ctx_step generate) ctxs (fst st);
                Ret (Next (m, snd st ++ ctxs))
            end
        end
  end.

Definition gateway_step (c : Controller) (st : gateway_state) (config : Config)
    : outcome (flow gateway_state (gmap string EnvoyFilterWrapper)) :=
  gw ← deref (asGateway (c_Spec config));
  loop (gateway_server_step c gw config) (gw_Servers gw) st.

Definition generateGatewayEnvoyFilters (c : Controller) (envoyFilters : gmap string EnvoyFilterWrapper)
    (s : StV) : outcome (gmap string EnvoyFilterWrapper * option error * StV) :=
  r ← loop (gateway_step c) (store_List (configStore c) GvkGateway "") (envoyFilters, []);
  match r with
  | Done m => Ret (m, None, s)
  | Next (m, ctxs) => let '(err, s') := generateListenerForGateway ctxs s in Ret (m, err, s')
  end.

Definition generateEnvoyFilters (c : Controller) (s : StV)
    : outcome (gmap string EnvoyFilterWrapper * option error * StV) :=
  r ← loop (service_step c) (store_List (configStore c) GvkServiceEntry "") ∅;
  match r with
  | Done (m, err) => Ret (m, err, s)
  | Next m => generateGatewayEnvoyFilters c m s
  end.

(** ** Push *)
Definition toEnvoyFilterCRD (newEf : EnvoyFilterWrapper) (oldEf : option (Object EnvoyFilter))
    : Object EnvoyFilter :=
  {| o_Name := efw_Name newEf; o_Namespace := efw_Namespace newEf;
     o_Labels := {["manager" := AerakiFieldManager]};
     o_ResourceVersion := match oldEf with Some old => o_ResourceVersion old | None => "" end;
     o_Spec := efw_Envoyfilter newEf |}.

Definition pushEnvoyFilters2APIServer (c : Controller) (s : StE * StV)
    : outcome (option error * (StE * StV)) :=
  r ← generateEnvoyFilters c (snd s);
  let '(generated, err, sv) := r in
  match err with
  | Some e => Ret (Some ("failed to generate EnvoyFilter: " +:+ e), (fst s, sv))
  | None =>
      let '(err, se) := sync envoyFilterMapKey efw_Envoyfilter toEnvoyFilterCRD generated None (fst s) in
      Ret (err, (se, sv))
  end.
End push.

(** ** The generated map is keyed by name and namespace *)
Definition well_keyed (m : gmap string EnvoyFilterWrapper) : Prop :=
  forall k w, m !! k = Some w -> k = envoyFilterMapKey (efw_Name w) (efw_Namespace w).

Lemma well_keyed_insert m w :
  well_keyed m -> well_keyed (<[envoyFilterMapKey (efw_Name w) (efw_Namespace w) := w]> m).
Proof. intros Hm k w' [[<- <-]|[_ H]]%lookup_insert_Some; [done|by apply Hm]. Qed.

Lemma foldl_preserve {A B} (P : A -> Prop) (f : A -> B -> A) l a :
  (forall a b, P a -> P (f a b)) -> P a -> P (foldl f a l).
Proof. intros Hf. revert a. induction l as [|b l IH]; intros a Ha; simpl; auto. Qed.

(** The namespaces a filter of a service goes to. *)
Definition export_targets (c : Controller) (ctx : EnvoyFilterContext) : list string :=
  match ctx_MetaRouter ctx with
  | Some {| mtr_Namespace := ns; mtr_Spec := {| mrs_ExportTo := e :: es |} |} =>
      (fun x => if String.eqb x "." then ns else if String.eqb x "*" then namespace c else x) <$> e :: es
  | _ => [defaultEnvoyFilterNS c (m_Namespace (sew_Meta (ctx_ServiceEntry ctx)))]
  end.

Definition exported (w : EnvoyFilterWrapper) (ns : string) : EnvoyFilterWrapper :=
  {| efw_Name := efw_Name w; efw_Namespace := ns; efw_Envoyfilter := efw_Envoyfilter w |}.

Lemma createEnvoyFilters_targets c ctx w m :
  createEnvoyFiltersOnExportNSs c ctx w m =
  foldl (fun m ns => <[envoyFilterMapKey (efw_Name w) ns := exported w ns]> m) m (export_targets c ctx).
Proof.
  unfold createEnvoyFiltersOnExportNSs, export_targets.
  destruct (ctx_MetaRouter ctx) as [[n ns [hosts gws rts lrl grl ex]]|]; [|done].
  destruct ex as [|e es]; [done|]. by rewrite foldl_fmap.
Qed.

Lemma well_keyed_create c ctx w m : well_keyed m -> well_keyed (createEnvoyFiltersOnExportNSs c ctx w m).
Proof.
  intros Hm. rewrite createEnvoyFilters_targets. apply foldl_preserve; [|done].
  intros m' ns Hm'. by apply (well_keyed_insert m' (exported w ns)).
Qed.

Lemma service_step_keyed c m config r :
  well_keyed m -> service_step c m config = Ret r ->
  match r with Next m' => well_keyed m' | Done v => well_keyed (fst v) end.
Proof.
  intros Hm. unfold service_step.
  destruct (asServiceEntry _) as [service|]; [|by intros [= <-]].
  destruct (se_Hosts service); [by intros [= <-]|].
  destruct (first_generator _ _) as [g|]; [|by intros [= <-]].
  intros ([ctx|e] & _ & H)%bind_Ret_inv; [|by injection H as <-].
  apply bind_Ret_inv in H as ([ws [e|]] & _ & [= <-]); [done|].
  apply foldl_preserve; [|done]. intros. by apply well_keyed_create.
Qed.

Lemma gateway_server_step_keyed c gw config st server r :
  well_keyed (fst st) -> gateway_server_step c gw config st server = Ret r ->
  match r with Next st' => well_keyed (fst st') | Done m => well_keyed m end.
Proof.
  intros Hm. unfold gateway_server_step.
  destruct (srv_Port server) as [port|]; [|by intros [= <-]].
  destruct (negb _); [by intros [= <-]|]. destruct (generators c !! _) as [g|]; [|by intros [= <-]].
  intros ([ctxs|e] & _ & H)%bind_Ret_inv; [|by injection H as <-].
  apply bind_Ret_inv in H as (m & Hm' & [= <-]). cbn [fst].
  eapply (for_each_preserve well_keyed); [|exact Hm|exact Hm'].
  intros m1 ctx m2 _ Hm1. unfold gateway_ctx_step. intros ([ws [e|]] & _ & [= <-])%bind_Ret_inv; [done|].
  apply foldl_preserve; [|done]. intros. by apply well_keyed_insert.
Qed.

Section push_lemmas.
Context {StE StV : Type} `{ApiServerLaws StE EnvoyFilter, ApiServer StV VirtualService}.
Context `{ProtoEqualLaws EnvoyFilter, ProtoEqual VirtualService, MapRange}.

Lemma generateEnvoyFilters_keyed c (s : StV) m err s' :
  generateEnvoyFilters c s = Ret (m, err, s') -> well_keyed m.
Proof.
  unfold generateEnvoyFilters, generateGatewayEnvoyFilters. intros (r & Hr & Hres)%bind_Ret_inv.
  eapply (loop_inv well_keyed (fun v => well_keyed (fst v))) in Hr;
    [|intros; by eapply service_step_keyed|done].
  destruct r as [m1|[m1 e1]]; [|by injection Hres as <- _ _].
  apply bind_Ret_inv in Hres as (r & Hr' & Hres).
  eapply (loop_inv (fun st => well_keyed (fst st)) well_keyed) in Hr';
    [|intros st config r' _ Hst; unfold gateway_step; intros (gw & _ & Hl)%bind_Ret_inv;
      eapply (loop_inv (fun st => well_keyed (fst st)) well_keyed) in Hl;
      [exact Hl|intros; by eapply gateway_server_step_keyed|done]|done].
  destruct r as [[m2 ctxs]|m2]; [|by injection Hres as <- _ _].
  destruct (generateListenerForGateway ctxs s) as [e sv]. by injection Hres as <- _ _.
Qed.

Lemma toEnvoyFilterCRD_managed w old : managed (toEnvoyFilterCRD w old).
Proof. apply lookup_singleton_eq. Qed.

(** One push from a server without colliding or foreign addresses. *)
Lemma push_syncs c (se : StE) (sv sv' : StV) m :
  generateEnvoyFilters c sv = Ret (m, None, sv') ->
  (forall o w, api_get se (o_Namespace o, o_Name o) = Some o -> managed o ->
     m !! envoyFilterMapKey (o_Name o) (o_Namespace o) = Some w ->
     efw_Namespace w = o_Namespace o /\ efw_Name w = o_Name o) ->
  (forall k w o, m !! k = Some w -> api_get se (efw_Namespace w, efw_Name w) = Some o -> managed o) ->
  exists se', pushEnvoyFilters2APIServer c (se, sv) = Ret (None, (se', sv')) /\
    (forall ns name ef,
       (exists o, api_get se' (ns, name) = Some o /\ managed o /\ o_Spec o = ef) <->
       m !! envoyFilterMapKey name ns =
         Some {| efw_Name := name; efw_Namespace := ns; efw_Envoyfilter := ef |}) /\
    (forall a o, ~ managed o -> api_get se' a = Some o <-> api_get se a = Some o).
Proof.
  intros Hgen Hinj Hfree. pose proof (generateEnvoyFilters_keyed _ _ _ _ _ Hgen) as Hkeyed.
  destruct (sync_correct envoyFilterMapKey efw_Envoyfilter toEnvoyFilterCRD
    toEnvoyFilterCRD_managed ltac:(done) ltac:(done) ltac:(done) m se) as (se' & Hs & Hin & Hun).
  { split; [exact Hkeyed| |exact Hfree]. intros o w Ho Hm Hg.
    unfold okey; cbn. by destruct (Hinj o w Ho Hm Hg) as [-> ->]. }
  exists se'. unfold pushEnvoyFilters2APIServer. cbn [fst snd]. rewrite Hgen. cbn. rewrite Hs.
  split; [done|]. split; [|done]. intros ns name ef. rewrite (Hin (ns, name) ef). split.
  - intros (k & w & Hg & [= <- <-] & <-). rewrite (Hkeyed k w Hg) in Hg. by destruct w.
  - intros Hg. by eexists _, _.
Qed.

(** C2: Push converges. On an API server whose calls succeed: when the filters can be
    generated, no existing managed EnvoyFilter shares its map key (name and namespace joined
    by a hyphen) with a generated one of another name or namespace, and no generated address
    is taken by an EnvoyFilter Aeraki does not manage, then one push reports no error, leaves on the API server exactly the generated filters as managed EnvoyFilters
    (stale ones deleted, changed ones updated, missing ones created), and leaves every
    EnvoyFilter it does not manage as it was. *)
Theorem push_converges c (se : StE) (sv sv' : StV) m :
  generateEnvoyFilters c sv = Ret (m, None, sv') ->
  (forall o w, api_get se (o_Namespace o, o_Name o) = Some o -> managed o ->
     m !! envoyFilterMapKey (o_Name o) (o_Namespace o) = Some w ->
     efw_Namespace w = o_Namespace o /\ efw_Name w = o_Name o) ->
  (forall k w o, m !! k = Some w -> api_get se (efw_Namespace w, efw_Name w) = Some o -> managed o) ->
  exists se', pushEnvoyFilters2APIServer c (se, sv) = Ret (None, (se', sv')) /\
    (forall ns name ef,
       (exists o, api_get se' (ns, name) = Some o /\ managed o /\ o_Spec o = ef) <->
       m !! envoyFilterMapKey name ns =
         Some {| efw_Name := name; efw_Namespace := ns; efw_Envoyfilter := ef |}) /\
    (forall a o, ~ managed o -> api_get se' a = Some o <-> api_get se a = Some o).
Proof. apply push_syncs. Qed.
End push_lemmas.

(** ** Export namespaces *)
Lemma envoyFilterMapKey_ns_inj name ns ns' :
  envoyFilterMapKey name ns = envoyFilterMapKey name ns' -> ns = ns'.
Proof.
  unfold envoyFilterMapKey. intros Heq.
  apply (f_equal (fun s => TrimSuffix s ("-" +:+ name))) in Heq. by rewrite !TrimSuffix_app in Heq.
Qed.

(** A generated filter is put, under its own name and content, into exactly the
    namespaces its MetaRouter exports to ("." meaning the router's namespace and "*"
    Aeraki's own), or into the default namespace when there is no router or nothing is
    exported; no other entry of the map changes. *)
Theorem export_namespaces c ctx w m k v :
  createEnvoyFiltersOnExportNSs c ctx w m !! k = Some v <->
  (exists ns, ns ∈ export_targets c ctx /\ k = envoyFilterMapKey (efw_Name w) ns /\ v = exported w ns) \/
  (m !! k = Some v /\ forall ns, ns ∈ export_targets c ctx -> k <> envoyFilterMapKey (efw_Name w) ns).
Proof.
  rewrite createEnvoyFilters_targets. generalize (export_targets c ctx). intros l.
  revert m. induction l as [|ns l IH]; intros m; cbn [foldl].
  - split; [intros Hk; right; split; [done|]; by intros ? ?%elem_of_nil|].
    intros [(? & ?%elem_of_nil & _)|[? _]]; done.
  - rewrite IH, lookup_insert_Some. clear IH. split.
    + intros [(ns' & Hin & Hk)|[[[<- <-]|[Hne Hk]] Hl]].
      * left. exists ns'. split; [by right|done].
      * left. exists ns. split; [by left|done].
      * right. split; [done|]. intros ns' [->|Hin]%elem_of_cons; [congruence|by apply Hl].
    + intros [(ns' & [->|Hin]%elem_of_cons & -> & ->)|[Hk Hl]].
      * destruct (decide (ns ∈ l)) as [Hin|Hin]; [left; by exists ns|right].
        split; [by left|]. intros ns' Hin' Heq%envoyFilterMapKey_ns_inj. by subst.
      * left. by exists ns'.
      * right. split; [right; split; [|done]|].
        -- intros Heq. by destruct (Hl ns ltac:(by left)).
        -- intros ns' Hin. apply Hl. by right.
Qed.

(** ** Service entries without hosts *)

(** A service entry without hosts ends the generation: what follows it in the list, and
    every gateway, is left out of the result, and no error is reported, so that the push
    that uses this result deletes the filters of the services it left out. *)
Theorem no_host_truncates {StV} `{ApiServer StV VirtualService, ProtoEqual VirtualService, MapRange}
    c (s : StV) pre bad post service m :
  store_List (configStore c) GvkServiceEntry "" = pre ++ bad :: post ->
  asServiceEntry (c_Spec bad) = Some service -> se_Hosts service = [] ->
  loop (service_step c) pre ∅ = Ret (Next m) ->
  generateEnvoyFilters c s = Ret (m, None, s).
Proof.
  intros Hl Hbad Hh Hpre. unfold generateEnvoyFilters. rewrite Hl, loop_app, Hpre. simpl.
  unfold service_step. by rewrite Hbad, Hh.
Qed.

(** ** Gateways and MetaRouters *)
(** The router refers to the gateway. *)
Definition bound (gateway : Config) (mr : MetaRouter) : bool :=
  existsb (fun gw => String.eqb (qualified_gateway mr gw)
                       (m_Namespace (c_Meta gateway) +:+ "/" +:+ m_Name (c_Meta gateway)))
    (mrs_Gateways (mtr_Spec mr)).

(** Some destination of the router has the port. *)
Definition serves_port (portNumber : Z) (mr : MetaRouter) : bool :=
  existsb (fun route => match route with
    | Some route => existsb (fun d => match d with
        | Some {| mrd_Destination := Some {| d_Port := Some p |} |} => ps_Number p =? portNumber
        | _ => false
        end) (mr_Route route)
    | None => false
    end) (mrs_Routes (mtr_Spec mr)).

(** No nil route or destination, and a host. *)
Definition router_ok (mr : MetaRouter) : Prop :=
  mrs_Hosts (mtr_Spec mr) <> [] /\
  Forall (fun route => exists r, route = Some r /\ Forall is_Some (mr_Route r)) (mrs_Routes (mtr_Spec mr)).

Lemma match_destinations_ok portNumber ds :
  Forall is_Some ds -> match_destinations portNumber ds = Ret (existsb (fun d => match d with
        | Some {| mrd_Destination := Some {| d_Port := Some p |} |} => ps_Number p =? portNumber
        | _ => false
        end) ds).
Proof.
  induction 1 as [|d ds [[[[h sb [p|]]|] wt] ->] _ IH]; simpl; [done| |done..].
  destruct (ps_Number p =? portNumber); [done|apply IH].
Qed.

Lemma isMatchPort_ok portNumber mr :
  router_ok mr -> isMatchPort portNumber (mrs_Routes (mtr_Spec mr)) = Ret (serves_port portNumber mr).
Proof.
  intros [_ Hr]. unfold serves_port. induction Hr as [|? routes (r & -> & Hd) _ IH]; [done|].
  cbn [isMatchPort deref]. simpl. rewrite match_destinations_ok by done. simpl.
  by destruct (existsb _ (mr_Route r)).
Qed.

Definition gateway_ctx_of (c : Controller) (gatewaySpec : Gateway) (gateway : Config) (portNumber : Z)
    (mr : MetaRouter) (host : string) : EnvoyFilterContext :=
  {| ctx_MeshConfig := meshConfig c;
     ctx_Gateway := Some {| gww_Meta := c_Meta gateway; gww_Spec := gatewaySpec |};
     ctx_ServiceEntry := {| sew_Meta := zeroMeta;
       sew_Spec := {| se_Hosts := mrs_Hosts (mtr_Spec mr); se_Addresses := ["0.0.0.0"]; se_Ports := [];
                      se_Resolution := NONE; se_WorkloadSelector := None |} |};
     ctx_VirtualService := Some (buildVirtualServiceWrapper portNumber
       (m_Name (c_Meta gateway)) (m_Namespace (c_Meta gateway)) host);
     ctx_MetaRouter := Some mr |}.

Lemma gateway_context_ok c gw gateway portNumber mr :
  router_ok mr -> exists host, mrs_Hosts (mtr_Spec mr) !! 0%nat = Some host /\
  gateway_context c gw gateway portNumber mr (mrs_Gateways (mtr_Spec mr)) =
  Ret (if bound gateway mr && serves_port portNumber mr
       then Some (gateway_ctx_of c gw gateway portNumber mr host) else None).
Proof.
  intros Hok. pose proof (isMatchPort_ok portNumber mr Hok) as Hp. destruct Hok as [Hh _].
  destruct (mrs_Hosts (mtr_Spec mr)) as [|host hosts] eqn:Eh; [done|]. exists host. split; [done|].
  unfold bound. induction (mrs_Gateways (mtr_Spec mr)) as [|g gws IH]; [done|].
  cbn [gateway_context existsb]. destruct (String.eqb (qualified_gateway mr g) _); [|exact IH].
  cbn [negb orb andb]. rewrite Hp, Eh. simpl.
  destruct (serves_port portNumber mr); cbn [negb]; [unfold gateway_ctx_of; by rewrite Eh|].
  rewrite IH. by destruct (existsb _ gws).
Qed.

Lemma gateway_contexts_list c gw gateway portNumber items :
  Forall router_ok items ->
  exists os, map_panic (fun mr => gateway_context c gw gateway portNumber mr (mrs_Gateways (mtr_Spec mr)))
               items = Ret os /\
    Forall (fun ctx => exists mr h, ctx = gateway_ctx_of c gw gateway portNumber mr h)
      (omap (M:=list) (fun ctx => ctx) os) /\
    ctx_MetaRouter <$> omap (M:=list) (fun ctx => ctx) os =
      Some <$> filter (fun mr => bound gateway mr && serves_port portNumber mr) items.
Proof.
  induction 1 as [|mr items Hmr _ (os & Hos & Hall & Hmap)]; [by exists []|].
  destruct (gateway_context_ok c gw gateway portNumber mr Hmr) as (host & _ & Hctx).
  cbn [map_panic]. rewrite Hctx, Hos. simpl. eexists. split; [done|]. rewrite filter_cons.
  destruct (bound gateway mr && serves_port portNumber mr) eqn:E; simpl.
  - split; [by constructor; eauto|]. simpl. by f_equal.
  - done.
Qed.

(** All contexts of a gateway port name the same VirtualService. *)
Lemma listener_size c gw gateway portNumber ctxs :
  Forall (fun ctx => exists mr h, ctx = gateway_ctx_of c gw gateway portNumber mr h) ctxs ->
  (size (generatedVirtualServices ctxs) <= 1)%nat.
Proof.
  set (vs := buildVirtualServiceWrapper portNumber (m_Name (c_Meta gateway)) (m_Namespace (c_Meta gateway)) "").
  set (K := virtualServiceMapKey (m_Name (vsw_Meta vs)) (m_Namespace (vsw_Meta vs))).
  intros Hall. enough (dom (generatedVirtualServices ctxs) ⊆ {[K]}) as Hd.
  { apply subseteq_size in Hd. by rewrite size_dom, size_singleton in Hd. }
  unfold generatedVirtualServices.
  assert (dom (∅ : gmap string (Object VirtualService)) ⊆ {[K]}) as H0 by set_solver.
  revert H0. generalize (∅ : gmap string (Object VirtualService)).
  induction Hall as [|? ctxs (mr & h & ->) _ IH]; intros m Hm; [done|].
  cbn [foldl]. apply IH. cbn [gateway_ctx_of ctx_VirtualService]. rewrite dom_insert. fold K. set_solver.
Qed.

(** For a server port of a gateway, every well-formed MetaRouter that refers to the
    gateway and has a destination with that port gives one context, in the routers' order,
    and no other router does; yet all these contexts name the same VirtualService, so at
    most one listener is generated for the port however many routers claim it. *)
Theorem gateway_contexts_spec c gw gateway portNumber items :
  metaRouterList c = Ok items -> Forall router_ok items ->
  exists ctxs, gatewayEnvoyFilterContexts c gw gateway portNumber = Ret (Ok ctxs) /\
    (ctx_MetaRouter <$> ctxs) =
      (Some <$> filter (fun mr => bound gateway mr && serves_port portNumber mr) items) /\
    (size (generatedVirtualServices ctxs) <= 1)%nat.
Proof.
  intros Hl Hok. unfold gatewayEnvoyFilterContexts. rewrite Hl.
  destruct (gateway_contexts_list c gw gateway portNumber items Hok) as (os & Hos & Hall & Hmap).
  rewrite Hos. simpl. eexists. split; [done|]. split; [done|]. by eapply listener_size.
Qed.

(** ** Listeners of gateways *)
Lemma generatedVirtualServices_keyed ctxs k o :
  generatedVirtualServices ctxs !! k = Some o -> k = virtualServiceMapKey (o_Name o) (o_Namespace o) /\
  o_ResourceVersion o = "".
Proof.
  unfold generatedVirtualServices. revert k o.
  apply (foldl_preserve (fun m : gmap string (Object VirtualService) => forall k o, m !! k = Some o ->
    k = virtualServiceMapKey (o_Name o) (o_Namespace o) /\ o_ResourceVersion o = "")); [|done].
  intros m ctx Hm k o. destruct (ctx_VirtualService ctx) as [vs|]; [|apply Hm].
  intros [[<- <-]|[_ Hk]]%lookup_insert_Some; [done|by apply Hm].
Qed.

(** The listener of a gateway port is never changed once created: the VirtualService
    sent for an update carries no resource version, the API server refuses it, and a managed
    VirtualService that is generated again keeps the spec it had, whatever the new one. *)
Theorem listener_never_updated {StV}
    `{ApiServerLaws StV VirtualService, ProtoEqual VirtualService, MapRange} ctxs (s : StV) o new :
  api_get s (okey o) = Some o -> managed o ->
  generatedVirtualServices ctxs !! virtualServiceMapKey (o_Name o) (o_Namespace o) = Some new ->
  api_get (snd (generateListenerForGateway ctxs s)) (okey o) = Some o.
Proof.
  intros Ho Hm Hg. unfold generateListenerForGateway.
  apply (sync_unversioned virtualServiceMapKey o_Spec (fun vs _ => vs) _ s o new); [..|done|done|done].
  - intros k w old Hk. by apply (generatedVirtualServices_keyed ctxs k).
  - intros k w Hk. by apply (generatedVirtualServices_keyed ctxs k).
Qed.

(** ** Concrete runs *)
Section demo.
#[local] Existing Instance canonical_range.
#[local] Existing Instance mem_server.
#[local] Existing Instance mem_server_laws.
#[local] Existing Instance spec_equal.
#[local] Existing Instance spec_equal_laws.

Definition demo_se_config (name host port : string) : Config :=
  {| c_Meta := {| m_GroupVersionKind := GvkServiceEntry; m_Name := name; m_Namespace := "ns";
                  m_Labels := ∅; m_Annotations := ∅ |};
     c_Spec := SpecServiceEntry {| se_Hosts := if String.eqb host "" then [] else [host];
       se_Addresses := ["240.240.0.1"];
       se_Ports := [{| sp_Number := 20880; sp_Protocol := "tcp"; sp_Name := port; sp_TargetPort := 20880 |}];
       se_Resolution := STATIC; se_WorkloadSelector := None |} |}.

Definition demo_mesh : MeshConfig :=
  {| mesh_AccessLogFile := ""; mesh_AccessLogFormat := ""; mesh_AccessLogEncoding := TEXT;
     mesh_EnableTracing := false; mesh_DefaultConfig := None |}.

Definition demo_filter : EnvoyFilter := {| ef_WorkloadSelector := None; ef_ConfigPatches := [] |}.

(** A generator that names its only filter after the first host. *)
Definition demo_generate : Generator := fun ctx =>
  h ← index (se_Hosts (sew_Spec (ctx_ServiceEntry ctx))) 0;
  Ret ([{| efw_Name := h; efw_Namespace := ""; efw_Envoyfilter := demo_filter |}], None).

Definition demo_gateway : Config :=
  {| c_Meta := {| m_GroupVersionKind := GvkGateway; m_Name := "gw"; m_Namespace := "ns";
                  m_Labels := ∅; m_Annotations := ∅ |};
     c_Spec := SpecGateway {| gw_Servers := [{| srv_Port := Some {| p_Number := 80; p_Protocol := "tcp";
                                                  p_Name := "tcp-metaprotocol" |}; srv_Name := "s" |}];
                              gw_Selector := ∅ |} |}.

Definition demo_ctl (ses gws : list Config) (mrs : list MetaRouter) : Controller :=
  {| configStore := {| store_List := fun k _ =>
       match k with GvkServiceEntry => ses | GvkGateway => gws | _ => [] end |};
     metaRouterList := Ok mrs;
     generators := {[Model.Dubbo := demo_generate; Model.MetaProtocol := demo_generate]};
     namespaceScoped := false; namespace := "istio-system";
     meshConfig := demo_mesh; protocolMap := protocolMap_init |}.

Definition demo_old {Spec} (name : string) (spec : Spec) : Object Spec :=
  {| o_Name := name; o_Namespace := "istio-system"; o_Labels := {["manager" := AerakiFieldManager]};
     o_ResourceVersion := "7"; o_Spec := spec |}.
Definition demo_server {Spec} (o : Object Spec) : MemServer Spec :=
  {| mem_objects := {[okey o := o]}; mem_version := 8 |}.
Definition demo_empty {Spec} : MemServer Spec := {| mem_objects := ∅; mem_version := 0 |}.

Lemma demo_server_get {Spec} (o : Object Spec) k o' :
  api_get (demo_server o) k = Some o' -> k = okey o /\ o' = o.
Proof. intros [_ H]%mem_get_valid. cbn [demo_server mem_objects] in H. by apply lookup_singleton_Some in H as [<- <-]. Qed.

Definition demo_c1 : Controller := demo_ctl [demo_se_config "a" "a.svc" "tcp-dubbo"] [] [].
Definition demo_new_filter : EnvoyFilterWrapper :=
  {| efw_Name := "a.svc"; efw_Namespace := "istio-system"; efw_Envoyfilter := demo_filter |}.

Lemma push_converges_witness :
  exists se', pushEnvoyFilters2APIServer demo_c1 (demo_server (demo_old "old" demo_filter), demo_empty) =
    Ret (None, (se', demo_empty)) /\
  (exists o, api_get se' ("istio-system", "a.svc") = Some o /\ managed o /\ o_Spec o = demo_filter) /\
  (forall o, api_get se' ("istio-system", "old") = Some o -> ~ managed o).
Proof.
  destruct (push_converges demo_c1 (demo_server (demo_old "old" demo_filter)) demo_empty demo_empty
    {["istio-system-a.svc" := demo_new_filter]}) as (se' & Hp & Hs & _).
  - vm_compute. reflexivity.
  - intros o w [_ ->]%demo_server_get _ Hm. vm_compute in Hm. discriminate Hm.
  - intros k w o [<- <-]%lookup_singleton_Some [Hk _]%demo_server_get. discriminate Hk.
  - exists se'. split; [exact Hp|]. split.
    + apply Hs. vm_compute. reflexivity.
    + intros o Ho Hm.
      destruct (Hs "istio-system" "old" (o_Spec o)) as [Hs1 _].
      specialize (Hs1 (ex_intro _ o (conj Ho (conj Hm eq_refl)))). vm_compute in Hs1. discriminate Hs1.
Defined.

Lemma no_host_truncates_witness :
  generateEnvoyFilters (demo_ctl [demo_se_config "a" "a.svc" "tcp-dubbo"; demo_se_config "b" "" "tcp-dubbo";
                                  demo_se_config "c" "c.svc" "tcp-dubbo"] [demo_gateway] [])
    (demo_empty : MemServer VirtualService) =
  Ret ({["istio-system-a.svc" := demo_new_filter]}, None, demo_empty).
Proof.
  eapply (no_host_truncates _ demo_empty [demo_se_config "a" "a.svc" "tcp-dubbo"]
    (demo_se_config "b" "" "tcp-dubbo") [demo_se_config "c" "c.svc" "tcp-dubbo"]);
    [reflexivity|reflexivity|reflexivity|vm_compute; reflexivity].
Defined.

(** The filter of service c, present on the server, is deleted by the push that follows. *)
Example no_host_deletes_filters :
  match pushEnvoyFilters2APIServer (demo_ctl [demo_se_config "b" "" "tcp-dubbo";
          demo_se_config "c" "c.svc" "tcp-dubbo"] [] []) (demo_server (demo_old "c.svc" demo_filter), demo_empty)
  with
  | Ret (None, (se, _)) => mem_objects se = ∅
  | _ => False
  end.
Proof. vm_compute. reflexivity. Qed.

Definition demo_router (name : string) : MetaRouter :=
  {| mtr_Name := name; mtr_Namespace := "ns";
     mtr_Spec := {| mrs_Hosts := [name +:+ ".svc"]; mrs_Gateways := ["gw"];
       mrs_Routes := [Some {| mr_Name := "r"; mr_Match := None;
         mr_Route := [Some {| mrd_Destination := Some {| d_Host := name +:+ ".svc"; d_Subset := "";
                                d_Port := Some {| ps_Number := 80 |} |}; mrd_Weight := 100 |}];
         mr_Mirror := None; mr_MirrorPercentage := None;
         mr_RequestMutation := []; mr_ResponseMutation := [] |}];
       mrs_LocalRateLimit := None; mrs_GlobalRateLimit := None; mrs_ExportTo := [] |} |}.

Lemma demo_router_ok name : router_ok (demo_router name).
Proof.
  split; [done|]. apply Forall_singleton. eexists. split; [done|]. apply Forall_singleton. by eexists.
Qed.

Definition demo_gw_spec : Gateway := {| gw_Servers := []; gw_Selector := ∅ |}.

Lemma gateway_contexts_spec_witness :
  exists ctxs, gatewayEnvoyFilterContexts (demo_ctl [] [demo_gateway] [demo_router "x"; demo_router "y"])
      demo_gw_spec demo_gateway 80 = Ret (Ok ctxs) /\
    ctx_MetaRouter <$> ctxs = [Some (demo_router "x"); Some (demo_router "y")] /\
    (size (generatedVirtualServices ctxs) <= 1)%nat.
Proof.
  apply (gateway_contexts_spec (demo_ctl [] [demo_gateway] [demo_router "x"; demo_router "y"]) demo_gw_spec
    demo_gateway 80 [demo_router "x"; demo_router "y"]); [reflexivity|].
  apply Forall_cons; split; [apply demo_router_ok|]. apply Forall_singleton, demo_router_ok.
Defined.

Definition demo_vs : VirtualServiceWrapper := buildVirtualServiceWrapper 80 "gw" "istio-system" "new.svc".
Definition demo_vs_ctx : EnvoyFilterContext :=
  {| ctx_MeshConfig := demo_mesh; ctx_Gateway := None;
     ctx_ServiceEntry := {| sew_Meta := zeroMeta; sew_Spec := {| se_Hosts := []; se_Addresses := [];
       se_Ports := []; se_Resolution := NONE; se_WorkloadSelector := None |} |};
     ctx_VirtualService := Some demo_vs; ctx_MetaRouter := None |}.
Definition demo_stale_vs : Object VirtualService :=
  demo_old "aeraki-vs-istio-system.gw-80"
    (vsw_Spec (buildVirtualServiceWrapper 80 "gw" "istio-system" "old.svc")).

(** The generated listener routes to new.svc, the stored one keeps routing to old.svc. *)
Lemma listener_never_updated_witness :
  vs_Hosts (o_Spec (virtualServiceObject demo_vs)) = ["new.svc"] /\
  exists o, api_get (snd (generateListenerForGateway [demo_vs_ctx] (demo_server demo_stale_vs)))
              (okey demo_stale_vs) = Some o /\ vs_Hosts (o_Spec o) = ["old.svc"].
Proof.
  split; [reflexivity|]. exists demo_stale_vs. split; [|reflexivity].
  apply (listener_never_updated [demo_vs_ctx] (demo_server demo_stale_vs) demo_stale_vs
    (virtualServiceObject demo_vs)); [reflexivity|reflexivity|vm_compute; reflexivity].
Defined.

(** A failed delete is not reported when a create follows it: the caller does not retry. *)
Definition no_delete_server : ApiServer (MemServer EnvoyFilter) EnvoyFilter :=
  {| api_List := api_List; api_Delete := fun s _ _ => (Some "forbidden", s);
     api_Update := api_Update; api_Create := api_Create |}.

Example push_loses_delete_error :
  match @pushEnvoyFilters2APIServer _ _ no_delete_server _ _ _ _ demo_c1
          (demo_server (demo_old "old" demo_filter), demo_empty) with
  | Ret (None, (se, _)) => mem_get se ("istio-system", "old") = Some (demo_old "old" demo_filter)
  | _ => False
  end.
Proof. vm_compute. reflexivity. Qed.
End demo.
