(* ===== verification/Xds.v ===== *)
(** * The MetaProtocol RDS server

    [src/internal/xds/cache_mgr.go] and [utils.go]: routes generated
    from service entries, MetaRouters and destination rules, carried as HTTP route
    configurations in a snapshot cache, one snapshot per subscribed node.

    Parameters: go-control-plane's snapshot cache ([SnapshotCache]), the client listing
    MetaRouters, the order of map iteration, and the value Go gives to an out-of-range
    float conversion ([oob]). *)

From Stdlib Require Import SpecFloat.
From S2P Require Import Prelude Api Model.

(** ** utils.go *)
Definition isCatchAllHeaderMatch (in_ : option StringMatch) : bool :=
  match in_ with
  | None => true
  | Some (StringMatch_Regex re) => String.eqb re "*"
  | Some _ => false
  end.

(** The matcher of one attribute; an attribute without match type gives none. *)
Definition attribute_matcher (name : string) (attribute : option StringMatch) : option HeaderMatcher :=
  if isCatchAllHeaderMatch attribute
  then Some {| hdr_Name := name; hdr_Specifier := PresentMatch true; hdr_InvertMatch := false |}
  else match attribute with
       | Some (StringMatch_Exact s) => Some {| hdr_Name := name; hdr_Specifier := ExactMatch s; hdr_InvertMatch := false |}
       | Some (StringMatch_Prefix s) => Some {| hdr_Name := name; hdr_Specifier := PrefixMatch s; hdr_InvertMatch := false |}
       | Some (StringMatch_Regex s) => Some {| hdr_Name := name; hdr_Specifier := SafeRegexMatch s; hdr_InvertMatch := false |}
       | _ => None
       end.

Definition MetaMatch2HttpHeaderMatch `{MapRange} (matchCrd : option MetaRouteMatch) : list HeaderMatcher :=
  match matchCrd with
  | None => []
  | Some m => omap (M:=list) (fun '(name, attribute) => attribute_matcher name attribute)
                (range (mrm_Attributes m))
  end.

Definition translatePercentToFractionalPercent (oob : Z) (p : float64) : FractionalPercent :=
  {| fp_Numerator := u32_of_f64 oob (f64_mul p (f64_of_Z 10000)); fp_Denominator := MILLION |}.

(** The name and the specifier of a matcher are copied, and nothing else. *)
Definition httpRouteMatch (route : MetaRouteEntry) : outcome HttpRouteMatch :=
  metadata ← deref (mroute_Match route);
  Ret {| hrm_Prefix := "/";
         hrm_Headers := (fun m => {| hdr_Name := hdr_Name m; hdr_Specifier := hdr_Specifier m;
                                     hdr_InvertMatch := false |}) <$> metadata |}.

Definition httpRouteAction (route : MetaRouteEntry) : outcome HttpRouteAction :=
  action ← deref (mroute_Route route);
  Ret {| hra_ClusterSpecifier :=
           match ra_ClusterSpecifier action with
           | WeightedClusters w => WeightedClusters w
           | Cluster c => Cluster c
           | NoClusterSpecifier => Cluster ""
           end;
         hra_RequestMirrorPolicies :=
           (fun mirrorPolicy => {| hmp_Cluster := rmp_Cluster mirrorPolicy;
                                   hmp_RuntimeFraction := rmp_RuntimeFraction mirrorPolicy |})
             <$> ra_RequestMirrorPolicies action;
         hra_HashPolicy :=
           (fun hashPolicy => {| hhp_PolicySpecifier := HashPolicy_Header hashPolicy; hhp_Terminal := false |})
             <$> ra_HashPolicy action |}.

Definition httpRequestHeaders (route : MetaRouteEntry) : list HeaderValueOption :=
  (fun mutation => {| hvo_Header := Some {| hv_Key := kv_Key mutation; hv_Value := kv_Value mutation |} |})
    <$> mroute_RequestMutation route.

Definition httpResponseHeaders (route : MetaRouteEntry) : list HeaderValueOption :=
  (fun mutation => {| hvo_Header := Some {| hv_Key := kv_Key mutation; hv_Value := kv_Value mutation |} |})
    <$> mroute_ResponseMutation route.

Definition metaProtocolRoute2HttpRoute (metaRoute : MetaRouteConfiguration)
    : outcome HttpRouteConfiguration :=
  routes ← map_panic (fun route =>
    routeMatch ← httpRouteMatch route;
    routeAction ← httpRouteAction route;
    Ret {| hre_Name := mroute_Name route; hre_Match := routeMatch; hre_Route := routeAction;
           hre_RequestHeadersToAdd := httpRequestHeaders route;
           hre_ResponseHeadersToAdd := httpResponseHeaders route |}) (mrc_Routes metaRoute);
  Ret {| hrc_Name := mrc_Name metaRoute;
         hrc_VirtualHosts := [{| vh_Name := "dummy"; vh_Domains := ["*"]; vh_Routes := routes |}] |}.

(** ** The snapshot cache *)
Class SnapshotCache (St Snap : Type) := {
  NewSnapshot : string -> list HttpRouteConfiguration -> res Snap;
  GetStatusKeys : St -> list string;
  GetSnapshot : St -> string -> option Snap;
  SetSnapshot : string -> Snap -> St -> option error * St;
  ClearSnapshot : string -> St -> St }.

(** Documented behaviour: a stored snapshot is the node's until it is replaced or
    cleared; storing does not change who is subscribed, and a store that fails has changed
    at most the node's own snapshot; clearing forgets the node and its status. *)
Class SnapshotCacheLaws (St Snap : Type) `{SnapshotCache St Snap} := {
  SetSnapshot_spec : forall node snap s s', SetSnapshot node snap s = (None, s') ->
    (forall n, GetSnapshot s' n = if decide (n = node) then Some snap else GetSnapshot s n) /\
    GetStatusKeys s' = GetStatusKeys s;
  SetSnapshot_failed : forall node snap s s' e, SetSnapshot node snap s = (Some e, s') ->
    (forall n, GetSnapshot s' n = GetSnapshot s n \/ (n = node /\ GetSnapshot s' n = Some snap)) /\
    GetStatusKeys s' = GetStatusKeys s;
  ClearSnapshot_spec : forall node s n,
    GetSnapshot (ClearSnapshot node s) n = if decide (n = node) then None else GetSnapshot s n;
  ClearSnapshot_keys : forall node s n,
    n ∈ GetStatusKeys (ClearSnapshot node s) <-> n ∈ GetStatusKeys s /\ n <> node }.

(** ** cache_mgr.go *)
Record CacheMgr := {
  cm_metaRouters : res (list MetaRouter);
  cm_configStore : ConfigStore;
  cm_protocolMap : gmap string Instance_ }.

Section cache_mgr.
Context `{MapRange, IstioNaming} (oob : Z).

Definition constructMutation (mutation : list KeyValue) : list KeyValue :=
  (fun keyValue => {| kv_Key := kv_Key keyValue; kv_Value := kv_Value keyValue |}) <$> mutation.

(** The port of a destination, or the service's port. *)
Definition dst_port (port : ServicePort) (p : option PortSelector) : Z :=
  match p with
  | Some p => if ps_Number p =? 0 then sp_Number port else ps_Number p
  | None => sp_Number port
  end.

Definition destination_cluster (port : ServicePort) (d : Destination) : string :=
  BuildClusterName TrafficDirectionOutbound (d_Subset d) (d_Host d) (dst_port port (d_Port d)).

Definition policies (dr : option DestinationRuleWrapper) (subset : string) : list string :=
  let policy := GetHashPolicy dr subset in if String.eqb policy "" then [] else [policy].

(** The weighted branch: clusters, hash policies and the wrapping sum of the weights. *)
Definition weighted_step (port : ServicePort) (dr : option DestinationRuleWrapper)
    (acc : list ClusterWeight * list string * Z) (routeDestination : option MetaRouteDestination)
    : outcome (list ClusterWeight * list string * Z) :=
  let '(clusters, hash, totalWeight) := acc in
  rd ← deref routeDestination;
  d ← deref (mrd_Destination rd);
  Ret (clusters ++ [{| cw_Name := destination_cluster port d; cw_Weight := mrd_Weight rd |}],
       hash ++ policies dr (d_Subset d),
       u32 (totalWeight + mrd_Weight rd)).

Definition mirror_policies (port : ServicePort) (route : MetaRoute) : list RequestMirrorPolicy :=
  match mr_Mirror route with
  | None => []
  | Some mirror =>
      let mirrorPercent := match mr_MirrorPercentage route with
                           | None | Some (S754_zero _) => f64_of_Z 100
                           | Some p => p
                           end in
      [{| rmp_Cluster := destination_cluster port mirror;
          rmp_RuntimeFraction := Some (translatePercentToFractionalPercent oob mirrorPercent) |}]
  end.

Definition constructAction (port : ServicePort) (route : option MetaRoute)
    (dr : option DestinationRuleWrapper) : outcome RouteAction :=
  match route with
  | None => Ret {| ra_ClusterSpecifier := NoClusterSpecifier; ra_HashPolicy := [];
                   ra_RequestMirrorPolicies := [] |}
  | Some route =>
      match mr_Route route with
      | [rd] =>
          rd ← deref rd;
          d ← deref (mrd_Destination rd);
          Ret {| ra_ClusterSpecifier := Cluster (destination_cluster port d);
                 ra_HashPolicy := policies dr (d_Subset d);
                 ra_RequestMirrorPolicies := mirror_policies port route |}
      | rds =>
          acc ← for_each (weighted_step port dr) rds ([], [], 0);
          let '(clusters, hash, totalWeight) := acc in
          Ret {| ra_ClusterSpecifier := WeightedClusters {| wc_Clusters := clusters;
                                                            wc_TotalWeight := Some totalWeight |};
                 ra_HashPolicy := hash;
                 ra_RequestMirrorPolicies := mirror_policies port route |}
      end
  end.

Definition constructRoute (service : ServiceEntry) (port : ServicePort) (metaRouter : MetaRouter)
    (dr : option DestinationRuleWrapper) : outcome MetaRouteConfiguration :=
  routes ← map_panic (fun route =>
    route ← deref route;
    action ← constructAction port (Some route) dr;
    Ret {| mroute_Name := mr_Name route;
           mroute_Match := Some (MetaMatch2HttpHeaderMatch (mr_Match route));
           mroute_Route := Some action;
           mroute_RequestMutation := constructMutation (mr_RequestMutation route);
           mroute_ResponseMutation := constructMutation (mr_ResponseMutation route) |})
    (mrs_Routes (mtr_Spec metaRouter));
  host ← index (se_Hosts service) 0;
  Ret {| mrc_Name := BuildMetaProtocolRouteName host (sp_Number port); mrc_Routes := routes |}.

Definition defaultRoute (service : ServiceEntry) (port : ServicePort)
    (dr : option DestinationRuleWrapper) : outcome MetaRouteConfiguration :=
  host ← index (se_Hosts service) 0;
  header ← match dr with
           | None => Ret ""
           | Some dr => spec ← deref (drw_Spec dr); Ret (getConsistentHashHeaderName (dr_TrafficPolicy spec))
           end;
  Ret {| mrc_Name := BuildMetaProtocolRouteName host (sp_Number port);
         mrc_Routes := [{| mroute_Name := "default"; mroute_Match := Some [];
           mroute_Route := Some {| ra_ClusterSpecifier :=
                                     Cluster (BuildClusterName TrafficDirectionOutbound "" host (sp_Number port));
                                   ra_HashPolicy := if String.eqb header "" then [] else [header];
                                   ra_RequestMirrorPolicies := [] |};
           mroute_RequestMutation := []; mroute_ResponseMutation := [] |}] |}.

(** The first router with the service's first host, if it has routes. *)
Fixpoint find_router (items : list MetaRouter) (service : ServiceEntry) : outcome (option MetaRouter) :=
  match items with
  | [] => Ret None
  | mr :: rest =>
      match mrs_Hosts (mtr_Spec mr) with
      | [] => find_router rest service
      | hosts =>
          h0 ← index (se_Hosts service) 0;
          if bool_decide (h0 ∈ hosts)
          then Ret (match mrs_Routes (mtr_Spec mr) with [] => None | _ => Some mr end)
          else find_router rest service
      end
  end.

Definition findRelatedMetaRouter (c : CacheMgr) (service : ServiceEntry) : outcome (res (option MetaRouter)) :=
  match cm_metaRouters c with
  | Err e => Ret (Err e)
  | Ok items => mr ← find_router items service; Ret (Ok mr)
  end.

Fixpoint find_rule (drs : list Config) (service : ServiceEntryWrapper)
    : outcome (res (option DestinationRuleWrapper)) :=
  match drs with
  | [] => Ret (Ok None)
  | config :: rest =>
      match asDestinationRule (c_Spec config) with
      | None => Ret (Err ("failed in getting a destination rule: " +:+ m_Name (c_Meta config)))
      | Some dr =>
          h0 ← index (se_Hosts (sew_Spec service)) 0;
          if IsFQDNEquals (dr_Host dr) (m_Namespace (c_Meta config)) h0 (m_Namespace (sew_Meta service))
          then Ret (Ok (Some {| drw_Meta := c_Meta config; drw_Spec := Some dr |}))
          else find_rule rest service
      end
  end.

Definition findRelatedDestinationRule (c : CacheMgr) (service : ServiceEntryWrapper)
    : outcome (res (option DestinationRuleWrapper)) :=
  find_rule (store_List (cm_configStore c) GvkDestinationRule "") service.

Fixpoint find_service (dr : DestinationRule) (ns : string) (ses : list Config)
    : outcome (res (option ServiceEntryWrapper)) :=
  match ses with
  | [] => Ret (Ok None)
  | config :: rest =>
      match asServiceEntry (c_Spec config) with
      | None => Ret (Err ("failed in getting a service entry: " +:+ m_Name (c_Meta config)))
      | Some se =>
          h0 ← index (se_Hosts se) 0;
          if IsFQDNEquals (dr_Host dr) ns h0 (m_Namespace (c_Meta config))
          then Ret (Ok (Some {| sew_Meta := c_Meta config; sew_Spec := se |}))
          else find_service dr ns rest
      end
  end.

Definition findRelatedServiceEntry (c : CacheMgr) (dr : DestinationRule) (ns : string)
    : outcome (res (option ServiceEntryWrapper)) :=
  find_service dr ns (store_List (cm_configStore c) GvkServiceEntry "").

Definition is_meta_port (c : CacheMgr) (port : ServicePort) : bool :=
  IsMetaProtocol (GetLayer7ProtocolFromPortName (cm_protocolMap c) (sp_Name port)).

Definition isMetaProtocolService (c : CacheMgr) (service : ServiceEntry) : bool :=
  existsb (is_meta_port c) (se_Ports service).

(** The value of a [(pointer, error)] call whose error is only logged. *)
Definition or_nil {A} (r : res (option A)) : option A := match r with Ok o => o | Err _ => None end.

(** The routes of one service entry. *)
Definition service_routes (c : CacheMgr) (config : Config) : outcome (list MetaRouteConfiguration) :=
  match asServiceEntry (c_Spec config) with
  | None => Ret []
  | Some service =>
      if negb (isMetaProtocolService c service) then Ret []
      else match se_Hosts service with
           | [] => Ret []
           | _ =>
               metaRouter ← findRelatedMetaRouter c service;
               destinationRule ← findRelatedDestinationRule c {| sew_Meta := c_Meta config; sew_Spec := service |};
               map_panic (fun port =>
                 match or_nil metaRouter with
                 | Some mr => constructRoute service port mr (or_nil destinationRule)
                 | None => defaultRoute service port (or_nil destinationRule)
                 end) (filter (fun port => is_meta_port c port) (se_Ports service))
           end
  end.

Definition generateMetaRoutes (c : CacheMgr) (serviceEntries : list Config)
    : outcome (list MetaRouteConfiguration) :=
  rs ← map_panic (service_routes c) serviceEntries; Ret (concat rs).

Definition generateSnapshot {St Snap} `{SnapshotCache St Snap} (now : Z)
    (metaRoutes : list MetaRouteConfiguration) : outcome (res Snap) :=
  httpRoutes ← map_panic metaProtocolRoute2HttpRoute metaRoutes;
  Ret (NewSnapshot (Itoa now) httpRoutes).

Section update.
Context {St Snap : Type} `{SnapshotCache St Snap}.

Fixpoint set_snapshots (nodes : list string) (snapshot : Snap) (s : St) : option error * St :=
  match nodes with
  | [] => (None, s)
  | node :: rest =>
      match SetSnapshot node snapshot s with
      | (Some err, s') => (Some err, s')
      | (None, s') => set_snapshots rest snapshot s'
      end
  end.

Definition updateRouteCache (c : CacheMgr) (now : Z) (s : St) : outcome (option error * St) :=
  match GetStatusKeys s with
  | [] => Ret (None, s)
  | _ =>
      routes ← generateMetaRoutes c (store_List (cm_configStore c) GvkServiceEntry "");
      snapshot ← generateSnapshot now routes;
      match snapshot with
      | Err err => Ret (Some err, s)
      | Ok snapshot => Ret (set_snapshots (GetStatusKeys s) snapshot s)
      end
  end.
End update.

(** Whether a config event concerns the routes. *)
Definition shouldUpdateCache (c : CacheMgr) (config : Config) : outcome bool :=
  let has_meta_port (se : ServiceEntry) :=
    existsb (fun port => HasPrefix (sp_Name port) "tcp-metaprotocol") (se_Ports se) in
  match m_GroupVersionKind (c_Meta config) with
  | GvkServiceEntry =>
      match asServiceEntry (c_Spec config) with
      | None => Ret false
      | Some service => Ret (has_meta_port service)
      end
  | GvkDestinationRule =>
      match asDestinationRule (c_Spec config) with
      | None => Ret false
      | Some dr =>
          se ← findRelatedServiceEntry c dr (m_Namespace (c_Meta config));
          match or_nil se with
          | Some se => Ret (has_meta_port (sew_Spec se))
          | None => Ret false
          end
      end
  | _ => Ret false
  end.

(** The number of events sent to the push channel. *)
Definition ConfigUpdated (c : CacheMgr) (prev curr : Config) : outcome nat :=
  b ← shouldUpdateCache c curr;
  if b : bool then Ret 1%nat
  else b ← shouldUpdateCache c prev; if b : bool then Ret 1%nat else Ret 0%nat.
End cache_mgr.

(** ** Matching

    The meaning of an attribute in the MetaRouter CRD and of a header matcher in Envoy's
    documentation, on the metadata of a request; regular expressions are a parameter. *)
Section matching.
Context (regex_match : string -> string -> bool).

Definition attribute_matches (md : gmap string string) (name : string) (a : option StringMatch) : bool :=
  match a, md !! name with
  | Some StringMatch_Unset, _ => true
  | None, v => bool_decide (is_Some v)
  | Some (StringMatch_Exact s), Some v => String.eqb v s
  | Some (StringMatch_Prefix s), Some v => HasPrefix v s
  | Some (StringMatch_Regex s), Some v => String.eqb s "*" || regex_match s v
  | Some _, None => false
  end.

Definition header_matches (md : gmap string string) (h : HeaderMatcher) : bool :=
  match md !! hdr_Name h with
  | None =>
      match hdr_Specifier h with
      | PresentMatch b => Bool.eqb b (hdr_InvertMatch h)
      | _ => false
      end
  | Some v =>
      xorb (hdr_InvertMatch h)
        match hdr_Specifier h with
        | PresentMatch b => b
        | ExactMatch s => String.eqb v s
        | PrefixMatch s => HasPrefix v s
        | SuffixMatch s => HasSuffix v s
        | SafeRegexMatch s => regex_match s v
        end
  end.

Lemma attribute_matcher_sound md name a :
  attribute_matches md name a =
  match attribute_matcher name a with Some h => header_matches md h | None => true end.
Proof.
  unfold attribute_matches, attribute_matcher, header_matches, isCatchAllHeaderMatch.
  destruct a as [[s|s|s|]|]; simpl; try done; [destruct (String.eqb s "*"); simpl|];
    by destruct (md !! name).
Qed.

Lemma header_match_iff `{MapRange} md m :
  forallb (header_matches md) (MetaMatch2HttpHeaderMatch m) = true <->
  (forall crd name a, m = Some crd -> mrm_Attributes crd !! name = Some a -> attribute_matches md name a = true).
Proof.
  destruct m as [m|]; simpl; [|naive_solver]. rewrite forallb_forall. split.
  - intros Hall crd name a [= <-] Ha. rewrite attribute_matcher_sound.
    destruct (attribute_matcher name a) as [h|] eqn:E; [|done]. apply Hall.
    apply list_elem_of_In, list_elem_of_omap. exists (name, a). by rewrite range_elem.
  - intros Hall h [[name a] [Hr Hh]]%list_elem_of_In%list_elem_of_omap. apply range_elem in Hr.
    specialize (Hall m name a eq_refl Hr). by rewrite attribute_matcher_sound, Hh in Hall.
Qed.

(** C26: For every order in which Go ranges over the attribute map, a request passes the
    header matchers made from a MetaRouter match exactly when it satisfies every attribute
    of the match (a nil attribute and the regex * ask for presence, an attribute without
    match type asks for nothing); a nil match is passed by every request. *)
Theorem header_match_semantics `{MapRange} md m :
  forallb (header_matches md) (MetaMatch2HttpHeaderMatch m) = true <->
  (forall crd name a, m = Some crd -> mrm_Attributes crd !! name = Some a -> attribute_matches md name a = true).
Proof. apply header_match_iff. Qed.
End matching.

(** ** Actions *)
Section actions.
Context `{MapRange, IstioNaming} (oob : Z).

(** The destinations of a route without nil pointers. *)
Definition destinations (ds : list (Destination * Z)) : list (option MetaRouteDestination) :=
  (fun '(d, w) => Some {| mrd_Destination := Some d; mrd_Weight := w |}) <$> ds.

Definition cluster_weights (port : ServicePort) (ds : list (Destination * Z)) : list ClusterWeight :=
  (fun '(d, w) => {| cw_Name := destination_cluster port d; cw_Weight := w |}) <$> ds.

Definition hash_policies (dr : option DestinationRuleWrapper) (ds : list (Destination * Z)) : list string :=
  concat ((fun '(d, _) => policies dr (d_Subset d)) <$> ds).

Lemma weighted_steps port dr ds cs hs t :
  for_each (weighted_step port dr) (destinations ds) (cs, hs, t) =
  Ret (cs ++ cluster_weights port ds, hs ++ hash_policies dr ds,
       fold_left (fun acc w => u32 (acc + w)) ds.*2 t).
Proof.
  revert cs hs t. induction ds as [|[d w] ds IH]; intros cs hs t; simpl.
  - unfold cluster_weights, hash_policies. by rewrite !app_nil_r.
  - unfold destinations in IH. rewrite IH. unfold cluster_weights, hash_policies. simpl.
    by rewrite <- !app_assoc.
Qed.

Definition expected_specifier (port : ServicePort) (ds : list (Destination * Z)) : ClusterSpecifier :=
  match ds with
  | [(d, _)] => Cluster (destination_cluster port d)
  | _ => WeightedClusters {| wc_Clusters := cluster_weights port ds;
                             wc_TotalWeight := Some (u32 (foldr Z.add 0 ds.*2)) |}
  end.

Lemma construct_action_ok port route dr ds :
  mr_Route route = destinations ds ->
  constructAction oob port (Some route) dr =
    Ret {| ra_ClusterSpecifier := expected_specifier port ds;
           ra_HashPolicy := hash_policies dr ds;
           ra_RequestMirrorPolicies := mirror_policies oob port route |}.
Proof.
  intros Hds. unfold constructAction. rewrite Hds.
  destruct ds as [|[d1 w1] [|[d2 w2] ds]]; [done| |].
  - unfold hash_policies. simpl. by rewrite app_nil_r.
  - cbn [destinations fmap list_fmap].
    change (Some {| mrd_Destination := Some d1; mrd_Weight := w1 |}
      :: Some {| mrd_Destination := Some d2; mrd_Weight := w2 |} :: _)
      with (destinations ((d1, w1) :: (d2, w2) :: ds)).
    rewrite weighted_steps. cbn [mbind outcome_bind]. unfold expected_specifier.
    rewrite <- sum_u32_mod. done.
Qed.

Lemma construct_action_panics port route dr :
  (forall ds, mr_Route route <> destinations ds) -> panics (constructAction oob port (Some route) dr) = true.
Proof.
  intros Hno. unfold constructAction.
  assert (Hbad : forall rds acc, (forall ds, rds <> destinations ds) ->
    panics (for_each (weighted_step port dr) rds acc) = true).
  { intros rds. induction rds as [|rd rds IH]; intros [[cs hs] t] Hn; [by destruct (Hn [])|].
    cbn [for_each]. destruct rd as [[[d|] w]|]; [|done..]. cbn. apply IH.
    intros ds Hds. by apply (Hn ((d, w) :: ds)); rewrite Hds. }
  destruct (mr_Route route) as [|rd [|rd2 rds]] eqn:E; [by destruct (Hno [])| |].
  + destruct rd as [[[d|] w]|]; [|done..]. by destruct (Hno [(d, w)]).
  + specialize (Hbad (rd :: rd2 :: rds) ([], [], 0) ltac:(done)).
    destruct (for_each _ (rd :: rd2 :: rds) _); done.
Qed.

(** The destinations that are present. *)
Definition route_destinations (route : MetaRoute) : list (Destination * Z) :=
  omap (M:=list) (fun rd => rd ← rd; d ← mrd_Destination rd; Some (d, mrd_Weight rd)) (mr_Route route).

Lemma destinations_omap ds :
  omap (M:=list) (fun rd : option MetaRouteDestination => rd ← rd; d ← mrd_Destination rd; Some (d, mrd_Weight rd))
    (destinations ds) = ds.
Proof. induction ds as [|[d w] ds IH]; [done|]. cbn. f_equal. exact IH. Qed.

Lemma destinations_cases rds : (exists ds, rds = destinations ds) \/ forall ds, rds <> destinations ds.
Proof.
  induction rds as [|rd rds [[ds ->]|Hno]]; [left; by exists []| |].
  - destruct rd as [[[d|] w]|]; [left; by exists ((d, w) :: ds)|right; by intros [|[]]..].
  - right. intros [|[d w] ds] [=]. by apply (Hno ds).
Qed.

Lemma construct_action_inv port route dr action :
  constructAction oob port (Some route) dr = Ret action ->
  action = {| ra_ClusterSpecifier := expected_specifier port (route_destinations route);
              ra_HashPolicy := hash_policies dr (route_destinations route);
              ra_RequestMirrorPolicies := mirror_policies oob port route |}.
Proof.
  intros Hc. unfold route_destinations. destruct (destinations_cases (mr_Route route)) as [[ds Hd]|Hno].
  - rewrite (construct_action_ok _ _ _ _ Hd) in Hc. rewrite Hd, destinations_omap. by injection Hc.
  - apply (construct_action_panics port route dr) in Hno. by rewrite Hc in Hno.
Qed.

(** A route whose destinations are present never panics and gives: for one destination
    its cluster, for any other number a weighted set with one cluster per destination in
    order and the sum of the weights modulo 2^32 as total; the hash headers the destination
    rule has for the subsets, in order; and the mirror policy. With a nil destination the
    construction panics. *)
Theorem construct_action_spec port route dr :
  (forall ds, mr_Route route = destinations ds ->
    constructAction oob port (Some route) dr =
      Ret {| ra_ClusterSpecifier := expected_specifier port ds;
             ra_HashPolicy := hash_policies dr ds;
             ra_RequestMirrorPolicies := mirror_policies oob port route |}) /\
  ((forall ds, mr_Route route <> destinations ds) ->
    panics (constructAction oob port (Some route) dr) = true).
Proof. split; [intros ds; apply construct_action_ok|apply construct_action_panics]. Qed.
End actions.

(** ** The HTTP carrier *)
(** A route that can be carried: it has a match and an action. *)
Definition carriable (r : MetaRouteEntry) : Prop := is_Some (mroute_Match r) /\ is_Some (mroute_Route r).

(** A route that is carried whole: the action has a cluster and no matcher is inverted. *)
Definition route_ok (r : MetaRouteEntry) : Prop :=
  exists md a, mroute_Match r = Some md /\ mroute_Route r = Some a /\
    Forall (fun m => hdr_InvertMatch m = false) md /\ ra_ClusterSpecifier a <> NoClusterSpecifier.

Lemma kv_copy (l : list KeyValue) :
  (fun m => {| kv_Key := kv_Key m; kv_Value := kv_Value m |}) <$> l = l.
Proof. induction l as [|[k v] l IH]; [done|]. by rewrite fmap_cons, IH. Qed.

(** The route carried by an HTTP route. *)
Definition carry_route (r : MetaRouteEntry) : outcome HttpRouteEntry :=
  routeMatch ← httpRouteMatch r;
  routeAction ← httpRouteAction r;
  Ret {| hre_Name := mroute_Name r; hre_Match := routeMatch; hre_Route := routeAction;
         hre_RequestHeadersToAdd := httpRequestHeaders r;
         hre_ResponseHeadersToAdd := httpResponseHeaders r |}.

Lemma carry_route_panics r : panics (carry_route r) = true <-> ~ carriable r.
Proof.
  unfold carry_route, httpRouteMatch, httpRouteAction, carriable.
  destruct (mroute_Match r), (mroute_Route r); cbn; rewrite ?is_Some_alt; naive_solver.
Qed.

Lemma matcher_copy md :
  Forall (fun m => hdr_InvertMatch m = false) md ->
  (fun m => {| hdr_Name := hdr_Name m; hdr_Specifier := hdr_Specifier m; hdr_InvertMatch := false |}) <$> md = md.
Proof. induction 1 as [|[n sp i] md Hi _ IH]; [done|]. cbn in Hi. by rewrite fmap_cons, IH, Hi. Qed.

#[local] Instance mirror_copy_inj : Inj (=) (=) (fun p : RequestMirrorPolicy =>
  {| hmp_Cluster := rmp_Cluster p; hmp_RuntimeFraction := rmp_RuntimeFraction p |}).
Proof. intros [c f] [c' f'] [= -> ->]. done. Qed.

#[local] Instance hash_copy_inj : Inj (=) (=) (fun p : string =>
  {| hhp_PolicySpecifier := HashPolicy_Header p; hhp_Terminal := false |}).
Proof. by intros p p' [= ->]. Qed.

#[local] Instance mutation_copy_inj : Inj (=) (=) (fun m : KeyValue =>
  {| hvo_Header := Some {| hv_Key := kv_Key m; hv_Value := kv_Value m |} |}).
Proof. intros [k v] [k' v'] [= -> ->]. done. Qed.

Lemma carry_route_inj r r' h : route_ok r -> route_ok r' -> carry_route r = Ret h -> carry_route r' = Ret h -> r = r'.
Proof.
  destruct r as [n m a rq rs], r' as [n' m' a' rq' rs'].
  intros (md & ac & Hm & Ha & Hinv & Hc) (md' & ac' & Hm' & Ha' & Hinv' & Hc'). cbn in *. subst m m' a a'.
  destruct ac as [cs hp mp], ac' as [cs' hp' mp'].
  intros [= <-] [= Hn Hmd Hcs Hhp Hmp Hrq Hrs]. cbn in *.
  rewrite !matcher_copy in Hmd by done.
  apply (inj (fmap _)) in Hhp, Hmp, Hrq, Hrs. subst. f_equal. f_equal. f_equal. by destruct cs, cs'.
Qed.

Lemma carry_routes_inj rs rs' hs :
  Forall route_ok rs -> Forall route_ok rs' -> map_panic carry_route rs = Ret hs -> map_panic carry_route rs' = Ret hs ->
  rs = rs'.
Proof.
  intros Hok Hok' H1%map_panic_inv H2%map_panic_inv. revert rs' Hok' H2.
  induction H1 as [|r h rs hs Hr _ IH]; intros rs' Hok' H2; [by inversion H2|].
  apply Forall2_cons_inv_r in H2 as (r' & rs2 & Hr' & H2 & ->).
  apply Forall_cons in Hok as [Hk Hok], Hok' as [Hk' Hok'].
  f_equal; [by eapply carry_route_inj|by apply IH].
Qed.

Lemma map_panic_panics_carry rs :
  panics (map_panic carry_route rs) = true <->
  exists r, r ∈ rs /\ (mroute_Match r = None \/ mroute_Route r = None).
Proof.
  induction rs as [|r rs IH]; [split; [done|]; by intros (r & ?%elem_of_nil & _)|]. cbn [map_panic].
  assert (Hr : panics (carry_route r) = true <-> mroute_Match r = None \/ mroute_Route r = None).
  { rewrite carry_route_panics. unfold carriable. destruct (mroute_Match r), (mroute_Route r);
      rewrite ?is_Some_alt; naive_solver. }
  destruct (carry_route r) as [h|w]; cbn [mbind outcome_bind panics] in *.
  - destruct (map_panic carry_route rs); cbn [mbind outcome_bind panics] in *; set_solver.
  - set_solver.
Qed.

Lemma metaProtocolRoute2HttpRoute_unfold rc :
  metaProtocolRoute2HttpRoute rc =
  (routes ← map_panic carry_route (mrc_Routes rc);
   Ret {| hrc_Name := mrc_Name rc;
          hrc_VirtualHosts := [{| vh_Name := "dummy"; vh_Domains := ["*"]; vh_Routes := routes |}] |}).
Proof. done. Qed.

Lemma carriable_carried rc :
  Forall carriable (mrc_Routes rc) -> exists http, metaProtocolRoute2HttpRoute rc = Ret http.
Proof.
  intros Hok. rewrite metaProtocolRoute2HttpRoute_unfold.
  destruct (map_panic carry_route (mrc_Routes rc)) as [hs|w] eqn:E; [by eexists|].
  assert (Hp : panics (map_panic carry_route (mrc_Routes rc)) = true) by (by rewrite E).
  apply map_panic_panics_carry in Hp as (r & Hr & Hnone).
  destruct (proj1 (Forall_forall _ _) Hok r Hr) as [[m Hm] [a Ha]]. destruct Hnone; congruence.
Qed.

(** C8: The HTTP route configuration that carries a MetaProtocol one. The conversion panics
    exactly when some route has no match or no action; its result has the configuration's
    name and one virtual host that accepts every domain; and it loses nothing of
    configurations whose routes have a match without inverted matchers and an action with a
    cluster: two of them with the same carrier are equal, in routes, matchers, clusters,
    weights, hash headers, mirrors and mutations. *)
Theorem http_carrier_faithful rc rc' h :
  (panics (metaProtocolRoute2HttpRoute rc) = true <->
   exists r, r ∈ mrc_Routes rc /\ (mroute_Match r = None \/ mroute_Route r = None)) /\
  (metaProtocolRoute2HttpRoute rc = Ret h ->
   hrc_Name h = mrc_Name rc /\ vh_Domains <$> hrc_VirtualHosts h = [["*"]] /\
   (Forall route_ok (mrc_Routes rc) -> Forall route_ok (mrc_Routes rc') ->
    metaProtocolRoute2HttpRoute rc' = Ret h -> rc = rc')).
Proof.
  rewrite !metaProtocolRoute2HttpRoute_unfold. split.
  - rewrite <- map_panic_panics_carry. by destruct (map_panic carry_route (mrc_Routes rc)).
  - intros (hs & Hhs & [= <-])%bind_Ret_inv. split_and!; [done..|].
    intros Hok Hok' (hs' & Hhs' & [= Hn ->])%bind_Ret_inv. destruct rc, rc'. cbn in *. subst.
    f_equal. by eapply carry_routes_inj.
Qed.

(** ** Route configurations of the store *)
Section routes.
Context `{MapRange, IstioNaming} (oob : Z).

(** The (host, port) pairs of the MetaProtocol ports of a service entry. *)
Definition meta_ports (c : CacheMgr) (config : Config) : list (string * Z) :=
  match asServiceEntry (c_Spec config) with
  | Some service =>
      match se_Hosts service with
      | [] => []
      | h :: _ => (fun port => (h, sp_Number port)) <$> filter (fun port => is_meta_port c port) (se_Ports service)
      end
  | None => []
  end.

Lemma service_routes_names c config rs :
  service_routes oob c config = Ret rs ->
  mrc_Name <$> rs = (fun '(h, p) => BuildMetaProtocolRouteName h p) <$> meta_ports c config.
Proof.
  unfold service_routes, meta_ports. destruct (asServiceEntry (c_Spec config)) as [service|]; [|by intros [= <-]].
  destruct (isMetaProtocolService c service) eqn:Em; simpl.
  2:{ intros [= <-]. destruct (se_Hosts service) as [|h hs]; [done|].
      by rewrite (existsb_false_filter (is_meta_port c)). }
  destruct (se_Hosts service) as [|h hs] eqn:Eh; [by intros [= <-]|].
  intros (mr & _ & Hr)%bind_Ret_inv. apply bind_Ret_inv in Hr as (dr & _ & Hr).
  apply map_panic_inv in Hr. induction Hr as [|port r ports rs Hport _ IH]; [done|].
  rewrite !fmap_cons, IH. f_equal.
  destruct (or_nil mr) as [mr'|]; [unfold constructRoute in Hport|unfold defaultRoute in Hport].
  - apply bind_Ret_inv in Hport as (routes & _ & Hport). rewrite Eh in Hport. simpl in Hport.
    by injection Hport as <-.
  - rewrite Eh in Hport. simpl in Hport. by apply bind_Ret_inv in Hport as (hd & _ & [= <-]).
Qed.

Lemma generateMetaRoutes_names c configs rs :
  generateMetaRoutes oob c configs = Ret rs ->
  mrc_Name <$> rs =
    (fun '(h, p) => BuildMetaProtocolRouteName h p) <$> concat (meta_ports c <$> configs).
Proof.
  unfold generateMetaRoutes. intros (rss & Hrss & [= <-])%bind_Ret_inv. apply map_panic_inv in Hrss.
  induction Hrss as [|config r configs rss Hr _ IH]; [done|]. simpl.
  rewrite fmap_app, IH, fmap_app. by erewrite service_routes_names.
Qed.

Lemma route_names_NoDup c configs rs :
  generateMetaRoutes oob c configs = Ret rs -> NoDup (concat (meta_ports c <$> configs)) -> NoDup (mrc_Name <$> rs).
Proof.
  intros ->%generateMetaRoutes_names Hnd. apply NoDup_fmap_2_strong; [|done].
  intros [h p] [h' p'] _ _ Heq. by apply BuildMetaProtocolRouteName_inj in Heq as [-> ->].
Qed.

(** When the routes of the store are generated, there is exactly one configuration per
    MetaProtocol port of each service entry with a host, in store order, named <host>_<port>;
    if no two of these ports share host and number, the names are all different, so that no
    configuration replaces another in the snapshot. *)
Theorem route_configuration_names c configs rs :
  generateMetaRoutes oob c configs = Ret rs ->
  mrc_Name <$> rs =
    (fun '(h, p) => BuildMetaProtocolRouteName h p) <$> concat (meta_ports c <$> configs) /\
  (NoDup (concat (meta_ports c <$> configs)) -> NoDup (mrc_Name <$> rs)).
Proof.
  intros Hr. split; [by apply generateMetaRoutes_names|by apply route_names_NoDup].
Qed.
End routes.

(** ** The cache *)
Section cache.
Context `{MapRange, IstioNaming} (oob : Z) {St Snap : Type} `{SnapshotCacheLaws St Snap}.

Lemma set_snapshots_spec nodes snap (s s' : St) :
  set_snapshots nodes snap s = (None, s') ->
  (forall n, GetSnapshot s' n = if decide (n ∈ nodes) then Some snap else GetSnapshot s n) /\
  GetStatusKeys s' = GetStatusKeys s.
Proof.
  revert s. induction nodes as [|node nodes IH]; intros s; cbn [set_snapshots]; [by intros [= <-]|].
  destruct (SetSnapshot node snap s) as [[e|] s1] eqn:E; [done|]. intros Hs.
  apply SetSnapshot_spec in E as [Hg Hk]. apply IH in Hs as [Hg' Hk'].
  split; [|congruence]. intros n. rewrite Hg', Hg.
  destruct (decide (n ∈ node :: nodes)) as [Hin|Hin]; rewrite elem_of_cons in Hin;
    repeat case_decide; naive_solver.
Qed.

(** An update that stops early has still only stored the new snapshot. *)
Lemma set_snapshots_any nodes snap (s s' : St) e :
  set_snapshots nodes snap s = (e, s') ->
  (forall n, GetSnapshot s' n = GetSnapshot s n \/ (n ∈ nodes /\ GetSnapshot s' n = Some snap)) /\
  GetStatusKeys s' = GetStatusKeys s.
Proof.
  revert s. induction nodes as [|node nodes IH]; intros s; cbn [set_snapshots]; [intros [= _ <-]; auto|].
  destruct (SetSnapshot node snap s) as [[err|] s1] eqn:E.
  - intros [= _ <-]. apply SetSnapshot_failed in E as [Hg Hk]. split; [|done]. intros n.
    rewrite elem_of_cons. destruct (Hg n); tauto.
  - intros Hs. apply SetSnapshot_spec in E as [Hg Hk]. apply IH in Hs as [Hg' Hk'].
    split; [|congruence]. intros n. rewrite elem_of_cons. destruct (Hg' n) as [->|[??]]; [|tauto].
    rewrite Hg. case_decide; tauto.
Qed.

(** A snapshot of the routes of the configuration, made at some time. *)
Definition current_snapshot (c : CacheMgr) (snap : Snap) : Prop :=
  exists routes now,
    generateMetaRoutes oob c (store_List (cm_configStore c) GvkServiceEntry "") = Ret routes /\
    generateSnapshot now routes = Ret (Ok snap).

(** An update either leaves the cache as it is, having failed or having nobody to serve, or
    stores snapshots of the current routes, for all subscribed nodes unless it failed. *)
Lemma update_outcome c now (s s' : St) e :
  updateRouteCache oob c now s = Ret (e, s') ->
  GetStatusKeys s' = GetStatusKeys s /\
  (forall n, GetSnapshot s' n = GetSnapshot s n \/
     (n ∈ GetStatusKeys s /\ exists snap, GetSnapshot s' n = Some snap /\ current_snapshot c snap)) /\
  (e = None -> forall n, n ∈ GetStatusKeys s -> exists snap, GetSnapshot s' n = Some snap /\ current_snapshot c snap).
Proof.
  unfold updateRouteCache. destruct (GetStatusKeys s) as [|k ks] eqn:Ek.
  { intros [= _ <-]. split_and!; [done|by left|]. intros _ n Hn. by apply elem_of_nil in Hn. }
  intros (routes & Hr & Hu)%bind_Ret_inv. apply bind_Ret_inv in Hu as (r & Hs & Hu).
  destruct r as [snap|err]; [|injection Hu as <- <-; split_and!; [done|by left|done]].
  assert (Hset : set_snapshots (k :: ks) snap s = (e, s')) by congruence.
  assert (Hcur : current_snapshot c snap) by (by exists routes, now).
  destruct (set_snapshots_any _ _ _ _ _ Hset) as [Hg Hk]. rewrite Ek in Hk. split_and!; [done|..].
  - intros n. destruct (Hg n) as [?|[??]]; [by left|right]. eauto.
  - intros -> n Hn. apply set_snapshots_spec in Hset as [Hg' _]. exists snap.
    by rewrite Hg', decide_True.
Qed.

(** A successful update gives every subscribed node the same snapshot, made of the
    HTTP carriers of the routes generated from the current store, and changes nothing for
    the other nodes nor the set of subscribers; without subscribers nothing is computed. *)
Theorem update_route_cache_spec c now (s s' : St) :
  updateRouteCache oob c now s = Ret (None, s') ->
  GetStatusKeys s' = GetStatusKeys s /\
  (GetStatusKeys s = [] -> s' = s) /\
  (GetStatusKeys s <> [] -> exists routes https snap,
     generateMetaRoutes oob c (store_List (cm_configStore c) GvkServiceEntry "") = Ret routes /\
     Forall2 (fun r h => metaProtocolRoute2HttpRoute r = Ret h) routes https /\
     NewSnapshot (Itoa now) https = Ok snap /\
     forall n, GetSnapshot s' n = if decide (n ∈ GetStatusKeys s) then Some snap else GetSnapshot s n).
Proof.
  unfold updateRouteCache. destruct (GetStatusKeys s) as [|k ks] eqn:Ek; [by intros [= <-]|].
  intros (routes & Hr & Hu)%bind_Ret_inv. apply bind_Ret_inv in Hu as (r & Hs & Hu).
  unfold generateSnapshot in Hs. apply bind_Ret_inv in Hs as (https & Hh & [= <-]).
  destruct (NewSnapshot (Itoa now) https) as [snap|e] eqn:En; [|done].
  assert (set_snapshots (k :: ks) snap s = (None, s')) as Hset by congruence. apply set_snapshots_spec in Hset as [Hg Hk]. rewrite Ek in Hk.
  split; [done|]. split; [done|]. intros _. exists routes, https, snap.
  by rewrite <- map_panic_inv.
Qed.

End cache.

(** ** Mirror percentages *)
(** A whole percentage p from 0 to 100 becomes exactly p * 10000 parts per million; the
    product is truncated, so that 0.57 percent becomes 5699 and not 5700. *)
Theorem mirror_percentage oob :
  (forall p, 0 <= p <= 100 -> translatePercentToFractionalPercent oob (f64_of_Z p) =
     {| fp_Numerator := p * 10000; fp_Denominator := MILLION |}) /\
  fp_Numerator (translatePercentToFractionalPercent oob (SFdiv 53 1024 (f64_of_Z 57) (f64_of_Z 100))) = 5699.
Proof.
  split; [|by vm_compute]. intros p Hp.
  assert (Hall : forallb (fun n => fp_Numerator (translatePercentToFractionalPercent (-1) (f64_of_Z (Z.of_nat n)))
                                   =? Z.of_nat n * 10000) (seq 0 101) = true) by (by vm_compute).
  rewrite forallb_forall in Hall. specialize (Hall (Z.to_nat p)). rewrite Z2Nat.id in Hall by lia.
  assert (Hx : fp_Numerator (translatePercentToFractionalPercent (-1) (f64_of_Z p)) = p * 10000).
  { apply Z.eqb_eq, Hall, in_seq. lia. }
  unfold translatePercentToFractionalPercent in *. cbn [fp_Numerator] in Hx. f_equal.
  unfold u32_of_f64, f64_trunc in *. destruct (f64_mul _ _) as [| | |[] m e]; try done; try lia;
    repeat case_match; lia.
Qed.

(** ** Config events *)
(** A service entry with a port named tcp-metaprotocol or tcp-metaprotocol-<rest> has
    routes and its changes refresh them; but the test on events is a case-sensitive prefix
    test while the generation parses protocols in any case and after any prefix, so there
    are service entries with routes whose changes do not refresh them. *)
Theorem route_event_filter c config :
  cm_protocolMap c = protocolMap_init -> m_GroupVersionKind (c_Meta config) = GvkServiceEntry ->
  (forall service port rest, c_Spec config = SpecServiceEntry service -> port ∈ se_Ports service ->
     sp_Name port = "tcp-metaprotocol" +:+ rest -> (rest = "" \/ exists r, rest = "-" +:+ r) ->
     isMetaProtocolService c service = true /\ shouldUpdateCache c config = Ret true) /\
  (exists service, isMetaProtocolService c service = true /\
     shouldUpdateCache c {| c_Meta := c_Meta config; c_Spec := SpecServiceEntry service |} = Ret false).
Proof.
  intros Hpm Hk. split.
  - intros service port rest Hs Hin Hname Hrest. split.
    + apply existsb_exists. exists port. split; [by apply list_elem_of_In|].
      unfold is_meta_port. rewrite Hpm, Hname.
      destruct (layer7_of_parts protocolMap_init "tcp" "metaprotocol" eq_refl eq_refl) as [H1 H2].
      destruct Hrest as [->|[r ->]]; [by vm_compute|].
      change ("tcp-metaprotocol" +:+ "-" +:+ r) with ("tcp" +:+ "-" +:+ "metaprotocol" +:+ "-" +:+ r).
      by rewrite H2.
    + unfold shouldUpdateCache. rewrite Hk, Hs. simpl. f_equal. apply existsb_exists. exists port.
      split; [by apply list_elem_of_In|]. rewrite Hname. apply (HasPrefix_app "tcp-metaprotocol" rest).
  - exists {| se_Hosts := ["h"]; se_Addresses := [];
              se_Ports := [{| sp_Number := 1; sp_Protocol := "tcp"; sp_Name := "tcp-MetaProtocol-dubbo";
                              sp_TargetPort := 1 |}];
              se_Resolution := NONE; se_WorkloadSelector := None |}.
    unfold isMetaProtocolService, is_meta_port, shouldUpdateCache. cbn [c_Meta c_Spec]. rewrite Hpm, Hk.
    by vm_compute.
Qed.

(** A destination rule event looks at the first host of every service entry, and panics on
    one without hosts. *)
Lemma destination_rule_event_panics c dr ns ses config rest se :
  ses = config :: rest -> asServiceEntry (c_Spec config) = Some se -> se_Hosts se = [] ->
  store_List (cm_configStore c) GvkServiceEntry "" = ses ->
  panics (findRelatedServiceEntry c dr ns) = true.
Proof.
  intros -> Hse Hh Hl. unfold findRelatedServiceEntry. rewrite Hl. simpl. by rewrite Hse, Hh.
Qed.

(** ** Concrete runs *)
Definition mem_cache : SnapshotCache (list string * gmap string (list HttpRouteConfiguration))
                         (list HttpRouteConfiguration) :=
  {| NewSnapshot := fun _ rs => Ok rs; GetStatusKeys := fst; GetSnapshot := fun s n => snd s !! n;
     SetSnapshot := fun n snap s => (None, (fst s, <[n := snap]> (snd s)));
     ClearSnapshot := fun n s => (filter (fun k => k <> n) (fst s), delete n (snd s)) |}.

Lemma mem_cache_laws : @SnapshotCacheLaws _ _ mem_cache.
Proof.
  split; simpl.
  - intros node snap s s' [= <-]. split; [|done]. intros n. simpl.
    case_decide; [subst; by rewrite lookup_insert_eq|by rewrite lookup_insert_ne].
  - done.
  - intros node s n. case_decide; [subst; by rewrite lookup_delete_eq|by rewrite lookup_delete_ne].
  - intros node s n. rewrite list_elem_of_filter. tauto.
Qed.

Section demo.
#[local] Existing Instance canonical_range.
#[local] Existing Instance istio_subset_key.
#[local] Existing Instance mem_cache.
#[local] Existing Instance mem_cache_laws.

Definition demo_entry : Config :=
  {| c_Meta := {| m_GroupVersionKind := GvkServiceEntry; m_Name := "a"; m_Namespace := "ns";
                  m_Labels := ∅; m_Annotations := ∅ |};
     c_Spec := SpecServiceEntry {| se_Hosts := ["a.svc"]; se_Addresses := [];
       se_Ports := [{| sp_Number := 20880; sp_Protocol := "tcp"; sp_Name := "tcp-metaprotocol-dubbo";
                       sp_TargetPort := 20880 |};
                    {| sp_Number := 80; sp_Protocol := "http"; sp_Name := "http"; sp_TargetPort := 80 |}];
       se_Resolution := STATIC; se_WorkloadSelector := None |} |}.
Definition demo_mgr : CacheMgr :=
  {| cm_metaRouters := Ok [];
     cm_configStore := {| store_List := fun k _ => match k with GvkServiceEntry => [demo_entry] | _ => [] end |};
     cm_protocolMap := protocolMap_init |}.
Definition demo_routes : list MetaRouteConfiguration :=
  [{| mrc_Name := "a.svc_20880";
      mrc_Routes := [{| mroute_Name := "default"; mroute_Match := Some [];
        mroute_Route := Some {| ra_ClusterSpecifier := Cluster "outbound|20880||a.svc"; ra_HashPolicy := [];
                                ra_RequestMirrorPolicies := [] |};
        mroute_RequestMutation := []; mroute_ResponseMutation := [] |}] |}].

Definition demo_carried : MetaRouteConfiguration :=
  {| mrc_Name := "n";
     mrc_Routes := [{| mroute_Name := "r";
        mroute_Match := Some [{| hdr_Name := "method"; hdr_Specifier := ExactMatch "hello"; hdr_InvertMatch := false |}];
        mroute_Route := Some {| ra_ClusterSpecifier := Cluster "c"; ra_HashPolicy := ["user"];
          ra_RequestMirrorPolicies := [{| rmp_Cluster := "m";
            rmp_RuntimeFraction := Some {| fp_Numerator := 10000; fp_Denominator := MILLION |} |}] |};
        mroute_RequestMutation := [{| kv_Key := "k"; kv_Value := "v" |}]; mroute_ResponseMutation := [] |}] |}.

Lemma http_carrier_faithful_witness :
  exists h, metaProtocolRoute2HttpRoute demo_carried = Ret h /\ hrc_Name h = "n" /\
    forall rc', Forall route_ok (mrc_Routes rc') -> metaProtocolRoute2HttpRoute rc' = Ret h -> demo_carried = rc'.
Proof.
  eexists. split; [reflexivity|]. split; [reflexivity|]. intros rc' Hok' Hrc'.
  refine (proj2 (proj2 (proj2 (http_carrier_faithful demo_carried rc' _) eq_refl)) _ Hok' Hrc').
  apply Forall_singleton. do 2 eexists. split; [reflexivity|]. split; [reflexivity|].
  split; [by repeat constructor|discriminate].
Defined.

(** The inversion of a matcher is lost. *)
Example inverted_matcher_lost :
  httpRouteMatch {| mroute_Name := "r"; mroute_Route := None; mroute_RequestMutation := []; mroute_ResponseMutation := [];
    mroute_Match := Some [{| hdr_Name := "k"; hdr_Specifier := ExactMatch "v"; hdr_InvertMatch := true |}] |} =
  Ret {| hrm_Prefix := "/"; hrm_Headers := [{| hdr_Name := "k"; hdr_Specifier := ExactMatch "v"; hdr_InvertMatch := false |}] |}.
Proof. reflexivity. Qed.

Lemma route_configuration_names_witness :
  mrc_Name <$> demo_routes = ["a.svc_20880"] /\ NoDup (mrc_Name <$> demo_routes).
Proof.
  destruct (route_configuration_names 0 demo_mgr [demo_entry] demo_routes) as [Hn Hd];
    [vm_compute; reflexivity|].
  split; [rewrite Hn; vm_compute; reflexivity|].
  apply Hd. apply (bool_decide_unpack _). vm_compute. exact I.
Defined.

Definition demo_cache : list string * gmap string (list HttpRouteConfiguration) := (["n1"; "n2"], ∅).

Lemma update_route_cache_spec_witness :
  exists s', updateRouteCache 0 demo_mgr 7 demo_cache = Ret (None, s') /\
    exists snap, GetSnapshot s' "n2" = Some snap /\ GetSnapshot s' "n3" = None /\
                 hrc_Name <$> snap = ["a.svc_20880"].
Proof.
  destruct (updateRouteCache 0 demo_mgr 7 demo_cache) as [[[e|] s']|w] eqn:E; [vm_compute in E; discriminate E| |
    vm_compute in E; discriminate E].
  destruct (update_route_cache_spec 0 demo_mgr 7 demo_cache s' E) as (_ & _ & Hs).
  destruct Hs as (routes & https & snap & Hr & Hf & Hn & Hg); [discriminate|].
  exists s'. split; [reflexivity|]. exists snap. rewrite !Hg. split; [reflexivity|]. split; [reflexivity|].
  vm_compute in Hn. injection Hn as <-. vm_compute in Hr. injection Hr as <-.
  apply map_panic_inv in Hf. vm_compute in Hf. injection Hf as <-. reflexivity.
Defined.

Lemma route_event_filter_witness :
  isMetaProtocolService demo_mgr {| se_Hosts := ["a.svc"]; se_Addresses := [];
       se_Ports := [{| sp_Number := 20880; sp_Protocol := "tcp"; sp_Name := "tcp-metaprotocol-dubbo";
                       sp_TargetPort := 20880 |};
                    {| sp_Number := 80; sp_Protocol := "http"; sp_Name := "http"; sp_TargetPort := 80 |}];
       se_Resolution := STATIC; se_WorkloadSelector := None |} = true.
Proof.
  destruct (route_event_filter demo_mgr demo_entry eq_refl eq_refl) as [H _].
  eapply (H _ _ "-dubbo"); [reflexivity|apply list_elem_of_here|reflexivity|right; by exists "dubbo"].
Defined.
End demo.
