(* ===== verification/XdsServer.v ===== *)
(** * The RDS server: streams of proxies and the route cache

    [src/internal/xds/server.go] and [callbacks.go] with the methods of the cache manager that
    they call.  The gRPC server and the cache are go-control-plane's: for a request of a
    stream it calls [OnStreamRequest] and then creates a watch, for a closed stream it calls
    [OnStreamClosed].  A watch is what an update of the node's snapshot answers; clearing a
    node forgets its watches. *)

From S2P Require Import Prelude Api Model Xds.

(** ** server.go

    The cache manager of the server is passed to the callbacks below as their state. *)
Record Server (TLS : Type) := { xsrv_addr : string; xsrv_TLSConfig : option TLS }.
Arguments xsrv_addr {TLS} _.
Arguments xsrv_TLSConfig {TLS} _.

Definition grpcMaxConcurrentStreams : Z := 1000000.

(** The TLS settings are filled in later. *)
Definition NewServer {TLS} (addr : string) : Server TLS := {| xsrv_addr := addr; xsrv_TLSConfig := None |}.

Inductive RunAction (TLS : Type) :=
| NewGrpcServer (maxStreams : Z) (creds : option TLS)
| Exit (err : error)
| RegisterRouteDiscovery
| Serve
| Stop.
Arguments NewGrpcServer {TLS} maxStreams creds.
Arguments Exit {TLS} err.
Arguments RegisterRouteDiscovery {TLS}.
Arguments Serve {TLS}.
Arguments Stop {TLS}.

(** What [Run] does up to the stop signal, or including it; [Fatal] ends the process. *)
Definition Run {TLS L} (Listen : string -> res L) (s : Server TLS) (stopped : bool) : list (RunAction TLS) :=
  NewGrpcServer grpcMaxConcurrentStreams (xsrv_TLSConfig s) ::
  match Listen (xsrv_addr s) with
  | Err err => [Exit err]
  | Ok _ => [RegisterRouteDiscovery; Serve] ++ if stopped then [Stop] else []
  end.

(** ** callbacks.go

    The interface [cacheMgr], and the callbacks on it. *)
Class cacheMgr (M St : Type) := {
  initNode : string -> M -> M;
  hasNode : string -> M -> bool;
  cache : M -> St;
  clearNode : string -> M -> M }.

Record Node := { node_Id : string }.
Record DiscoveryRequest := { drq_Node : option Node }.

(** What the callbacks rely on. *)
Class cacheMgrLaws (M St : Type) `{cacheMgr M St} := {
  hasNode_initNode : forall node n m, hasNode n (initNode node m) = hasNode n m;
  hasNode_clearNode : forall node n m,
    hasNode n (clearNode node m) = if decide (n = node) then false else hasNode n m }.

Section callbacks.
Context {M St : Type} `{cacheMgr M St}.

Definition OnStreamRequest (_ : Z) (request : DiscoveryRequest) (cb : M) : outcome (option error * M) :=
  node ← deref (drq_Node request);
  Ret (None, if negb (hasNode (node_Id node) cb) then initNode (node_Id node) cb else cb).

Definition OnStreamOpen (id : Z) (typ : string) (cb : M) : option error * M := (None, cb).

Definition OnStreamClosed (_ : Z) (node : option Node) (cb : M) : outcome M :=
  node ← deref node; Ret (clearNode (node_Id node) cb).

Definition OnDeltaStreamOpen (id : Z) (typ : string) (cb : M) : option error * M := (None, cb).
Definition OnDeltaStreamClosed (_ : Z) (node : option Node) (cb : M) : outcome M :=
  _ ← deref node; Ret cb.
Definition OnStreamResponse (_ : Z) (request : DiscoveryRequest) (cb : M) : outcome M :=
  _ ← deref (drq_Node request); Ret cb.
Definition OnStreamDeltaResponse (_ : Z) (cb : M) : M := cb.
Definition OnStreamDeltaRequest (_ : Z) (cb : M) : option error * M := (None, cb).
Definition OnFetchRequest (_ : DiscoveryRequest) (cb : M) : option error * M := (None, cb).
Definition OnFetchResponse (_ : DiscoveryRequest) (cb : M) : M := cb.
End callbacks.

(** ** The cache manager behind the interface *)

(** The cache and the number of events sent to the push channel. *)
Record XdsState (St : Type) := { xs_cache : St; xs_events : nat }.
Arguments Build_XdsState {St} _ _.
Arguments xs_cache {St} _.
Arguments xs_events {St} _.

Section cache_mgr.
Context {St Snap : Type} `{SnapshotCache St Snap}.

Definition CacheMgr_initNode (_ : string) (c : XdsState St) : XdsState St :=
  {| xs_cache := xs_cache c; xs_events := S (xs_events c) |}.
Definition CacheMgr_hasNode (node : string) (c : XdsState St) : bool :=
  match GetSnapshot (xs_cache c) node with Some _ => true | None => false end.
Definition CacheMgr_clearNode (node : string) (c : XdsState St) : XdsState St :=
  {| xs_cache := ClearSnapshot node (xs_cache c); xs_events := xs_events c |}.

#[global] Instance CacheMgr_cacheMgr : cacheMgr (XdsState St) St :=
  {| initNode := CacheMgr_initNode; hasNode := CacheMgr_hasNode; cache := xs_cache;
     clearNode := CacheMgr_clearNode |}.

#[global] Instance CacheMgr_laws `{!SnapshotCacheLaws St Snap} : cacheMgrLaws (XdsState St) St.
Proof.
  split; [done|]. intros node n m. cbn. unfold CacheMgr_hasNode, CacheMgr_clearNode. cbn [xs_cache].
  rewrite ClearSnapshot_spec. by case_decide.
Qed.
End cache_mgr.

(** ** Watches *)
(** [CreateWatch] registers a stream as a subscriber of its node; [watchers] are the streams
    whose last request is not answered yet.  Documented behaviour: a watch makes the node
    known and changes no snapshot; storing a snapshot answers watches and creates none;
    clearing a node removes all its status information. *)
Class WatchCache (St Snap : Type) `{SnapshotCache St Snap} := {
  CreateWatch : Z -> string -> St -> St;
  watchers : St -> string -> list Z }.

Class WatchCacheLaws (St Snap : Type) `{WatchCache St Snap} := {
  CreateWatch_snapshot : forall id node s n, GetSnapshot (CreateWatch id node s) n = GetSnapshot s n;
  CreateWatch_keys : forall id node s n,
    n ∈ GetStatusKeys (CreateWatch id node s) <-> n ∈ GetStatusKeys s \/ n = node;
  CreateWatch_watchers : forall id node s n i,
    i ∈ watchers (CreateWatch id node s) n -> i ∈ watchers s n \/ (i = id /\ n = node);
  SetSnapshot_watchers : forall node snap s n i,
    i ∈ watchers (snd (SetSnapshot node snap s)) n -> i ∈ watchers s n;
  ClearSnapshot_watchers : forall node s n i,
    i ∈ watchers (ClearSnapshot node s) n -> i ∈ watchers s n /\ n <> node }.

(** ** The streams of the server

    Callbacks, watches and updates in any order; the label is the stream that acts. *)
Record RdsState (St : Type) := { rds_mgr : XdsState St; rds_opening : list (Z * string) }.
Arguments Build_RdsState {St} _ _.
Arguments rds_mgr {St} _.
Arguments rds_opening {St} _.

Section streams.
Context `{MapRange, IstioNaming} (oob : Z) {St Snap : Type} `{WatchCache St Snap}.

Definition request_of (node : string) : DiscoveryRequest := {| drq_Node := Some {| node_Id := node |} |}.

Definition with_cache (s : St) (m : XdsState St) : XdsState St :=
  {| xs_cache := s; xs_events := xs_events m |}.

Inductive rds_step : option Z -> RdsState St -> RdsState St -> Prop :=
| rds_request id node st m : OnStreamRequest id (request_of node) (rds_mgr st) = Ret (None, m) ->
    rds_step (Some id) st {| rds_mgr := m; rds_opening := (id, node) :: rds_opening st |}
| rds_watch id node st : (id, node) ∈ rds_opening st ->
    rds_step (Some id) st
      {| rds_mgr := with_cache (CreateWatch id node (xs_cache (rds_mgr st))) (rds_mgr st);
         rds_opening := filter (fun p => p <> (id, node)) (rds_opening st) |}
| rds_closed id node st m : OnStreamClosed id (Some {| node_Id := node |}) (rds_mgr st) = Ret m ->
    rds_step (Some id) st {| rds_mgr := m; rds_opening := rds_opening st |}
| rds_updated c now e s st : updateRouteCache oob c now (xs_cache (rds_mgr st)) = Ret (e, s) ->
    rds_step None st {| rds_mgr := with_cache s (rds_mgr st); rds_opening := rds_opening st |}.

(** Steps of everything but one stream. *)
Definition others_step (id : Z) (st st' : RdsState St) : Prop :=
  exists l, l <> Some id /\ rds_step l st st'.
End streams.

(** ** What the callbacks do *)
Section lifecycle.
Context {M St : Type} `{cacheMgrLaws M St}.

(** While a node has a snapshot its requests change nothing; a closed stream makes its node
    unknown and no other; the next request asks for an update.  The callbacks panic exactly
    on a missing node. *)
Theorem stream_lifecycle id node (cb : M) :
  (hasNode node cb = true -> OnStreamRequest id (request_of node) cb = Ret (None, cb)) /\
  (exists cb', OnStreamClosed id (Some {| node_Id := node |}) cb = Ret cb' /\
     (forall n, hasNode n cb' = if decide (n = node) then false else hasNode n cb) /\
     OnStreamRequest id (request_of node) cb' = Ret (None, initNode node cb')) /\
  (forall request, panics (OnStreamRequest id request cb) = true <-> drq_Node request = None).
Proof.
  unfold OnStreamRequest, OnStreamClosed. simpl. split; [by intros ->|]. split.
  - eexists. split; [done|]. split; [intros n; apply hasNode_clearNode|].
    by rewrite hasNode_clearNode, decide_True.
  - by intros [[n|]].
Qed.
End lifecycle.

Section watches.
Context `{MapRange, IstioNaming} (oob : Z) {St Snap : Type}.
Context `{SnapshotCacheLaws St Snap, !WatchCache St Snap, !WatchCacheLaws St Snap}.

Lemma set_snapshots_watchers nodes snap (s : St) n i :
  i ∈ watchers (snd (set_snapshots nodes snap s)) n -> i ∈ watchers s n.
Proof.
  revert s. induction nodes as [|node nodes IH]; intros s; cbn [set_snapshots]; [done|].
  pose proof (SetSnapshot_watchers node snap s n i) as Hset.
  destruct (SetSnapshot node snap s) as [[e|] s1]; simpl in *; auto.
Qed.

(** An update answers watches and never creates one. *)
Lemma update_watchers c now (s s' : St) e n i :
  updateRouteCache oob c now s = Ret (e, s') -> i ∈ watchers s' n -> i ∈ watchers s n.
Proof.
  unfold updateRouteCache. destruct (GetStatusKeys s) as [|k ks] eqn:Ek; [by intros [= _ <-]|].
  intros (routes & _ & Hu)%bind_Ret_inv. apply bind_Ret_inv in Hu as ([snap|err] & _ & Hu); [|by injection Hu as _ <-].
  assert (Hset : set_snapshots (k :: ks) snap s = (e, s')) by congruence.
  intros Hi. apply (set_snapshots_watchers (k :: ks) snap). by rewrite Hset.
Qed.

(** A stream that waits for no answer waits for none until it sends a request itself. *)
Definition unheard (id : Z) (node : string) (st : RdsState St) : Prop :=
  ~ (id ∈ watchers (xs_cache (rds_mgr st)) node) /\ ~ ((id, node) ∈ rds_opening st).

Lemma unheard_step id node st st' :
  unheard id node st -> others_step oob id st st' -> unheard id node st'.
Proof.
  intros [Hw Ho] (l & Hl & Hstep). destruct Hstep as [i n st m Hm|i n st Hin|i n st m Hm|c now e s st Hu];
    unfold unheard; cbn [rds_mgr rds_opening].
  - unfold OnStreamRequest in Hm. cbn in Hm. injection Hm as <-. split.
    + by destruct (CacheMgr_hasNode n (rds_mgr st)).
    + intros [[= <- <-]|?]%elem_of_cons; done.
  - cbn [with_cache xs_cache]. split; [|by intros [_ ?]%list_elem_of_filter].
    intros [?|[-> ->]]%CreateWatch_watchers; done.
  - injection Hm as <-. cbn. split; [|done]. by intros [? _]%ClearSnapshot_watchers.
  - cbn [with_cache xs_cache]. split; [|done]. by intros ?%(update_watchers _ _ _ _ _ _ _ Hu).
Qed.

(** C36: Closing one stream of a node cuts off the node's other streams: a stream of the same
    node that is waiting for changes has no watch any more, and none in any continuation of
    updates, requests and closed streams of others, however many snapshots are stored for
    the node; only a request of its own makes one. *)
Theorem closed_stream_starves_siblings id id' node st m st' :
  (id, node) ∉ rds_opening st ->
  OnStreamClosed id' (Some {| node_Id := node |}) (rds_mgr st) = Ret m ->
  rtc (others_step oob id) {| rds_mgr := m; rds_opening := rds_opening st |} st' ->
  id ∉ watchers (xs_cache (rds_mgr st')) node.
Proof.
  intros Ho [= <-] Hrun. apply (rtc_invariant _ (unheard id node)) in Hrun as [? _]; [done|apply unheard_step|].
  split; [|done]. cbn. by intros [_ ?]%ClearSnapshot_watchers.
Qed.

(** An update that runs between the request of a new node and its watch does not see the
    node: the event of the request is used up, the node is subscribed and has no snapshot. *)
Lemma overtaken_request id node c now (m m' : XdsState St) s :
  GetSnapshot (xs_cache m) node = None -> node ∉ GetStatusKeys (xs_cache m) ->
  OnStreamRequest id (request_of node) m = Ret (None, m') ->
  updateRouteCache oob c now (xs_cache m') = Ret (None, s) ->
  xs_events m' = S (xs_events m) /\ node ∈ GetStatusKeys (CreateWatch id node s) /\
  GetSnapshot (CreateWatch id node s) node = None.
Proof.
  intros Hn Hk Hreq Hu. unfold OnStreamRequest in Hreq. cbn in Hreq. unfold CacheMgr_hasNode in Hreq.
  rewrite Hn in Hreq. injection Hreq as <-. cbn [CacheMgr_initNode xs_cache xs_events] in *.
  split; [done|]. rewrite CreateWatch_keys, CreateWatch_snapshot. split; [by right|].
  destruct (update_outcome oob _ _ _ _ _ Hu) as (_ & Hg & _). destruct (Hg node) as [->|[? _]]; done.
Qed.
End watches.

(** ** Concrete runs

    The cache of [Xds.mem_cache] with the waiting streams of each node. *)
Definition MemWatch : Type := (list string * gmap string (list HttpRouteConfiguration)) * gmap string (list Z).

Definition mem_watch_cache : SnapshotCache MemWatch (list HttpRouteConfiguration) :=
  {| NewSnapshot := fun _ rs => Ok rs; GetStatusKeys := fun s => fst (fst s);
     GetSnapshot := fun s n => snd (fst s) !! n;
     SetSnapshot := fun n snap s => (None, ((fst (fst s), <[n := snap]> (snd (fst s))), delete n (snd s)));
     ClearSnapshot := fun n s =>
       ((filter (fun k => k <> n) (fst (fst s)), delete n (snd (fst s))), delete n (snd s)) |}.

Definition mem_watches : @WatchCache MemWatch (list HttpRouteConfiguration) mem_watch_cache :=
  {| CreateWatch := fun id n s =>
       ((n :: fst (fst s), snd (fst s)), <[n := id :: default [] (snd s !! n)]> (snd s));
     watchers := fun s n => default [] (snd s !! n) |}.

Section demo.
#[local] Existing Instance canonical_range.
#[local] Existing Instance istio_subset_key.
#[local] Existing Instance mem_watch_cache.
#[local] Existing Instance mem_watches.

#[local] Instance mem_watch_cache_laws : SnapshotCacheLaws MemWatch (list HttpRouteConfiguration).
Proof.
  split; cbn.
  - intros node snap s s' [= <-]. split; [|done]. intros n. cbn. case_decide; by simplify_map_eq.
  - done.
  - intros node s n. case_decide; by simplify_map_eq.
  - intros node s n. rewrite list_elem_of_filter. tauto.
Qed.

#[local] Instance mem_watches_laws : WatchCacheLaws MemWatch (list HttpRouteConfiguration).
Proof.
  split; cbn; [done|intros; rewrite elem_of_cons; tauto|..].
  - intros id node s n i. destruct (decide (node = n)) as [->|]; simplify_map_eq; [|by left].
    intros [->|?]%elem_of_cons; auto.
  - intros node snap s n i. destruct (decide (node = n)) as [->|]; simplify_map_eq; [|done].
    by intros ?%elem_of_nil.
  - intros node s n i. destruct (decide (node = n)) as [->|]; simplify_map_eq; [|done].
    by intros ?%elem_of_nil.
Qed.

(** Streams 1 and 2 of a proxy with one node wait for changes; stream 2 is closed, stream 3
    of the proxy subscribes, and the routes are updated. *)
Definition demo_streams : RdsState MemWatch :=
  {| rds_mgr := {| xs_cache := ((["n1"], {["n1" := []]}), {["n1" := [1; 2]]}); xs_events := 0 |};
     rds_opening := [] |}.

Definition demo_closed : XdsState MemWatch :=
  {| xs_cache := (([], ∅), ∅); xs_events := 0 |}.
Definition demo_reopened : RdsState MemWatch :=
  {| rds_mgr := {| xs_cache := ((["n1"], ∅), {["n1" := [3]]}); xs_events := 1 |}; rds_opening := [] |}.
Definition demo_served : RdsState MemWatch :=
  {| rds_mgr := with_cache
       match updateRouteCache 0 demo_mgr 7 (xs_cache (rds_mgr demo_reopened)) with Ret (_, s) => s | Panic _ => ((([], ∅), ∅)) end
       (rds_mgr demo_reopened);
     rds_opening := [] |}.

Lemma closed_stream_starves_siblings_witness :
  1 ∈ watchers (xs_cache (rds_mgr demo_streams)) "n1" /\
  is_Some (GetSnapshot (xs_cache (rds_mgr demo_served)) "n1") /\
  ~ (1 ∈ watchers (xs_cache (rds_mgr demo_served)) "n1").
Proof.
  split; [apply list_elem_of_here|]. split; [vm_compute; eexists; reflexivity|].
  apply (closed_stream_starves_siblings 0 1 2 "n1" demo_streams demo_closed demo_served).
  - intros H. apply elem_of_nil in H. exact H.
  - vm_compute. reflexivity.
  - eapply rtc_l; [exists (Some 3); split; [discriminate|apply (rds_request 0 3 "n1"); vm_compute; reflexivity]|].
    eapply rtc_l; [exists (Some 3); split; [discriminate|apply (rds_watch 0 3 "n1"); apply list_elem_of_here]|].
    eapply rtc_l; [|apply rtc_refl]. exists None. split; [discriminate|].
    apply (rds_updated 0 demo_mgr 7 None _ demo_reopened). vm_compute. reflexivity.
Defined.
End demo.
