(* ===== verification/Routing.v ===== *)
(** * From a MetaRouter to the routing of a request

    The composition of [src/internal/xds]: service entries, MetaRouters and destination rules
    to route configurations, their HTTP carrier, and the choice that the proxy makes among
    the carried routes for a request.  [expected_decision] says what the resources ask for,
    in their own terms: it uses no definition of the generation; [proxy_decides] is what the
    proxy does with the carrier, by Envoy's documentation: the first route whose header
    matchers all accept. *)

From Stdlib Require Import SpecFloat.
From S2P Require Import Prelude Api Model Xds.

(** What happens to a request: the clusters it may go to, the headers it is hashed by, the
    clusters it is mirrored to and how often, the headers added on both ways. *)
Record Decision := {
  dec_Name : string; dec_Clusters : ClusterSpecifier; dec_Hash : list string;
  dec_Mirrors : list (string * option FractionalPercent);
  dec_Request : list (string * string); dec_Response : list (string * string) }.

Section routing.
Context `{MapRange, IstioNaming} (oob : Z) (regex_match : string -> string -> bool).

(** ** What the proxy does *)
Definition hash_header (p : HttpHashPolicy) : option string :=
  match hhp_PolicySpecifier p with HashPolicy_Header name => Some name | _ => None end.

Definition added_header (o : HeaderValueOption) : option (string * string) :=
  (fun h => (hv_Key h, hv_Value h)) <$> hvo_Header o.

Definition entry_decision (e : HttpRouteEntry) : Decision :=
  {| dec_Name := hre_Name e; dec_Clusters := hra_ClusterSpecifier (hre_Route e);
     dec_Hash := omap hash_header (hra_HashPolicy (hre_Route e));
     dec_Mirrors := (fun m => (hmp_Cluster m, hmp_RuntimeFraction m)) <$> hra_RequestMirrorPolicies (hre_Route e);
     dec_Request := omap added_header (hre_RequestHeadersToAdd e);
     dec_Response := omap added_header (hre_ResponseHeadersToAdd e) |}.

Definition proxy_decides (md : gmap string string) (http : HttpRouteConfiguration) : option Decision :=
  entry_decision <$>
    List.find (fun e => forallb (header_matches regex_match md) (hrm_Headers (hre_Match e)))
      (concat (vh_Routes <$> hrc_VirtualHosts http)).

(** ** What the resources ask for *)
Definition route_accepts (md : gmap string string) (route : MetaRoute) : bool :=
  match mr_Match route with
  | None => true
  | Some m => bool_decide (map_Forall (fun name a => attribute_matches regex_match md name a = true)
                             (mrm_Attributes m))
  end.

(** Istio's outbound cluster of a destination, at the port it names or else the port of the
    service. *)
Definition asked_cluster (port : ServicePort) (d : Destination) : string :=
  let number := from_option ps_Number 0 (d_Port d) in
  BuildSubsetKey "outbound" (d_Subset d) (d_Host d) (if decide (number = 0) then sp_Number port else number).

Definition asked_clusters (port : ServicePort) (ds : list (Destination * Z)) : ClusterSpecifier :=
  match ds with
  | [(d, _)] => Cluster (asked_cluster port d)
  | _ => WeightedClusters
           {| wc_Clusters := (fun dw => {| cw_Name := asked_cluster port dw.1; cw_Weight := dw.2 |}) <$> ds;
              wc_TotalWeight := Some (foldr Z.add 0 ds.*2 mod 4294967296) |}
  end.

(** The header a traffic policy hashes by, if any. *)
Definition policy_header (policy : option TrafficPolicy) : option string :=
  policy ← policy; lb ← tp_LoadBalancer policy; hash ← lb_ConsistentHash lb;
  if decide (ch_HttpHeaderName hash = "") then None else Some (ch_HttpHeaderName hash).

(** The one of the rule for a destination without subset; for a subset, only its own. *)
Definition asked_hash (rule : option DestinationRule) (subset : string) : option string :=
  rule ← rule;
  if decide (subset = "") then policy_header (dr_TrafficPolicy rule)
  else sub ← List.find (fun sub => bool_decide (sub_Name sub = subset)) (dr_Subsets rule);
       policy_header (sub_TrafficPolicy sub).

(** The mirror, in parts per million of the percentage, truncated; an absent or zero
    percentage is 100. *)
Definition asked_mirrors (port : ServicePort) (route : MetaRoute) : list (string * option FractionalPercent) :=
  match mr_Mirror route with
  | None => []
  | Some mirror =>
      let percent := match mr_MirrorPercentage route with
                     | None | Some (S754_zero _) => f64_of_Z 100
                     | Some p => p
                     end in
      [(asked_cluster port mirror,
        Some {| fp_Numerator := u32_of_f64 oob (f64_mul percent (f64_of_Z 10000)); fp_Denominator := MILLION |})]
  end.

Definition router_decision (port : ServicePort) (rule : option DestinationRule) (route : MetaRoute) : Decision :=
  {| dec_Name := mr_Name route;
     dec_Clusters := asked_clusters port (route_destinations route);
     dec_Hash := omap (fun dw => asked_hash rule (d_Subset dw.1)) (route_destinations route);
     dec_Mirrors := asked_mirrors port route;
     dec_Request := (fun kv => (kv_Key kv, kv_Value kv)) <$> mr_RequestMutation route;
     dec_Response := (fun kv => (kv_Key kv, kv_Value kv)) <$> mr_ResponseMutation route |}.

Definition default_decision (h : string) (port : ServicePort) (rule : option DestinationRule) : Decision :=
  {| dec_Name := "default"; dec_Clusters := Cluster (BuildSubsetKey "outbound" "" h (sp_Number port));
     dec_Hash := option_list (asked_hash rule ""); dec_Mirrors := []; dec_Request := []; dec_Response := [] |}.

(** The first MetaRouter that lists the host, if it has routes. *)
Definition service_router (c : CacheMgr) (h : string) : option MetaRouter :=
  match cm_metaRouters c with
  | Err _ => None
  | Ok items =>
      mr ← List.find (fun mr => bool_decide (h ∈ mrs_Hosts (mtr_Spec mr))) items;
      match mrs_Routes (mtr_Spec mr) with [] => None | _ => Some mr end
  end.

(** The destination rules of a listing with their namespaces, up to an item that is none. *)
Fixpoint listed_rules (configs : list Config) : list (string * DestinationRule) :=
  match configs with
  | {| c_Meta := meta; c_Spec := SpecDestinationRule rule |} :: rest => (m_Namespace meta, rule) :: listed_rules rest
  | _ => []
  end.

(** The first rule for the host of a service entry, by fully qualified name. *)
Definition service_rule (c : CacheMgr) (ns h : string) : option DestinationRule :=
  snd <$> List.find (fun nr => bool_decide (fqdn (dr_Host nr.2) nr.1 = fqdn h ns))
            (listed_rules (store_List (cm_configStore c) GvkDestinationRule "")).

Definition expected_decision (c : CacheMgr) (ns h : string) (port : ServicePort) (md : gmap string string)
    : option Decision :=
  match service_router c h with
  | None => Some (default_decision h port (service_rule c ns h))
  | Some mr => router_decision port (service_rule c ns h) <$>
                 List.find (route_accepts md) (omap id (mrs_Routes (mtr_Spec mr)))
  end.

(** ** The carrier *)
Definition meta_decision (e : MetaRouteEntry) : option Decision :=
  action ← mroute_Route e;
  Some {| dec_Name := mroute_Name e; dec_Clusters := ra_ClusterSpecifier action; dec_Hash := ra_HashPolicy action;
          dec_Mirrors := (fun m => (rmp_Cluster m, rmp_RuntimeFraction m)) <$> ra_RequestMirrorPolicies action;
          dec_Request := (fun kv => (kv_Key kv, kv_Value kv)) <$> mroute_RequestMutation e;
          dec_Response := (fun kv => (kv_Key kv, kv_Value kv)) <$> mroute_ResponseMutation e |}.

(** The same choice on the routes before they are carried. *)
Definition meta_decides (md : gmap string string) (rc : MetaRouteConfiguration) : option Decision :=
  e ← List.find (fun e => forallb (header_matches regex_match md) (default [] (mroute_Match e))) (mrc_Routes rc);
  meta_decision e.

Lemma omap_fmap_total {A B C} (f : A -> B) (g : B -> option C) (k : A -> C) (l : list A) :
  (forall a, g (f a) = Some (k a)) -> omap g (f <$> l) = k <$> l.
Proof. intros Hk. induction l as [|a l IH]; [done|]. cbn. rewrite Hk. cbn. by rewrite IH. Qed.

Lemma carry_route_decision r e :
  route_ok r -> carry_route r = Ret e ->
  hrm_Headers (hre_Match e) = default [] (mroute_Match r) /\ Some (entry_decision e) = meta_decision r.
Proof.
  destruct r as [n m a rq rs]. intros (md & ac & Hm & Ha & Hinv & Hc). cbn in Hm, Ha. subst m a.
  intros [= <-]. cbn [hre_Match hrm_Headers mroute_Match default]. split; [by apply matcher_copy|].
  unfold entry_decision, meta_decision. cbn.
  rewrite (omap_fmap_total _ hash_header id), (omap_fmap_total _ added_header (fun kv => (kv_Key kv, kv_Value kv))),
    (omap_fmap_total _ added_header (fun kv => (kv_Key kv, kv_Value kv))), list_fmap_id by done.
  rewrite <- list_fmap_compose. f_equal. f_equal. by destruct (ra_ClusterSpecifier ac).
Qed.

(** Every configuration made of such routes is carried, and the proxy decides on the carrier
    as on the routes. *)
Definition carries (rc : MetaRouteConfiguration) (http : HttpRouteConfiguration) : Prop :=
  metaProtocolRoute2HttpRoute rc = Ret http /\ hrc_Name http = mrc_Name rc /\
  forall md, proxy_decides md http = meta_decides md rc.

Lemma carrier_decides rc : Forall route_ok (mrc_Routes rc) -> exists http, carries rc http.
Proof.
  intros Hok. unfold carries. rewrite metaProtocolRoute2HttpRoute_unfold.
  assert (Hes : exists es, map_panic carry_route (mrc_Routes rc) = Ret es /\
    forall md, entry_decision <$> List.find (fun e => forallb (header_matches regex_match md) (hrm_Headers (hre_Match e))) es =
      meta_decides md rc).
  { unfold meta_decides. induction Hok as [|r rs Hr _ (es & Hes & IH)]; [by exists []|]. cbn [map_panic].
    destruct (carry_route r) as [e|w] eqn:He.
    - rewrite Hes. exists (e :: es). split; [done|]. intros md. cbn [List.find].
      destruct (carry_route_decision r e Hr He) as [-> Hd]. destruct (forallb _ (default [] (mroute_Match r))); [done|].
      apply IH.
    - destruct Hr as (md & a & Hm & Ha & _).
      assert (Hp : panics (carry_route r) = true) by (by rewrite He). apply carry_route_panics in Hp.
      destruct Hp. by split; [rewrite Hm|rewrite Ha]. }
  destruct Hes as (es & -> & Hd). eexists. split; [reflexivity|]. split; [done|]. intros md.
  unfold proxy_decides. cbn. rewrite app_nil_r. apply Hd.
Qed.

Lemma route_accepts_headers md route :
  forallb (header_matches regex_match md) (MetaMatch2HttpHeaderMatch (mr_Match route)) = route_accepts md route.
Proof.
  apply eq_bool_prop_intro. rewrite !Is_true_true, header_match_iff. unfold route_accepts.
  destruct (mr_Match route) as [m|]; [|naive_solver].
  rewrite bool_decide_eq_true. unfold map_Forall. naive_solver.
Qed.

(** ** The generation and the resources *)
Lemma MetaMatch2HttpHeaderMatch_plain m :
  Forall (fun h => hdr_InvertMatch h = false) (MetaMatch2HttpHeaderMatch m).
Proof.
  destruct m as [m|]; [|constructor]. apply Forall_forall. intros h [[name a] [_ Ha]]%list_elem_of_omap.
  unfold attribute_matcher in Ha. by repeat case_match; simplify_eq.
Qed.

Lemma asked_cluster_spec port d : destination_cluster port d = asked_cluster port d.
Proof.
  unfold destination_cluster, asked_cluster, BuildClusterName, dst_port. cbn.
  destruct (d_Port d) as [p|]; cbn; [|done]. destruct (Z.eqb_spec (ps_Number p) 0); by case_decide.
Qed.

Lemma asked_clusters_spec port ds : expected_specifier port ds = asked_clusters port ds.
Proof.
  unfold expected_specifier, asked_clusters, cluster_weights.
  assert (Hw : (fun '(d, w) => {| cw_Name := destination_cluster port d; cw_Weight := w |}) <$> ds =
    (fun dw => {| cw_Name := asked_cluster port dw.1; cw_Weight := dw.2 |}) <$> ds).
  { apply list_fmap_ext. intros ? [d w] _. cbn [fst snd]. by rewrite asked_cluster_spec. }
  destruct ds as [|[d w] [|]]; [done|by rewrite asked_cluster_spec|by rewrite Hw].
Qed.

Lemma asked_mirrors_spec port route :
  (fun m => (rmp_Cluster m, rmp_RuntimeFraction m)) <$> mirror_policies oob port route = asked_mirrors port route.
Proof.
  unfold mirror_policies, asked_mirrors. destruct (mr_Mirror route) as [m|]; [|done].
  cbv zeta. by rewrite asked_cluster_spec.
Qed.

Lemma policy_header_spec tp :
  (let header := getConsistentHashHeaderName tp in if String.eqb header "" then [] else [header]) =
  option_list (policy_header tp).
Proof.
  destruct tp as [[[[[[header]|]]|]]|]; cbn; [|done..]. destruct (String.eqb_spec header ""); by case_decide.
Qed.

Definition rule_of (dr : option DestinationRuleWrapper) : option DestinationRule := dr ≫= drw_Spec.

Lemma asked_hash_spec dr subset : policies dr subset = option_list (asked_hash (rule_of dr) subset).
Proof.
  unfold policies, GetHashPolicy, asked_hash, rule_of. destruct (dr ≫= drw_Spec) as [rule|]; cbn.
  - destruct (String.eqb_spec subset "") as [->|Hne].
    + rewrite decide_True by done. apply policy_header_spec.
    + rewrite decide_False by done. induction (dr_Subsets rule) as [|sub subs IH]; [done|]. cbn.
      destruct (String.eqb_spec subset (sub_Name sub)) as [->|Hs].
      * rewrite bool_decide_true by done. apply policy_header_spec.
      * rewrite bool_decide_false by congruence. apply IH.
  - by destruct (String.eqb subset "").
Qed.

Lemma asked_hashes_spec dr ds :
  hash_policies dr ds = omap (fun dw => asked_hash (rule_of dr) (d_Subset dw.1)) ds.
Proof.
  unfold hash_policies. induction ds as [|[d w] ds IH]; [done|]. cbn. rewrite asked_hash_spec, IH.
  by destruct (asked_hash (rule_of dr) (d_Subset d)).
Qed.

Lemma service_rule_spec c meta service h hs r :
  se_Hosts service = h :: hs ->
  findRelatedDestinationRule c {| sew_Meta := meta; sew_Spec := service |} = Ret r ->
  rule_of (or_nil r) = service_rule c (m_Namespace meta) h.
Proof.
  intros Hh. unfold findRelatedDestinationRule, service_rule.
  induction (store_List (cm_configStore c) GvkDestinationRule "") as [|[m sp] configs IH]; [by intros [= <-]|].
  cbn [find_rule listed_rules c_Spec c_Meta].
  destruct sp; cbn [asDestinationRule]; try (by intros [= <-]). cbn [sew_Spec sew_Meta]. rewrite Hh. cbn.
  destruct (IsFQDNEquals _ _ _ _) eqn:E.
  - apply IsFQDNEquals_fqdn in E. rewrite bool_decide_true by done. by intros [= <-].
  - rewrite bool_decide_false; [apply IH|]. rewrite <- IsFQDNEquals_fqdn. by rewrite E.
Qed.

(** ** Routes of a service *)
Lemma constructRoute_decides service port mr dr rc :
  constructRoute oob service port mr dr = Ret rc ->
  Forall route_ok (mrc_Routes rc) /\
  forall md, meta_decides md rc =
    router_decision port (rule_of dr) <$> List.find (route_accepts md) (omap id (mrs_Routes (mtr_Spec mr))).
Proof.
  unfold constructRoute. intros (routes & Hroutes & Hr)%bind_Ret_inv.
  apply bind_Ret_inv in Hr as (h & _ & [= <-]). unfold meta_decides. cbn [mrc_Routes].
  apply map_panic_inv in Hroutes. induction Hroutes as [|r e rs es He _ [IHok IH]]; [done|].
  apply bind_Ret_inv in He as (route & Hroute & He). apply bind_Ret_inv in He as (action & Hact & [= <-]).
  destruct r as [r|]; [|done]. injection Hroute as ->. pose proof (construct_action_inv _ _ _ _ _ Hact) as Hspec.
  split.
  - constructor; [|done]. do 2 eexists. split_and!; [done|done|apply MetaMatch2HttpHeaderMatch_plain|].
    rewrite Hspec. cbn. unfold expected_specifier. by repeat case_match.
  - intros md. cbn. rewrite route_accepts_headers. destruct (route_accepts md route); [|apply IH].
    cbn. unfold meta_decision, router_decision, constructMutation. cbn. rewrite !kv_copy, Hspec. cbn.
    by rewrite asked_clusters_spec, asked_hashes_spec, asked_mirrors_spec.
Qed.

Lemma defaultRoute_decides service port dr rc h hs :
  se_Hosts service = h :: hs -> defaultRoute service port dr = Ret rc ->
  Forall route_ok (mrc_Routes rc) /\ forall md, meta_decides md rc = Some (default_decision h port (rule_of dr)).
Proof.
  intros Hh. unfold defaultRoute. rewrite Hh. cbn [index lookup list_lookup mbind outcome_bind].
  intros (header & Hhd & [= <-])%bind_Ret_inv. split.
  - apply Forall_singleton. do 2 eexists. split_and!; [done|done|constructor|done].
  - intros md. cbn. unfold meta_decision, default_decision. cbn. rewrite <- asked_hash_spec.
    unfold policies, GetHashPolicy. cbn. destruct dr as [dr|]; cbn; [|by injection Hhd as <-].
    apply bind_Ret_inv in Hhd as (spec & Hspec & [= <-]). unfold deref in Hspec.
    destruct (drw_Spec dr) as [spec'|]; [|done]. by injection Hspec as ->.
Qed.

Lemma find_router_spec items service h hs :
  se_Hosts service = h :: hs ->
  find_router items service =
    Ret (mr ← List.find (fun mr => bool_decide (h ∈ mrs_Hosts (mtr_Spec mr))) items;
         match mrs_Routes (mtr_Spec mr) with [] => None | _ => Some mr end).
Proof.
  intros Hh. induction items as [|mr items IH]; [done|]. cbn. rewrite Hh.
  destruct (mrs_Hosts (mtr_Spec mr)) as [|h' hosts']; [by rewrite bool_decide_false by set_solver|].
  cbn. by destruct (bool_decide (h ∈ h' :: hosts')).
Qed.

Lemma findRelatedMetaRouter_spec c service h hs r :
  se_Hosts service = h :: hs -> findRelatedMetaRouter c service = Ret r -> or_nil r = service_router c h.
Proof.
  intros Hh. unfold findRelatedMetaRouter, service_router. destruct (cm_metaRouters c) as [items|e]; [|by intros [= <-]].
  rewrite (find_router_spec _ _ _ _ Hh). by intros [= <-].
Qed.

(** The configuration of one port. *)
Lemma port_decides c meta service h hs mr dr port rc :
  se_Hosts service = h :: hs ->
  findRelatedMetaRouter c service = Ret mr ->
  findRelatedDestinationRule c {| sew_Meta := meta; sew_Spec := service |} = Ret dr ->
  match or_nil mr with
  | Some mr => constructRoute oob service port mr (or_nil dr)
  | None => defaultRoute service port (or_nil dr)
  end = Ret rc ->
  Forall route_ok (mrc_Routes rc) /\
  forall md, meta_decides md rc = expected_decision c (m_Namespace meta) h port md.
Proof.
  intros Hh Hmr Hdr Hrc. rewrite (findRelatedMetaRouter_spec _ _ _ _ _ Hh Hmr) in Hrc.
  unfold expected_decision. rewrite <- (service_rule_spec _ _ _ _ _ _ Hh Hdr). destruct (service_router c h) as [r|].
  - by eapply constructRoute_decides.
  - by eapply defaultRoute_decides.
Qed.

Lemma service_routes_ok c config rs :
  service_routes oob c config = Ret rs -> Forall (fun rc => Forall route_ok (mrc_Routes rc)) rs.
Proof.
  unfold service_routes. destruct (asServiceEntry (c_Spec config)) as [service|]; [|intros [= <-]; constructor].
  destruct (isMetaProtocolService c service); cbn [negb]; [|intros [= <-]; constructor].
  destruct (se_Hosts service) as [|h hs] eqn:Hh; [intros [= <-]; constructor|].
  intros (mr & Hmr & Hrs)%bind_Ret_inv. apply bind_Ret_inv in Hrs as (dr & Hdr & Hrs). apply map_panic_inv in Hrs.
  induction Hrs as [|port rc ports rcs Hrc _ IH]; [constructor|]. constructor; [|done].
  by eapply (port_decides c).
Qed.

Lemma generateMetaRoutes_ok c configs rs :
  generateMetaRoutes oob c configs = Ret rs -> Forall (fun rc => Forall route_ok (mrc_Routes rc)) rs.
Proof.
  unfold generateMetaRoutes. intros (rss & Hrss & [= <-])%bind_Ret_inv. apply map_panic_inv in Hrss.
  induction Hrss as [|config r configs rss Hr _ IH]; [constructor|]. cbn. apply Forall_app. split; [|done].
  by eapply service_routes_ok.
Qed.

Lemma service_routes_decides c config service h hs rs port :
  service_routes oob c config = Ret rs -> asServiceEntry (c_Spec config) = Some service ->
  se_Hosts service = h :: hs -> port ∈ se_Ports service -> is_meta_port c port = true ->
  exists rc, rc ∈ rs /\ mrc_Name rc = BuildMetaProtocolRouteName h (sp_Number port) /\
    forall md, meta_decides md rc = expected_decision c (m_Namespace (c_Meta config)) h port md.
Proof.
  intros Hrs Hse Hh Hport Hmeta.
  unfold service_routes in Hrs. rewrite Hse in Hrs.
  assert (isMetaProtocolService c service = true) as Hms.
  { apply existsb_exists. exists port. by rewrite <- list_elem_of_In. }
  rewrite Hms, Hh in Hrs. cbn [negb] in Hrs. apply bind_Ret_inv in Hrs as (mr & Hmr & Hrs).
  apply bind_Ret_inv in Hrs as (dr & Hdr & Hrs). apply map_panic_inv in Hrs.
  destruct (Forall2_elem_l _ _ _ port Hrs) as (rc & Hin & Hrc).
  { apply list_elem_of_filter. by rewrite Hmeta. }
  exists rc. split_and!; [done| |by eapply (port_decides c)].
  destruct (or_nil mr); unfold constructRoute, defaultRoute in Hrc; rewrite Hh in Hrc; cbn in Hrc.
  - by apply bind_Ret_inv in Hrc as (routes & _ & [= <-]).
  - by apply bind_Ret_inv in Hrc as (hd & _ & [= <-]).
Qed.

Lemma carriers rs :
  Forall (fun rc => Forall route_ok (mrc_Routes rc)) rs ->
  exists https, map_panic metaProtocolRoute2HttpRoute rs = Ret https /\ Forall2 carries rs https.
Proof.
  induction 1 as [|rc rs Hok _ (https & Hh & Hf)]; [by exists []|].
  destruct (carrier_decides rc Hok) as (http & Hc). exists (http :: https).
  cbn [map_panic]. rewrite (proj1 Hc), Hh. split; [done|]. by constructor.
Qed.

(** C4: What is served is what the resources say. When the routes of a store are generated,
    all of them can be carried, and for every MetaProtocol port of a service entry with a
    host there is a carried configuration under the name <host>_<port> that the proxies of
    the service subscribe to, the only one of that name if no other port has this host and
    number. On it the proxy takes for every request the decision that the resources ask for:
    the first route of the first MetaRouter listing the host whose match the request
    satisfies, with the clusters and weights of its destinations (Istio's names, the total
    modulo 2^32), its mirror and its mutations, and none if no route accepts; without a
    MetaRouter, or with one that has no routes, the default cluster of the service.  The
    hash headers are those of the first destination rule for the host: its general policy
    for a destination without subset, only the subset's own policy otherwise; the mirror
    percentage becomes parts per million, truncated. *)
Theorem served_route_semantics c configs rs config service h hs port :
  generateMetaRoutes oob c configs = Ret rs ->
  config ∈ configs -> asServiceEntry (c_Spec config) = Some service -> se_Hosts service = h :: hs ->
  port ∈ se_Ports service -> is_meta_port c port = true ->
  exists https http,
    map_panic metaProtocolRoute2HttpRoute rs = Ret https /\ http ∈ https /\
    hrc_Name http = h +:+ "_" +:+ Itoa (sp_Number port) /\
    (NoDup (concat (meta_ports c <$> configs)) ->
     forall http', http' ∈ https -> hrc_Name http' = hrc_Name http -> http' = http) /\
    forall md, proxy_decides md http = expected_decision c (m_Namespace (c_Meta config)) h port md.
Proof.
  intros Hrs Hconf Hse Hh Hport Hmeta. destruct (carriers rs) as (https & Hhttps & Hcar); [by eapply generateMetaRoutes_ok|].
  assert (exists rs1, service_routes oob c config = Ret rs1 /\ forall rc, rc ∈ rs1 -> rc ∈ rs) as (rs1 & Hrs1 & Hsub).
  { unfold generateMetaRoutes in Hrs. apply bind_Ret_inv in Hrs as (rss & Hrss & [= <-]). apply map_panic_inv in Hrss.
    destruct (Forall2_elem_l _ _ _ _ Hrss Hconf) as (rs1 & Hin & Hr). exists rs1. split; [done|].
    intros rc Hrc. apply elem_of_concat. by exists rs1. }
  destruct (service_routes_decides _ _ _ _ _ _ _ Hrs1 Hse Hh Hport Hmeta) as (rc & Hin & Hname & Hdec).
  apply Hsub in Hin. destruct (Forall2_elem_l _ _ _ _ Hcar Hin) as (http & Hin' & Hc & Hn & Hd).
  exists https, http. rewrite Hn, Hname. split_and!; [done|done|done| |].
  - intros Hnd http' Hh' Hn'. apply (route_names_NoDup _ _ _ _ Hrs) in Hnd.
    destruct (Forall2_elem_r _ _ _ _ Hcar Hh') as (rc' & Hin2 & Hc' & Hname' & _).
    rewrite Hname', <- Hname in Hn'. apply (NoDup_fmap_elem _ _ _ _ Hnd) in Hn'; [|done..]. subst rc'. congruence.
  - intros md. by rewrite Hd.
Qed.

(** ** When the MetaRouters cannot be listed *)
Definition without_routers (c : CacheMgr) : CacheMgr :=
  {| cm_metaRouters := Ok []; cm_configStore := cm_configStore c; cm_protocolMap := cm_protocolMap c |}.

Definition is_default (rc : MetaRouteConfiguration) : Prop :=
  exists h port dr, defaultRoute {| se_Hosts := [h]; se_Addresses := []; se_Ports := []; se_Resolution := NONE;
    se_WorkloadSelector := None |} port dr = Ret rc.

Lemma service_routes_unlisted c e config :
  cm_metaRouters c = Err e -> service_routes oob c config = service_routes oob (without_routers c) config.
Proof.
  intros He. unfold service_routes, findRelatedMetaRouter. rewrite He.
  destruct (asServiceEntry _) as [service|]; [|done]. cbn. by destruct (negb _).
Qed.

Lemma generateMetaRoutes_unlisted c e configs :
  cm_metaRouters c = Err e -> generateMetaRoutes oob c configs = generateMetaRoutes oob (without_routers c) configs.
Proof.
  intros He. unfold generateMetaRoutes. erewrite map_panic_ext; [done|]. intros config. by eapply service_routes_unlisted.
Qed.

Lemma service_routes_default c e config rs :
  cm_metaRouters c = Err e -> service_routes oob c config = Ret rs -> Forall is_default rs.
Proof.
  intros He. unfold service_routes, findRelatedMetaRouter. rewrite He.
  destruct (asServiceEntry _) as [service|]; [|intros [= <-]; constructor].
  destruct (negb _); [intros [= <-]; constructor|]. destruct (se_Hosts service) as [|h hs] eqn:Hh; [intros [= <-]; constructor|].
  cbn [mbind outcome_bind or_nil]. intros (dr & _ & Hrs)%bind_Ret_inv. apply map_panic_inv in Hrs.
  induction Hrs as [|port rc ports rcs Hrc _ IH]; constructor; [|done]. exists h, port, (or_nil dr).
  unfold defaultRoute in *. rewrite Hh in Hrc. exact Hrc.
Qed.

Lemma default_decides rc http md :
  is_default rc -> metaProtocolRoute2HttpRoute rc = Ret http -> dec_Name <$> proxy_decides md http = Some "default".
Proof.
  intros (h & port & dr & Hd). unfold defaultRoute in Hd. cbn [index se_Hosts mbind outcome_bind] in Hd.
  apply bind_Ret_inv in Hd as (h' & _ & Hd). apply bind_Ret_inv in Hd as (header & _ & [= <-]). by intros [= <-].
Qed.

(** C34: A failure to list the MetaRouters is not seen as one. The update of the route cache
    does and reports what it would if there were no MetaRouter at all, so that a run that
    succeeds is not repeated; and then every subscribed node is served configurations on
    which every request takes the default route of its service, whatever routes the
    MetaRouters have. *)
Theorem failed_router_list {St Snap} `{SnapshotCacheLaws St Snap} c e now (s : St) :
  cm_metaRouters c = Err e ->
  updateRouteCache oob c now s = updateRouteCache oob (without_routers c) now s /\
  forall s', updateRouteCache oob c now s = Ret (None, s') ->
  forall node, node ∈ GetStatusKeys s ->
  exists https snap, NewSnapshot (Itoa now) https = Ok snap /\ GetSnapshot s' node = Some snap /\
    forall http md, http ∈ https -> dec_Name <$> proxy_decides md http = Some "default".
Proof.
  intros He. split.
  { unfold updateRouteCache. by rewrite (generateMetaRoutes_unlisted c e). }
  intros s' Hu node Hnode. unfold updateRouteCache in Hu.
  destruct (GetStatusKeys s) as [|k ks] eqn:Ek; [by apply elem_of_nil in Hnode|].
  apply bind_Ret_inv in Hu as (routes & Hr & Hu). apply bind_Ret_inv in Hu as (r & Hs & Hu).
  unfold generateSnapshot in Hs. apply bind_Ret_inv in Hs as (https & Hh & [= <-]).
  destruct (NewSnapshot (Itoa now) https) as [snap|err] eqn:Hn; [|done].
  assert (Hset : set_snapshots (k :: ks) snap s = (None, s')) by congruence.
  apply set_snapshots_spec in Hset as [Hg _]. exists https, snap. rewrite Hg, decide_True by done.
  split_and!; [done..|]. intros http md Hin. apply map_panic_inv in Hh.
  destruct (Forall2_elem_r _ _ _ _ Hh Hin) as (rc & Hrc & Hc). apply (default_decides rc); [|done].
  unfold generateMetaRoutes in Hr. apply bind_Ret_inv in Hr as (rss & Hrss & [= <-]). apply map_panic_inv in Hrss.
  apply elem_of_concat in Hrc as (rs & Hrc & Hrs). destruct (Forall2_elem_r _ _ _ _ Hrss Hrs) as (config & _ & Hconf).
  apply (service_routes_default c e) in Hconf; [|done]. rewrite Forall_forall in Hconf. by apply Hconf.
Qed.
End routing.

(** ** A concrete run *)
Section demo.
#[local] Existing Instance canonical_range.
#[local] Existing Instance istio_subset_key.

Definition demo_destination (subset : string) (weight : Z) : option MetaRouteDestination :=
  Some {| mrd_Destination := Some {| d_Host := "a.svc"; d_Subset := subset; d_Port := None |}; mrd_Weight := weight |}.
Definition demo_route (name : string) (m : option MetaRouteMatch) (ds : list (option MetaRouteDestination)) : MetaRoute :=
  {| mr_Name := name; mr_Match := m; mr_Route := ds; mr_Mirror := None; mr_MirrorPercentage := None;
     mr_RequestMutation := [{| kv_Key := "route"; kv_Value := name |}]; mr_ResponseMutation := [] |}.

(** Calls of one method go to a subset, the rest is split. *)
Definition demo_metarouter : MetaRouter :=
  {| mtr_Name := "r"; mtr_Namespace := "ns";
     mtr_Spec := {| mrs_Hosts := ["a.svc"]; mrs_Gateways := []; mrs_LocalRateLimit := None;
       mrs_GlobalRateLimit := None; mrs_ExportTo := [];
       mrs_Routes := [Some (demo_route "one" (Some {| mrm_Attributes := {["method" := Some (StringMatch_Exact "hello")]} |})
                              [demo_destination "v1" 100]);
                      Some (demo_route "two" None [demo_destination "v1" 20; demo_destination "v2" 80])] |} |}.
Definition demo_routed : CacheMgr :=
  {| cm_metaRouters := Ok [demo_metarouter]; cm_configStore := cm_configStore demo_mgr;
     cm_protocolMap := protocolMap_init |}.

Definition demo_port : ServicePort :=
  {| sp_Number := 20880; sp_Protocol := "tcp"; sp_Name := "tcp-metaprotocol-dubbo"; sp_TargetPort := 20880 |}.

Definition demo_service : ServiceEntry :=
  match c_Spec demo_entry with
  | SpecServiceEntry service => service
  | _ => {| se_Hosts := []; se_Addresses := []; se_Ports := []; se_Resolution := NONE; se_WorkloadSelector := None |}
  end.

Lemma served_route_semantics_witness :
  exists rs https http, generateMetaRoutes 0 demo_routed [demo_entry] = Ret rs /\
    map_panic metaProtocolRoute2HttpRoute rs = Ret https /\ http ∈ https /\
    dec_Clusters <$> proxy_decides (fun _ _ => false) {["method" := "hello"]} http =
      Some (Cluster "outbound|20880|v1|a.svc") /\
    dec_Name <$> proxy_decides (fun _ _ => false) {["method" := "bye"]} http = Some "two".
Proof.
  destruct (generateMetaRoutes 0 demo_routed [demo_entry]) as [rs|w] eqn:E; [|vm_compute in E; discriminate E].
  destruct (served_route_semantics 0 (fun _ _ => false) demo_routed [demo_entry] rs demo_entry demo_service "a.svc" [] demo_port E)
    as (https & http & Hm & Hin & _ & _ & Hdec); [apply list_elem_of_here|reflexivity|reflexivity|
    apply list_elem_of_here|vm_compute; reflexivity|].
  exists rs, https, http. split; [reflexivity|]. split; [exact Hm|]. split; [exact Hin|].
  rewrite !Hdec. split; vm_compute; reflexivity.
Defined.

#[local] Existing Instance mem_cache.
#[local] Existing Instance mem_cache_laws.
Definition demo_unlisted : CacheMgr :=
  {| cm_metaRouters := Err "timeout"; cm_configStore := cm_configStore demo_mgr; cm_protocolMap := protocolMap_init |}.

Definition demo_state (c : CacheMgr) (now : Z) (s : list string * gmap string (list HttpRouteConfiguration))
    : list string * gmap string (list HttpRouteConfiguration) :=
  match updateRouteCache 0 c now s with Ret (_, s') => s' | Panic _ => s end.
Definition demo_before : list string * gmap string (list HttpRouteConfiguration) := demo_state demo_routed 7 demo_cache.
Definition demo_after : list string * gmap string (list HttpRouteConfiguration) := demo_state demo_unlisted 8 demo_before.

(** The node had the two routes of the MetaRouter and is left with the default route. *)
Lemma failed_router_list_witness :
  exists https, GetSnapshot demo_after "n1" = Some https /\
    hre_Name <$> concat (vh_Routes <$> concat (hrc_VirtualHosts <$> default [] (GetSnapshot demo_before "n1"))) = ["one"; "two"] /\
    updateRouteCache 0 demo_unlisted 8 demo_before = Ret (None, demo_after) /\
    Forall (fun http => dec_Name <$> proxy_decides (fun _ _ => false) {["method" := "hello"]} http = Some "default") https.
Proof.
  assert (E : updateRouteCache 0 demo_unlisted 8 demo_before = Ret (None, demo_after)) by (vm_compute; reflexivity).
  assert (Hn : "n1" ∈ GetStatusKeys demo_before) by (vm_compute; left).
  destruct (failed_router_list 0 (fun _ _ => false) demo_unlisted "timeout" 8 demo_before eq_refl) as [_ Hs].
  destruct (Hs demo_after E "n1" Hn) as (https & snap & Hok & Hg & Hd). injection Hok as <-.
  exists https. split; [exact Hg|]. split; [vm_compute; reflexivity|]. split; [exact E|].
  apply Forall_forall. intros http Hin. by apply Hd.
Defined.
End demo.
