(* ===== verification/Validation.v ===== *)
(** * Validation of Aeraki's resources

    [src/internal/webhook/validation/scheme/validation.go].  An accumulated Go error is
    the list of its messages, as [multierror.Append] flattens it; nil is the empty list.
    [%q] is modelled as quoting without escapes; the messages on the mirror percentage leave
    out the value they print.

    Parameters (class [ValidationEnv]): Istio's [labels.IsDNS1123Label] and
    [visibility.Instance.Validate], and whether [regexp.Compile] accepts an expression. *)

From Stdlib Require Import SpecFloat.
From Stdlib Require Import Sorted.
From S2P Require Import Prelude Api Model Xds.

Class ValidationEnv := {
  IsDNS1123Label : string -> bool;
  visibility_Validate : string -> option error;
  regexp_Compile : string -> option error }.

Abbreviation errors := (list error).
Record Validation := { v_Err : errors; v_Warning : errors }.

(** The two error joiners. *)
Definition appendErrors (err errs : errors) : errors := err ++ errs.
Definition appendValidation (v nv : Validation) : Validation :=
  {| v_Err := v_Err v ++ v_Err nv; v_Warning := v_Warning v ++ v_Warning nv |}.
Definition WrapError (e : errors) : Validation := {| v_Err := e; v_Warning := [] |}.
Definition WrapWarning (e : errors) : Validation := {| v_Err := []; v_Warning := e |}.
Definition no_errors : Validation := {| v_Err := []; v_Warning := [] |}.

Definition ValidatePort (port : Z) : errors :=
  if (1 <=? port) && (port <=? 65535) then []
  else ["port number " +:+ Itoa port +:+ " must be in the range 1..65535"].

Definition ValidatePercent (val : Z) : errors :=
  if val >? 100 then ["percentage " +:+ Itoa val +:+ " is not in range 0..100"] else [].

Definition ValidateMetaAttributeName (name : string) : errors :=
  if String.eqb name "" then ["attribute name cannot be empty"] else [].

Definition checkDNS1123Preconditions (name : string) : errors :=
  if (255 <? String.length name)%nat then ["domain name " +:+ quoted name +:+ " too long (max 255)"]
  else if String.eqb name "" then ["empty domain name not allowed"]
  else [].

Definition validateNoneEmptyString (str name : string) : errors :=
  if String.eqb str "" then [name +:+ " cannot be empty"] else [].

Definition validateNoneNullObject {A} (obj : option A) (name : string) : errors :=
  match obj with None => [name +:+ " cannot be null"] | Some _ => [] end.

Section validation.
Context `{ValidationEnv}.

Fixpoint check_labels (domain : string) (parts : list string) : errors :=
  match parts with
  | [] => []
  | label :: rest =>
      if (match rest with [] => true | _ => false end) && String.eqb label "" then []
      else if negb (IsDNS1123Label label)
           then ["domain name " +:+ quoted domain +:+ " invalid (label " +:+ quoted label +:+ " invalid)"]
           else check_labels domain rest
  end.

Definition validateDNS1123Labels (domain : string) : errors :=
  let parts := Split domain "." in
  let topLevelDomain := List.last parts "" in
  match Atoi topLevelDomain with
  | Some _ => ["domain name " +:+ quoted domain +:+ " invalid (top level domain " +:+
                quoted topLevelDomain +:+ " cannot be all-numeric)"]
  | None => check_labels domain parts
  end.

Definition ValidateFQDN (fqdn : string) : errors :=
  match checkDNS1123Preconditions fqdn with
  | [] => validateDNS1123Labels fqdn
  | err => err
  end.

(** One entry of exportTo: the errors so far and the entries accepted. *)
Definition export_step (namespace : string) (acc : errors * gset string) (e : string)
    : errors * gset string :=
  let '(errs, exportToMap) := acc in
  let key := if String.eqb e "." then namespace else e in
  if bool_decide (key ∈ exportToMap) then
    (appendErrors errs
       [if negb (String.eqb key e)
        then "duplicate entries in exportTo: . and current namespace " +:+ namespace
        else "duplicate entries in exportTo for entry " +:+ e], exportToMap)
  else match visibility_Validate key with
       | Some err => (appendErrors errs [err], exportToMap)
       | None => (errs, {[key]} ∪ exportToMap)
       end.

Definition validateExportTo (namespace : string) (exportTo : list string) : errors :=
  match exportTo with
  | [] => []
  | _ =>
      let '(errs, exportToMap) := foldl (export_step namespace) ([], ∅) exportTo in
      let many := (1 <? length exportTo)%nat in
      let errs := if bool_decide ("*" ∈ exportToMap) && many
                  then appendErrors errs ["cannot have both public (*) and non-public exportTo values for a resource"]
                  else errs in
      if bool_decide ("~" ∈ exportToMap) && many
      then appendErrors errs ["cannot export service entry to no one (~) and someone"]
      else errs
  end.

Definition validateStringMatchRegexp (sm : option StringMatch) (where_ : string) : errors :=
  match sm with
  | Some (StringMatch_Regex re) =>
      if String.eqb re "" then [quoted where_ +:+ ": regex string match should not be empty"]
      else match regexp_Compile re with
           | None => []
           | Some err => [quoted where_ +:+ ": " +:+ err +:+
               "; Aeraki uses RE2 style regex-based match (https://github.com/google/re2/wiki/Syntax)"]
           end
  | _ => []
  end.

Definition validateMetaRouteMatch `{MapRange} (match_ : option MetaRouteMatch) : errors :=
  match match_ with
  | None => []
  | Some m =>
      foldl (fun errs '(name, attribute) =>
        let errs := match attribute with
                    | None => appendErrors errs ["attribute match " +:+ name +:+ " cannot be null"]
                    | Some _ => errs
                    end in
        appendErrors (appendErrors errs (ValidateMetaAttributeName name))
                     (validateStringMatchRegexp attribute "attributes")) [] (range (mrm_Attributes m))
  end.

Definition validateSubsetName (name : string) : errors :=
  if String.eqb name "" then ["subset name cannot be empty"]
  else if negb (IsDNS1123Label name) then ["subset name is invalid: " +:+ name] else [].

Definition validatePortSelector (selector : option PortSelector) : errors :=
  match selector with None => [] | Some p => ValidatePort (ps_Number p) end.

Definition validateDestination (destination : option Destination) : errors :=
  match destination with
  | None => []
  | Some d =>
      let errs := ValidateFQDN (d_Host d) in
      let errs := if negb (String.eqb (d_Subset d) "") then appendErrors errs (validateSubsetName (d_Subset d))
                  else errs in
      match d_Port d with
      | Some p => appendErrors errs (validatePortSelector (Some p))
      | None => errs
      end
  end.

Definition destination_step (acc : errors * Z) (destination : option MetaRouteDestination) : errors * Z :=
  let '(errs, totalWeight) := acc in
  match destination with
  | None => (appendErrors errs ["weight may not be nil"], totalWeight)
  | Some d =>
      let errs := match mrd_Destination d with
                  | None => appendErrors errs ["destination is required"]
                  | Some _ => errs
                  end in
      (appendErrors (appendErrors errs (validateDestination (mrd_Destination d))) (ValidatePercent (mrd_Weight d)),
       u32 (totalWeight + mrd_Weight d))
  end.

Definition validateMetaRouteDestinations (destinations : list (option MetaRouteDestination)) : errors :=
  match destinations with
  | [] => ["a route must has at least one destination"]
  | _ =>
      let '(errs, totalWeight) := foldl destination_step ([], 0) destinations in
      if (1 <? length destinations)%nat && negb (totalWeight =? 100)
      then appendErrors errs ["total destination weight " +:+ Itoa totalWeight +:+ " != 100"]
      else errs
  end.

Definition validate_mutation (errs : Validation) (kv : KeyValue) : Validation :=
  let errs := if String.eqb (kv_Key kv) ""
              then appendValidation errs (WrapError ["mutation key cannot be empty"]) else errs in
  if String.eqb (kv_Value kv) ""
  then appendValidation errs (WrapError ["mutation value cannot be empty"]) else errs.

Definition validate_percentage (errs : Validation) (value : float64) : Validation :=
  let errs := if SFltb (f64_of_Z 100) value
              then appendValidation errs (WrapError ["mirrorPercentage must not be greater than 100"]) else errs in
  if SFleb value (f64_of_Z 0)
  then appendValidation errs (WrapError ["mirrorPercentage must not be less than or equal to 0"]) else errs.

Definition validateMetaRoute `{MapRange} (route : MetaRoute) : Validation :=
  let errs := appendValidation no_errors (WrapError (validateMetaRouteMatch (mr_Match route))) in
  let errs := foldl validate_mutation errs (mr_RequestMutation route) in
  let errs := foldl validate_mutation errs (mr_ResponseMutation route) in
  let errs := match mr_MirrorPercentage route, mr_Mirror route with
              | Some _, None => appendValidation errs
                                  (WrapError ["mirrorPercentage and mirror must be set together"])
              | _, _ => errs
              end in
  let errs := match mr_MirrorPercentage route with
              | Some value => validate_percentage errs value
              | None => errs
              end in
  let errs := appendValidation errs (WrapError (validateDestination (mr_Mirror route))) in
  appendValidation errs (WrapError (validateMetaRouteDestinations (mr_Route route))).

Definition validateTokenBucket (bucket : option TokenBucketCrd) : Validation :=
  match bucket with
  | None => no_errors
  | Some b =>
      let errs := WrapError (validateNoneNullObject (tb_FillInterval b) "localRateLimit tokenBucket fillInterval") in
      let errs := appendValidation errs (WrapError
        (validateNoneNullObject (tb_TokensPerFill b) "localRateLimit tokenBucket tokensPerfFill")) in
      let errs := match tb_TokensPerFill b with
                  | Some v => if v <? 1 then appendValidation errs (WrapError
                      ["localRateLimit tokenBucket tokensPerfFill must be greater than 0"]) else errs
                  | None => errs
                  end in
      if tb_MaxTokens b <? 1
      then appendValidation errs (WrapError ["localRateLimit tokenBucket maxTokens must be greater than 0"])
      else errs
  end.

Definition validateLocalRateLimitCondition `{MapRange} (condition : LocalRateLimit_Condition) : Validation :=
  let errs := WrapError (validateNoneNullObject (lc_Match condition) "localRateLimit condition match") in
  let errs := appendValidation errs (WrapError (validateMetaRouteMatch (lc_Match condition))) in
  let errs := appendValidation errs
    (WrapError (validateNoneNullObject (lc_TokenBucket condition) "localRateLimit condition tokenBucket")) in
  appendValidation errs (validateTokenBucket (lc_TokenBucket condition)).

Definition validateLocalRateLimit `{MapRange} (limit : option LocalRateLimit) : Validation :=
  match limit with
  | None => no_errors
  | Some l =>
      let errs := match lrl_TokenBucket l, lrl_Conditions l with
                  | None, [] => appendValidation no_errors
                      (WrapError ["localRateLimit must have at least one of tokenBucket or conditions"])
                  | _, _ => no_errors
                  end in
      let errs := appendValidation errs (validateTokenBucket (lrl_TokenBucket l)) in
      foldl (fun errs c => appendValidation errs (validateLocalRateLimitCondition c)) errs (lrl_Conditions l)
  end.

Definition validateRateLimitDescriptors (descriptors : list GlobalRateLimit_Descriptor) : Validation :=
  let errs := match descriptors with
              | [] => appendValidation no_errors (WrapError ["globalRateLimit must have descriptors"])
              | _ => no_errors
              end in
  foldl (fun errs d =>
    appendValidation
      (appendValidation errs
         (WrapError (validateNoneEmptyString (gd_DescriptorKey d) "globalRateLimit descriptor key")))
      (WrapError (validateNoneEmptyString (gd_Property d) "globalRateLimit descriptor property")))
    errs descriptors.

Definition validateGlobalRateLimit `{MapRange} (limit : option GlobalRateLimit) : Validation :=
  match limit with
  | None => no_errors
  | Some l =>
      let errs := WrapError (validateNoneEmptyString (grl_Domain l) "globalRateLimit domain") in
      let errs := appendValidation errs
        (WrapError (validateNoneEmptyString (grl_RateLimitService l) "globalRateLimit cluster")) in
      let errs := appendValidation errs (WrapError (validateMetaRouteMatch (grl_Match l))) in
      appendValidation errs (validateRateLimitDescriptors (grl_Descriptors l))
  end.

(** A MetaRoute is not an HTTPRoute: the rule is named by its position. *)
Definition routeName (routen : nat) : string := "#" +:+ Itoa (Z.of_nat routen).

(** The warnings for rules without match after another one. *)
Fixpoint analyze (routes : list (option MetaRoute)) (rulen : nat) (emptyMatchEncountered : bool) : errors :=
  match routes with
  | [] => []
  | None :: rest => analyze rest (S rulen) emptyMatchEncountered
  | Some route :: rest =>
      match mr_Match route with
      | None =>
          (if emptyMatchEncountered
           then ["MetaRouter rule " +:+ routeName rulen +:+ " not used (only the last rule can have no match)"]
           else []) ++ analyze rest (S rulen) true
      | Some _ => analyze rest (S rulen) emptyMatchEncountered
      end
  end.
Definition analyzeUnreachableMetaRules (routes : list (option MetaRoute)) : errors := analyze routes 0 false.

(** [spec] is the result of the type assertion on the config's spec. *)
Definition ValidateMetaRouter `{MapRange} (namespace : string) (spec : option MetaRouterSpec) : errors * errors :=
  match spec with
  | None => ([], ["cannot cast to meta router"])
  | Some metaRouter =>
      let errs := match mrs_Hosts metaRouter with
                  | [] => appendValidation no_errors (WrapError ["meta router must have one host"])
                  | [h] => appendValidation no_errors (WrapError (ValidateFQDN h))
                  | _ => appendValidation no_errors (WrapError ["meta router can only have one host"])
                  end in
      let errs := match mrs_Routes metaRouter, mrs_GlobalRateLimit metaRouter, mrs_LocalRateLimit metaRouter with
                  | [], None, None => appendValidation errs (WrapError
                      ["meta router must at least have one of routes, globalRateLimit, or LocalRateLimit"])
                  | _, _, _ => errs
                  end in
      let errs := foldl (fun errs route =>
                    match route with
                    | None => appendValidation errs (WrapError ["meta route may not be null"])
                    | Some route => appendValidation errs (validateMetaRoute route)
                    end) errs (mrs_Routes metaRouter) in
      let errs := appendValidation errs (WrapError (validateExportTo namespace (mrs_ExportTo metaRouter))) in
      let errs := appendValidation errs (WrapWarning (analyzeUnreachableMetaRules (mrs_Routes metaRouter))) in
      let errs := appendValidation errs (validateGlobalRateLimit (mrs_GlobalRateLimit metaRouter)) in
      let errs := appendValidation errs (validateLocalRateLimit (mrs_LocalRateLimit metaRouter)) in
      (v_Warning errs, v_Err errs)
  end.

Definition ValidateApplicationProtocol (spec : option ApplicationProtocol) : errors * errors :=
  match spec with
  | None => ([], ["cannot cast to application protocol"])
  | Some protocol =>
      let errs := no_errors in
      let errs := if String.eqb (ap_Protocol protocol) ""
                  then appendValidation errs (WrapError ["application protocol must have protocol"]) else errs in
      let errs := if String.eqb (ap_Codec protocol) ""
                  then appendValidation errs (WrapError ["application protocol must have codec"]) else errs in
      (v_Warning errs, v_Err errs)
  end.
End validation.

(** ** What a resource without validation errors looks like *)
Section accepted.
Context `{ValidationEnv, MapRange}.

Definition fqdn_ok (s : string) : Prop :=
  s <> "" /\ (String.length s <= 255)%nat /\ Atoi (List.last (Split s ".") "") = None /\
  forall pre label post, Split s "." = pre ++ label :: post ->
    IsDNS1123Label label = true \/ (post = [] /\ label = "").

Definition destination_ok (d : Destination) : Prop :=
  fqdn_ok (d_Host d) /\ (d_Subset d = "" \/ IsDNS1123Label (d_Subset d) = true) /\
  (forall p, d_Port d = Some p -> 1 <= ps_Number p <= 65535).

Definition match_ok (m : option MetaRouteMatch) : Prop :=
  forall crd name a, m = Some crd -> mrm_Attributes crd !! name = Some a ->
    name <> "" /\ exists sm, a = Some sm /\
      (forall re, sm = StringMatch_Regex re -> re <> "" /\ regexp_Compile re = None).

Definition mutation_ok (kv : KeyValue) : Prop := kv_Key kv <> "" /\ kv_Value kv <> "".

(** In ]0, 100], or not a number. *)
Definition percentage_ok (p : float64) : Prop :=
  SFltb (f64_of_Z 100) p = false /\ SFleb p (f64_of_Z 0) = false.

(** The destinations are present and valid; several of them have weights that add up to
    100 modulo 2^32. *)
Definition destinations_ok (ds : list (Destination * Z)) : Prop :=
  ds <> [] /\ Forall (fun '(d, w) => destination_ok d /\ w <= 100) ds /\
  ((1 < length ds)%nat -> u32 (foldr Z.add 0 ds.*2) = 100).

Record meta_route_ok (r : MetaRoute) : Prop := {
  route_match : match_ok (mr_Match r);
  route_request : Forall mutation_ok (mr_RequestMutation r);
  route_response : Forall mutation_ok (mr_ResponseMutation r);
  route_percentage : forall p, mr_MirrorPercentage r = Some p -> percentage_ok p /\ mr_Mirror r <> None;
  route_mirror : forall d, mr_Mirror r = Some d -> destination_ok d;
  route_destinations : exists ds, mr_Route r = destinations ds /\ destinations_ok ds }.

Definition export_key (namespace e : string) : string := if String.eqb e "." then namespace else e.

Definition export_ok (namespace : string) (exportTo : list string) : Prop :=
  let keys := export_key namespace <$> exportTo in
  NoDup keys /\ Forall (fun k => visibility_Validate k = None) keys /\
  ("*" ∈ keys \/ "~" ∈ keys -> length exportTo = 1%nat).

Definition bucket_ok (b : TokenBucketCrd) : Prop :=
  is_Some (tb_FillInterval b) /\ (exists v, tb_TokensPerFill b = Some v /\ 1 <= v) /\ 1 <= tb_MaxTokens b.

Definition condition_ok (c : LocalRateLimit_Condition) : Prop :=
  lc_Match c <> None /\ match_ok (lc_Match c) /\ exists b, lc_TokenBucket c = Some b /\ bucket_ok b.

Definition local_ok (l : LocalRateLimit) : Prop :=
  (lrl_TokenBucket l <> None \/ lrl_Conditions l <> []) /\
  (forall b, lrl_TokenBucket l = Some b -> bucket_ok b) /\ Forall condition_ok (lrl_Conditions l).

Definition global_ok (g : GlobalRateLimit) : Prop :=
  grl_Domain g <> "" /\ grl_RateLimitService g <> "" /\ match_ok (grl_Match g) /\
  grl_Descriptors g <> [] /\
  Forall (fun d => gd_DescriptorKey d <> "" /\ gd_Property d <> "") (grl_Descriptors g).

Record router_wf (namespace : string) (mr : MetaRouterSpec) : Prop := {
  wf_host : exists h, mrs_Hosts mr = [h] /\ fqdn_ok h;
  wf_content : mrs_Routes mr <> [] \/ mrs_GlobalRateLimit mr <> None \/ mrs_LocalRateLimit mr <> None;
  wf_routes : exists rs, mrs_Routes mr = Some <$> rs /\ Forall meta_route_ok rs;
  wf_export : export_ok namespace (mrs_ExportTo mr);
  wf_global : forall g, mrs_GlobalRateLimit mr = Some g -> global_ok g;
  wf_local : forall l, mrs_LocalRateLimit mr = Some l -> local_ok l }.

(** *** Accumulated errors *)
Lemma app_nil_iff {A} (l1 l2 : list A) : l1 ++ l2 = [] <-> l1 = [] /\ l2 = [].
Proof. destruct l1, l2; naive_solver. Qed.

Lemma foldl_errors_nil {A E} (err : E -> errors) (f : E -> A -> E) (ok : A -> Prop) l e :
  (forall e a, err (f e a) = [] <-> err e = [] /\ ok a) ->
  err (foldl f e l) = [] <-> err e = [] /\ Forall ok l.
Proof.
  intros Hf. revert e. induction l as [|a l IH]; intros e; cbn [foldl].
  - rewrite Forall_nil. tauto.
  - rewrite IH, Hf, Forall_cons. tauto.
Qed.

Lemma if_errors_nil (b : bool) (v : Validation) m :
  v_Err (if b then appendValidation v (WrapError [m]) else v) = [] <-> v_Err v = [] /\ b = false.
Proof. destruct b; simpl; [|tauto]. rewrite app_nil_iff. naive_solver. Qed.

Lemma eqb_false_ne s t : String.eqb s t = false <-> s <> t.
Proof. apply String.eqb_neq. Qed.

Lemma check_labels_ok domain parts :
  check_labels domain parts = [] <->
  forall pre label post, parts = pre ++ label :: post ->
    IsDNS1123Label label = true \/ (post = [] /\ label = "").
Proof.
  induction parts as [|x rest IH]; cbn [check_labels].
  - split; [intros _ [|] ? ? ?; done|done].
  - destruct (_ && _) eqn:E.
    + apply andb_prop in E as [Hr Hx%String.eqb_eq]. destruct rest; [|done]. split; [|done].
      intros _ [|? []] label post [= -> ->]; [by right|..]; done.
    + destruct (IsDNS1123Label x) eqn:Ex; cbn [negb].
      * rewrite IH. split.
        -- intros Hall [|y pre] label post [= -> ->]; [by left|by eapply Hall].
        -- intros Hall pre label post ->. by apply (Hall (x :: pre)).
      * split; [done|]. intros Hall. destruct (Hall [] x rest eq_refl) as [?|[-> ->]]; [congruence|done].
Qed.

Lemma ValidateFQDN_ok s : ValidateFQDN s = [] <-> fqdn_ok s.
Proof.
  unfold ValidateFQDN, fqdn_ok, checkDNS1123Preconditions.
  destruct (255 <? String.length s)%nat eqn:El.
  { split; [done|]. intros (_ & ? & _). apply Nat.ltb_lt in El. lia. }
  apply Nat.ltb_ge in El. destruct (String.eqb s "") eqn:Ee.
  { apply String.eqb_eq in Ee. split; [done|]. naive_solver. }
  apply String.eqb_neq in Ee. unfold validateDNS1123Labels.
  destruct (Atoi _); [split; [done|naive_solver]|]. rewrite check_labels_ok. naive_solver.
Qed.

Lemma ValidatePort_ok p : ValidatePort p = [] <-> 1 <= p <= 65535.
Proof.
  unfold ValidatePort. destruct ((1 <=? p) && (p <=? 65535)) eqn:E.
  - apply andb_prop in E. split; [lia|done].
  - apply andb_false_iff in E. split; [done|lia].
Qed.

Lemma validateDestination_ok o :
  validateDestination o = [] <-> forall d, o = Some d -> destination_ok d.
Proof.
  destruct o as [[h sb p]|]; simpl; [|naive_solver]. unfold destination_ok, appendErrors. simpl.
  assert (Hsub : (if negb (String.eqb sb "") then ValidateFQDN h ++ validateSubsetName sb
                  else ValidateFQDN h) = [] <-> fqdn_ok h /\ (sb = "" \/ IsDNS1123Label sb = true)).
  { rewrite <- ValidateFQDN_ok. unfold validateSubsetName. destruct (String.eqb sb "") eqn:E; simpl.
    - apply String.eqb_eq in E. naive_solver.
    - apply String.eqb_neq in E. rewrite app_nil_iff. destruct (IsDNS1123Label sb); naive_solver. }
  destruct p as [p|]; rewrite ?app_nil_iff, Hsub, ?ValidatePort_ok; naive_solver.
Qed.

Lemma validateMetaRouteMatch_ok m : validateMetaRouteMatch m = [] <-> match_ok m.
Proof.
  destruct m as [m|]; [|split; [intros _ ? ? ? [=]|done]]. unfold validateMetaRouteMatch.
  rewrite (foldl_errors_nil (fun e => e) _ (fun '(name, a) => name <> "" /\ exists sm, a = Some sm /\
      (forall re, sm = StringMatch_Regex re -> re <> "" /\ regexp_Compile re = None))).
  - rewrite Forall_forall. unfold match_ok. split.
    + intros [_ Hall] crd name a [= <-] Ha. apply (Hall (name, a)), range_elem, Ha.
    + intros Hall. split; [done|]. intros [name a] Ha%range_elem. by apply (Hall m).
  - intros e [name a]. unfold appendErrors, ValidateMetaAttributeName, validateStringMatchRegexp.
    rewrite !app_nil_iff. destruct (String.eqb name "") eqn:En.
    { apply String.eqb_eq in En. naive_solver. }
    apply String.eqb_neq in En. destruct a as [[s|s|re|]|]; try rewrite app_nil_iff; try naive_solver.
    destruct (String.eqb re "") eqn:Er; [apply String.eqb_eq in Er; naive_solver|].
    apply String.eqb_neq in Er. destruct (regexp_Compile re) eqn:Ec; naive_solver.
Qed.
Lemma export_step_ok namespace l errs seen errs' seen' :
  foldl (export_step namespace) (errs, seen) l = (errs', seen') ->
  let keys := export_key namespace <$> l in
  (errs' = [] <-> errs = [] /\ NoDup keys /\ Forall (fun k => visibility_Validate k = None /\ k ∉ seen) keys) /\
  (errs' = [] -> seen' = seen ∪ list_to_set keys).
Proof.
  revert errs seen. induction l as [|e l IH]; intros errs seen; cbn [foldl].
  - intros [= <- <-]. simpl. split; [rewrite Forall_nil; pose proof (@NoDup_nil_2 string); tauto|set_solver].
  - unfold export_step at 2. fold (export_key namespace e). set (k := export_key namespace e).
    intros Hf. rewrite fmap_cons. fold k. case_bool_decide as Hin.
    { apply IH in Hf as [Hiff _]. rewrite Forall_cons.
      assert (errs' <> []) by (rewrite Hiff; unfold appendErrors; rewrite app_nil_iff; naive_solver). naive_solver. }
    destruct (visibility_Validate k) as [er|] eqn:Ev; apply IH in Hf as [Hiff Hseen].
    { assert (errs' <> []) by (rewrite Hiff; unfold appendErrors; rewrite app_nil_iff; naive_solver).
      rewrite Forall_cons. naive_solver. }
    split; [|intros ->; rewrite Hseen by done; set_solver]. rewrite Hiff, NoDup_cons, Forall_cons.
    rewrite !Forall_forall. setoid_rewrite not_elem_of_union. setoid_rewrite not_elem_of_singleton.
    split; [|naive_solver]. intros (-> & Hnd & Hall). split; [done|]. split; [|naive_solver].
    split; [|done]. intros Hk. by destruct (Hall k Hk) as (_ & ? & _).
Qed.

Lemma validateExportTo_ok namespace l : validateExportTo namespace l = [] <-> export_ok namespace l.
Proof.
  unfold export_ok. destruct l as [|e l].
  { split; [intros _|done]. rewrite !fmap_nil. split_and!; [constructor|constructor|].
    intros [?%elem_of_nil|?%elem_of_nil]; done. }
  unfold validateExportTo. destruct (foldl _ _ _) as [errs seen] eqn:Ef.
  apply export_step_ok in Ef as [Hiff Hseen]. set (keys := export_key namespace <$> e :: l) in *.
  assert (Hlen : (1 <? length (e :: l))%nat = true <-> length (e :: l) <> 1%nat).
  { rewrite Nat.ltb_lt. cbn [length]. lia. }
  destruct (decide (errs = [])) as [->|Hne].
  - destruct Hiff as [Hiff _]. specialize (Hiff eq_refl) as (_ & Hnd & Hall). specialize (Hseen eq_refl).
    rewrite union_empty_l_L in Hseen. subst seen. unfold appendErrors.
    rewrite !(bool_decide_ext (_ ∈ list_to_set keys) _ (elem_of_list_to_set _ _)).
    assert (Forall (fun k => visibility_Validate k = None) keys) by (eapply Forall_impl; [exact Hall|naive_solver]).
    destruct (1 <? length (e :: l))%nat eqn:E1.
    + rewrite !andb_true_r. do 2 case_bool_decide; simpl; naive_solver.
    + rewrite !andb_false_r. split; [|done]. intros _. split_and!; [done..|].
      intros _. destruct (decide (length (e :: l) = 1%nat)); naive_solver.
  - split.
    + intros Hr. destruct Hne. unfold appendErrors in Hr.
      destruct (bool_decide ("*" ∈ seen) && _), (bool_decide ("~" ∈ seen) && _);
        rewrite ?app_nil_iff in Hr; naive_solver.
    + intros (Hnd & Hall & _). destruct Hne. apply Hiff. split_and!; [done..|].
      eapply Forall_impl; [exact Hall|]. set_solver.
Qed.

Lemma ValidatePercent_ok w : ValidatePercent w = [] <-> w <= 100.
Proof. unfold ValidatePercent. rewrite Z.gtb_ltb. destruct (Z.ltb_spec 100 w); split; done || lia. Qed.

Lemma destination_steps l errs t :
  exists errs', foldl destination_step (errs, t) l = (errs', fold_left (fun a w => u32 (a + w))
                  (omap (M:=list) (fun d => mrd_Weight <$> d) l) t) /\
    (errs' = [] <-> errs = [] /\ exists ds, l = destinations ds /\
       Forall (fun '(d, w) => destination_ok d /\ w <= 100) ds).
Proof.
  revert errs t. induction l as [|[d|] l IH]; intros errs t; cbn [foldl].
  - exists errs. split; [done|]. split; [|naive_solver]. intros ->. split; [done|]. exists []. done.
  - destruct (IH (appendErrors (appendErrors (match mrd_Destination d with
      | None => appendErrors errs ["destination is required"] | Some _ => errs end)
      (validateDestination (mrd_Destination d))) (ValidatePercent (mrd_Weight d))) (u32 (t + mrd_Weight d)))
      as (errs' & Hf & Hiff).
    exists errs'. split; [exact Hf|]. rewrite Hiff. unfold appendErrors.
    rewrite !app_nil_iff, ValidatePercent_ok, validateDestination_ok. split.
    + intros (((He & Hd) & Hw) & ds & -> & Hds). destruct d as [[d|] w]; simpl in *.
      * split; [done|]. exists ((d, w) :: ds). split; [done|]. rewrite Forall_cons. auto.
      * by apply app_nil_iff in He as [_ ?].
    + intros (-> & [|[d' w] ds] & Heq & Hds); [done|]. injection Heq as -> ->.
      rewrite Forall_cons in Hds. simpl. naive_solver.
  - destruct (IH (appendErrors errs ["weight may not be nil"]) t) as (errs' & Hf & Hiff).
    exists errs'. split; [exact Hf|]. rewrite Hiff. unfold appendErrors. rewrite app_nil_iff. split; [naive_solver|].
    by intros (_ & [|[d' w] ds] & Heq & _).
Qed.

Lemma omap_destinations ds :
  omap (M:=list) (fun d => mrd_Weight <$> d) (destinations ds) = ds.*2.
Proof.
  induction ds as [|[d w] ds IH]; [done|].
  change (w :: omap (M:=list) (fun d => mrd_Weight <$> d) (destinations ds) = w :: ds.*2). by rewrite IH.
Qed.

Lemma validateMetaRouteDestinations_ok l :
  validateMetaRouteDestinations l = [] <-> exists ds, l = destinations ds /\ destinations_ok ds.
Proof.
  unfold validateMetaRouteDestinations, destinations_ok. destruct l as [|x l].
  { split; [done|]. by intros ([|[d w] ds] & Hl & ? & _). }
  destruct (destination_steps (x :: l) [] 0) as (errs & -> & Hiff). unfold appendErrors.
  assert (Hsum : forall ds, x :: l = destinations ds ->
    ((1 < length ds)%nat -> u32 (foldr Z.add 0 ds.*2) = 100) <->
    (1 <? length (x :: l))%nat &&
      negb (fold_left (fun a w => u32 (a + w)) (omap (M:=list) (fun d => mrd_Weight <$> d) (x :: l)) 0 =? 100) = false).
  { intros ds ->. rewrite omap_destinations. fold (sum_u32 ds.*2). rewrite sum_u32_mod.
    unfold destinations at 1. rewrite length_fmap, andb_false_iff, negb_false_iff, Z.eqb_eq, Nat.ltb_ge.
    destruct (decide (1 < length ds)%nat); split; intros; try (left; lia); try (right; auto); naive_solver lia. }
  destruct (_ && _) eqn:Eb.
  - split; [by intros [_ ?]%app_nil_iff|]. intros (ds & Hl & _ & _ & Hw). by apply (Hsum ds Hl) in Hw.
  - rewrite Hiff. split.
    + intros (_ & ds & Hl & Hall). exists ds. split; [done|]. split; [by intros ->|]. split; [done|]. by apply Hsum.
    + intros (ds & Hl & _ & Hall & _). eauto.
Qed.

Lemma validate_mutation_ok errs kv :
  v_Err (validate_mutation errs kv) = [] <-> v_Err errs = [] /\ mutation_ok kv.
Proof.
  unfold validate_mutation, mutation_ok. rewrite !if_errors_nil, !eqb_false_ne. tauto.
Qed.

Lemma validate_percentage_ok errs p :
  v_Err (validate_percentage errs p) = [] <-> v_Err errs = [] /\ percentage_ok p.
Proof. unfold validate_percentage, percentage_ok. rewrite !if_errors_nil. tauto. Qed.

Lemma v_Err_append v nv : v_Err (appendValidation v nv) = [] <-> v_Err v = [] /\ v_Err nv = [].
Proof. apply app_nil_iff. Qed.

Lemma validateMetaRoute_ok r : v_Err (validateMetaRoute r) = [] <-> meta_route_ok r.
Proof.
  unfold validateMetaRoute. rewrite !v_Err_append. cbn [v_Err WrapError].
  rewrite validateMetaRouteDestinations_ok, validateDestination_ok.
  set (base := foldl validate_mutation _ (mr_ResponseMutation r)).
  assert (Hbase : v_Err base = [] <-> match_ok (mr_Match r) /\ Forall mutation_ok (mr_RequestMutation r) /\
    Forall mutation_ok (mr_ResponseMutation r)).
  { unfold base. rewrite !(foldl_errors_nil v_Err _ mutation_ok) by apply validate_mutation_ok.
    rewrite v_Err_append. cbn [v_Err WrapError no_errors]. rewrite validateMetaRouteMatch_ok. tauto. }
  clearbody base.
  destruct (mr_MirrorPercentage r) as [p|] eqn:Ep.
  - rewrite validate_percentage_ok. destruct (mr_Mirror r) as [m|] eqn:Em.
    + rewrite Hbase. split; [intros; split; naive_solver|]. intros [? ? ? Hp ? ?].
      destruct (Hp p Ep). naive_solver.
    + rewrite v_Err_append. cbn [v_Err WrapError]. split; [naive_solver|]. intros [? ? ? Hp ? ?].
      destruct (Hp p Ep). congruence.
  - rewrite Hbase. split; [intros; split; naive_solver|]. intros []. naive_solver.
Qed.

Lemma validateTokenBucket_ok o : v_Err (validateTokenBucket o) = [] <-> forall b, o = Some b -> bucket_ok b.
Proof.
  destruct o as [[mx tpf fi]|]; [|naive_solver]. unfold validateTokenBucket, bucket_ok.
  cbn [tb_MaxTokens tb_TokensPerFill tb_FillInterval]. rewrite if_errors_nil, Z.ltb_ge.
  destruct tpf as [v|]; rewrite ?if_errors_nil, ?Z.ltb_ge, ?v_Err_append; simpl;
    destruct fi as [f|]; simpl; unfold is_Some; naive_solver.
Qed.

Lemma validateLocalRateLimitCondition_ok c :
  v_Err (validateLocalRateLimitCondition c) = [] <-> condition_ok c.
Proof.
  unfold validateLocalRateLimitCondition, condition_ok. rewrite !v_Err_append, validateTokenBucket_ok.
  cbn [v_Err WrapError]. rewrite validateMetaRouteMatch_ok.
  destruct (lc_Match c), (lc_TokenBucket c); simpl; naive_solver.
Qed.

Lemma validateLocalRateLimit_ok o :
  v_Err (validateLocalRateLimit o) = [] <-> forall l, o = Some l -> local_ok l.
Proof.
  destruct o as [[tb cs]|]; [|naive_solver]. unfold validateLocalRateLimit, local_ok.
  cbn [lrl_TokenBucket lrl_Conditions].
  rewrite (foldl_errors_nil v_Err _ condition_ok)
    by (intros; by rewrite v_Err_append, validateLocalRateLimitCondition_ok).
  rewrite v_Err_append, validateTokenBucket_ok. destruct tb, cs; simpl; naive_solver.
Qed.

Lemma validateNoneEmptyString_ok s n : validateNoneEmptyString s n = [] <-> s <> "".
Proof.
  unfold validateNoneEmptyString. destruct (String.eqb s "") eqn:E.
  - apply String.eqb_eq in E. naive_solver.
  - apply String.eqb_neq in E. naive_solver.
Qed.

Lemma forall_Some {A} (P : A -> Prop) x : (forall y, Some x = Some y -> P y) <-> P x.
Proof. naive_solver. Qed.

Lemma validateGlobalRateLimit_ok o :
  v_Err (validateGlobalRateLimit o) = [] <-> forall g, o = Some g -> global_ok g.
Proof.
  destruct o as [g|]; [|naive_solver]. rewrite forall_Some.
  unfold validateGlobalRateLimit, global_ok, validateRateLimitDescriptors.
  rewrite !v_Err_append. cbn [v_Err WrapError].
  rewrite !validateNoneEmptyString_ok, validateMetaRouteMatch_ok.
  rewrite (foldl_errors_nil v_Err _ (fun d => gd_DescriptorKey d <> "" /\ gd_Property d <> ""))
    by (intros; rewrite !v_Err_append; cbn [v_Err WrapError]; rewrite !validateNoneEmptyString_ok; tauto).
  destruct (grl_Descriptors g); simpl; naive_solver.
Qed.

Lemma routes_ok_list l :
  Forall (fun r => exists x, r = Some x /\ meta_route_ok x) l <->
  exists rs, l = Some <$> rs /\ Forall meta_route_ok rs.
Proof.
  split.
  - induction 1 as [|r l (x & -> & Hx) _ (rs & -> & Hrs)]; [by exists []|].
    exists (x :: rs). split; [done|]. by constructor.
  - intros (rs & -> & Hrs). induction Hrs; rewrite ?fmap_nil, ?fmap_cons; constructor; eauto.
Qed.

Lemma ValidateMetaRouter_ok namespace mr :
  snd (ValidateMetaRouter namespace (Some mr)) = [] <-> router_wf namespace mr.
Proof.
  unfold ValidateMetaRouter. cbn [snd]. rewrite !v_Err_append.
  rewrite validateLocalRateLimit_ok, validateGlobalRateLimit_ok. cbn [v_Err WrapError WrapWarning].
  rewrite validateExportTo_ok.
  rewrite (foldl_errors_nil v_Err _ (fun r => exists x, r = Some x /\ meta_route_ok x)).
  2:{ intros e [r|]; rewrite v_Err_append; [rewrite validateMetaRoute_ok|simpl]; naive_solver. }
  rewrite routes_ok_list.
  set (hosts := match mrs_Hosts mr with [] => _ | _ => _ end).
  assert (Hhosts : v_Err hosts = [] <-> exists h, mrs_Hosts mr = [h] /\ fqdn_ok h).
  { unfold hosts. destruct (mrs_Hosts mr) as [|h [|h2 hs]]; simpl; rewrite ?ValidateFQDN_ok; naive_solver. }
  clearbody hosts.
  assert (Hcontent : v_Err (match mrs_Routes mr with
      | [] => match mrs_GlobalRateLimit mr, mrs_LocalRateLimit mr with
              | None, None => appendValidation hosts (WrapError
                  ["meta router must at least have one of routes, globalRateLimit, or LocalRateLimit"])
              | _, _ => hosts end
      | _ => hosts end) = [] <-> v_Err hosts = [] /\
      (mrs_Routes mr <> [] \/ mrs_GlobalRateLimit mr <> None \/ mrs_LocalRateLimit mr <> None)).
  { destruct (mrs_Routes mr); [|naive_solver].
    destruct (mrs_GlobalRateLimit mr), (mrs_LocalRateLimit mr); try naive_solver.
    rewrite v_Err_append. simpl. naive_solver. }
  split.
  - intros. destruct_and!. split; try tauto.
  - intros [Hh Hc Hr He Hg Hl]. split_and!; try done.
    destruct Hcontent as [_ Hcontent]. specialize (Hcontent (conj (proj2 Hhosts Hh) Hc)).
    by destruct (mrs_Routes mr), (mrs_GlobalRateLimit mr), (mrs_LocalRateLimit mr).
Qed.

(** C5: The admission check accepts exactly the well-formed MetaRouters: one host that is a
    valid domain name; routes or a rate limit; no nil route, attribute or destination;
    valid names, subsets, ports, expressions and mutations; weights of at most 100 that add
    up to 100 (modulo 2^32) when there are several; a mirror percentage in ]0, 100] only
    with a mirror; token buckets with an interval and positive token counts; export
    entries without duplicates, the public and the none entry only alone. *)
Theorem meta_router_accepted namespace mr :
  snd (ValidateMetaRouter namespace (Some mr)) = [] <-> router_wf namespace mr.
Proof. apply ValidateMetaRouter_ok. Qed.
End accepted.

(** ** Accepted routers and the route server *)
Section pipeline.
Context `{ValidationEnv, MapRange, IstioNaming}.

(** The entry built for a route: its name, and a cluster or clusters with total 100. *)
Definition entry_served (r : option MetaRoute) (e : MetaRouteEntry) : Prop :=
  exists route a, r = Some route /\ mroute_Name e = mr_Name route /\ mroute_Route e = Some a /\
    match ra_ClusterSpecifier a with
    | Cluster _ => True
    | WeightedClusters w => wc_TotalWeight w = Some 100
    | NoClusterSpecifier => False
    end.

Lemma router_wf_served namespace mr service port dr oob h hs :
  router_wf namespace (mtr_Spec mr) -> se_Hosts service = h :: hs ->
  exists rc, constructRoute oob service port mr dr = Ret rc /\
    mrc_Name rc = BuildMetaProtocolRouteName h (sp_Number port) /\
    Forall2 entry_served (mrs_Routes (mtr_Spec mr)) (mrc_Routes rc) /\
    exists http, metaProtocolRoute2HttpRoute rc = Ret http.
Proof.
  intros [_ _ (rs & Hrs & Hok) _ _ _] Hh.
  unfold constructRoute. rewrite Hrs, Hh. set (f := fun route : option MetaRoute => _).
  assert (exists es, map_panic f (Some <$> rs) = Ret es /\
    Forall2 entry_served (Some <$> rs) es /\ Forall carriable es) as (es & -> & Hes & Hro).
  { clear Hrs. induction Hok as [|r rs Hr _ (es & Hmap & H2 & Hro)]; [by exists []|].
    destruct (route_destinations _ Hr) as (ds & Hds & Hne & _ & Hw). rewrite fmap_cons. cbn [map_panic].
    pose proof (construct_action_ok oob port r dr ds Hds) as Ha.
    assert (Hf : exists e, f (Some r) = Ret e /\ mroute_Name e = mr_Name r /\ is_Some (mroute_Match e) /\
      mroute_Route e = Some {| ra_ClusterSpecifier := expected_specifier port ds;
        ra_HashPolicy := hash_policies dr ds; ra_RequestMirrorPolicies := mirror_policies oob port r |})
      by (unfold f, deref; cbv [mbind outcome_bind]; rewrite Ha; eexists; split_and!; done).
    destruct Hf as (e & -> & Hn & Hm & Hra). rewrite Hmap. cbn [mbind outcome_bind].
    eexists. split; [done|]. split; constructor; try done.
    - exists r. eexists. split_and!; [done|done|exact Hra|]. cbn [ra_ClusterSpecifier].
      destruct ds as [|[d w] [|[d2 w2] ds]]; [done..|]. simpl. f_equal. apply Hw. simpl. lia. }
  cbn [mbind outcome_bind index lookup list_lookup]. eexists. split; [done|]. split_and!; [done..|].
  by apply carriable_carried.
Qed.
(** Across components: a MetaRouter the admission check accepts can be served. For a
    service with a host the route configuration is built without panic, with one entry per
    route in order; every entry has a cluster, or a weighted set of clusters whose total is
    100; and its HTTP carrier is built without panic. *)
Theorem accepted_router_served namespace mr service port dr oob h hs :
  snd (ValidateMetaRouter namespace (Some (mtr_Spec mr))) = [] -> se_Hosts service = h :: hs ->
  exists rc, constructRoute oob service port mr dr = Ret rc /\
    mrc_Name rc = BuildMetaProtocolRouteName h (sp_Number port) /\
    Forall2 entry_served (mrs_Routes (mtr_Spec mr)) (mrc_Routes rc) /\
    exists http, metaProtocolRoute2HttpRoute rc = Ret http.
Proof. intros Hval. apply ValidateMetaRouter_ok in Hval. by apply (router_wf_served namespace). Qed.
End pipeline.

(** ** Warnings *)
(** The positions of the rules without match, counted from [n]. *)
Fixpoint unmatched_from (routes : list (option MetaRoute)) (n : nat) : list nat :=
  match routes with
  | [] => []
  | Some {| mr_Match := None |} :: rest => n :: unmatched_from rest (S n)
  | _ :: rest => unmatched_from rest (S n)
  end.
Definition unused_warning (rulen : nat) : string :=
  "MetaRouter rule " +:+ routeName rulen +:+ " not used (only the last rule can have no match)".

Lemma unmatched_from_elem routes k n :
  n ∈ unmatched_from routes k <->
  exists i r, n = (k + i)%nat /\ routes !! i = Some (Some r) /\ mr_Match r = None.
Proof.
  revert k. induction routes as [|o routes IH]; intros k; cbn [unmatched_from].
  { split; [by intros ?%elem_of_nil|by intros (i & r & _ & ? & _)]. }
  assert (Hrest : (exists i r, n = (S k + i)%nat /\ routes !! i = Some (Some r) /\ mr_Match r = None) <->
    exists i r, n = (k + S i)%nat /\ (o :: routes) !! S i = Some (Some r) /\ mr_Match r = None).
  { split; intros (i & r & -> & Hi); exists i, r; (split; [lia|done]). }
  assert (Hsplit : (exists i r, n = (k + i)%nat /\ (o :: routes) !! i = Some (Some r) /\ mr_Match r = None) <->
    (n = k /\ exists r, o = Some r /\ mr_Match r = None) \/
    exists i r, n = (k + S i)%nat /\ (o :: routes) !! S i = Some (Some r) /\ mr_Match r = None).
  { split.
    - intros ([|i] & r & -> & Hi & Hm); [left; split; [lia|]; injection Hi as ->; eauto|right; eauto].
    - intros [[-> (r & -> & Hm)]|(i & r & Hi)]; [exists 0%nat, r; split; [lia|done]|eauto]. }
  rewrite Hsplit, <- Hrest, <- IH.
  destruct o as [[nm [m|] rt mi mp rq rs]|]; rewrite ?elem_of_cons; naive_solver.
Qed.

Lemma unmatched_from_sorted routes k : StronglySorted lt (unmatched_from routes k).
Proof.
  revert k. induction routes as [|[[nm [m|] rt mi mp rq rs]|] routes IH]; intros k; cbn [unmatched_from]; try apply IH;
    constructor; [apply IH|]. apply Forall_forall. intros n (i & r & -> & _)%unmatched_from_elem. lia.
Qed.

(** Of the rules without match, in order, every one but the first gets a warning, and
    no other rule does: a rule with a match that follows a rule without one is never
    reported, although no request reaches it. *)
Theorem unreachable_warnings routes :
  exists unmatched, StronglySorted lt unmatched /\
    (forall n, n ∈ unmatched <-> exists r, routes !! n = Some (Some r) /\ mr_Match r = None) /\
    analyzeUnreachableMetaRules routes = unused_warning <$> tail unmatched.
Proof.
  exists (unmatched_from routes 0). split; [apply unmatched_from_sorted|]. split.
  { intros n. rewrite unmatched_from_elem. split; [intros (i & r & -> & Hr); by exists r|intros (r & Hr); by exists n, r]. }
  unfold analyzeUnreachableMetaRules.
  enough (forall n b, analyze routes n b =
    unused_warning <$> (if b then unmatched_from routes n else tail (unmatched_from routes n))) as Hx by apply Hx.
  induction routes as [|[[nm [m|] rt mi mp rq rs]|] routes IH]; intros n b; [by destruct b|..]; cbn [analyze mr_Match unmatched_from];
    rewrite IH; by destruct b.
Qed.

(** ** Concrete runs *)
Definition dns_char (a : ascii) : bool :=
  is_digit a || ((97 <=? N_of_ascii a)%N && (N_of_ascii a <=? 122)%N) || Ascii.eqb a "-".
Fixpoint all_chars (f : ascii -> bool) (s : string) : bool :=
  match s with EmptyString => true | String a s => f a && all_chars f s end.
Definition demo_env : ValidationEnv :=
  let label s := negb (String.eqb s "") && (String.length s <=? 63)%nat && all_chars dns_char s &&
                 negb (HasPrefix s "-") && negb (HasSuffix s "-") in
  {| IsDNS1123Label := label;
     visibility_Validate := fun s => if label s || bool_decide (s ∈ ["*"; "."; "~"]) then None
                                     else Some ("invalid namespace " +:+ s);
     regexp_Compile := fun s => if ContainsChar s "(" then Some "missing closing" else None |}.

Section demo.
#[local] Existing Instance canonical_range.
#[local] Existing Instance istio_subset_key.
#[local] Existing Instance demo_env.

Definition demo_destination (w : Z) : MetaRouteDestination :=
  {| mrd_Destination := Some {| d_Host := "b.ns.svc.cluster.local"; d_Subset := "v1"; d_Port := None |};
     mrd_Weight := w |}.
Definition demo_route (ds : list MetaRouteDestination) : MetaRoute :=
  {| mr_Name := "r"; mr_Match := Some {| mrm_Attributes := {["interface" := Some (StringMatch_Exact "x")]} |};
     mr_Route := Some <$> ds; mr_Mirror := None; mr_MirrorPercentage := None;
     mr_RequestMutation := []; mr_ResponseMutation := [] |}.
Definition demo_spec (routes : list MetaRoute) : MetaRouterSpec :=
  {| mrs_Hosts := ["b.ns.svc.cluster.local"]; mrs_Gateways := []; mrs_Routes := Some <$> routes;
     mrs_LocalRateLimit := None; mrs_GlobalRateLimit := None; mrs_ExportTo := ["."; "other"] |}.
Definition demo_mr : MetaRouter :=
  {| mtr_Name := "r"; mtr_Namespace := "ns";
     mtr_Spec := demo_spec [demo_route [demo_destination 30; demo_destination 70]] |}.
Definition demo_port : ServicePort :=
  {| sp_Number := 20880; sp_Protocol := "tcp"; sp_Name := "tcp-metaprotocol-dubbo"; sp_TargetPort := 20880 |}.
Definition demo_service : ServiceEntry :=
  {| se_Hosts := ["b.ns.svc.cluster.local"]; se_Addresses := []; se_Ports := [demo_port];
     se_Resolution := STATIC; se_WorkloadSelector := None |}.

Example accepted_example : ValidateMetaRouter "ns" (Some (mtr_Spec demo_mr)) = ([], []).
Proof. by vm_compute. Qed.
Example rejected_examples :
  snd (ValidateMetaRouter "ns" (Some (demo_spec [demo_route [demo_destination 30; demo_destination 60]]))) =
    ["total destination weight 90 != 100"] /\
  snd (ValidateMetaRouter "other" (Some (mtr_Spec demo_mr))) = ["duplicate entries in exportTo for entry other"] /\
  ValidateFQDN "a..b" <> [] /\ ValidateFQDN "a.b." = [] /\ ValidateFQDN "a.123" <> [].
Proof. by vm_compute. Qed.

Lemma accepted_router_served_witness :
  exists rc, constructRoute 0 demo_service demo_port demo_mr None = Ret rc /\
    mrc_Name rc = "b.ns.svc.cluster.local_20880" /\ length (mrc_Routes rc) = 1%nat.
Proof.
  destruct (accepted_router_served "ns" demo_mr demo_service demo_port None 0 "b.ns.svc.cluster.local" [])
    as (rc & Hrc & Hn & H2 & _); [vm_compute; reflexivity|reflexivity|].
  exists rc. split; [exact Hrc|]. split; [rewrite Hn; vm_compute; reflexivity|].
  apply Forall2_length in H2. rewrite <- H2. reflexivity.
Defined.
End demo.
