(* ===== verification/MetaProtocolPlugin.v ===== *)
(** * The MetaProtocol plugin

    [src/internal/plugin/metaprotocol]: the MetaProtocol proxies of sidecars and
    gateways, their filters, access log, tracing and inbound route.

    A message packed into an [Any] is modelled by the message.  Parameters: protojson,
    go-control-plane's names and the parser of JSON access log formats. *)

From S2P Require Import Prelude Api Model NetworkFilter Xds Validation.

(** ** Messages *)
Record TokenBucket := { b_MaxTokens : Z; b_TokensPerFill : option Z; b_FillInterval : Duration }.
Record LocalRateLimitCondition := { lrc_TokenBucket : TokenBucket; lrc_Match : list HeaderMatcher }.
Inductive FilterConfig :=
| IstioStats (destinationService : string)
| LocalRateLimitConfig (statPrefix : string) (tokenBucket : option TokenBucket)
    (conditions : list LocalRateLimitCondition)
| GlobalRateLimitConfig (match_ : list HeaderMatcher) (domain : string) (timeout : Duration)
    (failureModeDeny : bool) (rateLimitCluster : string) (descriptors : list GlobalRateLimit_Descriptor).
Record MetaProtocolFilter := { mpf_Name : string; mpf_Config : option FilterConfig }.

Inductive LogFormat := NoFormat | TextFormat (s : string) | JsonFormat (s : gmap string PValue).
Record AccessLog := { al_Name : string; al_Path : string; al_Format : LogFormat }.
Record Tracing := { ClientSampling : float64; RandomSampling : float64; OverallSampling : float64 }.

Inductive RouteSpecifier :=
| Rds (routeConfigName : string) (clusterName : string)
| RouteConfig (route : MetaRouteConfiguration).
Record MetaProtocolProxy := {
  mpp_StatPrefix : string;
  mpp_RouteSpecifier : RouteSpecifier;
  mpp_ApplicationProtocol : string;
  mpp_Codec : string;
  mpp_MetaProtocolFilters : list MetaProtocolFilter;
  mpp_AccessLog : list AccessLog;
  mpp_Tracing : option Tracing }.

Class LogFormatParser := UnmarshalAllowUnknown : string -> res (gmap string PValue).

(** ** accesslog.go *)
Definition envoyLogFilePath : string := "/dev/stdout".
Definition envoyTextLogFormat : string :=
  "[%START_TIME%] %REQ(X-META-PROTOCOL-APPLICATION-PROTOCOL)% " +:+
  "%RESPONSE_CODE% %RESPONSE_CODE_DETAILS% %CONNECTION_TERMINATION_DETAILS% " +:+
  quoted "%UPSTREAM_TRANSPORT_FAILURE_REASON%" +:+ " %BYTES_RECEIVED% %BYTES_SENT% " +:+
  "%DURATION%  " +:+ quoted "%REQ(X-FORWARDED-FOR)%" +:+ " " +:+ quoted "%REQ(X-REQUEST-ID)%" +:+ " " +:+
  "%UPSTREAM_CLUSTER% %UPSTREAM_LOCAL_ADDRESS% %DOWNSTREAM_LOCAL_ADDRESS% " +:+
  "%DOWNSTREAM_REMOTE_ADDRESS% %ROUTE_NAME%" +:+ String "010" "".

Definition envoyJSONLogFormatIstio : gmap string PValue :=
  list_to_map [
    ("start_time", StringValue "%START_TIME%");
    ("route_name", StringValue "%ROUTE_NAME%");
    ("application_protocol", StringValue "%REQ(X-META-PROTOCOL-APPLICATION-PROTOCOL)%");
    ("response_code", StringValue "%RESPONSE_CODE%");
    ("response_code_details", StringValue "%RESPONSE_CODE_DETAILS%");
    ("connection_termination_details", StringValue "%CONNECTION_TERMINATION_DETAILS%");
    ("bytes_received", StringValue "%BYTES_RECEIVED%");
    ("bytes_sent", StringValue "%BYTES_SENT%");
    ("duration", StringValue "%DURATION%");
    ("request_id", StringValue "%REQ(X-REQUEST-ID)%");
    ("upstream_cluster", StringValue "%UPSTREAM_CLUSTER%");
    ("upstream_local_address", StringValue "%UPSTREAM_LOCAL_ADDRESS%");
    ("downstream_local_address", StringValue "%DOWNSTREAM_LOCAL_ADDRESS%");
    ("downstream_remote_address", StringValue "%DOWNSTREAM_REMOTE_ADDRESS%");
    ("upstream_transport_failure_reason", StringValue "%UPSTREAM_TRANSPORT_FAILURE_REASON%")].

Section plugin.
Context `{MapRange, IstioNaming, WellKnown, LogFormatParser}.
(** The registries of codecs and protocols. *)
Variable applicationProtocols : gmap string string.
Variable protocolMap : gmap string Instance_.

Definition buildFileAccessLogHelper (path : string) (mesh : MeshConfig) : AccessLog :=
  let path := if String.eqb path "" then envoyLogFilePath else path in
  let format :=
    match mesh_AccessLogEncoding mesh with
    | TEXT => TextFormat (if negb (String.eqb (mesh_AccessLogFormat mesh) "")
                          then mesh_AccessLogFormat mesh else envoyTextLogFormat)
    | JSON =>
        JsonFormat (if negb (String.eqb (mesh_AccessLogFormat mesh) "")
                    then match UnmarshalAllowUnknown (mesh_AccessLogFormat mesh) with
                         | Err _ => envoyJSONLogFormatIstio
                         | Ok parsed => parsed
                         end
                    else envoyJSONLogFormatIstio)
    | OtherEncoding => NoFormat
    end in
  {| al_Name := FileAccessLog; al_Path := path; al_Format := format |}.

(** ** filters.go *)
Definition crd2tokenBucket (tbCrd : TokenBucketCrd) : outcome TokenBucket :=
  interval ← deref (tb_FillInterval tbCrd);
  tokensPerFill ← deref (tb_TokensPerFill tbCrd);
  Ret {| b_MaxTokens := tb_MaxTokens tbCrd;
         b_TokensPerFill := if negb (tokensPerFill =? 0) then Some tokensPerFill else None;
         b_FillInterval := {| Seconds := Seconds interval; Nanos := Nanos interval |} |}.

Definition crd2Conditions (conditions : list LocalRateLimit_Condition)
    : outcome (list LocalRateLimitCondition) :=
  for_each (fun localConditions condition =>
    match lc_TokenBucket condition with
    | None => Ret localConditions
    | Some tb =>
        tokenBucket ← crd2tokenBucket tb;
        Ret (localConditions ++ [{| lrc_TokenBucket := tokenBucket;
                                    lrc_Match := MetaMatch2HttpHeaderMatch (lc_Match condition) |}])
    end) conditions [].

Definition appendLocalRateLimitFilter (metaRouter : MetaRouter) (limit : LocalRateLimit)
    (filters : list MetaProtocolFilter) : outcome (res (list MetaProtocolFilter)) :=
  match lrl_TokenBucket limit, lrl_Conditions limit with
  | None, [] => Ret (Err "either tokenBucket or conditions should be specified")
  | _, _ =>
      host ← index (mrs_Hosts (mtr_Spec metaRouter)) 0;
      tokenBucket ← match lrl_TokenBucket limit with
                    | None => Ret None
                    | Some tb => b ← crd2tokenBucket tb; Ret (Some b)
                    end;
      conditions ← crd2Conditions (lrl_Conditions limit);
      Ret (Ok (filters ++ [{| mpf_Name := "aeraki.meta_protocol.filters.local_ratelimit";
                              mpf_Config := Some (LocalRateLimitConfig host tokenBucket conditions) |}]))
  end.

Definition appendGlobalRateLimitFilter (limit : GlobalRateLimit) (filters : list MetaProtocolFilter)
    : outcome (res (list MetaProtocolFilter)) :=
  match grl_Descriptors limit with
  | [] => Ret (Err "then length of global rate [lmit actions should not be zero")
  | descriptors =>
      timeout ← deref (grl_RequestTimeout limit);
      Ret (Ok (filters ++ [{| mpf_Name := "aeraki.meta_protocol.filters.ratelimit";
        mpf_Config := Some (GlobalRateLimitConfig (MetaMatch2HttpHeaderMatch (grl_Match limit)) (grl_Domain limit)
          {| Seconds := Seconds timeout; Nanos := Nanos timeout |} (grl_DenyOnFail limit)
          (grl_RateLimitService limit)
          ((fun a => {| gd_Property := gd_Property a; gd_DescriptorKey := gd_DescriptorKey a |}) <$> descriptors)) |}]))
  end.

Definition appendCommonFilters (filters : list MetaProtocolFilter) (host : string) : list MetaProtocolFilter :=
  filters ++ [{| mpf_Name := "aeraki.meta_protocol.filters.metadata_exchange"; mpf_Config := None |};
              {| mpf_Name := "aeraki.meta_protocol.filters.istio_stats"; mpf_Config := Some (IstioStats host) |};
              {| mpf_Name := "aeraki.meta_protocol.filters.router"; mpf_Config := None |}].

Definition buildOutboundFilters (host : string) : list MetaProtocolFilter := appendCommonFilters [] host.

Definition buildInboundFilters (metaRouter : option MetaRouter) (host : string)
    : outcome (res (list MetaProtocolFilter)) :=
  filters ← match metaRouter with
            | None => Ret (Ok [])
            | Some mr =>
                local ← match mrs_LocalRateLimit (mtr_Spec mr) with
                        | None => Ret (Ok [])
                        | Some limit => appendLocalRateLimitFilter mr limit []
                        end;
                match local with
                | Err e => Ret (Err e)
                | Ok filters =>
                    match mrs_GlobalRateLimit (mtr_Spec mr) with
                    | None => Ret (Ok filters)
                    | Some limit => appendGlobalRateLimitFilter limit filters
                    end
                end
            end;
  match filters with
  | Err e => Ret (Err e)
  | Ok filters => Ret (Ok (appendCommonFilters filters host))
  end.

(** ** route.go *)
Definition defaultInboundRoute (clusterName : string) : MetaRouteEntry :=
  {| mroute_Name := ""; mroute_Match := None;
     mroute_Route := Some {| ra_ClusterSpecifier := Cluster clusterName; ra_HashPolicy := [];
                             ra_RequestMirrorPolicies := [] |};
     mroute_RequestMutation := []; mroute_ResponseMutation := [] |}.

Definition buildInboundRouteConfig (context : EnvoyFilterContext) (port : ServicePort)
    : outcome MetaRouteConfiguration :=
  host ← index (se_Hosts (sew_Spec (ctx_ServiceEntry context))) 0;
  let clusterName := BuildClusterName TrafficDirectionInbound "" host (sp_Number port) in
  Ret {| mrc_Name := clusterName; mrc_Routes := [defaultInboundRoute clusterName] |}.

(** ** metaprotocolproxy.go *)
Definition configAccessLog (context : EnvoyFilterContext) : list AccessLog :=
  let mesh := ctx_MeshConfig context in
  if negb (String.eqb (mesh_AccessLogFile mesh) "")
  then [buildFileAccessLogHelper (mesh_AccessLogFile mesh) mesh] else [].

Definition configTracing (context : EnvoyFilterContext) : outcome (option Tracing) :=
  let mesh := ctx_MeshConfig context in
  if mesh_EnableTracing mesh then
    tracing ← deref (mesh_DefaultConfig mesh);
    let randomSampling := match tracing with Some sampling => sampling | None => f64_of_Z 1 end in
    Ret (Some {| ClientSampling := f64_of_Z 100; RandomSampling := randomSampling;
                 OverallSampling := f64_of_Z 100 |})
  else Ret None.

(** The codec of a port, or the error of one of the two lookups. *)
Definition port_codec (port : ServicePort) : outcome (res (string * string)) :=
  p ← GetApplicationProtocolFromPortName (sp_Name port);
  match p with
  | Err e => Ret (Err e)
  | Ok applicationProtocol =>
      match GetApplicationProtocolCodec applicationProtocols applicationProtocol with
      | Err e => Ret (Err e)
      | Ok codec => Ret (Ok (applicationProtocol, codec))
      end
  end.

Definition buildOutboundProxy (context : EnvoyFilterContext) (port : ServicePort)
    : outcome (res MetaProtocolProxy) :=
  c ← port_codec port;
  match c with
  | Err e => Ret (Err e)
  | Ok (applicationProtocol, codec) =>
      host ← index (se_Hosts (sew_Spec (ctx_ServiceEntry context))) 0;
      tracing ← configTracing context;
      Ret (Ok {| mpp_StatPrefix := BuildClusterName TrafficDirectionOutbound "" host (sp_Number port);
                 mpp_RouteSpecifier := Rds (BuildMetaProtocolRouteName host (sp_Number port)) "aeraki-xds";
                 mpp_ApplicationProtocol := applicationProtocol;
                 mpp_Codec := codec;
                 mpp_MetaProtocolFilters := buildOutboundFilters host;
                 mpp_AccessLog := configAccessLog context;
                 mpp_Tracing := tracing |})
  end.

Definition buildInboundProxy (context : EnvoyFilterContext) (port : ServicePort)
    : outcome (res MetaProtocolProxy) :=
  route ← buildInboundRouteConfig context port;
  c ← port_codec port;
  match c with
  | Err e => Ret (Err e)
  | Ok (applicationProtocol, codec) =>
      host ← index (se_Hosts (sew_Spec (ctx_ServiceEntry context))) 0;
      filters ← buildInboundFilters (ctx_MetaRouter context) host;
      match filters with
      | Err e => Ret (Err e)
      | Ok filters =>
          tracing ← configTracing context;
          Ret (Ok {| mpp_StatPrefix := BuildClusterName TrafficDirectionInbound "" host (sp_Number port);
                     mpp_RouteSpecifier := RouteConfig route;
                     mpp_ApplicationProtocol := applicationProtocol;
                     mpp_Codec := codec;
                     mpp_MetaProtocolFilters := filters;
                     mpp_AccessLog := configAccessLog context;
                     mpp_Tracing := tracing |})
      end
  end.

(** ** generator.go *)
Context `{ProtoJSON MetaProtocolProxy, ProtoJSONStruct}.

Definition filterName : string := "envoy.filters.network.meta_protocol_proxy".
Definition filterType : string := "type.googleapis.com/aeraki.meta_protocol_proxy.v1alpha.MetaProtocolProxy".

Definition trans2Port (port : Port) : ServicePort :=
  {| sp_Number := p_Number port; sp_Protocol := p_Protocol port; sp_Name := p_Name port;
     sp_TargetPort := p_Number port |}.

(** The context with the service entry a previous call may have written to. *)
Definition with_service (context : EnvoyFilterContext) (service : ServiceEntryWrapper) : EnvoyFilterContext :=
  {| ctx_MeshConfig := ctx_MeshConfig context; ctx_Gateway := ctx_Gateway context; ctx_ServiceEntry := service;
     ctx_VirtualService := ctx_VirtualService context; ctx_MetaRouter := ctx_MetaRouter context |}.

Definition sidecar_step (context : EnvoyFilterContext)
    (acc : list EnvoyFilterWrapper * ServiceEntryWrapper) (port : ServicePort)
    : outcome (flow (list EnvoyFilterWrapper * ServiceEntryWrapper) (list EnvoyFilterWrapper * option error)) :=
  let '(envoyfilters, service) := acc in
  if negb (IsMetaProtocol (GetLayer7ProtocolFromPortName protocolMap (sp_Name port))) then Ret (Next acc)
  else
    outboundProxy ← buildOutboundProxy (with_service context service) port;
    match outboundProxy with
    | Err e => Ret (Done ([], Some e))
    | Ok outboundProxy =>
        inboundProxy ← buildInboundProxy (with_service context service) port;
        match inboundProxy with
        | Err e => Ret (Done ([], Some e))
        | Ok inboundProxy =>
            r ← GenerateReplaceNetworkFilter service port (Message outboundProxy) (Message inboundProxy)
                  filterName filterType;
            Ret (Next (envoyfilters ++ fst r, snd r))
        end
    end.

Definition generateSidecarEnvoyFilters (context : EnvoyFilterContext)
    : outcome (list EnvoyFilterWrapper * option error) :=
  r ← loop (sidecar_step context) (se_Ports (sew_Spec (ctx_ServiceEntry context))) ([], ctx_ServiceEntry context);
  match r with Next (fs, _) => Ret (fs, None) | Done r => Ret r end.

Definition gateway_filter_name (gateway : GatewayWrapper) (port : ServicePort) : string :=
  "aeraki-gateway-outbound-" +:+ m_Name (gww_Meta gateway) +:+ "." +:+
  m_Namespace (gww_Meta gateway) +:+ "-" +:+ Itoa (sp_Number port).

(** Name, namespace and selector given to all filters collected so far. *)
Definition rename_filter (gateway : GatewayWrapper) (port : ServicePort) (w : EnvoyFilterWrapper)
    : EnvoyFilterWrapper :=
  {| efw_Name := gateway_filter_name gateway port;
     efw_Namespace := m_Namespace (gww_Meta gateway);
     efw_Envoyfilter := {| ef_WorkloadSelector := Some {| ws_Labels := Some (gw_Selector (gww_Spec gateway)) |};
                           ef_ConfigPatches := ef_ConfigPatches (efw_Envoyfilter w) |} |}.

Definition gateway_server_filters (context : EnvoyFilterContext) (gateway : GatewayWrapper)
    (acc : list EnvoyFilterWrapper * ServiceEntryWrapper) (server : Server)
    : outcome (flow (list EnvoyFilterWrapper * ServiceEntryWrapper) (list EnvoyFilterWrapper * option error)) :=
  let '(envoyfilters, service) := acc in
  match srv_Port server with
  | None => Ret (Next acc)
  | Some p =>
      if negb (IsMetaProtocol (GetLayer7ProtocolFromPortName protocolMap (p_Name p))) then Ret (Next acc)
      else
        let port := trans2Port p in
        outboundProxy ← buildOutboundProxy (with_service context service) port;
        match outboundProxy with
        | Err e => Ret (Done ([], Some e))
        | Ok outboundProxy =>
            r ← GenerateReplaceNetworkFilter service port (Message outboundProxy) NilInterface filterName filterType;
            Ret (Next (rename_filter gateway port <$> (envoyfilters ++ fst r), snd r))
        end
  end.

Definition generateGatewayEnvoyFilters (context : EnvoyFilterContext) (gateway : GatewayWrapper)
    : outcome (list EnvoyFilterWrapper * option error) :=
  r ← loop (gateway_server_filters context gateway) (gw_Servers (gww_Spec gateway)) ([], ctx_ServiceEntry context);
  match r with Next (fs, _) => Ret (fs, None) | Done r => Ret r end.

Definition Generate (context : EnvoyFilterContext) : outcome (list EnvoyFilterWrapper * option error) :=
  match ctx_Gateway context with
  | Some gateway => generateGatewayEnvoyFilters context gateway
  | None => generateSidecarEnvoyFilters context
  end.
End plugin.

(** ** Filters *)
Section filter_properties.
Context `{MapRange, ValidationEnv}.

(** *** What a rate limit asks for

    Written out from the resource, without the conversions. *)
Definition bucket_asked (b : TokenBucketCrd) (r : TokenBucket) : Prop :=
  b_MaxTokens r = tb_MaxTokens b /\ b_TokensPerFill r = tb_TokensPerFill b /\
  tb_FillInterval b = Some (b_FillInterval r).

(** The matchers accept the requests that satisfy every attribute of the match. *)
Definition match_asked (m : option MetaRouteMatch) (headers : list HeaderMatcher) : Prop :=
  forall regex_match md, forallb (header_matches regex_match md) headers = true <->
    forall crd name a, m = Some crd -> mrm_Attributes crd !! name = Some a ->
      attribute_matches regex_match md name a = true.

Definition condition_asked (c : LocalRateLimit_Condition) (r : LocalRateLimitCondition) : Prop :=
  exists b, lc_TokenBucket c = Some b /\ bucket_asked b (lrc_TokenBucket r) /\ match_asked (lc_Match c) (lrc_Match r).

Definition local_asked (host : string) (l : LocalRateLimit) (f : MetaProtocolFilter) : Prop :=
  exists bucket conditions,
    f = {| mpf_Name := "aeraki.meta_protocol.filters.local_ratelimit";
           mpf_Config := Some (LocalRateLimitConfig host bucket conditions) |} /\
    option_Forall2 bucket_asked (lrl_TokenBucket l) bucket /\
    Forall2 condition_asked (lrl_Conditions l) conditions.

Definition global_asked (g : GlobalRateLimit) (f : MetaProtocolFilter) : Prop :=
  exists headers timeout,
    f = {| mpf_Name := "aeraki.meta_protocol.filters.ratelimit";
           mpf_Config := Some (GlobalRateLimitConfig headers (grl_Domain g) timeout (grl_DenyOnFail g)
                                 (grl_RateLimitService g) (grl_Descriptors g)) |} /\
    grl_RequestTimeout g = Some timeout /\ match_asked (grl_Match g) headers.

(** The filters of a limit that may be absent. *)
Definition filters_for {A} (asked : A -> MetaProtocolFilter -> Prop) (limit : option A)
    (fs : list MetaProtocolFilter) : Prop :=
  match limit with None => fs = [] | Some a => exists f, fs = [f] /\ asked a f end.

Definition local_limit (mr : option MetaRouter) : option LocalRateLimit := mr ≫= (fun m => mrs_LocalRateLimit (mtr_Spec m)).
Definition global_limit (mr : option MetaRouter) : option GlobalRateLimit := mr ≫= (fun m => mrs_GlobalRateLimit (mtr_Spec m)).
Definition router_host (mr : option MetaRouter) : string := default "" (mr ≫= (fun m => head (mrs_Hosts (mtr_Spec m)))).

(** *** The conversions *)
Lemma crd2tokenBucket_ok b : bucket_ok b -> exists r, crd2tokenBucket b = Ret r /\ bucket_asked b r.
Proof.
  intros ([[sec nan] Hi] & (t & Ht & Hpos) & _). unfold crd2tokenBucket, bucket_asked. rewrite Hi, Ht. cbn.
  eexists. split; [done|]. cbn. destruct (Z.eqb_spec t 0); [lia|done].
Qed.

Lemma match_asked_ok m : match_asked m (MetaMatch2HttpHeaderMatch m).
Proof. intros regex_match md. apply header_match_iff. Qed.

Lemma crd2Conditions_step cs acc :
  Forall condition_ok cs ->
  exists r, for_each (fun localConditions condition =>
    match lc_TokenBucket condition with
    | None => Ret localConditions
    | Some tb =>
        tokenBucket ← crd2tokenBucket tb;
        Ret (localConditions ++ [{| lrc_TokenBucket := tokenBucket;
                                    lrc_Match := MetaMatch2HttpHeaderMatch (lc_Match condition) |}])
    end) cs acc = Ret (acc ++ r) /\ Forall2 condition_asked cs r.
Proof.
  intros Hok. revert acc. induction Hok as [|c cs (_ & _ & b & Hb & Hbok) _ IH]; intros acc.
  { exists []. by rewrite app_nil_r. }
  cbn [for_each]. rewrite Hb. destruct (crd2tokenBucket_ok b Hbok) as (tb & -> & Htb). cbn [mbind outcome_bind].
  destruct (IH (acc ++ [{| lrc_TokenBucket := tb; lrc_Match := MetaMatch2HttpHeaderMatch (lc_Match c) |}])) as (r & -> & Hr).
  eexists. rewrite <- app_assoc. split; [done|]. constructor; [|done]. exists b. by split_and!; [..|apply match_asked_ok].
Qed.

Lemma crd2Conditions_ok cs :
  Forall condition_ok cs -> exists r, crd2Conditions cs = Ret r /\ Forall2 condition_asked cs r.
Proof. apply (crd2Conditions_step cs []). Qed.

Lemma appendLocal_ok mr l h hs fs :
  mrs_Hosts (mtr_Spec mr) = h :: hs -> local_ok l ->
  exists f, appendLocalRateLimitFilter mr l fs = Ret (Ok (fs ++ [f])) /\ local_asked h l f.
Proof.
  intros Hh (Hne & Hb & Hc). unfold appendLocalRateLimitFilter, index, local_asked. rewrite Hh. cbn [lookup list_lookup].
  destruct (crd2Conditions_ok _ Hc) as (cs & Hcs & Hasked).
  destruct (lrl_TokenBucket l) as [b|] eqn:Eb; [|destruct (lrl_Conditions l) as [|c cs'] eqn:Ec; [by destruct Hne|]].
  - destruct (crd2tokenBucket_ok b) as (r & -> & Hr); [by apply Hb|].
    destruct (lrl_Conditions l); cbn [mbind outcome_bind]; rewrite Hcs; cbn [mbind outcome_bind];
      eexists; (split; [done|]); exists (Some r), cs; by split_and!; [|constructor|].
  - cbn [mbind outcome_bind]. rewrite Hcs. cbn [mbind outcome_bind].
    eexists; (split; [done|]); exists None, cs; by split_and!; [|constructor|].
Qed.

Lemma descriptors_copy (l : list GlobalRateLimit_Descriptor) :
  (fun a => {| gd_Property := gd_Property a; gd_DescriptorKey := gd_DescriptorKey a |}) <$> l = l.
Proof. induction l as [|[p k] l IH]; [done|]. by rewrite fmap_cons, IH. Qed.

Lemma appendGlobal_ok g fs :
  grl_Descriptors g <> [] ->
  match grl_RequestTimeout g with
  | None => panics (appendGlobalRateLimitFilter g fs) = true
  | Some _ => exists f, appendGlobalRateLimitFilter g fs = Ret (Ok (fs ++ [f])) /\ global_asked g f
  end.
Proof.
  intros Hd. unfold appendGlobalRateLimitFilter, global_asked. destruct (grl_Descriptors g) as [|d ds] eqn:Ed; [done|].
  destruct (grl_RequestTimeout g) as [[s n]|]; [|done]. cbn [deref mbind outcome_bind].
  eexists. split; [done|]. do 2 eexists. rewrite descriptors_copy. by split_and!; [..|apply match_asked_ok].
Qed.

(** C27: The inbound filter chain of a MetaRouter the admission check accepts: the local rate
    limit the router asks for (its token bucket, and one condition per condition of the
    router, in order, with its own bucket and matchers that accept what the condition
    matches), the global one (matchers, domain, timeout, failure mode, service and
    descriptors of the router), then metadata exchange, stats and the router filter, which
    is last; a limit that is absent gives no filter. The one exception is a global rate
    limit without request timeout, which the check accepts and which makes the generation
    panic. *)
Theorem inbound_filter_chain ns mr host :
  (forall m, mr = Some m -> snd (ValidateMetaRouter ns (Some (mtr_Spec m))) = []) ->
  match global_limit mr with
  | Some {| grl_RequestTimeout := None |} => panics (buildInboundFilters mr host) = true
  | _ => exists local global,
      buildInboundFilters mr host = Ret (Ok (local ++ global ++
        [{| mpf_Name := "aeraki.meta_protocol.filters.metadata_exchange"; mpf_Config := None |};
         {| mpf_Name := "aeraki.meta_protocol.filters.istio_stats"; mpf_Config := Some (IstioStats host) |};
         {| mpf_Name := "aeraki.meta_protocol.filters.router"; mpf_Config := None |}])) /\
      filters_for (local_asked (router_host mr)) (local_limit mr) local /\
      filters_for global_asked (global_limit mr) global
  end.
Proof.
  intros Hv. destruct mr as [m|]; [|by exists [], []]. unfold global_limit, local_limit, router_host. cbn.
  destruct (proj1 (ValidateMetaRouter_ok ns (mtr_Spec m)) (Hv m eq_refl)) as [(h & Hh & _) _ _ _ Hg Hl].
  unfold buildInboundFilters. rewrite Hh. cbn [head default].
  assert (exists fs, match mrs_LocalRateLimit (mtr_Spec m) with
      | None => Ret (Ok []) | Some limit => appendLocalRateLimitFilter m limit [] end = Ret (Ok fs) /\
      filters_for (local_asked h) (mrs_LocalRateLimit (mtr_Spec m)) fs) as (local & -> & Hlocal).
  { destruct (mrs_LocalRateLimit (mtr_Spec m)) as [l|]; [|by exists []].
    destruct (appendLocal_ok m l h [] []) as (f & Hf & Hn); [done|by apply Hl|]. exists [f]. by split; [|exists f]. }
  cbn [mbind outcome_bind]. destruct (mrs_GlobalRateLimit (mtr_Spec m)) as [g|] eqn:Eg.
  - assert (Hd : grl_Descriptors g <> []) by (by destruct (Hg g eq_refl) as (_ & _ & _ & ? & _)).
    pose proof (appendGlobal_ok g local Hd) as Ha. destruct g as [gm gd [t|] gdf gs gds]; cbn in Ha.
    + destruct Ha as (f & -> & Hf). exists local, [f]. unfold appendCommonFilters. cbn. rewrite <- app_assoc.
      split; [done|]. split; [done|]. by exists f.
    + by destruct (appendGlobalRateLimitFilter _ local).
  - exists local, []. done.
Qed.
End filter_properties.

(** ** Gateways *)
Section gateway_properties.
Context `{MapRange, IstioNaming, WellKnown, LogFormatParser, ProtoJSON MetaProtocolProxy, ProtoJSONStruct}.
Variable applicationProtocols : gmap string string.
Variable protocolMap : gmap string Instance_.

(** The MetaProtocol ports of the gateway. *)
Definition server_meta_port (server : Server) : option Port :=
  match srv_Port server with
  | Some p => if IsMetaProtocol (GetLayer7ProtocolFromPortName protocolMap (p_Name p)) then Some p else None
  | None => None
  end.
Definition meta_server_ports (servers : list Server) : list Port := omap (M:=list) server_meta_port servers.

Definition gateway_filter (gateway : GatewayWrapper) (port : Port) (w : EnvoyFilterWrapper) : Prop :=
  efw_Name w = gateway_filter_name gateway (trans2Port port) /\
  efw_Namespace w = m_Namespace (gww_Meta gateway) /\
  ef_WorkloadSelector (efw_Envoyfilter w) = Some {| ws_Labels := Some (gw_Selector (gww_Spec gateway)) |}.

Lemma gateway_loop context gateway servers acc r :
  loop (gateway_server_filters applicationProtocols protocolMap context gateway) servers acc = Ret r ->
  match r with
  | Done v => fst v = []
  | Next acc' => match last (meta_server_ports servers) with
                 | Some port => Forall (gateway_filter gateway port) (fst acc')
                 | None => acc' = acc
                 end
  end.
Proof.
  revert acc. induction servers as [|server servers IH]; intros acc; cbn [loop]; [by intros [= <-]|].
  intros (r1 & Hr1 & Hrest)%bind_Ret_inv. unfold gateway_server_filters in Hr1. destruct acc as [fs s].
  unfold meta_server_ports. cbn [omap list_omap]. unfold server_meta_port at 1.
  destruct (srv_Port server) as [p|]; [|injection Hr1 as <-; exact (IH _ Hrest)].
  destruct (IsMetaProtocol _); cbn [negb] in Hr1; [|injection Hr1 as <-; exact (IH _ Hrest)].
  apply bind_Ret_inv in Hr1 as ([proxy|e] & _ & Hr1); [|injection Hr1 as <-; by injection Hrest as <-].
  apply bind_Ret_inv in Hr1 as ([fs' s'] & _ & [= <-]). specialize (IH _ Hrest). destruct r as [acc'|v]; [|done].
  fold (meta_server_ports servers). rewrite last_cons.
  destruct (last (meta_server_ports servers)) as [port|]; [done|]. rewrite IH. cbn [fst].
  apply Forall_fmap, Forall_true. intros w. split_and!; reflexivity.
Qed.

(** All EnvoyFilters generated for a gateway carry one and the same name, that of the
    last MetaProtocol port of the gateway, and namespace: with several MetaProtocol ports
    they collide, and a map keyed by namespace and name keeps one of them. *)
Theorem gateway_filters_share_name context gateway fs err :
  ctx_Gateway context = Some gateway ->
  Generate applicationProtocols protocolMap context = Ret (fs, err) -> fs <> [] ->
  exists port, last (meta_server_ports (gw_Servers (gww_Spec gateway))) = Some port /\
    Forall (gateway_filter gateway port) fs.
Proof.
  intros Hgw. unfold Generate. rewrite Hgw. unfold generateGatewayEnvoyFilters.
  intros (r & Hr & Hres)%bind_Ret_inv Hne. apply gateway_loop in Hr.
  destruct r as [[fs' s']|[fs' e']]; injection Hres as <- <-; [|done].
  destruct (last _) as [port|]; [by exists port|by injection Hr as -> _].
Qed.
End gateway_properties.

(** ** Sidecars *)
Section sidecar_properties.
Context `{MapRange, IstioNaming, WellKnown, LogFormatParser, ProtoJSON MetaProtocolProxy, ProtoJSONStruct}.
Variable applicationProtocols : gmap string string.
Variable protocolMap : gmap string Instance_.

Abbreviation outProxy := (buildOutboundProxy applicationProtocols).
Abbreviation inProxy := (buildInboundProxy applicationProtocols).

Definition meta_service_ports (service : ServiceEntryWrapper) : list ServicePort :=
  filter (fun port => IsMetaProtocol (GetLayer7ProtocolFromPortName protocolMap (sp_Name port)))
    (se_Ports (sew_Spec service)).

(** The proxies of a port can be built and have a JSON form. *)
Definition port_ready (context : EnvoyFilterContext) (port : ServicePort) : Prop :=
  0 <= sp_Number port /\ exists po pi fo fi,
    outProxy context port = Ret (Ok po) /\ inProxy context port = Ret (Ok pi) /\
    marshals (Message po) fo /\ marshals (Message pi) fi.

(** The filters of a port: its outbound proxy replaces the TCP proxy of the listener of every
    address, its inbound proxy that of the inbound listener. *)
Definition port_filters (context : EnvoyFilterContext) (h : string) (sel : WorkloadSelector) (port : ServicePort)
    (fs : list EnvoyFilterWrapper) : Prop :=
  exists po pi fo fi,
    outProxy context port = Ret (Ok po) /\ inProxy context port = Ret (Ok pi) /\
    marshals (Message po) fo /\ marshals (Message pi) fi /\
    fs = (expected_outbound h port REPLACE
            (filter_value "envoy.filters.network.meta_protocol_proxy"
               "type.googleapis.com/aeraki.meta_protocol_proxy.v1alpha.MetaProtocolProxy" fo)
            <$> se_Addresses (sew_Spec (ctx_ServiceEntry context))) ++
         (if decide (default ∅ (ws_Labels sel) = ∅) then []
          else [expected_inbound h port REPLACE
                  (filter_value "envoy.filters.network.meta_protocol_proxy"
                     "type.googleapis.com/aeraki.meta_protocol_proxy.v1alpha.MetaProtocolProxy" fi) sel]).

(** The names of the filters of a port. *)
Definition port_filter_names (h : string) (addresses : list string) (has_selector : bool) (port : ServicePort)
    : list string :=
  ((fun a => outboundEnvoyFilterName h a (sp_Number port)) <$> addresses) ++
  (if has_selector then [inboundEnvoyFilterName h (sp_Number port)] else []).

Lemma port_filters_names context h sel port fs :
  port_filters context h sel port fs ->
  efw_Name <$> fs = port_filter_names h (se_Addresses (sew_Spec (ctx_ServiceEntry context)))
                      (negb (bool_decide (default ∅ (ws_Labels sel) = ∅))) port.
Proof.
  intros (po & pi & fo & fi & _ & _ & _ & _ & ->). unfold port_filter_names.
  rewrite fmap_app, <- list_fmap_compose, decide_bool_decide. f_equal. by case_bool_decide.
Qed.

(** The service entry is the original one, or as its selector lookup left it. *)
Definition same_service (s0 s : ServiceEntryWrapper) : Prop :=
  s = s0 \/ s = snd (inboundEnvoyFilterWorkloadSelector s0).

Lemma same_service_spec s0 s :
  same_service s0 s ->
  se_Hosts (sew_Spec s) = se_Hosts (sew_Spec s0) /\ se_Addresses (sew_Spec s) = se_Addresses (sew_Spec s0) /\
  inboundEnvoyFilterWorkloadSelector s = inboundEnvoyFilterWorkloadSelector s0.
Proof.
  intros [->| ->]; [done|]. split_and!; [apply selector_hosts| |].
  - unfold inboundEnvoyFilterWorkloadSelector. by repeat case_match.
  - destruct (inboundEnvoyFilterWorkloadSelector s0) as [sel s'] eqn:E. by apply inbound_selector_idemp in E.
Qed.

(** The proxies depend on the hosts of the service entry only. *)
Lemma proxies_same context s port :
  se_Hosts (sew_Spec s) = se_Hosts (sew_Spec (ctx_ServiceEntry context)) ->
  outProxy (with_service context s) port = outProxy context port /\
  inProxy (with_service context s) port = inProxy context port.
Proof.
  intros Hh. unfold buildOutboundProxy, buildInboundProxy, buildInboundRouteConfig. simpl. rewrite Hh. done.
Qed.

Lemma sidecar_step_meta context h hs port fs s sel s1 :
  se_Hosts (sew_Spec (ctx_ServiceEntry context)) = h :: hs ->
  same_service (ctx_ServiceEntry context) s ->
  inboundEnvoyFilterWorkloadSelector (ctx_ServiceEntry context) = (sel, s1) ->
  IsMetaProtocol (GetLayer7ProtocolFromPortName protocolMap (sp_Name port)) = true ->
  port_ready context port ->
  exists fs', sidecar_step applicationProtocols protocolMap context (fs, s) port = Ret (Next (fs ++ fs', s1)) /\
    port_filters context h sel port fs'.
Proof.
  intros Hh Hs Es0 Em (Hnum & po & pi & fo & fi & Ho & Hi & Hfo & Hfi).
  destruct (same_service_spec _ _ Hs) as (Hhs & Has & Hsel).
  destruct (proxies_same context s port Hhs) as [Ho' Hi'].
  unfold sidecar_step. rewrite Em. cbn [negb]. rewrite Ho', Ho. cbn [mbind outcome_bind].
  rewrite Hi', Hi. cbn [mbind outcome_bind]. unfold GenerateReplaceNetworkFilter.
  rewrite (generateNetworkFilter_spec s port _ _ _ _ _ h hs (filter_value filterName filterType fo)
    (filter_value filterName filterType fi) sel s1); [|congruence|done|done|by apply generateValue_marshals..|congruence].
  cbn [mbind outcome_bind fst snd]. eexists. split; [done|]. exists po, pi, fo, fi. split_and!; [done..|].
  rewrite Has, hasInboundWorkloadSelector_spec, decide_bool_decide. by case_bool_decide.
Qed.

Lemma sidecar_loop context h hs ports fs s sel s1 :
  se_Hosts (sew_Spec (ctx_ServiceEntry context)) = h :: hs ->
  same_service (ctx_ServiceEntry context) s ->
  inboundEnvoyFilterWorkloadSelector (ctx_ServiceEntry context) = (sel, s1) ->
  Forall (port_ready context)
    (filter (fun port => IsMetaProtocol (GetLayer7ProtocolFromPortName protocolMap (sp_Name port))) ports) ->
  exists groups s',
    loop (sidecar_step applicationProtocols protocolMap context) ports (fs, s) = Ret (Next (fs ++ concat groups, s')) /\
    Forall2 (port_filters context h sel)
      (filter (fun port => IsMetaProtocol (GetLayer7ProtocolFromPortName protocolMap (sp_Name port))) ports) groups.
Proof.
  intros Hh Hs Es0. revert fs s Hs. induction ports as [|port ports IH]; intros fs s Hs Hready.
  { exists [], s. rewrite app_nil_r. split; [done|constructor]. }
  cbn [loop]. destruct (IsMetaProtocol (GetLayer7ProtocolFromPortName protocolMap (sp_Name port))) eqn:Em.
  - rewrite filter_cons_True in Hready |- * by (by rewrite Em). apply Forall_cons in Hready as [Hp Hready].
    destruct (sidecar_step_meta context h hs port fs s sel s1) as (fs1 & -> & Hn1); [done..|].
    cbn [mbind outcome_bind].
    destruct (IH (fs ++ fs1) s1) as (groups & s' & Hl & Hn); [right; by rewrite Es0|done|].
    exists (fs1 :: groups), s'. rewrite Hl, <- app_assoc. split; [done|]. by constructor.
  - assert (sidecar_step applicationProtocols protocolMap context (fs, s) port = Ret (Next (fs, s))) as ->
      by (unfold sidecar_step; by rewrite Em).
    cbn [mbind outcome_bind]. rewrite filter_cons_False in Hready |- * by (rewrite Em; intros []). by apply IH.
Qed.

Lemma outbound_name_inj h a p a' p' :
  0 <= p -> 0 <= p' -> outboundEnvoyFilterName h a p = outboundEnvoyFilterName h a' p' -> a = a' /\ p = p'.
Proof.
  unfold outboundEnvoyFilterName. intros Hp Hp' Heq. do 3 apply str_app_inv_head in Heq.
  apply (sep_inj_r a a' (Itoa p) (Itoa p') "-") in Heq as [-> Hi]; [|by apply Itoa_nonneg_free..].
  by apply Itoa_inj in Hi.
Qed.

Lemma inbound_name_inj h p p' : inboundEnvoyFilterName h p = inboundEnvoyFilterName h p' -> p = p'.
Proof.
  unfold inboundEnvoyFilterName. intros Heq. do 3 apply str_app_inv_head in Heq. by apply Itoa_inj.
Qed.

Lemma port_filter_names_spec h addrs b port n :
  n ∈ port_filter_names h addrs b port <->
  (exists a, a ∈ addrs /\ n = outboundEnvoyFilterName h a (sp_Number port)) \/
  (b = true /\ n = inboundEnvoyFilterName h (sp_Number port)).
Proof.
  unfold port_filter_names. rewrite elem_of_app, list_elem_of_fmap.
  destruct b; rewrite ?list_elem_of_singleton, ?elem_of_nil; naive_solver.
Qed.

Lemma port_filter_names_NoDup h addrs b ports :
  NoDup addrs -> NoDup (sp_Number <$> ports) -> Forall (fun p => 0 <= sp_Number p) ports ->
  NoDup (concat (port_filter_names h addrs b <$> ports)).
Proof.
  intros Ha. induction ports as [|port ports IH]; intros Hnd Hpos; [constructor|].
  rewrite fmap_cons in *. cbn [concat]. apply NoDup_cons in Hnd as [Hno Hnd]. apply Forall_cons in Hpos as [Hp Hpos].
  apply NoDup_app. split_and!; [| |by apply IH].
  - unfold port_filter_names. apply NoDup_app. split_and!.
    + apply NoDup_fmap_2_strong; [|done]. intros a a' _ _ Heq. by apply outbound_name_inj in Heq as [-> _].
    + intros n (a & -> & _)%list_elem_of_fmap. destruct b; [|by intros ?%elem_of_nil].
      by intros Heq%list_elem_of_singleton.
    + destruct b; [apply NoDup_singleton|constructor].
  - intros n Hn (l & Hl & (port' & -> & Hport')%list_elem_of_fmap)%elem_of_concat. apply Hno.
    rewrite Forall_forall in Hpos. specialize (Hpos port' Hport').
    enough (sp_Number port = sp_Number port') as -> by (by apply list_elem_of_fmap_2).
    apply port_filter_names_spec in Hn, Hl.
    destruct Hn as [(a & _ & ->)|[_ ->]], Hl as [(a' & _ & Heq)|[_ Heq]]; [|done|done|].
    + by apply outbound_name_inj in Heq as [_ ?].
    + by apply inbound_name_inj in Heq.
Qed.

Lemma groups_names context h sel ports groups :
  Forall2 (port_filters context h sel) ports groups ->
  efw_Name <$> concat groups =
    concat (port_filter_names h (se_Addresses (sew_Spec (ctx_ServiceEntry context)))
      (negb (bool_decide (default ∅ (ws_Labels sel) = ∅))) <$> ports).
Proof.
  induction 1 as [|port fs ports groups Hp _ IH]; [done|]. cbn [concat]. rewrite fmap_app, IH, fmap_cons.
  by rewrite (port_filters_names _ _ _ _ _ Hp).
Qed.

(** C9: For a sidecar context with a host whose MetaProtocol ports have proxies that can be
    built and have a JSON form, generation reports no error and gives, port by port in order,
    one EnvoyFilter per service address, in which the outbound proxy of the port replaces the
    TCP proxy of the listener of that address and port, then, when the workload selector has
    labels, one in which the inbound proxy replaces the TCP proxy of the inbound listener at
    the port for the selected workloads; ports of other protocols give none; with distinct
    addresses and port numbers all names differ. *)
Theorem sidecar_filters_complete context h hs :
  ctx_Gateway context = None ->
  se_Hosts (sew_Spec (ctx_ServiceEntry context)) = h :: hs ->
  Forall (port_ready context) (meta_service_ports (ctx_ServiceEntry context)) ->
  exists groups, Generate applicationProtocols protocolMap context = Ret (concat groups, None) /\
    Forall2 (port_filters context h (fst (inboundEnvoyFilterWorkloadSelector (ctx_ServiceEntry context))))
      (meta_service_ports (ctx_ServiceEntry context)) groups /\
    (NoDup (se_Addresses (sew_Spec (ctx_ServiceEntry context))) ->
     NoDup (sp_Number <$> meta_service_ports (ctx_ServiceEntry context)) -> NoDup (efw_Name <$> concat groups)).
Proof.
  intros Hgw Hh Hready. unfold Generate, generateSidecarEnvoyFilters. rewrite Hgw.
  destruct (inboundEnvoyFilterWorkloadSelector (ctx_ServiceEntry context)) as [sel s1] eqn:Es. cbn [fst].
  destruct (sidecar_loop context h hs (se_Ports (sew_Spec (ctx_ServiceEntry context))) [] (ctx_ServiceEntry context)
    sel s1) as (groups & s' & -> & Hg); [done|by left|done|done|].
  cbn [mbind outcome_bind]. exists groups. split; [done|]. split; [exact Hg|]. intros Ha Hnum.
  rewrite (groups_names _ _ _ _ _ Hg). apply port_filter_names_NoDup; [done..|].
  eapply Forall_impl; [exact Hready|]. by intros port [? _].
Qed.

(** C12: Proxy and route server agree: the route configuration an outbound proxy asks the
    route server for, for a MetaProtocol port of a service entry of the store, is among the
    configurations the server generates from that store, and it asks the cluster aeraki-xds. *)
Theorem rds_name_served oob c configs rs config context port proxy :
  outProxy context port = Ret (Ok proxy) ->
  generateMetaRoutes oob c configs = Ret rs -> config ∈ configs ->
  asServiceEntry (c_Spec config) = Some (sew_Spec (ctx_ServiceEntry context)) ->
  port ∈ se_Ports (sew_Spec (ctx_ServiceEntry context)) -> is_meta_port c port = true ->
  exists rc, rc ∈ rs /\ mpp_RouteSpecifier proxy = Rds (mrc_Name rc) "aeraki-xds".
Proof.
  intros Hproxy Hrs Hc Hse Hport Hmeta.
  unfold buildOutboundProxy in Hproxy. apply bind_Ret_inv in Hproxy as ([[ap codec]|e] & _ & Hproxy); [|done].
  apply bind_Ret_inv in Hproxy as (h & Hh & Hproxy).
  apply bind_Ret_inv in Hproxy as (t & _ & [= <-]). cbn [mpp_RouteSpecifier].
  unfold index in Hh.
  destruct (se_Hosts (sew_Spec (ctx_ServiceEntry context))) as [|h' hs] eqn:Eh; [done|]. injection Hh as ->.
  apply generateMetaRoutes_names in Hrs.
  assert (BuildMetaProtocolRouteName h (sp_Number port) ∈ mrc_Name <$> rs) as (rc & -> & Hin)%list_elem_of_fmap.
  { rewrite Hrs. apply (list_elem_of_fmap_2' _ _ (h, sp_Number port)); [|done].
    apply elem_of_concat. exists (meta_ports c config). split; [|by apply list_elem_of_fmap_2].
    unfold meta_ports. rewrite Hse, Eh.
    apply (list_elem_of_fmap_2 (fun port => (h, sp_Number port))), list_elem_of_filter. by rewrite Hmeta. }
  by exists rc.
Qed.
End sidecar_properties.

(** ** Concrete runs *)
Section demo.
#[local] Existing Instance canonical_range.
#[local] Existing Instance istio_subset_key.
#[local] Existing Instance demo_env.
#[local] Existing Instance demo_well_known.
#[local] Existing Instance demo_json_struct.

Definition demo_proxy_json : ProtoJSON MetaProtocolProxy := fun m =>
  match m with Message p => Ok ("{" +:+ mpp_StatPrefix p +:+ "}") | NilPointer => Ok "{}" | NilInterface => Err "nil" end.
#[local] Existing Instance demo_proxy_json.
Definition demo_log_parser : LogFormatParser := fun s => Err ("not json: " +:+ s).
#[local] Existing Instance demo_log_parser.

Definition demo_limit (timeout : option Duration) : GlobalRateLimit :=
  {| grl_Match := None; grl_Domain := "d"; grl_RequestTimeout := timeout; grl_DenyOnFail := false;
     grl_RateLimitService := "rls"; grl_Descriptors := [{| gd_Property := "p"; gd_DescriptorKey := "k" |}] |}.
Definition demo_limited (timeout : option Duration) : MetaRouter :=
  {| mtr_Name := "r"; mtr_Namespace := "ns";
     mtr_Spec := {| mrs_Hosts := ["b.ns.svc.cluster.local"]; mrs_Gateways := []; mrs_Routes := [];
       mrs_LocalRateLimit := Some {| lrl_TokenBucket := Some {| tb_MaxTokens := 5; tb_TokensPerFill := Some 2;
           tb_FillInterval := Some {| Seconds := 1; Nanos := 0 |} |}; lrl_Conditions := [] |};
       mrs_GlobalRateLimit := Some (demo_limit timeout); mrs_ExportTo := [] |} |}.

Definition demo_timely : MetaRouter := demo_limited (Some {| Seconds := 1; Nanos := 0 |}).

(** With a timeout both limits are there; without one the check accepts the router too, and
    the generation panics. *)
Lemma inbound_filter_chain_witness :
  (exists local global, (exists rest, buildInboundFilters (Some demo_timely) "h" = Ret (Ok (local ++ global ++ rest))) /\
     filters_for (local_asked "b.ns.svc.cluster.local") (local_limit (Some demo_timely)) local /\
     filters_for global_asked (global_limit (Some demo_timely)) global) /\
  panics (buildInboundFilters (Some (demo_limited None)) "h") = true.
Proof.
  split.
  - destruct (inbound_filter_chain "ns" (Some demo_timely) "h") as (local & global & Hb & Hl & Hg).
    + intros m [= <-]. vm_compute. reflexivity.
    + exists local, global. split; [eexists; exact Hb|]. split; [exact Hl|exact Hg].
  - apply (inbound_filter_chain "ns" (Some (demo_limited None)) "h"). intros m [= <-]. vm_compute. reflexivity.
Defined.

Example inbound_chain_example :
  match buildInboundFilters (Some (demo_limited (Some {| Seconds := 1; Nanos := 0 |}))) "h" with
  | Ret (Ok fs) => mpf_Name <$> fs =
      ["aeraki.meta_protocol.filters.local_ratelimit"; "aeraki.meta_protocol.filters.ratelimit";
       "aeraki.meta_protocol.filters.metadata_exchange"; "aeraki.meta_protocol.filters.istio_stats";
       "aeraki.meta_protocol.filters.router"]
  | _ => False
  end.
Proof. vm_compute. reflexivity. Qed.

Definition demo_context (gateway : option GatewayWrapper) (service : ServiceEntryWrapper) : EnvoyFilterContext :=
  {| ctx_MeshConfig := {| mesh_AccessLogFile := "/dev/stdout"; mesh_AccessLogFormat := "";
       mesh_AccessLogEncoding := TEXT; mesh_EnableTracing := false; mesh_DefaultConfig := None |};
     ctx_Gateway := gateway; ctx_ServiceEntry := service; ctx_VirtualService := None; ctx_MetaRouter := None |}.
Definition demo_gw : GatewayWrapper :=
  {| gww_Meta := {| m_GroupVersionKind := GvkGateway; m_Name := "gw"; m_Namespace := "ns";
                    m_Labels := ∅; m_Annotations := ∅ |};
     gww_Spec := {| gw_Servers :=
       [{| srv_Port := Some {| p_Number := 80; p_Protocol := "tcp"; p_Name := "tcp-metaprotocol-dubbo" |};
           srv_Name := "a" |};
        {| srv_Port := Some {| p_Number := 81; p_Protocol := "tcp"; p_Name := "tcp-metaprotocol-thrift" |};
           srv_Name := "b" |}]; gw_Selector := {["app" := "gw"]} |} |}.

(** Two servers, two filters, one name. *)
Lemma gateway_filters_share_name_witness :
  match Generate applicationProtocols_init protocolMap_init (demo_context (Some demo_gw) NetworkFilter.demo_service) with
  | Ret (fs, _) => length fs = 4%nat /\ exists name, Forall (fun w => efw_Name w = name) fs
  | Panic _ => False
  end.
Proof.
  destruct (Generate applicationProtocols_init protocolMap_init (demo_context (Some demo_gw) NetworkFilter.demo_service))
    as [[fs e]|w] eqn:E.
  - assert (Hne : fs <> []) by (vm_compute in E; injection E as <- _; discriminate).
    destruct (gateway_filters_share_name applicationProtocols_init protocolMap_init
      (demo_context (Some demo_gw) NetworkFilter.demo_service) demo_gw fs e eq_refl E Hne) as (port & _ & Hname).
    split.
    + vm_compute in E. injection E as <- _. reflexivity.
    + exists (gateway_filter_name demo_gw (trans2Port port)).
      eapply Forall_impl; [exact Hname|]. intros x [Hx _]. exact Hx.
  - vm_compute in E. discriminate E.
Defined.

Definition demo_sidecar : EnvoyFilterContext := demo_context None NetworkFilter.demo_service.

Lemma sidecar_filters_complete_witness :
  exists groups, Generate applicationProtocols_init protocolMap_init demo_sidecar = Ret (concat groups, None) /\
    Forall2 (port_filters applicationProtocols_init demo_sidecar "demo.svc" {| ws_Labels := Some {["app" := "demo"]} |})
      [NetworkFilter.demo_port] groups.
Proof.
  destruct (sidecar_filters_complete applicationProtocols_init protocolMap_init demo_sidecar "demo.svc" [])
    as (groups & Hg & Hn & _); [reflexivity|reflexivity| |].
  - assert (meta_service_ports protocolMap_init (ctx_ServiceEntry demo_sidecar) = [NetworkFilter.demo_port]) as ->
      by (vm_compute; reflexivity).
    apply Forall_singleton. split; [discriminate|].
    do 4 eexists. split; [vm_compute; reflexivity|]. split; [vm_compute; reflexivity|].
    split; eexists; (split; vm_compute; reflexivity).
  - exists groups. split; [exact Hg|]. exact Hn.
Defined.

Definition demo_rds_mgr : CacheMgr :=
  {| cm_metaRouters := Ok []; cm_configStore := {| store_List := fun _ _ => [] |};
     cm_protocolMap := protocolMap_init |}.
Definition demo_rds_config : Config :=
  {| c_Meta := zeroMeta; c_Spec := SpecServiceEntry (sew_Spec NetworkFilter.demo_service) |}.

Lemma rds_name_served_witness :
  exists proxy rc, buildOutboundProxy applicationProtocols_init demo_sidecar NetworkFilter.demo_port = Ret (Ok proxy) /\
    mpp_RouteSpecifier proxy = Rds (mrc_Name rc) "aeraki-xds".
Proof.
  destruct (buildOutboundProxy applicationProtocols_init demo_sidecar NetworkFilter.demo_port)
    as [[proxy|e]|w] eqn:E; [|vm_compute in E; discriminate E..].
  destruct (generateMetaRoutes 0 demo_rds_mgr [demo_rds_config]) as [rs|w] eqn:Er;
    [|vm_compute in Er; discriminate Er].
  destruct (rds_name_served applicationProtocols_init 0 demo_rds_mgr [demo_rds_config] rs demo_rds_config
    demo_sidecar NetworkFilter.demo_port proxy E Er) as (rc & _ & Hrc);
    [apply list_elem_of_here|reflexivity|apply list_elem_of_here|reflexivity|].
  exists proxy, rc. split; [reflexivity|exact Hrc].
Defined.
End demo.
