(* ===== verification/Authz.v ===== *)
(** * Dubbo authorization

    [src/internal/plugin/dubbo/authz]: from DubboAuthorizationPolicy resources to Envoy
    RBAC filters ([matcher/string.go], [matcher/metadata.go], [matcher/header.go],
    [model/*.go], [builder/builder.go]).

    Parameters: Istio's SPIFFE prefix and trust domain bundle ([AuthzEnv]); the meaning
    of regular expressions, used by the semantics of Envoy's matchers only. *)

From S2P Require Import Prelude Api.

Class AuthzEnv := {
  spiffe_URIPrefix : string;
  ReplaceTrustDomainAliases : list string -> list string }.

(** ** matcher *)
Inductive StringMatcher_ :=
| SM_Exact (s : string)
| SM_Prefix (s : string)
| SM_Suffix (s : string)
| SM_SafeRegex (re : string).

Definition StringMatcherRegex (regex : string) : StringMatcher_ := SM_SafeRegex regex.

Definition StringMatcherWithPrefix (v prefix : string) : StringMatcher_ :=
  if String.eqb v "*" then StringMatcherRegex ".+"
  else if HasPrefix v "*" then
    if String.eqb prefix "" then SM_Suffix (TrimPrefix v "*")
    else StringMatcherRegex (prefix +:+ ".*" +:+ TrimPrefix v "*")
  else if HasSuffix v "*" then SM_Prefix (prefix +:+ TrimSuffix v "*")
  else SM_Exact (prefix +:+ v).

Definition StringMatcher (v : string) : StringMatcher_ := StringMatcherWithPrefix v "".

Record MetadataMatcher := { mm_Filter : string; mm_Path : list string; mm_Value : StringMatcher_ }.
Definition MetadataStringMatcher (filter key : string) (m : StringMatcher_) : MetadataMatcher :=
  {| mm_Filter := filter; mm_Path := [key]; mm_Value := m |}.

Definition HeaderMatcher (k v : string) : Api.HeaderMatcher :=
  if String.eqb v "*" then {| hdr_Name := k; hdr_Specifier := PresentMatch true; hdr_InvertMatch := false |}
  else if HasPrefix v "*" then {| hdr_Name := k; hdr_Specifier := SuffixMatch (drop_str 1 v); hdr_InvertMatch := false |}
  else if HasSuffix v "*"
       then {| hdr_Name := k; hdr_Specifier := PrefixMatch (take_str (String.length v - 1) v); hdr_InvertMatch := false |}
  else {| hdr_Name := k; hdr_Specifier := ExactMatch v; hdr_InvertMatch := false |}.

(** ** RBAC messages *)
Inductive RBAC_Action := RBAC_ALLOW | RBAC_DENY.

Inductive Permission :=
| Permission_Any
| Permission_AndRules (rules : list Permission)
| Permission_OrRules (rules : list Permission)
| Permission_NotRule (p : Permission)
| Permission_Metadata (m : MetadataMatcher).

Inductive Principal :=
| Principal_Any
| Principal_AndIds (ids : list Principal)
| Principal_OrIds (ids : list Principal)
| Principal_NotId (p : Principal)
| Principal_Authenticated (name : StringMatcher_).

Record Policy := { pol_Permissions : list Permission; pol_Principals : list Principal }.
Record RBAC := { rbac_Action : RBAC_Action; rbac_Policies : gmap string Policy }.

(** ** The resource *)
Record Source := {
  src_Namespaces : list string; src_NotNamespaces : list string;
  src_Principals : list string; src_NotPrincipals : list string }.
Record Operation := {
  op_Interfaces : list string; op_NotInterfaces : list string;
  op_Methods : list string; op_NotMethods : list string }.
Record Rule := { rule_From : list (option Source); rule_To : list (option Operation) }.
Inductive PolicyAction := ALLOW | DENY | OtherAction.
Record DubboAuthorizationPolicy := {
  dap_Name : string; dap_Namespace : string; dap_Action : PolicyAction; dap_Rules : list (option Rule) }.

(** ** model *)
Inductive generator := interfaceGenerator | methodGenerator | srcNamespaceGenerator | srcPrincipalGenerator.

Record rule := { r_key : string; r_values : list string; r_notValues : list string; r_g : generator }.
Abbreviation ruleList := (list rule).
Record Model_ := { permissions : list ruleList; principals : list ruleList }.

Definition attrSrcNamespace : string := "source.namespace".
Definition attrSrcPrincipal : string := "source.principal".
Definition dubboInterface : string := "dubboInterface".
Definition dubboMethod : string := "dubboMethod".
Definition RBACDUBBOFilterName : string := "envoy.filters.dubbo.rbac".
Definition RBACDubboFilterStatPrefix : string := "dubbo.".

Definition insertFront (g : generator) (key : string) (values notValues : list string) (p : ruleList) : ruleList :=
  match values, notValues with
  | [], [] => p
  | _, _ => {| r_key := key; r_values := values; r_notValues := notValues; r_g := g |} :: p
  end.

Definition source_rules (from : option Source) : ruleList :=
  match from with
  | None => []
  | Some s =>
      insertFront srcPrincipalGenerator attrSrcPrincipal (src_Principals s) (src_NotPrincipals s)
        (insertFront srcNamespaceGenerator attrSrcNamespace (src_Namespaces s) (src_NotNamespaces s) [])
  end.

Definition operation_rules (to : option Operation) : ruleList :=
  match to with
  | None => []
  | Some o =>
      insertFront methodGenerator dubboMethod (op_Methods o) (op_NotMethods o)
        (insertFront interfaceGenerator dubboInterface (op_Interfaces o) (op_NotInterfaces o) [])
  end.

(** [authzmodel.New]. *)
Definition New (r : Rule) : Model_ :=
  {| principals := match rule_From r with [] => [[]] | from => source_rules <$> from end;
     permissions := match rule_To r with [] => [[]] | to => operation_rules <$> to end |}.

Section authz.
Context `{AuthzEnv}.

Definition migrate_rule (r : rule) : rule :=
  if String.eqb (r_key r) attrSrcPrincipal then
    {| r_key := r_key r;
       r_values := match r_values r with [] => [] | vs => ReplaceTrustDomainAliases vs end;
       r_notValues := match r_notValues r with [] => [] | vs => ReplaceTrustDomainAliases vs end;
       r_g := r_g r |}
  else r.

Definition MigrateTrustDomain (m : Model_) : Model_ :=
  {| permissions := permissions m; principals := (fun p : list rule => migrate_rule <$> p) <$> principals m |}.

(** The generator interface. *)
Definition g_permission (g : generator) (key value : string) : res Permission :=
  match g with
  | interfaceGenerator =>
      Ok (Permission_Metadata (MetadataStringMatcher "envoy.filters.dubbo.rbac" "service" (StringMatcher value)))
  | methodGenerator =>
      Ok (Permission_Metadata (MetadataStringMatcher "envoy.filters.dubbo.rbac" "method" (StringMatcher value)))
  | _ => Err "unimplemented"
  end.

Definition g_principal (g : generator) (key value : string) : res Principal :=
  match g with
  | srcNamespaceGenerator =>
      let v := ReplaceAll value "*" ".*" in
      Ok (Principal_Authenticated (StringMatcherRegex (".*/ns/" +:+ v +:+ "/.*")))
  | srcPrincipalGenerator =>
      Ok (Principal_Authenticated (StringMatcherWithPrefix value spiffe_URIPrefix))
  | _ => Err "unimplemented"
  end.

(** One of the two loops of [rule.permission] and [rule.principal]: an error ends an
    allow rule and is skipped in a deny rule. *)
Fixpoint generate_values {P} (gen : string -> res P) (action : RBAC_Action) (values : list string)
    : res (list P) :=
  match values with
  | [] => Ok []
  | value :: rest =>
      match gen value, action with
      | Err e, RBAC_ALLOW => Err e
      | Err _, RBAC_DENY => generate_values gen action rest
      | Ok p, _ => match generate_values gen action rest with
                   | Ok ps => Ok (p :: ps)
                   | Err e => Err e
                   end
      end
  end.

Definition rule_permission (r : rule) (action : RBAC_Action) : res (list Permission) :=
  match generate_values (g_permission (r_g r) (r_key r)) action (r_values r) with
  | Err e => Err e
  | Ok or =>
      match generate_values (g_permission (r_g r) (r_key r)) action (r_notValues r) with
      | Err e => Err e
      | Ok nor =>
          Ok (match or with [] => [] | _ => [Permission_OrRules or] end ++
              match nor with [] => [] | _ => [Permission_NotRule (Permission_OrRules nor)] end)
      end
  end.

Definition rule_principal (r : rule) (action : RBAC_Action) : res (list Principal) :=
  match generate_values (g_principal (r_g r) (r_key r)) action (r_values r) with
  | Err e => Err e
  | Ok or =>
      match generate_values (g_principal (r_g r) (r_key r)) action (r_notValues r) with
      | Err e => Err e
      | Ok nor =>
          Ok (match or with [] => [] | _ => [Principal_OrIds or] end ++
              match nor with [] => [] | _ => [Principal_NotId (Principal_OrIds nor)] end)
      end
  end.

Fixpoint collect {A P} (f : A -> res (list P)) (l : list A) : res (list P) :=
  match l with
  | [] => Ok []
  | a :: rest => match f a with
                 | Err e => Err e
                 | Ok ps => match collect f rest with Ok qs => Ok (ps ++ qs) | Err e => Err e end
                 end
  end.

Definition generatePermission (rl : ruleList) (action : RBAC_Action) : res Permission :=
  match collect (fun r => rule_permission r action) rl with
  | Err e => Err e
  | Ok and => Ok (Permission_AndRules (match and with [] => [Permission_Any] | _ => and end))
  end.

Definition generatePrincipal (rl : ruleList) (action : RBAC_Action) : res Principal :=
  match collect (fun r => rule_principal r action) rl with
  | Err e => Err e
  | Ok and => Ok (Principal_AndIds (match and with [] => [Principal_Any] | _ => and end))
  end.

Definition Generate (m : Model_) (action : RBAC_Action) : res Policy :=
  match collect (fun rl => match generatePermission rl action with Ok p => Ok [p] | Err e => Err e end)
          (permissions m) with
  | Err e => Err e
  | Ok [] => Err "must have at least 1 permission"
  | Ok perms =>
      match collect (fun rl => match generatePrincipal rl action with Ok p => Ok [p] | Err e => Err e end)
              (principals m) with
      | Err e => Err e
      | Ok [] => Err "must have at least 1 principal"
      | Ok prins => Ok {| pol_Permissions := perms; pol_Principals := prins |}
      end
  end.

(** ** builder *)
Record Builder := { denyPolicies : list DubboAuthorizationPolicy; allowPolicies : list DubboAuthorizationPolicy }.

Definition NewBuilder (listed : res (list DubboAuthorizationPolicy)) : Builder :=
  match listed with
  | Err _ => {| denyPolicies := []; allowPolicies := [] |}
  | Ok items =>
      foldl (fun b config =>
        match dap_Action config with
        | ALLOW => {| denyPolicies := denyPolicies b; allowPolicies := allowPolicies b ++ [config] |}
        | DENY => {| denyPolicies := denyPolicies b ++ [config]; allowPolicies := allowPolicies b |}
        | OtherAction => b
        end) {| denyPolicies := []; allowPolicies := [] |} items
  end.

Definition policy_name (p : DubboAuthorizationPolicy) (i : nat) : string :=
  "ns[" +:+ dap_Namespace p +:+ "]-policy[" +:+ dap_Name p +:+ "]-rule[" +:+ Itoa (Z.of_nat i) +:+ "]".

(** The inner loop. Its index [i] hides the index of the policy, so that the name is
    made from the policy at the rule's position. *)
Fixpoint build_rules (policies : list DubboAuthorizationPolicy) (action : RBAC_Action) (i : nat)
    (rules : list (option Rule)) (m : gmap string Policy) : outcome (gmap string Policy) :=
  match rules with
  | [] => Ret m
  | r :: rest =>
      p ← index policies i;
      let name := policy_name p i in
      let m' := match r with
                | None => m
                | Some r =>
                    match Generate (MigrateTrustDomain (New r)) action with
                    | Err _ => m
                    | Ok generated => <[name := generated]> m
                    end
                end in
      build_rules policies action (S i) rest m'
  end.

Definition build (policies : list DubboAuthorizationPolicy) (action : RBAC_Action) : outcome (option RBAC) :=
  match policies with
  | [] => Ret None
  | _ =>
      m ← for_each (fun m p => build_rules policies action 0 (dap_Rules p) m) policies ∅;
      Ret (Some {| rbac_Action := action; rbac_Policies := m |})
  end.

Record DubboFilter := { df_Name : string; df_Config : option (RBAC * string) }.

Definition createDubboRBACFilter (config : RBAC) : DubboFilter :=
  {| df_Name := RBACDUBBOFilterName; df_Config := Some (config, RBACDubboFilterStatPrefix) |}.

Definition BuildDubboFilter (b : Builder) : outcome (list DubboFilter) :=
  denyConfig ← build (denyPolicies b) RBAC_DENY;
  allowConfig ← build (allowPolicies b) RBAC_ALLOW;
  Ret (match denyConfig with Some c => [createDubboRBACFilter c] | None => [] end ++
       match allowConfig with Some c => [createDubboRBACFilter c] | None => [] end).
End authz.

(** ** Semantics

    The meaning Envoy documents for the generated messages, on a request with its Dubbo
    service and method and the authenticated identity of its peer. *)
Section semantics.
Context (regex_match : string -> string -> bool).

Record request := { rq_service : string; rq_method : string; rq_principal : string }.

Definition sm_matches (m : StringMatcher_) (s : string) : bool :=
  match m with
  | SM_Exact x => String.eqb s x
  | SM_Prefix x => HasPrefix s x
  | SM_Suffix x => HasSuffix s x
  | SM_SafeRegex re => regex_match re s
  end.

Definition metadata_matches (rq : request) (m : MetadataMatcher) : bool :=
  String.eqb (mm_Filter m) "envoy.filters.dubbo.rbac" &&
  match mm_Path m with
  | [key] => if String.eqb key "service" then sm_matches (mm_Value m) (rq_service rq)
             else if String.eqb key "method" then sm_matches (mm_Value m) (rq_method rq)
             else false
  | _ => false
  end.

Fixpoint perm_matches (rq : request) (p : Permission) : bool :=
  match p with
  | Permission_Any => true
  | Permission_AndRules l => forallb (perm_matches rq) l
  | Permission_OrRules l => existsb (perm_matches rq) l
  | Permission_NotRule p => negb (perm_matches rq p)
  | Permission_Metadata m => metadata_matches rq m
  end.

Fixpoint prin_matches (rq : request) (p : Principal) : bool :=
  match p with
  | Principal_Any => true
  | Principal_AndIds l => forallb (prin_matches rq) l
  | Principal_OrIds l => existsb (prin_matches rq) l
  | Principal_NotId p => negb (prin_matches rq p)
  | Principal_Authenticated m => sm_matches m (rq_principal rq)
  end.

Definition policy_matches (rq : request) (pol : Policy) : bool :=
  existsb (perm_matches rq) (pol_Permissions pol) && existsb (prin_matches rq) (pol_Principals pol).

(** *** What a rule of the resource means *)
Section meaning.
Context `{AuthzEnv}.

(** Some positive value matches, if there are any, and no negative one does. *)
Definition values_mean (ok : string -> bool) (values notValues : list string) : bool :=
  (match values with [] => true | _ => existsb ok values end) && negb (existsb ok notValues).

Definition aliased (values : list string) : list string :=
  match values with [] => [] | _ => ReplaceTrustDomainAliases values end.

Definition namespace_ok (rq : request) (v : string) : bool :=
  regex_match (".*/ns/" +:+ ReplaceAll v "*" ".*" +:+ "/.*") (rq_principal rq).
Definition principal_ok (rq : request) (v : string) : bool :=
  sm_matches (StringMatcherWithPrefix v spiffe_URIPrefix) (rq_principal rq).

Definition source_means (rq : request) (from : option Source) : bool :=
  match from with
  | None => true
  | Some s => values_mean (namespace_ok rq) (src_Namespaces s) (src_NotNamespaces s) &&
              values_mean (principal_ok rq) (aliased (src_Principals s)) (aliased (src_NotPrincipals s))
  end.

Definition operation_means (rq : request) (to : option Operation) : bool :=
  match to with
  | None => true
  | Some o => values_mean (fun v => sm_matches (StringMatcher v) (rq_service rq)) (op_Interfaces o) (op_NotInterfaces o) &&
              values_mean (fun v => sm_matches (StringMatcher v) (rq_method rq)) (op_Methods o) (op_NotMethods o)
  end.

Definition rule_means (rq : request) (r : Rule) : bool :=
  (match rule_From r with [] => true | from => existsb (source_means rq) from end) &&
  (match rule_To r with [] => true | to => existsb (operation_means rq) to end).

(** *** Generation never fails for a model made from a rule *)
Lemma generate_values_ok {P} (gen : string -> res P) (f : string -> P) action vs :
  (forall v, gen v = Ok (f v)) -> generate_values gen action vs = Ok (f <$> vs).
Proof.
  intros Hg. induction vs as [|v vs IH]; [done|]. cbn [generate_values]. rewrite Hg, IH. by destruct action.
Qed.

Lemma collect_ok {A P} (f : A -> res (list P)) (g : A -> list P) l :
  (forall a, a ∈ l -> f a = Ok (g a)) -> collect f l = Ok (concat (g <$> l)).
Proof.
  induction l as [|a l IH]; intros Hf; [done|]. cbn [collect]. rewrite Hf by (by left).
  rewrite IH by (intros; apply Hf; by right). done.
Qed.

Definition permission_of (g : generator) (v : string) : Permission :=
  match g with
  | interfaceGenerator =>
      Permission_Metadata (MetadataStringMatcher "envoy.filters.dubbo.rbac" "service" (StringMatcher v))
  | _ => Permission_Metadata (MetadataStringMatcher "envoy.filters.dubbo.rbac" "method" (StringMatcher v))
  end.
Definition principal_of (g : generator) (v : string) : Principal :=
  match g with
  | srcNamespaceGenerator =>
      Principal_Authenticated (StringMatcherRegex (".*/ns/" +:+ ReplaceAll v "*" ".*" +:+ "/.*"))
  | _ => Principal_Authenticated (StringMatcherWithPrefix v spiffe_URIPrefix)
  end.

Definition is_operation (g : generator) : bool :=
  match g with interfaceGenerator | methodGenerator => true | _ => false end.

Definition perms_of (r : rule) : list Permission :=
  match permission_of (r_g r) <$> r_values r with [] => [] | l => [Permission_OrRules l] end ++
  match permission_of (r_g r) <$> r_notValues r with [] => [] | l => [Permission_NotRule (Permission_OrRules l)] end.
Definition prins_of (r : rule) : list Principal :=
  match principal_of (r_g r) <$> r_values r with [] => [] | l => [Principal_OrIds l] end ++
  match principal_of (r_g r) <$> r_notValues r with [] => [] | l => [Principal_NotId (Principal_OrIds l)] end.

Lemma g_permission_ok g k v : is_operation g = true -> g_permission g k v = Ok (permission_of g v).
Proof. by destruct g. Qed.
Lemma g_principal_ok g k v : is_operation g = false -> g_principal g k v = Ok (principal_of g v).
Proof. by destruct g. Qed.

Lemma rule_permission_ok r action : is_operation (r_g r) = true -> rule_permission r action = Ok (perms_of r).
Proof.
  intros Hg. unfold rule_permission, perms_of.
  rewrite !(generate_values_ok _ (permission_of (r_g r))) by (intros; by apply g_permission_ok).
  by destruct (r_values r), (r_notValues r).
Qed.

Lemma rule_principal_ok r action : is_operation (r_g r) = false -> rule_principal r action = Ok (prins_of r).
Proof.
  intros Hg. unfold rule_principal, prins_of.
  rewrite !(generate_values_ok _ (principal_of (r_g r))) by (intros; by apply g_principal_ok).
  by destruct (r_values r), (r_notValues r).
Qed.

Lemma existsb_fmap {A B} (f : B -> bool) (g : A -> B) l : existsb f (g <$> l) = existsb (fun a => f (g a)) l.
Proof. induction l as [|a l IH]; [done|]. rewrite fmap_cons. cbn [existsb]. by rewrite IH. Qed.

(** The meaning of one generated rule. *)
Lemma perms_of_means rq r ok :
  (forall v, perm_matches rq (permission_of (r_g r) v) = ok v) ->
  forallb (perm_matches rq) (perms_of r) = values_mean ok (r_values r) (r_notValues r).
Proof.
  intros Hok. unfold perms_of, values_mean. rewrite forallb_app.
  assert (Hex : forall l, existsb (perm_matches rq) (permission_of (r_g r) <$> l) = existsb ok l).
  { intros l. rewrite existsb_fmap. induction l as [|v l IH]; [done|]. cbn [existsb]. by rewrite Hok, IH. }
  f_equal.
  - destruct (r_values r) as [|v vs]; [done|]. rewrite fmap_cons. cbn [forallb perm_matches].
    rewrite <- fmap_cons, Hex. apply andb_true_r.
  - destruct (r_notValues r) as [|v vs]; [done|]. rewrite fmap_cons. cbn [forallb perm_matches].
    rewrite <- fmap_cons, Hex. apply andb_true_r.
Qed.

Lemma prins_of_means rq r ok :
  (forall v, prin_matches rq (principal_of (r_g r) v) = ok v) ->
  forallb (prin_matches rq) (prins_of r) = values_mean ok (r_values r) (r_notValues r).
Proof.
  intros Hok. unfold prins_of, values_mean. rewrite forallb_app.
  assert (Hex : forall l, existsb (prin_matches rq) (principal_of (r_g r) <$> l) = existsb ok l).
  { intros l. rewrite existsb_fmap. induction l as [|v l IH]; [done|]. cbn [existsb]. by rewrite Hok, IH. }
  f_equal.
  - destruct (r_values r) as [|v vs]; [done|]. rewrite fmap_cons. cbn [forallb prin_matches].
    rewrite <- fmap_cons, Hex. apply andb_true_r.
  - destruct (r_notValues r) as [|v vs]; [done|]. rewrite fmap_cons. cbn [forallb prin_matches].
    rewrite <- fmap_cons, Hex. apply andb_true_r.
Qed.

Lemma insertFront_forallb (f : rule -> bool) g key vs nvs p :
  f {| r_key := key; r_values := []; r_notValues := []; r_g := g |} = true ->
  forallb f (insertFront g key vs nvs p) =
  f {| r_key := key; r_values := vs; r_notValues := nvs; r_g := g |} && forallb f p.
Proof. intros He. destruct vs, nvs; simpl; [by rewrite He|done..]. Qed.

Lemma forallb_concat {A B} (f : B -> bool) (g : A -> list B) l :
  forallb f (concat (g <$> l)) = forallb (fun a => forallb f (g a)) l.
Proof. induction l as [|a l IH]; [done|]. rewrite fmap_cons. cbn [concat forallb]. by rewrite forallb_app, IH. Qed.

Lemma forallb_fmap {A B} (f : B -> bool) (g : A -> B) l : forallb f (g <$> l) = forallb (fun a => f (g a)) l.
Proof. induction l as [|a l IH]; [done|]. rewrite fmap_cons. cbn [forallb]. by rewrite IH. Qed.

Lemma generatePermission_ok rl action rq :
  (forall r, r ∈ rl -> is_operation (r_g r) = true) ->
  exists p, generatePermission rl action = Ok p /\
    perm_matches rq p = forallb (fun r => forallb (perm_matches rq) (perms_of r)) rl.
Proof.
  intros Hop. unfold generatePermission.
  rewrite (collect_ok _ perms_of) by (intros; apply rule_permission_ok; auto).
  eexists. split; [done|]. cbn [perm_matches]. rewrite <- forallb_concat. by destruct (concat _).
Qed.

Lemma generatePrincipal_ok rl action rq :
  (forall r, r ∈ rl -> is_operation (r_g r) = false) ->
  exists p, generatePrincipal rl action = Ok p /\
    prin_matches rq p = forallb (fun r => forallb (prin_matches rq) (prins_of r)) rl.
Proof.
  intros Hop. unfold generatePrincipal.
  rewrite (collect_ok _ prins_of) by (intros; apply rule_principal_ok; auto).
  eexists. split; [done|]. cbn [prin_matches]. rewrite <- forallb_concat. by destruct (concat _).
Qed.

Lemma operation_rules_mean rq o action :
  exists p, generatePermission (operation_rules o) action = Ok p /\ perm_matches rq p = operation_means rq o.
Proof.
  destruct (generatePermission_ok (operation_rules o) action rq) as (p & Hp & Hm).
  { destruct o as [[[] [] [] []]|]; simpl; intros r Hr; repeat setoid_rewrite elem_of_cons in Hr;
      rewrite ?elem_of_nil in Hr; destruct_or?; by subst. }
  exists p. split; [done|]. rewrite Hm. destruct o as [o|]; [|done]. unfold operation_rules, operation_means.
  rewrite !insertFront_forallb by done. cbn [forallb].
  rewrite (perms_of_means rq _ (fun v => sm_matches (StringMatcher v) (rq_method rq))) by done.
  rewrite (perms_of_means rq _ (fun v => sm_matches (StringMatcher v) (rq_service rq))) by done.
  cbn [r_values r_notValues]. rewrite andb_true_r. apply andb_comm.
Qed.

Lemma source_rules_mean rq o action :
  exists p, generatePrincipal (migrate_rule <$> source_rules o) action = Ok p /\
    prin_matches rq p = source_means rq o.
Proof.
  destruct (generatePrincipal_ok (migrate_rule <$> source_rules o) action rq) as (p & Hp & Hm).
  { intros r (r' & -> & Hr)%list_elem_of_fmap.
    assert (is_operation (r_g r') = false) as Hg.
    { destruct o as [[[] [] [] []]|]; simpl in Hr; repeat setoid_rewrite elem_of_cons in Hr;
        rewrite ?elem_of_nil in Hr; destruct_or?; by subst. }
    unfold migrate_rule. by destruct (String.eqb _ _). }
  exists p. split; [done|]. rewrite Hm, forallb_fmap. destruct o as [s|]; [|done].
  unfold source_rules, source_means. rewrite !insertFront_forallb by done. cbn [forallb].
  rewrite (prins_of_means rq _ (principal_ok rq)) by done.
  rewrite (prins_of_means rq _ (namespace_ok rq)) by done.
  rewrite andb_true_r, andb_comm. by destruct (src_Principals s), (src_NotPrincipals s).
Qed.

Lemma collect_each {A P} (f : A -> res P) (mt : P -> bool) (mean : A -> bool) l :
  (forall a, exists p, f a = Ok p /\ mt p = mean a) ->
  exists ps, collect (fun a => match f a with Ok p => Ok [p] | Err e => Err e end) l = Ok ps /\
    length ps = length l /\ existsb mt ps = existsb mean l.
Proof.
  intros Hf. induction l as [|a l (ps & Hps & Hlen & Hex)]; [by exists []|].
  destruct (Hf a) as (p & Hp & Hm). exists (p :: ps). cbn [collect]. rewrite Hp, Hps.
  split; [done|]. cbn [length existsb]. by rewrite Hlen, Hm, Hex.
Qed.

Lemma generate_rule r action rq :
  exists pol, Generate (MigrateTrustDomain (New r)) action = Ok pol /\
    policy_matches rq pol = rule_means rq r.
Proof.
  unfold Generate, MigrateTrustDomain, New. cbn [permissions principals].
  set (to := match rule_To r with [] => [[]] | to => operation_rules <$> to end).
  set (from := match rule_From r with [] => [[]] | from => source_rules <$> from end).
  assert (Hto : exists tos, to = operation_rules <$> tos /\ tos <> [] /\
    existsb (operation_means rq) tos = match rule_To r with [] => true | to => existsb (operation_means rq) to end).
  { unfold to. destruct (rule_To r) as [|o os]; [by exists [None]|by exists (o :: os)]. }
  assert (Hfrom : exists fs, from = source_rules <$> fs /\ fs <> [] /\
    existsb (source_means rq) fs = match rule_From r with [] => true | from => existsb (source_means rq) from end).
  { unfold from. destruct (rule_From r) as [|o os]; [by exists [None]|by exists (o :: os)]. }
  destruct Hto as (tos & -> & Htne & Htm), Hfrom as (fs & -> & Hfne & Hfm).
  assert (Hc1 : forall l, collect (fun rl => match generatePermission rl action with Ok p => Ok [p] | Err e => Err e end)
    (operation_rules <$> l) = collect (fun o => match generatePermission (operation_rules o) action with
      | Ok p => Ok [p] | Err e => Err e end) l).
  { induction l as [|o l IH]; [done|]. rewrite fmap_cons. cbn [collect]. by rewrite IH. }
  assert (Hc2 : forall l, collect (fun rl => match generatePrincipal rl action with Ok p => Ok [p] | Err e => Err e end)
    ((fun p : list rule => migrate_rule <$> p) <$> (source_rules <$> l)) =
    collect (fun o => match generatePrincipal (migrate_rule <$> source_rules o) action with
      | Ok p => Ok [p] | Err e => Err e end) l).
  { induction l as [|o l IH]; [done|]. rewrite !fmap_cons. cbn [collect]. by rewrite IH. }
  rewrite Hc1, Hc2.
  destruct (collect_each _ (perm_matches rq) (operation_means rq) tos
    (fun o => operation_rules_mean rq o action)) as (ps & -> & Hpl & Hpm).
  destruct (collect_each _ (prin_matches rq) (source_means rq) fs
    (fun o => source_rules_mean rq o action)) as (qs & -> & Hql & Hqm).
  destruct ps as [|p ps]; [by destruct tos|]. destruct qs as [|q qs]; [by destruct fs|].
  eexists. split; [done|]. unfold policy_matches, rule_means. cbn [pol_Permissions pol_Principals].
  rewrite Hpm, Hqm, Htm, Hfm. apply andb_comm.
Qed.

(** C7: The RBAC policy generated for a rule means what the rule says: generation always
    succeeds, for allow and for deny, and the policy matches a request exactly when the
    request satisfies some source of the rule (all requests do when none is given) and some
    operation, where a list of values asks for one match and a list of negated values for
    none, principals being looked up among their trust domain aliases. *)
Theorem rule_semantics r action rq :
  exists pol, Generate (MigrateTrustDomain (New r)) action = Ok pol /\
    policy_matches rq pol = rule_means rq r.
Proof. apply generate_rule. Qed.
End meaning.
End semantics.

Lemma generate_ok `{AuthzEnv} r action : exists pol, Generate (MigrateTrustDomain (New r)) action = Ok pol.
Proof.
  destruct (generate_rule (fun _ _ => false) r action {| rq_service := ""; rq_method := ""; rq_principal := "" |})
    as (pol & Hpol & _). by exists pol.
Qed.

Lemma generate_means `{AuthzEnv} regex_match r action pol rq :
  Generate (MigrateTrustDomain (New r)) action = Ok pol ->
  policy_matches regex_match rq pol = rule_means regex_match rq r.
Proof. intros Hp. destruct (generate_rule regex_match r action rq) as (pol' & Hp' & Hm). congruence. Qed.

(** ** The builder *)
Section builder_properties.
Context `{AuthzEnv}.

Lemma build_rules_panics policies action i rules m :
  (i <= length policies)%nat ->
  panics (build_rules policies action i rules m) = true <-> (length policies < i + length rules)%nat.
Proof.
  revert i m. induction rules as [|r rules IH]; intros i m Hi; cbn [build_rules length].
  - split; [done|lia].
  - unfold index. destruct (policies !! i) as [p|] eqn:Ep; cbn [mbind outcome_bind].
    + apply lookup_lt_Some in Ep. rewrite IH by lia. lia.
    + apply lookup_ge_None in Ep. split; [lia|done].
Qed.

Lemma for_each_panics {A S} (f : S -> A -> outcome S) (bad : A -> Prop) `{forall a, Decision (bad a)} l s :
  (forall s a, panics (f s a) = true <-> bad a) -> panics (for_each f l s) = true <-> Exists bad l.
Proof.
  intros Hf. revert s. induction l as [|a l IH]; intros s; cbn [for_each].
  - split; [done|by rewrite Exists_nil].
  - rewrite Exists_cons. specialize (Hf s a). destruct (f s a) as [s'|w]; simpl in Hf.
    + rewrite IH. split; [by right|]. intros [Hb|]; [|done]. by apply Hf in Hb.
    + split; [|done]. left. by apply Hf.
Qed.

(** C40: The filter construction panics exactly when some policy has more rules than there
    are policies: the index of the inner loop hides the outer one and is used to index the
    policies, so that a single policy with two rules is enough. *)
Theorem authz_build_panics policies action :
  panics (build policies action) = true <->
  exists p, p ∈ policies /\ (length policies < length (dap_Rules p))%nat.
Proof.
  unfold build. destruct policies as [|p0 ps].
  { split; [done|]. by intros (p & ?%elem_of_nil & _). }
  set (policies := p0 :: ps). rewrite <- Exists_exists.
  rewrite <- (for_each_panics (fun m p => build_rules policies action 0 (dap_Rules p) m)
    (fun p => length policies < length (dap_Rules p))%nat policies ∅)
    by (intros; rewrite build_rules_panics by lia; done).
  by destruct (for_each _ _ _).
Qed.

(** Of several policies with one rule each only the last one has an effect: every rule
    is stored under the name of the first policy, each replacing the one before, so that
    the filter matches a request exactly when the last policy's rule does. *)
Theorem authz_rules_lost regex_match p0 ps plast r action :
  Forall (fun p => exists r, dap_Rules p = [Some r]) (p0 :: ps) ->
  last (p0 :: ps) = Some plast -> dap_Rules plast = [Some r] ->
  exists pol, build (p0 :: ps) action =
      Ret (Some {| rbac_Action := action; rbac_Policies := {[policy_name p0 0 := pol]} |}) /\
    forall rq, policy_matches regex_match rq pol = rule_means regex_match rq r.
Proof.
  intros Hall Hlast Hr. unfold build. set (policies := p0 :: ps) in *.
  set (f := fun (m : gmap string Policy) p => build_rules policies action 0 (dap_Rules p) m).
  assert (Hstep : forall m p r', dap_Rules p = [Some r'] ->
    exists pol, Generate (MigrateTrustDomain (New r')) action = Ok pol /\
      f m p = Ret (<[policy_name p0 0 := pol]> m)).
  { intros m p r' Hp. destruct (generate_ok r' action) as [pol Hpol]. exists pol. split; [done|].
    unfold f. rewrite Hp. cbn. by rewrite Hpol. }
  clearbody f.
  destruct (Hstep ∅ plast r Hr) as (pol & Hpol & _). exists pol. split; [|by intros; eapply generate_means].
  apply last_Some in Hlast as [pre Hpre].
  enough (for_each f policies ∅ = Ret {[policy_name p0 0 := pol]}) as -> by done.
  rewrite Hpre, for_each_app. rewrite Hpre, Forall_app in Hall. destruct Hall as [Hall _].
  destruct (for_each_inv (fun _ m => dom m ⊆ {[policy_name p0 0]}) f pre ∅) as (m & -> & Hm); [set_solver| |].
  { intros d p m Hd Hp. rewrite Forall_forall in Hall. destruct (Hall p Hp) as [r' Hr'].
    destruct (Hstep m p r' Hr') as (pol' & _ & Hb). rewrite Hb. eexists. split; [done|]. rewrite dom_insert. set_solver. }
  cbn [mbind outcome_bind for_each]. destruct (Hstep m plast r Hr) as (pol' & Hpol' & ->).
  assert (pol' = pol) as -> by congruence. f_equal.
  apply map_eq. intros k. destruct (decide (k = policy_name p0 0)) as [->|Hk].
  - by rewrite lookup_insert_eq, lookup_singleton_eq.
  - rewrite lookup_insert_ne, lookup_singleton_ne by done.
    apply not_elem_of_dom. set_solver.
Qed.
End builder_properties.

(** ** Wildcards *)
(** A value without wildcard is matched exactly, x* by prefix, *x by suffix, and the
    lone wildcard through the expression .+ (a non-empty string, under the documented
    meaning of that expression); the header matcher agrees, presence for the lone wildcard. *)
Theorem wildcard_semantics (regex_match : string -> string -> bool) v s :
  (forall s, regex_match ".+" s = negb (String.eqb s "")) ->
  (sm_matches regex_match (StringMatcher v) s = true <->
     (v = "*" /\ s <> "") \/
     (v <> "*" /\ (exists x, v = "*" +:+ x /\ exists t, s = t +:+ x)) \/
     (HasPrefix v "*" = false /\ exists x, v = x +:+ "*" /\ exists t, s = x +:+ t) \/
     (HasPrefix v "*" = false /\ HasSuffix v "*" = false /\ s = v)) /\
  (v <> "*" -> forall k, hdr_Specifier (HeaderMatcher k v) =
     match StringMatcher v with
     | SM_Exact x => ExactMatch x
     | SM_Prefix x => PrefixMatch x
     | SM_Suffix x => SuffixMatch x
     | SM_SafeRegex x => SafeRegexMatch x
     end).
Proof.
  intros Hre. unfold StringMatcher, StringMatcherWithPrefix, HeaderMatcher.
  destruct (String.eqb v "*") eqn:Es.
  { apply String.eqb_eq in Es as ->. simpl. rewrite Hre, negb_true_iff, String.eqb_neq. split; [|done].
    split; [auto|]. intros [[_ ?]|[[? _]|[[? _]|[? _]]]]; done. }
  apply String.eqb_neq in Es. destruct (HasPrefix v "*") eqn:Ep.
  { apply HasPrefix_spec in Ep as [x ->]. rewrite TrimPrefix_app. simpl. split; [|done].
    rewrite HasSuffix_spec. split.
    - intros [t ->]. right. left. split; [done|]. exists x. eauto.
    - intros [[? _]|[[_ (x' & Hx & t & ->)]|[[? _]|[? _]]]]; [done| |done..]. injection Hx as ->. by exists t. }
  destruct (HasSuffix v "*") eqn:Ef.
  - apply HasSuffix_spec in Ef as [x ->]. rewrite TrimSuffix_app. simpl. split.
    + rewrite HasPrefix_spec. split.
      * intros [t ->]. right; right; left. split; [done|]. exists x. eauto.
      * intros [[? _]|[[_ (x' & Hx & _)]|[[_ (x' & Hx & t & ->)]|(_ & ? & _)]]]; [done| | |done].
        -- by rewrite Hx in Ep.
        -- apply (f_equal (fun s => TrimSuffix s "*")) in Hx. rewrite !TrimSuffix_app in Hx. subst. by exists t.
    + intros _ k. rewrite str_length_app, Nat.add_sub, take_str_app. done.
  - simpl. rewrite String.eqb_eq. split; [|done]. split; [intros ->; by do 3 right|].
    intros [[? _]|[[_ (x' & -> & _)]|[[_ (x' & -> & _)]|(_ & _ & ->)]]]; [done| | |done].
    + done.
    + assert (HasSuffix (x' +:+ "*") "*" = true) by (apply HasSuffix_spec; by exists x'). congruence.
Qed.

(** ** Concrete runs *)
Definition demo_authz : AuthzEnv :=
  {| spiffe_URIPrefix := "spiffe://"; ReplaceTrustDomainAliases := fun l => l |}.
(** A regular expression matcher that knows one expression. *)
Definition demo_regex (re s : string) : bool := String.eqb re ".+" && negb (String.eqb s "").

Section demo.
#[local] Existing Instance demo_authz.
Definition demo_rule (method : string) : Rule :=
  {| rule_From := []; rule_To := [Some {| op_Interfaces := []; op_NotInterfaces := [];
                                          op_Methods := [method]; op_NotMethods := [] |}] |}.
Definition demo_policy (name : string) (rules : list Rule) : DubboAuthorizationPolicy :=
  {| dap_Name := name; dap_Namespace := "ns"; dap_Action := DENY; dap_Rules := Some <$> rules |}.

Example single_policy_two_rules :
  panics (build [demo_policy "a" [demo_rule "get"; demo_rule "set"]] RBAC_DENY) = true.
Proof. by vm_compute. Qed.

(** Two deny policies, on get and on set: get is not denied. *)
Lemma authz_rules_lost_witness :
  exists pol, build [demo_policy "a" [demo_rule "get"]; demo_policy "b" [demo_rule "set"]] RBAC_DENY =
      Ret (Some {| rbac_Action := RBAC_DENY; rbac_Policies := {["ns[ns]-policy[a]-rule[0]" := pol]} |}) /\
    policy_matches demo_regex {| rq_service := "s"; rq_method := "get"; rq_principal := "" |} pol = false.
Proof.
  destruct (authz_rules_lost demo_regex (demo_policy "a" [demo_rule "get"]) [demo_policy "b" [demo_rule "set"]]
    (demo_policy "b" [demo_rule "set"]) (demo_rule "set") RBAC_DENY) as (pol & Hb & Hm).
  - apply Forall_cons. split; [by eexists|]. apply Forall_singleton. by eexists.
  - reflexivity.
  - reflexivity.
  - exists pol. split; [exact Hb|]. rewrite Hm. vm_compute. reflexivity.
Defined.

Lemma wildcard_semantics_witness :
  sm_matches demo_regex (StringMatcher "*Service") "DemoService" = true.
Proof.
  apply (wildcard_semantics demo_regex "*Service" "DemoService"); [reflexivity|].
  right. left. split; [discriminate|]. exists "Service". split; [reflexivity|]. exists "Demo". reflexivity.
Defined.
End demo.
