(* ===== verification/Dubbo.v ===== *)
(** * The Dubbo plugin

    [src/internal/plugin/dubbo/route.go], [dubboproxy.go] and [generator.go]: the Dubbo
    proxies of a service entry, with the routes of its virtual service and the
    authorization filters of [Authz].

    [listPolicies] stands for the client that lists the DubboAuthorizationPolicy resources
    of a namespace; protojson and Istio's names are the parameters of [NetworkFilter] and
    [Model]. *)

From S2P Require Import Prelude Api Model NetworkFilter Xds Authz.

(** ** Messages *)
Record DubboRouteMatch := { drm_Method : StringMatcher_; drm_Headers : list Api.HeaderMatcher }.
Record DubboRoute := { dbr_Match : DubboRouteMatch; dbr_Route : ClusterSpecifier }.
Record DubboRouteConfiguration := {
  dbc_Name : string; dbc_Interface : string; dbc_Routes : list DubboRoute }.
Inductive DubboProtocolType := ProtocolType_Dubbo.
Inductive DubboSerializationType := SerializationType_Hessian2.
Record DubboProxy := {
  dbp_StatPrefix : string;
  dbp_ProtocolType : DubboProtocolType;
  dbp_SerializationType : DubboSerializationType;
  dbp_RouteConfig : list DubboRouteConfiguration;
  dbp_DubboFilters : list DubboFilter }.

Section dubbo.
Context `{MapRange, IstioNaming}.

(** ** route.go *)
Definition defaultRoute (clusterName : string) : DubboRoute :=
  {| dbr_Match := {| drm_Method := SM_SafeRegex ".*"; drm_Headers := [] |};
     dbr_Route := Cluster clusterName |}.

(** The matcher of the method of the first match block, and the one that matches all
    methods when there is none. *)
Definition buildMethodMatch (route : HTTPRoute) : StringMatcher_ :=
  let methodName :=
    match hr_Match route with
    | [] => None
    | m :: _ =>
        match hm_Method m with
        | Some (StringMatch_Exact s) => Some (SM_Exact s)
        | Some (StringMatch_Prefix s) => Some (SM_Prefix s)
        | Some (StringMatch_Regex s) => Some (SM_SafeRegex s)
        | Some StringMatch_Unset | None => None
        end
    end in
  match methodName with Some m => m | None => SM_SafeRegex ".*" end.

Definition header_matcher (name : string) (value : StringMatch) : option Api.HeaderMatcher :=
  match value with
  | StringMatch_Exact s => Some {| hdr_Name := name; hdr_Specifier := ExactMatch s; hdr_InvertMatch := false |}
  | StringMatch_Prefix s => Some {| hdr_Name := name; hdr_Specifier := PrefixMatch s; hdr_InvertMatch := false |}
  | StringMatch_Regex s => Some {| hdr_Name := name; hdr_Specifier := SafeRegexMatch s; hdr_InvertMatch := false |}
  | StringMatch_Unset => None
  end.

Definition buildHeaderMatch (route : HTTPRoute) : list Api.HeaderMatcher :=
  match hr_Match route with
  | [] => []
  | m :: _ => omap (M:=list) (fun '(name, value) => header_matcher name value) (range (hm_Headers m))
  end.

Definition destination_cluster (r : HTTPRouteDestination) (service : ServiceEntry) : outcome string :=
  destination ← deref (hrd_Destination r);
  host ← index (se_Hosts service) 0;
  port ← index (se_Ports service) 0;
  Ret (BuildClusterName TrafficDirectionOutbound (d_Subset destination) host (sp_Number port)).

Definition buildSingleCluster (http : HTTPRoute) (service : ServiceEntry) : outcome ClusterSpecifier :=
  r ← index (hr_Route http) 0;
  clusterName ← destination_cluster r service;
  Ret (Cluster clusterName).

(** One iteration of the loop that collects the clusters and their total weight. *)
Definition weighted_step (service : ServiceEntry) (acc : list ClusterWeight * Z) (route : HTTPRouteDestination)
    : outcome (list ClusterWeight * Z) :=
  clusterName ← destination_cluster route service;
  Ret (fst acc ++ [{| cw_Name := clusterName; cw_Weight := u32 (hrd_Weight route) |}],
       u32 (snd acc + u32 (hrd_Weight route))).

Definition buildWeightedCluster (http : HTTPRoute) (service : ServiceEntry) : outcome ClusterSpecifier :=
  acc ← for_each (weighted_step service) (hr_Route http) ([], 0);
  Ret (WeightedClusters {| wc_Clusters := fst acc; wc_TotalWeight := Some (snd acc) |}).

Definition buildRoute (service : ServiceEntry) (vs : VirtualService) : outcome (list DubboRoute) :=
  map_panic (fun http =>
    routeAction ← (if (1 <? length (hr_Route http))%nat then buildWeightedCluster http service
                   else buildSingleCluster http service);
    Ret {| dbr_Match := {| drm_Method := buildMethodMatch http; drm_Headers := buildHeaderMatch http |};
           dbr_Route := routeAction |}) (vs_Http vs).

(** The name of the outbound or inbound cluster of the first port. *)
Definition service_cluster (direction : TrafficDirection) (service : ServiceEntry) : outcome string :=
  host ← index (se_Hosts service) 0;
  port ← index (se_Ports service) 0;
  Ret (BuildClusterName direction "" host (sp_Number port)).

Definition buildOutboundRouteConfig (context : EnvoyFilterContext) : outcome (res DubboRouteConfiguration) :=
  let service := ctx_ServiceEntry context in
  match m_Annotations (sew_Meta service) !! "interface" with
  | None => Ret (Err "no interface annotation")
  | Some serviceInterface =>
      clusterName ← service_cluster TrafficDirectionOutbound (sew_Spec service);
      route ← match ctx_VirtualService context with
              | None => Ret [defaultRoute clusterName]
              | Some vs => buildRoute (sew_Spec service) (vsw_Spec vs)
              end;
      Ret (Ok {| dbc_Name := clusterName; dbc_Interface := serviceInterface; dbc_Routes := route |})
  end.

Definition buildInboundRouteConfig (context : EnvoyFilterContext) : outcome DubboRouteConfiguration :=
  port ← index (se_Ports (sew_Spec (ctx_ServiceEntry context))) 0;
  let clusterName := BuildClusterName TrafficDirectionInbound "" "" (sp_Number port) in
  Ret {| dbc_Name := clusterName; dbc_Interface := "*"; dbc_Routes := [defaultRoute clusterName] |}.

(** ** dubboproxy.go *)
Definition router_filter : DubboFilter := {| df_Name := "envoy.filters.dubbo.router"; df_Config := None |}.

(** [None] is the nil proxy returned with a logged error. *)
Definition buildOutboundProxy (context : EnvoyFilterContext) : outcome (option DubboProxy) :=
  route ← buildOutboundRouteConfig context;
  match route with
  | Err _ => Ret None
  | Ok route =>
      statPrefix ← service_cluster TrafficDirectionOutbound (sew_Spec (ctx_ServiceEntry context));
      Ret (Some {| dbp_StatPrefix := statPrefix; dbp_ProtocolType := ProtocolType_Dubbo;
                   dbp_SerializationType := SerializationType_Hessian2;
                   dbp_RouteConfig := [route]; dbp_DubboFilters := [router_filter] |})
  end.

Context `{AuthzEnv}.
Variable listPolicies : string -> res (list DubboAuthorizationPolicy).

Definition buildInboundProxy (context : EnvoyFilterContext) : outcome (option DubboProxy) :=
  route ← buildInboundRouteConfig context;
  let builder := NewBuilder (listPolicies (m_Namespace (sew_Meta (ctx_ServiceEntry context)))) in
  dubboFilters ← BuildDubboFilter builder;
  statPrefix ← service_cluster TrafficDirectionInbound (sew_Spec (ctx_ServiceEntry context));
  Ret (Some {| dbp_StatPrefix := statPrefix; dbp_ProtocolType := ProtocolType_Dubbo;
               dbp_SerializationType := SerializationType_Hessian2;
               dbp_RouteConfig := [route]; dbp_DubboFilters := dubboFilters ++ [router_filter] |}).

(** ** generator.go *)
Context `{ProtoJSON DubboProxy, ProtoJSONStruct, WellKnown}.

Definition filterName : string := "envoy.filters.network.dubbo_proxy".
Definition filterType : string :=
  "type.googleapis.com/envoy.extensions.filters.network.dubbo_proxy.v3.DubboProxy".

(** The typed pointers of the two proxies are converted to [proto.Message] by the call. *)
Definition Generate (context : EnvoyFilterContext) : outcome (list EnvoyFilterWrapper * option error) :=
  port ← index (se_Ports (sew_Spec (ctx_ServiceEntry context))) 0;
  outboundProxy ← buildOutboundProxy context;
  inboundProxy ← buildInboundProxy context;
  r ← GenerateReplaceNetworkFilter (ctx_ServiceEntry context) port
        (of_pointer outboundProxy) (of_pointer inboundProxy) filterName filterType;
  Ret (fst r, None).
End dubbo.

(** ** The route a request takes

    The Dubbo router takes the first route whose method and header matchers accept the
    request; [.*] accepts every method name. *)
Section routing.
Context (regex_match : string -> string -> bool).

Record dubbo_request := { dq_method : string; dq_headers : gmap string string }.

Definition route_matches (rq : dubbo_request) (m : DubboRouteMatch) : bool :=
  sm_matches regex_match (drm_Method m) (dq_method rq) &&
  forallb (header_matches regex_match (dq_headers rq)) (drm_Headers m).

Definition selected (rq : dubbo_request) (routes : list DubboRoute) : option ClusterSpecifier :=
  dbr_Route <$> find (fun r => route_matches rq (dbr_Match r)) routes.

(** What an HTTP route of the virtual service asks of a request: only its first match
    block counts. *)
Definition string_means (m : StringMatch) (s : string) : bool :=
  match m with
  | StringMatch_Exact x => String.eqb s x
  | StringMatch_Prefix x => HasPrefix s x
  | StringMatch_Regex x => regex_match x s
  | StringMatch_Unset => true
  end.

Definition block_means (rq : dubbo_request) (m : HTTPMatchRequest) : Prop :=
  (forall x, hm_Method m = Some x -> string_means x (dq_method rq) = true) /\
  (forall name x, hm_Headers m !! name = Some x -> x <> StringMatch_Unset ->
     exists v, dq_headers rq !! name = Some v /\ string_means x v = true).

Definition http_means (rq : dubbo_request) (http : HTTPRoute) : Prop :=
  match hr_Match http with [] => True | m :: _ => block_means rq m end.

Section lemmas.
Context `{MapRange} (Hall : forall s, regex_match ".*" s = true).

Lemma method_match_sound rq http :
  sm_matches regex_match (buildMethodMatch http) (dq_method rq) = true <->
  match hr_Match http with
  | [] => True
  | m :: _ => forall x, hm_Method m = Some x -> string_means x (dq_method rq) = true
  end.
Proof.
  unfold buildMethodMatch. destruct (hr_Match http) as [|m ms]; [by simpl|].
  destruct (hm_Method m) as [[s|s|s|]|]; simpl; naive_solver.
Qed.

Lemma header_matcher_sound md name x h :
  header_matcher name x = Some h ->
  header_matches regex_match md h = true <-> exists v, md !! name = Some v /\ string_means x v = true.
Proof.
  destruct x; intros [= <-]; unfold header_matches; simpl; destruct (md !! name); naive_solver.
Qed.

Lemma header_matcher_None name x : header_matcher name x = None <-> x = StringMatch_Unset.
Proof. by destruct x. Qed.

Lemma header_match_sound rq http :
  forallb (header_matches regex_match (dq_headers rq)) (buildHeaderMatch http) = true <->
  match hr_Match http with
  | [] => True
  | m :: _ => forall name x, hm_Headers m !! name = Some x -> x <> StringMatch_Unset ->
                exists v, dq_headers rq !! name = Some v /\ string_means x v = true
  end.
Proof.
  unfold buildHeaderMatch. destruct (hr_Match http) as [|m ms]; [by simpl|].
  rewrite forallb_forall. split.
  - intros Hf name x Hx Hu. destruct (header_matcher name x) as [h|] eqn:E; [|by apply header_matcher_None in E].
    apply (header_matcher_sound _ _ _ _ E), Hf, list_elem_of_In, list_elem_of_omap.
    exists (name, x). by rewrite range_elem.
  - intros Hf h [[name x] [Hr E]]%list_elem_of_In%list_elem_of_omap. apply range_elem in Hr.
    apply (header_matcher_sound _ _ _ _ E), (Hf name x Hr). intros ->. discriminate E.
Qed.

Lemma http_route_matches rq http :
  route_matches rq {| drm_Method := buildMethodMatch http; drm_Headers := buildHeaderMatch http |} = true <->
  http_means rq http.
Proof.
  unfold route_matches, http_means, block_means. cbn [drm_Method drm_Headers].
  rewrite andb_true_iff, method_match_sound, header_match_sound.
  by destruct (hr_Match http) as [|m ms]; [|tauto].
Qed.
End lemmas.
End routing.

(** ** The actions *)
Section actions.
Context `{MapRange, IstioNaming}.

Definition has_destinations (http : HTTPRoute) : Prop :=
  hr_Route http <> [] /\ Forall (fun r => is_Some (hrd_Destination r)) (hr_Route http).

Definition subset_cluster (host : string) (port : ServicePort) (r : HTTPRouteDestination) : string :=
  BuildClusterName TrafficDirectionOutbound (default "" (d_Subset <$> hrd_Destination r)) host (sp_Number port).

(** One destination gives its cluster, several give all of them with their weights. *)
Definition http_action (host : string) (port : ServicePort) (http : HTTPRoute) : ClusterSpecifier :=
  match hr_Route http with
  | [r] => Cluster (subset_cluster host port r)
  | rs => WeightedClusters
            {| wc_Clusters := (fun r => {| cw_Name := subset_cluster host port r; cw_Weight := u32 (hrd_Weight r) |}) <$> rs;
               wc_TotalWeight := Some (sum_u32 (u32 ∘ hrd_Weight <$> rs)) |}
  end.

Lemma destination_cluster_ok service host hs port ports r :
  se_Hosts service = host :: hs -> se_Ports service = port :: ports -> is_Some (hrd_Destination r) ->
  destination_cluster r service = Ret (subset_cluster host port r).
Proof. intros Hh Hp [d Hd]. unfold destination_cluster, subset_cluster. by rewrite Hh, Hp, Hd. Qed.

Lemma weighted_cluster_ok service host hs port ports http :
  se_Hosts service = host :: hs -> se_Ports service = port :: ports ->
  Forall (fun r => is_Some (hrd_Destination r)) (hr_Route http) ->
  buildWeightedCluster http service =
  Ret (WeightedClusters
    {| wc_Clusters := (fun r => {| cw_Name := subset_cluster host port r; cw_Weight := u32 (hrd_Weight r) |}) <$> hr_Route http;
       wc_TotalWeight := Some (sum_u32 (u32 ∘ hrd_Weight <$> hr_Route http)) |}).
Proof.
  intros Hh Hp Hd. unfold buildWeightedCluster.
  enough (forall rs cs t, Forall (fun r => is_Some (hrd_Destination r)) rs ->
    for_each (weighted_step service) rs (cs, t) =
    Ret (cs ++ ((fun r => {| cw_Name := subset_cluster host port r; cw_Weight := u32 (hrd_Weight r) |}) <$> rs),
         fold_left (fun acc w => u32 (acc + w)) (u32 ∘ hrd_Weight <$> rs) t)) as Hloop.
  { by rewrite Hloop. }
  intros rs. induction rs as [|r rs IH]; intros cs t Hrs; [by rewrite app_nil_r|].
  apply Forall_cons in Hrs as [Hr Hrs]. cbn [for_each]. unfold weighted_step at 1.
  rewrite (destination_cluster_ok _ _ _ _ _ _ Hh Hp Hr). cbn [mbind outcome_bind].
  rewrite IH by done. by rewrite <- app_assoc.
Qed.

Lemma buildRoute_ok service host hs port ports vs :
  se_Hosts service = host :: hs -> se_Ports service = port :: ports ->
  (forall http, http ∈ vs_Http vs -> has_destinations http) ->
  buildRoute service vs =
  Ret ((fun http => {| dbr_Match := {| drm_Method := buildMethodMatch http; drm_Headers := buildHeaderMatch http |};
                       dbr_Route := http_action host port http |}) <$> vs_Http vs).
Proof.
  intros Hh Hp Hvs. unfold buildRoute. apply map_panic_Ret. intros http Hin.
  destruct (Hvs http Hin) as [Hne Hd]. unfold http_action.
  rewrite (weighted_cluster_ok _ _ _ _ _ _ Hh Hp Hd). unfold buildSingleCluster.
  destruct (hr_Route http) as [|r [|r' rs]]; [done| |done].
  apply Forall_cons in Hd as [Hr _]. cbn [length Nat.ltb Nat.leb index lookup list_lookup mbind outcome_bind].
  by rewrite (destination_cluster_ok _ _ _ _ _ _ Hh Hp Hr).
Qed.

Lemma selected_http regex_match rq host port https r :
  (forall s, regex_match ".*" s = true) ->
  selected regex_match rq
    ((fun http => {| dbr_Match := {| drm_Method := buildMethodMatch http; drm_Headers := buildHeaderMatch http |};
                     dbr_Route := http_action host port http |}) <$> https) = Some r <->
  exists before http after, https = before ++ http :: after /\ r = http_action host port http /\
    http_means regex_match rq http /\ forall h, h ∈ before -> ~ http_means regex_match rq h.
Proof.
  intros Hall. unfold selected. induction https as [|http https IH].
  - split; [done|]. by intros ([|] & ? & ? & ? & _).
  - rewrite fmap_cons. cbn [find dbr_Match].
    destruct (route_matches _ _ _) eqn:Em.
    + apply http_route_matches in Em; [|done]. simpl. split.
      * intros [= <-]. exists [], http, https. split_and!; [done..|]. intros h Hh. by apply elem_of_nil in Hh.
      * intros ([|b before] & h & after & [= -> ->] & -> & _ & Hb); [done|].
        exfalso. apply (Hb b); [by left|done].
    + assert (Hn : ~ http_means regex_match rq http).
      { intros Hm. apply (http_route_matches regex_match Hall) in Hm. congruence. }
      rewrite IH. split.
      * intros (before & h & after & -> & -> & Hm & Hb). exists (http :: before), h, after.
        split_and!; [done..|]. intros x [->|Hx]%elem_of_cons; [done|by apply Hb].
      * intros ([|b before] & h & after & [= -> ->] & -> & Hm & Hb); [done|].
        exists before, h, after. split_and!; [done..|]. intros x Hx. apply Hb. by right.
Qed.

(** C14: Routing of Dubbo calls. For an entry with an interface annotation, a host and a
    port, and a virtual service whose routes have destinations, the configuration is built,
    and a call is sent to the action of the first HTTP route that accepts it: one whose
    first match block (later blocks have no effect) accepts the method and every header
    with a match type. The action is the subset's cluster of the entry's host and first
    port, or all of them with their weights. Without virtual service every call goes to
    the entry's own cluster. *)
Theorem dubbo_route_semantics regex_match context iface host hs port ports :
  (forall s, regex_match ".*" s = true) ->
  m_Annotations (sew_Meta (ctx_ServiceEntry context)) !! "interface" = Some iface ->
  se_Hosts (sew_Spec (ctx_ServiceEntry context)) = host :: hs ->
  se_Ports (sew_Spec (ctx_ServiceEntry context)) = port :: ports ->
  (forall vs http, ctx_VirtualService context = Some vs -> http ∈ vs_Http (vsw_Spec vs) -> has_destinations http) ->
  exists rc, buildOutboundRouteConfig context = Ret (Ok rc) /\ dbc_Interface rc = iface /\
    forall rq r, selected regex_match rq (dbc_Routes rc) = Some r <->
      match ctx_VirtualService context with
      | None => r = Cluster (BuildClusterName TrafficDirectionOutbound "" host (sp_Number port))
      | Some vs => exists before http after,
          vs_Http (vsw_Spec vs) = before ++ http :: after /\ r = http_action host port http /\
          http_means regex_match rq http /\ forall h, h ∈ before -> ~ http_means regex_match rq h
      end.
Proof.
  intros Hall Ha Hh Hp Hd. unfold buildOutboundRouteConfig, service_cluster.
  rewrite Ha, Hh, Hp. cbn [index lookup list_lookup mbind outcome_bind].
  destruct (ctx_VirtualService context) as [vs|].
  - rewrite (buildRoute_ok _ _ _ _ _ _ Hh Hp) by eauto. cbn. eexists. split_and!; [done..|].
    intros rq r. by apply selected_http.
  - eexists. split_and!; [done..|]. intros rq r. unfold selected, route_matches. cbn.
    rewrite Hall. cbn. naive_solver.
Qed.
End actions.

(** ** The inbound filter chain *)
Section inbound.
Context `{IstioNaming, AuthzEnv}.
Variable listPolicies : string -> res (list DubboAuthorizationPolicy).

Definition has_action (a : PolicyAction) (p : DubboAuthorizationPolicy) : bool :=
  match a, dap_Action p with ALLOW, ALLOW | DENY, DENY => true | _, _ => false end.
Definition listed (context : EnvoyFilterContext) (a : PolicyAction) : list DubboAuthorizationPolicy :=
  match listPolicies (m_Namespace (sew_Meta (ctx_ServiceEntry context))) with
  | Ok items => List.filter (has_action a) items
  | Err _ => []
  end.

Lemma NewBuilder_spec items :
  NewBuilder (Ok items) =
  {| denyPolicies := List.filter (has_action DENY) items; allowPolicies := List.filter (has_action ALLOW) items |}.
Proof.
  induction items as [|p items IH] using rev_ind; [done|]. cbn [NewBuilder] in *.
  rewrite foldl_app, IH, !List.filter_app. cbn [foldl List.filter].
  assert (has_action DENY p = match dap_Action p with DENY => true | _ => false end) as -> by done.
  assert (has_action ALLOW p = match dap_Action p with ALLOW => true | _ => false end) as -> by done.
  by destruct (dap_Action p); cbn [denyPolicies allowPolicies]; rewrite ?app_nil_r.
Qed.

(** Every rule of a policy has a policy at its own position. *)
Definition indexable (policies : list DubboAuthorizationPolicy) : Prop :=
  Forall (fun p => length (dap_Rules p) <= length policies)%nat policies.

Lemma build_ret policies action :
  indexable policies ->
  exists m, build policies action =
    Ret (match policies with [] => None | _ => Some {| rbac_Action := action; rbac_Policies := m |} end).
Proof.
  intros Hi. unfold build. destruct policies as [|p0 ps]; [by exists ∅|]. set (policies := p0 :: ps) in *.
  enough (exists m, for_each (fun m p => build_rules policies action 0 (dap_Rules p) m) policies ∅ = Ret m)
    as [m ->] by (by exists m).
  destruct (for_each_inv (fun _ _ => True) (fun m p => build_rules policies action 0 (dap_Rules p) m)
    policies ∅ I) as (m & Hm & _); [|by exists m].
  intros d p m _ Hin. apply (proj1 (Forall_forall _ _) Hi) in Hin.
  destruct (build_rules policies action 0 (dap_Rules p) m) as [m'|w] eqn:E; [by exists m'|exfalso].
  assert (Hp : panics (build_rules policies action 0 (dap_Rules p) m) = true) by (by rewrite E).
  apply build_rules_panics in Hp; lia.
Qed.

Definition rbac_filter (action : RBAC_Action) (m : gmap string Policy) : DubboFilter :=
  createDubboRBACFilter {| rbac_Action := action; rbac_Policies := m |}.

(** The filters of the inbound Dubbo proxy are the RBAC filter of the deny policies when
    there are any, then the one of the allow policies when there are any, then the router,
    which is always the last one. A failure to list the policies is not reported: the proxy
    is built with the router only, so that every call is admitted. *)
Theorem dubbo_inbound_chain context host hs port ports :
  se_Hosts (sew_Spec (ctx_ServiceEntry context)) = host :: hs ->
  se_Ports (sew_Spec (ctx_ServiceEntry context)) = port :: ports ->
  indexable (listed context DENY) -> indexable (listed context ALLOW) ->
  exists proxy deny allow,
    buildInboundProxy listPolicies context = Ret (Some proxy) /\
    dbp_DubboFilters proxy =
      match listed context DENY with [] => [] | _ => [rbac_filter RBAC_DENY deny] end ++
      match listed context ALLOW with [] => [] | _ => [rbac_filter RBAC_ALLOW allow] end ++ [router_filter] /\
    (forall e, listPolicies (m_Namespace (sew_Meta (ctx_ServiceEntry context))) = Err e ->
       dbp_DubboFilters proxy = [router_filter]).
Proof.
  intros Hh Hp Hd Ha.
  destruct (build_ret _ RBAC_DENY Hd) as [deny Hdeny], (build_ret _ RBAC_ALLOW Ha) as [allow Hallow].
  unfold buildInboundProxy, buildInboundRouteConfig, service_cluster, BuildDubboFilter, listed in *.
  rewrite Hh, Hp. cbn [index lookup list_lookup mbind outcome_bind].
  destruct (listPolicies _) as [items|e]; [rewrite NewBuilder_spec|];
    cbn [denyPolicies allowPolicies NewBuilder] in *; rewrite Hdeny, Hallow; cbn [mbind outcome_bind].
  - eexists _, deny, allow. split_and!; [done| |done]. cbn [dbp_DubboFilters].
    rewrite <- app_assoc. f_equal; [by destruct (List.filter (has_action DENY) items)|].
    f_equal. by destruct (List.filter (has_action ALLOW) items).
  - by eexists _, deny, allow.
Qed.
End inbound.

(** ** A service entry without the interface annotation *)
Section missing_interface.
Context `{MapRange, IstioNaming, AuthzEnv, ProtoJSON DubboProxy, ProtoJSONStruct, WellKnown}.
Variable listPolicies : string -> res (list DubboAuthorizationPolicy).

(** Without the interface annotation no Dubbo configuration can be made, yet nothing is
    reported and the service is not left alone: the generator passes a nil proxy as a
    non-nil message, and the filters it returns, without error, replace the TCP proxy of
    every outbound listener of the service with a Dubbo proxy printed from nil. *)
Theorem dubbo_missing_interface context host hs port ports inbound vnil vi :
  let service := ctx_ServiceEntry context in
  m_Annotations (sew_Meta service) !! "interface" = None ->
  se_Hosts (sew_Spec service) = host :: hs -> se_Ports (sew_Spec service) = port :: ports ->
  buildInboundProxy listPolicies context = Ret (Some inbound) ->
  generateValue (M:=DubboProxy) NilPointer filterName filterType = Ok vnil ->
  generateValue (Message inbound) filterName filterType = Ok vi ->
  buildOutboundRouteConfig context = Ret (Err "no interface annotation") /\
  exists ins, Generate listPolicies context =
    Ret ((expected_outbound host port REPLACE vnil <$> se_Addresses (sew_Spec service)) ++ ins, None).
Proof.
  intros service Ha Hh Hp Hin Hvn Hvi.
  assert (Hr : buildOutboundRouteConfig context = Ret (Err "no interface annotation")).
  { unfold buildOutboundRouteConfig. fold service. by rewrite Ha. }
  split; [exact Hr|]. unfold Generate, buildOutboundProxy, GenerateReplaceNetworkFilter. fold service.
  rewrite Hr, Hp, Hin. cbn [index lookup list_lookup mbind outcome_bind of_pointer].
  destruct (inboundEnvoyFilterWorkloadSelector service) as [sel service'] eqn:Es.
  rewrite (generateNetworkFilter_spec service port NilPointer (Message inbound) filterName filterType REPLACE
    host hs vnil vi sel service' Hh ltac:(done) ltac:(done) Hvn Hvi Es).
  cbn [mbind outcome_bind fst snd]. by eexists.
Qed.
End missing_interface.

(** ** Concrete instances *)
Definition demo_regex (re s : string) : bool := String.eqb re ".*" || String.eqb re s.
Definition demo_destination (subset : string) (w : Z) : HTTPRouteDestination :=
  {| hrd_Destination := Some {| d_Host := "demo.svc"; d_Subset := subset; d_Port := None |}; hrd_Weight := w |}.
Definition demo_vs : VirtualServiceWrapper :=
  {| vsw_Meta := zeroMeta;
     vsw_Spec := {| vs_Hosts := ["demo.svc"]; vs_Gateways := []; vs_Tcp := [];
       vs_Http := [ {| hr_Match := [{| hm_Method := Some (StringMatch_Prefix "say");
                                       hm_Headers := {["tenant" := StringMatch_Exact "a"]} |}];
                       hr_Route := [demo_destination "v1" 20; demo_destination "v2" 80] |};
                    {| hr_Match := []; hr_Route := [demo_destination "v1" 0] |} ] |} |}.
Definition demo_mesh : MeshConfig :=
  {| mesh_AccessLogFile := ""; mesh_AccessLogFormat := ""; mesh_AccessLogEncoding := TEXT;
     mesh_EnableTracing := false; mesh_DefaultConfig := None |}.
Definition demo_dubbo_service (annotations : gmap string string) : ServiceEntryWrapper :=
  {| sew_Meta := {| m_GroupVersionKind := GvkServiceEntry; m_Name := "demo"; m_Namespace := "ns";
                    m_Labels := ∅; m_Annotations := annotations |};
     sew_Spec := sew_Spec demo_service |}.
Definition demo_context (annotations : gmap string string) : EnvoyFilterContext :=
  {| ctx_MeshConfig := demo_mesh; ctx_Gateway := None; ctx_ServiceEntry := demo_dubbo_service annotations;
     ctx_VirtualService := Some demo_vs; ctx_MetaRouter := None |}.
Definition demo_authz : AuthzEnv :=
  {| spiffe_URIPrefix := "spiffe://"; ReplaceTrustDomainAliases := fun l => l |}.
Definition demo_policies (ns : string) : res (list DubboAuthorizationPolicy) :=
  Ok [{| dap_Name := "deny"; dap_Namespace := ns; dap_Action := DENY; dap_Rules := [None] |}].
Definition demo_dubbo_json : ProtoJSON DubboProxy := fun m =>
  match m with Message p => Ok ("{" +:+ dbp_StatPrefix p +:+ "}") | NilPointer => Ok "{}" | NilInterface => Err "nil" end.

Lemma dubbo_route_semantics_witness :
  exists rc, @buildOutboundRouteConfig canonical_range istio_subset_key (demo_context {["interface" := "I"]})
               = Ret (Ok rc) /\
    selected demo_regex {| dq_method := "sayBye"; dq_headers := {["tenant" := "b"]} |} (dbc_Routes rc)
      = Some (Cluster "outbound|20880|v1|demo.svc").
Proof.
  destruct (@dubbo_route_semantics canonical_range istio_subset_key demo_regex (demo_context {["interface" := "I"]})
    "I" "demo.svc" [] demo_port [] ltac:(done) eq_refl eq_refl eq_refl) as (rc & Hrc & _ & Hsel).
  { intros vs http [= <-]. cbn [demo_vs vsw_Spec vs_Http].
    intros [->|[->|Hin%elem_of_nil]%elem_of_cons]%elem_of_cons; [..|done]; split; cbn [hr_Route]; try done;
      repeat constructor; by eexists. }
  exists rc. split; [exact Hrc|]. apply Hsel. cbn [demo_context ctx_VirtualService demo_vs vsw_Spec vs_Http].
  eexists [_], _, []. split; [reflexivity|]. split; [reflexivity|]. split; [exact I|].
  intros h [->|Hin%elem_of_nil]%elem_of_cons; [|done]. cbn. intros [_ Hh].
  destruct (Hh "tenant" (StringMatch_Exact "a") eq_refl ltac:(done)) as (v & Hv & Hs).
  vm_compute in Hv. injection Hv as <-. discriminate Hs.
Defined.

Lemma dubbo_inbound_chain_witness :
  exists proxy, @buildInboundProxy istio_subset_key demo_authz demo_policies (demo_context ∅) = Ret (Some proxy) /\
    length (dbp_DubboFilters proxy) = 2%nat.
Proof.
  destruct (@dubbo_inbound_chain istio_subset_key demo_authz demo_policies (demo_context ∅) "demo.svc" [] demo_port []
    eq_refl eq_refl ltac:(repeat constructor) ltac:(repeat constructor)) as (proxy & deny & allow & Hp & Hf & _).
  exists proxy. split; [exact Hp|]. by rewrite Hf.
Defined.

Definition demo_annotations : gmap string string := {["workloadSelector" := "app: demo"]}.
Lemma dubbo_missing_interface_witness :
  exists f1 f2 f3, @Generate canonical_range istio_subset_key demo_authz demo_policies demo_dubbo_json demo_json_struct
    demo_well_known (demo_context demo_annotations) = Ret ([f1; f2; f3], None).
Proof.
  destruct (@dubbo_missing_interface canonical_range istio_subset_key demo_authz demo_dubbo_json demo_json_struct
    demo_well_known demo_policies (demo_context demo_annotations) "demo.svc" [] demo_port []
    _ _ _ eq_refl eq_refl eq_refl eq_refl eq_refl eq_refl) as (_ & ins & Hg).
  assert (exists f, ins = [f]) as [f ->]; [|rewrite Hg; by eexists _, _, f].
  vm_compute in Hg. injection Hg as <-. by eexists.
Defined.
