(* ===== verification/Redis.v ===== *)
(** * The Redis plugin

    [src/internal/plugin/redis]: the Redis proxies and clusters made from RedisService and
    RedisDestination resources ([outbound.go], [outboundcluster.go], [inbound.go],
    [util.go], [generator.go]).

    Parameters: the API server's lists of the two resources and its secrets, Istio's names
    and [anypb.New] ([RedisEnv]);
    protojson and go-control-plane's constants as in [NetworkFilter];
    [oob], the value Go leaves unspecified when a float64 is converted to an uint32 it does
    not fit in.  [strings.TrimSpace] is modelled on ASCII white space. *)

From S2P Require Import Prelude Api Model NetworkFilter EnvoyFilterController.

(** ** The resources *)
Inductive ReadPolicy := RP_MASTER | RP_PREFER_MASTER | RP_REPLICA | RP_PREFER_REPLICA | RP_ANY | RP_Other.
Record PlainAuth := { pa_Username : string; pa_Password : string }.
Record SecretReference := { sr_Name : string; sr_UsernameField : string; sr_PasswordField : string }.
Inductive Auth := Auth_Plain (p : PlainAuth) | Auth_Secret (s : SecretReference) | Auth_Unset.
Record RedisSettings := {
  rs_Auth : option Auth; rs_OpTimeout : option Duration; rs_EnableCommandStats : bool;
  rs_EnableHashtagging : bool; rs_EnableRedirection : bool; rs_BufferFlushTimeout : option Duration;
  rs_MaxBufferSizeBeforeFlush : Z; rs_ReadPolicy : ReadPolicy }.
Record RedisTarget := { rt_Host : string; rt_Port : Z }.
Record RedisMirror := {
  rm_Route : option RedisTarget; rm_Percentage : option float64; rm_ExcludeReadCommands : bool }.
Record KeyMatch := { km_Prefix : string; km_RemovePrefix : bool }.
(** [rr_Match]: the key of the match, where a nil match has none. *)
Record RedisRoute := {
  rr_Route : option RedisTarget; rr_Mirror : list RedisMirror; rr_Match : option (option KeyMatch) }.
Inductive FaultType := Fault_DELAY | Fault_ERROR | Fault_Other.
Record Fault := {
  fa_Type : FaultType; fa_Percentage : option float64; fa_Delay : option Duration; fa_Commands : list string }.
Record RedisService := {
  rsv_Name : string; rsv_Namespace : string; rsv_Host : list string; rsv_Settings : option RedisSettings;
  rsv_Redis : list RedisRoute; rsv_Faults : list Fault }.

Inductive RedisMode := PROXY | CLUSTER_MODE.
Record RedisConn := { rc_Mode : RedisMode; rc_DiscoveryEndpoints : list string; rc_Auth : option Auth }.
Record TcpKeepalive := { ka_Probes : Z; ka_Time : option Duration; ka_Interval : option Duration }.
Record TcpConn := {
  tc_MaxConnections : Z; tc_ConnectTimeout : option Duration; tc_TcpKeepalive : option TcpKeepalive }.
Record ConnectionPool := { cp_Redis : option RedisConn; cp_Tcp : option TcpConn }.
(** [rd_TrafficPolicy]: the connection pool of the policy. *)
Record RedisDestination := { rdn_Host : string; rdn_TrafficPolicy : option (option ConnectionPool) }.

(** ** Envoy messages *)
Inductive EnvoyReadPolicy := MASTER | PREFER_MASTER | REPLICA | PREFER_REPLICA | ANY.
Record ConnPoolSettings := {
  cps_OpTimeout : Duration; cps_EnableCommandStats : bool; cps_EnableHashtagging : bool;
  cps_EnableRedirection : bool; cps_BufferFlushTimeout : option Duration;
  cps_MaxBufferSizeBeforeFlush : Z; cps_ReadPolicy : EnvoyReadPolicy }.
Record RedisMirrorPolicy := {
  rmpol_Cluster : string; rmpol_ExcludeReadCommands : bool; rmpol_RuntimeFraction : FractionalPercent }.
Record PrefixRoute := {
  pr_Cluster : string; pr_Prefix : string; pr_RemovePrefix : bool;
  pr_RequestMirrorPolicy : list RedisMirrorPolicy }.
Record RedisFault := {
  rf_FaultType : FaultType; rf_FaultEnabled : FractionalPercent; rf_Delay : option Duration;
  rf_Commands : list string }.
Record RedisProxy := {
  rp_StatPrefix : string; rp_Settings : ConnPoolSettings; rp_Routes : list PrefixRoute;
  rp_CatchAllRoute : option PrefixRoute; rp_Faults : list RedisFault;
  rp_DownstreamAuthPassword : option string; rp_DownstreamAuthUsername : option string }.

Inductive LbPolicy := MAGLEV | CLUSTER_PROVIDED.
Inductive DiscoveryType := EDS | CustomCluster (name : string).
Record Thresholds := { th_MaxConnections : Z; th_MaxRetries : Z; th_MaxRequests : Z; th_MaxPendingRequests : Z }.
Record HostPort := { hp_Host : string; hp_Port : Z }.
(** An endpoint by its socket address; the assignment has one locality. *)
Record LbEndpoint := { lbe_Address : string; lbe_PortValue : Z }.
Record ClusterLoadAssignment := { cla_ClusterName : string; cla_Endpoints : list LbEndpoint }.
Definition toLbEndpoints (addrs : list HostPort) : list LbEndpoint :=
  (fun addr => {| lbe_Address := hp_Host addr; lbe_PortValue := hp_Port addr |}) <$> addrs.
Record EnvoyCluster := {
  cl_Name : string; cl_ConnectTimeout : Duration; cl_DiscoveryType : DiscoveryType; cl_EdsConfig : bool;
  cl_LbPolicy : LbPolicy; cl_Thresholds : Thresholds; cl_LoadAssignment : option ClusterLoadAssignment;
  cl_Auth : option (option string * option string);
  cl_Metadata : gmap string (gmap string PValue); cl_Filters : list string;
  cl_TransportSocketMatches : list (string * string) }.

Class RedisEnv := {
  RedisServices_List : string -> res (list RedisService);
  RedisDestinations_List : string -> res (list RedisDestination);
  Secrets_Get : string -> string -> res (gmap string string);
  (** whether the protocol options with this password and user name can be packed *)
  anypb_New : option string -> option string -> bool;
  IstioMetadataKey : string;
  TCPClusterMx_Name : string }.

(** ** Standard library *)
Definition is_space (a : ascii) : bool :=
  let n := N_of_ascii a in ((9 <=? n)%N && (n <=? 13)%N) || (n =? 32)%N.
Fixpoint TrimLeftSpace (s : string) : string :=
  match s with
  | String a r => if is_space a then TrimLeftSpace r else s
  | EmptyString => EmptyString
  end.
Fixpoint TrimRightSpace (s : string) : string :=
  match s with
  | EmptyString => EmptyString
  | String a r => match TrimRightSpace r with
                  | EmptyString => if is_space a then EmptyString else String a EmptyString
                  | r' => String a r'
                  end
  end.
Definition TrimSpace (s : string) : string := TrimRightSpace (TrimLeftSpace s).

Fixpoint IndexByte (s : string) (c : ascii) : option nat :=
  match s with
  | EmptyString => None
  | String a r => if Ascii.eqb a c then Some 0%nat else S <$> IndexByte r c
  end.
Fixpoint LastIndexByte (s : string) (c : ascii) : option nat :=
  match s with
  | EmptyString => None
  | String a r => match LastIndexByte r c with
                  | Some i => Some (S i)
                  | None => if Ascii.eqb a c then Some 0%nat else None
                  end
  end.

(** [strings.Contains]. *)
Fixpoint Contains (s sub : string) : bool :=
  HasPrefix s sub || match s with EmptyString => false | String _ r => Contains r sub end.

(** [net.SplitHostPort]; the error is the reason of its [AddrError]. *)
Definition missingPort : error := "missing port in address".
Definition tooManyColons : error := "too many colons in address".
Definition SplitHostPort (hostport : string) : res (string * string) :=
  match LastIndexByte hostport ":" with
  | None => Err missingPort
  | Some i =>
      let finish host j k :=
        if ContainsChar (drop_str j hostport) "[" then Err "unexpected '[' in address"
        else if ContainsChar (drop_str k hostport) "]" then Err "unexpected ']' in address"
        else Ok (host, drop_str (S i) hostport) in
      if HasPrefix hostport "[" then
        match IndexByte hostport "]" with
        | None => Err "missing ']' in address"
        | Some e =>
            if Nat.eqb (S e) (String.length hostport) then Err missingPort
            else if Nat.eqb (S e) i then finish (drop_str 1 (take_str e hostport)) 1%nat (S e)
            else if HasPrefix (drop_str (S e) hostport) ":" then Err tooManyColons
            else Err missingPort
        end
      else
        let host := take_str i hostport in
        if ContainsChar host ":" then Err tooManyColons else finish host 0%nat 0%nat
  end.

(** The number [strconv.Atoi] returns, also with an error: 0 for a syntax error, the
    nearest int64 for a number out of range. *)
Definition Atoi_value (s : string) : Z :=
  let '(neg, ds) := match s with
                    | String "-" r => (true, r)
                    | String "+" r => (false, r)
                    | _ => (false, s)
                    end in
  if negb (all_digits ds) || String.eqb ds "" then 0
  else let v := digits_value 0 ds in
       let v := if neg : bool then - v else v in
       Z.max (- 2^63) (Z.min v (2^63 - 1)).

Section redis.
Context `{IstioNaming, RedisEnv} (oob : Z).

(** ** util.go *)
Definition outboundClusterName (host : string) (port : Z) : string :=
  BuildClusterName TrafficDirectionOutbound "" host port.

Fixpoint find_port (ports : list ServicePort) (listenPort : Z) (listenPortName : string) : Z :=
  match ports with
  | [] => listenPort
  | port :: rest =>
      if sp_Number port =? listenPort then listenPort
      else if String.eqb (sp_Name port) listenPortName then sp_Number port
      else find_port rest listenPort listenPortName
  end.

Definition findServicePort (svc : option ServiceEntry) (listenPort : Z) (listenPortName : string) : Z :=
  match svc with
  | None => listenPort
  | Some svc =>
      match se_Ports svc with
      | [port] => sp_Number port
      | ports => find_port ports listenPort listenPortName
      end
  end.

Definition translatePercentToFractionalPercent (p : option float64) : outcome FractionalPercent :=
  value ← deref p;
  Ret {| fp_Numerator := u32_of_f64 oob (f64_mul value (f64_of_Z 10000)); fp_Denominator := MILLION |}.

Definition inlineString (str : string) : option string := if String.eqb str "" then None else Some str.

Definition MaxUint32 : Z := 2^32 - 1.
Definition getDefaultCircuitBreakerThresholds : Thresholds :=
  {| th_MaxConnections := MaxUint32; th_MaxRetries := MaxUint32; th_MaxRequests := MaxUint32;
     th_MaxPendingRequests := MaxUint32 |}.

(** [UpstreamConnectionOptions] of the cluster is nil: every write to it panics. *)
Definition setKeepAliveSettings (keepalive : TcpKeepalive) : outcome unit :=
  let write := Panic "nil pointer dereference" in
  if 0 <? ka_Probes keepalive then write
  else match ka_Time keepalive, ka_Interval keepalive with
       | Some _, _ => write
       | None, Some _ => write
       | None, None => Ret ()
       end.

Definition buildServiceMetadata (host name namespace : string) : PValue :=
  StructValue (<["host" := StringValue host]> (<["name" := StringValue name]>
    (<["namespace" := StringValue namespace]> ∅))).

(** ** outbound.go *)
Definition defaultOpTimeout : Duration := {| Seconds := 60; Nanos := 0 |}.
Definition defaultInboundOpTimeout : Duration := {| Seconds := 3600; Nanos := 0 |}.
Definition defaultUsername : string := "username".
Definition defaultPassword : string := "password".
Definition defaultPassword2 : string := "token".

(** The user name and password of an [Auth], which may be nil. *)
Definition password (ns : string) (auth : option Auth) : res (string * string) :=
  match auth with
  | Some (Auth_Plain plain) => Ok (pa_Username plain, pa_Password plain)
  | Some (Auth_Secret secret) =>
      match Secrets_Get ns (sr_Name secret) with
      | Err e => Err e
      | Ok data =>
          let pf := if String.eqb (sr_PasswordField secret) ""
                    then match data !! defaultPassword with Some _ => defaultPassword | None => defaultPassword2 end
                    else sr_PasswordField secret in
          let uf := sr_UsernameField secret in
          let pf := if String.eqb pf "" then defaultUsername else pf in
          let field f := match data !! f with Some v => TrimSpace v | None => "" end in
          Ok (field uf, field pf)
      end
  | Some Auth_Unset | None => Ok ("", "")
  end.

Definition convertPolicy (policy : ReadPolicy) : EnvoyReadPolicy :=
  match policy with
  | RP_MASTER => MASTER
  | RP_PREFER_MASTER => PREFER_MASTER
  | RP_REPLICA => REPLICA
  | RP_PREFER_REPLICA => PREFER_MASTER
  | RP_ANY => ANY
  | RP_Other => MASTER
  end.

Definition convertFault (fault : Fault) : outcome RedisFault :=
  enabled ← translatePercentToFractionalPercent (fa_Percentage fault);
  Ret {| rf_FaultType := match fa_Type fault with Fault_ERROR => Fault_ERROR | _ => Fault_DELAY end;
         rf_FaultEnabled := enabled; rf_Delay := fa_Delay fault; rf_Commands := fa_Commands fault |}.

(** The related service: the last one listed with the host, for the first host that has
    one. *)
Definition services_by_host (items : list RedisService) : gmap string RedisService :=
  foldl (fun svcs service => foldl (fun svcs host => <[host := service]> svcs) svcs (rsv_Host service)) ∅ items.

Fixpoint first_host (svcs : gmap string RedisService) (hosts : list string) : option (string * RedisService) :=
  match hosts with
  | [] => None
  | host :: rest => match svcs !! host with Some rs => Some (host, rs) | None => first_host svcs rest end
  end.

Definition findTargetHostAndRedisService (ns : string) (hosts : list string)
    : res (option (string * RedisService)) :=
  match RedisServices_List ns with
  | Err e => Err e
  | Ok items => Ok (first_host (services_by_host items) hosts)
  end.

Definition host_entry (hostServices : gmap string ServiceEntry) (config : Config)
    : outcome (gmap string ServiceEntry) :=
  match asServiceEntry (c_Spec config) with
  | None => Panic "interface conversion"
  | Some se => Ret (foldl (fun m host => <[host := se]> m) hostServices (se_Hosts se))
  end.
Definition hostServices (store : ConfigStore) (ns : string) : outcome (gmap string ServiceEntry) :=
  for_each host_entry (store_List store GvkServiceEntry ns) ∅.

(** The mirrors take the port of the route, not their own. *)
Definition buildPrefixRoute (r : RedisRoute) (services : gmap string ServiceEntry) (listenPort : Z)
    (listenPortName : string) : outcome (PrefixRoute * bool) :=
  target ← deref (rr_Route r);
  let port := if rt_Port target =? 0
              then findServicePort (services !! rt_Host target) listenPort listenPortName else rt_Port target in
  mirrors ← map_panic (fun mirror =>
    fraction ← translatePercentToFractionalPercent (rm_Percentage mirror);
    mirrorTarget ← deref (rm_Route mirror);
    Ret {| rmpol_Cluster := outboundClusterName (rt_Host mirrorTarget) port;
           rmpol_ExcludeReadCommands := rm_ExcludeReadCommands mirror;
           rmpol_RuntimeFraction := fraction |}) (rr_Mirror r);
  let route prefix remove := {| pr_Cluster := outboundClusterName (rt_Host target) port; pr_Prefix := prefix;
                                pr_RemovePrefix := remove; pr_RequestMirrorPolicy := mirrors |} in
  match rr_Match r with
  | Some (Some key) => Ret (route (km_Prefix key) (km_RemovePrefix key), false)
  | _ => Ret (route "" false, true)
  end.

Definition default_settings (timeout : Duration) : ConnPoolSettings :=
  {| cps_OpTimeout := timeout; cps_EnableCommandStats := false; cps_EnableHashtagging := false;
     cps_EnableRedirection := false; cps_BufferFlushTimeout := None; cps_MaxBufferSizeBeforeFlush := 0;
     cps_ReadPolicy := MASTER |}.

(** The downstream credentials, [None] where the proxy's field is left nil. *)
Definition buildAuth (rs : RedisService) (auth : option Auth) : res (option string * option string) :=
  match password (rsv_Namespace rs) auth with
  | Err e => Err e
  | Ok (username, pw) => Ok (inlineString username, inlineString pw)
  end.

Definition buildSettings (proxy : RedisProxy) (rs : RedisService) (settings : RedisSettings) : res RedisProxy :=
  match (match rs_Auth settings with
         | None => Ok (rp_DownstreamAuthUsername proxy, rp_DownstreamAuthPassword proxy)
         | Some auth => buildAuth rs (Some auth)
         end) with
  | Err e => Err e
  | Ok (username, pw) =>
      let old := rp_Settings proxy in
      Ok {| rp_StatPrefix := rp_StatPrefix proxy;
            rp_Settings :=
              {| cps_OpTimeout := match rs_OpTimeout settings with Some t => t | None => cps_OpTimeout old end;
                 cps_EnableCommandStats := rs_EnableCommandStats settings;
                 cps_EnableHashtagging := rs_EnableHashtagging settings;
                 cps_EnableRedirection := rs_EnableRedirection settings;
                 cps_BufferFlushTimeout :=
                   match rs_BufferFlushTimeout settings with Some t => Some t | None => cps_BufferFlushTimeout old end;
                 cps_MaxBufferSizeBeforeFlush := rs_MaxBufferSizeBeforeFlush settings;
                 cps_ReadPolicy := convertPolicy (rs_ReadPolicy settings) |};
            rp_Routes := rp_Routes proxy; rp_CatchAllRoute := rp_CatchAllRoute proxy; rp_Faults := rp_Faults proxy;
            rp_DownstreamAuthPassword := pw; rp_DownstreamAuthUsername := username |}
  end.

Definition with_routes (proxy : RedisProxy) (routes : list PrefixRoute) (all : option PrefixRoute) : RedisProxy :=
  {| rp_StatPrefix := rp_StatPrefix proxy; rp_Settings := rp_Settings proxy; rp_Routes := routes;
     rp_CatchAllRoute := all; rp_Faults := rp_Faults proxy;
     rp_DownstreamAuthPassword := rp_DownstreamAuthPassword proxy;
     rp_DownstreamAuthUsername := rp_DownstreamAuthUsername proxy |}.

Definition catch_all (cluster : string) : PrefixRoute :=
  {| pr_Cluster := cluster; pr_Prefix := ""; pr_RemovePrefix := false; pr_RequestMirrorPolicy := [] |}.

(** One iteration over the routes: a route without key replaces the catch-all route. *)
Definition route_step (services : gmap string ServiceEntry) (listenPort : Z) (listenPortName : string)
    (proxy : RedisProxy) (r : RedisRoute) : outcome RedisProxy :=
  ra ← buildPrefixRoute r services listenPort listenPortName;
  let '(route, all) := ra in
  Ret (if all : bool then with_routes proxy (rp_Routes proxy) (Some route)
       else with_routes proxy (rp_Routes proxy ++ [route]) (rp_CatchAllRoute proxy)).

(** [Ok None] is the nil proxy without error. *)
Definition buildOutboundProxy (store : ConfigStore) (c : EnvoyFilterContext) (listenPort : Z)
    (listenPortName : string) : outcome (res (option RedisProxy)) :=
  let se := ctx_ServiceEntry c in
  let ns := m_Namespace (sew_Meta se) in
  match findTargetHostAndRedisService ns (se_Hosts (sew_Spec se)) with
  | Err e => Ret (Err e)
  | Ok None => Ret (Ok None)
  | Ok (Some (targetHost, rs)) =>
      services ← hostServices store ns;
      faults ← map_panic convertFault (rsv_Faults rs);
      let proxy := {| rp_StatPrefix := outboundClusterName targetHost listenPort;
                      rp_Settings := default_settings defaultOpTimeout; rp_Routes := [];
                      rp_CatchAllRoute := None; rp_Faults := faults;
                      rp_DownstreamAuthPassword := None; rp_DownstreamAuthUsername := None |} in
      match (match rsv_Settings rs with
             | None => Ok proxy
             | Some settings => buildSettings proxy rs settings
             end) with
      | Err e => Ret (Err e)
      | Ok proxy =>
          match rsv_Redis rs with
          | [] => Ret (Ok (Some (with_routes proxy [] (Some (catch_all (outboundClusterName targetHost listenPort))))))
          | routes =>
              proxy ← for_each (route_step services listenPort listenPortName) routes proxy;
              Ret (Ok (Some proxy))
          end
      end
  end.

Definition buildOutboundProxyWithFallback (store : ConfigStore) (c : EnvoyFilterContext) (listenPort : Z)
    (listenPortName : string) : outcome RedisProxy :=
  r ← buildOutboundProxy store c listenPort listenPortName;
  match r with
  | Ok (Some proxy) => Ret proxy
  | Ok None | Err _ =>
      host ← index (se_Hosts (sew_Spec (ctx_ServiceEntry c))) 0;
      Ret {| rp_StatPrefix := outboundClusterName host listenPort;
             rp_Settings := default_settings defaultOpTimeout; rp_Routes := [];
             rp_CatchAllRoute := Some (catch_all (outboundClusterName host listenPort)); rp_Faults := [];
             rp_DownstreamAuthPassword := None; rp_DownstreamAuthUsername := None |}
  end.

(** ** inbound.go *)
Definition buildInboundProxy (context : EnvoyFilterContext) : outcome RedisProxy :=
  port ← index (se_Ports (sew_Spec (ctx_ServiceEntry context))) 0;
  let name := BuildClusterName TrafficDirectionInbound "" "" (sp_Number port) in
  Ret {| rp_StatPrefix := name; rp_Settings := default_settings defaultInboundOpTimeout; rp_Routes := [];
         rp_CatchAllRoute := Some (catch_all name); rp_Faults := [];
         rp_DownstreamAuthPassword := None; rp_DownstreamAuthUsername := None |}.

(** ** outboundcluster.go *)
Definition find_destination (items : list RedisDestination) (hosts : list string) : option RedisDestination :=
  find (fun destination => existsb (String.eqb (rdn_Host destination)) hosts) items.

Fixpoint discovery_endpoints (eps : list string) (listenPort : Z) : option (list HostPort) :=
  match eps with
  | [] => Some []
  | ep :: rest =>
      match (match SplitHostPort ep with
             | Err e => if Contains e "missing port" then Some {| hp_Host := ep; hp_Port := listenPort |} else None
             | Ok (host, port) => Some {| hp_Host := host; hp_Port := u32 (Atoi_value port) |}
             end) with
      | None => None
      | Some hp => cons hp <$> discovery_endpoints rest listenPort
      end
  end.

Definition base_cluster (host : string) (listenPort : Z) : EnvoyCluster :=
  {| cl_Name := outboundClusterName host listenPort; cl_ConnectTimeout := {| Seconds := 10; Nanos := 0 |};
     cl_DiscoveryType := EDS; cl_EdsConfig := true; cl_LbPolicy := MAGLEV;
     cl_Thresholds := getDefaultCircuitBreakerThresholds; cl_LoadAssignment := None; cl_Auth := None;
     cl_Metadata := ∅; cl_Filters := []; cl_TransportSocketMatches := [] |}.

(** The cluster of a Redis cluster: [None] when an endpoint cannot be read. *)
Definition cluster_mode (cl : EnvoyCluster) (conn : RedisConn) (targetHost : string) (listenPort : Z)
    : option EnvoyCluster :=
  match rc_Mode conn with
  | PROXY => Some cl
  | CLUSTER_MODE =>
      match (match rc_DiscoveryEndpoints conn with
             | [] => Some [{| hp_Host := targetHost; hp_Port := listenPort |}]
             | eps => discovery_endpoints eps listenPort
             end) with
      | None => None
      | Some hostports =>
          Some {| cl_Name := cl_Name cl; cl_ConnectTimeout := cl_ConnectTimeout cl;
                  cl_DiscoveryType := CustomCluster "envoy.clusters.redis"; cl_EdsConfig := false;
                  cl_LbPolicy := CLUSTER_PROVIDED; cl_Thresholds := cl_Thresholds cl;
                  cl_LoadAssignment := Some {| cla_ClusterName := cl_Name cl; cla_Endpoints := toLbEndpoints hostports |}; cl_Auth := cl_Auth cl; cl_Metadata := cl_Metadata cl;
                  cl_Filters := cl_Filters cl; cl_TransportSocketMatches := cl_TransportSocketMatches cl |}
      end
  end.

(** The upstream credentials. *)
Definition cluster_auth (cl : EnvoyCluster) (conn : RedisConn) (ns : string) : option EnvoyCluster :=
  match rc_Auth conn with
  | None => Some cl
  | Some auth =>
      match password ns (Some auth) with
      | Err _ => None
      | Ok (username, pw) =>
          if negb (anypb_New (inlineString pw) (inlineString username)) then None else
          Some {| cl_Name := cl_Name cl; cl_ConnectTimeout := cl_ConnectTimeout cl;
                  cl_DiscoveryType := cl_DiscoveryType cl; cl_EdsConfig := cl_EdsConfig cl;
                  cl_LbPolicy := cl_LbPolicy cl; cl_Thresholds := cl_Thresholds cl;
                  cl_LoadAssignment := cl_LoadAssignment cl; cl_Auth := Some (inlineString pw, inlineString username);
                  cl_Metadata := cl_Metadata cl; cl_Filters := cl_Filters cl;
                  cl_TransportSocketMatches := cl_TransportSocketMatches cl |}
      end
  end.

Definition cluster_tcp (cl : EnvoyCluster) (tcp : TcpConn) : outcome EnvoyCluster :=
  _ ← match tc_TcpKeepalive tcp with None => Ret () | Some k => setKeepAliveSettings k end;
  Ret {| cl_Name := cl_Name cl;
         cl_ConnectTimeout := match tc_ConnectTimeout tcp with Some t => t | None => cl_ConnectTimeout cl end;
         cl_DiscoveryType := cl_DiscoveryType cl; cl_EdsConfig := cl_EdsConfig cl; cl_LbPolicy := cl_LbPolicy cl;
         cl_Thresholds :=
           if 0 <? tc_MaxConnections tcp
           then {| th_MaxConnections := u32 (tc_MaxConnections tcp); th_MaxRetries := MaxUint32;
                   th_MaxRequests := MaxUint32; th_MaxPendingRequests := MaxUint32 |}
           else cl_Thresholds cl;
         cl_LoadAssignment := cl_LoadAssignment cl; cl_Auth := cl_Auth cl; cl_Metadata := cl_Metadata cl;
         cl_Filters := cl_Filters cl; cl_TransportSocketMatches := cl_TransportSocketMatches cl |}.

Context `{WellKnown}.

(** The fields that the code goes on to write to; absent metadata is the empty map. *)
Definition getOrCreateIstioMetadata (cl : EnvoyCluster) : gmap string PValue :=
  default ∅ (cl_Metadata cl !! IstioMetadataKey).

(** [addIstioFilter], and the raw transport socket the caller then sets. *)
Definition addIstioFilter (cl : EnvoyCluster) (port : Z) (host name namespace : string) : EnvoyCluster :=
  let name := TrimPrefix name "synthetic-" in
  let fields := getOrCreateIstioMetadata cl in
  let fields := <["services" := ListValue [buildServiceMetadata host name namespace]]>
                  (<["default_original_port" := NumberValue port]> fields) in
  {| cl_Name := cl_Name cl; cl_ConnectTimeout := cl_ConnectTimeout cl; cl_DiscoveryType := cl_DiscoveryType cl;
     cl_EdsConfig := cl_EdsConfig cl; cl_LbPolicy := cl_LbPolicy cl; cl_Thresholds := cl_Thresholds cl;
     cl_LoadAssignment := cl_LoadAssignment cl; cl_Auth := cl_Auth cl;
     cl_Metadata := <[IstioMetadataKey := fields]> (cl_Metadata cl);
     cl_Filters := cl_Filters cl ++ [TCPClusterMx_Name];
     cl_TransportSocketMatches := cl_TransportSocketMatches cl |}.
Definition raw_transport (cl : EnvoyCluster) : EnvoyCluster :=
  {| cl_Name := cl_Name cl; cl_ConnectTimeout := cl_ConnectTimeout cl; cl_DiscoveryType := cl_DiscoveryType cl;
     cl_EdsConfig := cl_EdsConfig cl; cl_LbPolicy := cl_LbPolicy cl; cl_Thresholds := cl_Thresholds cl;
     cl_LoadAssignment := cl_LoadAssignment cl; cl_Auth := cl_Auth cl; cl_Metadata := cl_Metadata cl;
     cl_Filters := cl_Filters cl; cl_TransportSocketMatches := [("tlsMode-disabled", TransportSocketRawBuffer)] |}.

(** The settings of a connection pool: [None] when the cluster is not generated. *)
Definition pool_cluster (c : EnvoyFilterContext) (cl : EnvoyCluster) (destination : RedisDestination)
    (pool : ConnectionPool) (listenPort : Z) : outcome (option EnvoyCluster) :=
  let meta := sew_Meta (ctx_ServiceEntry c) in
  match (match cp_Redis pool with
         | None => Some cl
         | Some conn => cluster_mode cl conn (rdn_Host destination) listenPort
                          ≫= fun cl => cluster_auth cl conn (m_Namespace meta)
         end) with
  | None => Ret None
  | Some cl =>
      cl ← match cp_Tcp pool with None => Ret cl | Some tcp => cluster_tcp cl tcp end;
      Ret (Some (raw_transport
        (addIstioFilter cl listenPort (rdn_Host destination) (m_Name meta) (m_Namespace meta))))
  end.

Definition buildOutboundCluster (c : EnvoyFilterContext) (listenPort : Z) : outcome (option EnvoyCluster) :=
  let se := ctx_ServiceEntry c in
  host ← index (se_Hosts (sew_Spec se)) 0;
  let cl := base_cluster host listenPort in
  match RedisDestinations_List (m_Namespace (sew_Meta se)) with
  | Err _ => Ret None
  | Ok items =>
      match find_destination items (se_Hosts (sew_Spec se)) with
      | None => Ret (Some cl)
      | Some destination =>
          match rdn_TrafficPolicy destination with
          | None | Some None => Ret (Some cl)
          | Some (Some pool) => pool_cluster c cl destination pool listenPort
          end
      end
  end.

(** ** generator.go *)
Context `{ProtoJSON RedisProxy, ProtoJSON EnvoyCluster, ProtoJSONStruct}.
Variable store : ConfigStore.

Definition valueOf (message : EnvoyCluster) : res PValue :=
  match protojson_Marshal (Message message) with
  | Err e => Err e
  | Ok buf => match protojson_Unmarshal buf with Err e => Err e | Ok out => Ok (StructValue out) end
  end.

Definition ReplaceClusterPatches (cluster : EnvoyCluster) : list EnvoyConfigObjectPatch :=
  match valueOf cluster with
  | Err _ => []
  | Ok clusterStruct =>
      [{| cp_ApplyTo := CLUSTER; cp_Match := Some (ClusterMatch (cl_Name cluster)); cp_Operation := REMOVE;
          cp_Value := None |};
       {| cp_ApplyTo := CLUSTER; cp_Match := None; cp_Operation := ADD; cp_Value := Some clusterStruct |}]
  end.

Definition append_patches (patches : list EnvoyConfigObjectPatch) (w : EnvoyFilterWrapper) : EnvoyFilterWrapper :=
  match ef_WorkloadSelector (efw_Envoyfilter w) with
  | Some _ => w
  | None => {| efw_Name := efw_Name w; efw_Namespace := efw_Namespace w;
               efw_Envoyfilter := {| ef_WorkloadSelector := None;
                 ef_ConfigPatches := ef_ConfigPatches (efw_Envoyfilter w) ++ patches |} |}
  end.

Definition redis_filter_name : string := "envoy.filters.network.redis_proxy".
Definition redis_filter_type : string :=
  "type.googleapis.com/envoy.extensions.filters.network.redis_proxy.v3.RedisProxy".

(** The context after a previous call may have written to its service entry. *)
Definition set_service (c : EnvoyFilterContext) (service : ServiceEntryWrapper) : EnvoyFilterContext :=
  {| ctx_MeshConfig := ctx_MeshConfig c; ctx_Gateway := ctx_Gateway c; ctx_ServiceEntry := service;
     ctx_VirtualService := ctx_VirtualService c; ctx_MetaRouter := ctx_MetaRouter c |}.

Definition generate (c : EnvoyFilterContext) (targetPort : ServicePort)
    : outcome (list EnvoyFilterWrapper * ServiceEntryWrapper) :=
  port0 ← index (se_Ports (sew_Spec (ctx_ServiceEntry c))) 0;
  outbound ← buildOutboundProxyWithFallback store c (sp_Number targetPort) (sp_Name targetPort);
  inbound ← buildInboundProxy c;
  r ← GenerateReplaceNetworkFilter (ctx_ServiceEntry c) port0
        (Message outbound) (Message inbound) redis_filter_name redis_filter_type;
  let '(filters, service) := r in
  cluster ← buildOutboundCluster (set_service c service) (sp_Number targetPort);
  let filters : list EnvoyFilterWrapper :=
    match cluster with
    | None => filters
    | Some cluster => append_patches (ReplaceClusterPatches cluster) <$> filters
    end in
  Ret (filters, service).

Definition generate_step (c : EnvoyFilterContext) (acc : list EnvoyFilterWrapper * ServiceEntryWrapper)
    (port : ServicePort) : outcome (list EnvoyFilterWrapper * ServiceEntryWrapper) :=
  if HasPrefix (sp_Name port) "tcp-redis" then
    r ← generate (set_service c (snd acc)) port;
    Ret (fst acc ++ fst r, snd r)
  else Ret acc.

Definition Generate : Generator := fun c =>
  r ← for_each (generate_step c) (se_Ports (sew_Spec (ctx_ServiceEntry c))) ([], ctx_ServiceEntry c);
  Ret (fst r, None).
End redis.

(** ** The routes *)
Section routes.
Context `{IstioNaming, RedisEnv} (oob : Z).

Definition mirror_ok (m : RedisMirror) : Prop := is_Some (rm_Route m) /\ is_Some (rm_Percentage m).
Definition redis_route_ok (r : RedisRoute) : Prop := is_Some (rr_Route r) /\ Forall mirror_ok (rr_Mirror r).

Definition keyed (r : RedisRoute) : bool := match rr_Match r with Some (Some _) => true | _ => false end.

(** The port of a route: its own, or else the one found in the target's service entry. *)
Definition route_port (services : gmap string ServiceEntry) (listenPort : Z) (listenPortName : string)
    (t : RedisTarget) : Z :=
  if rt_Port t =? 0 then findServicePort (services !! rt_Host t) listenPort listenPortName else rt_Port t.

Definition expected_mirror (port : Z) (m : RedisMirror) : RedisMirrorPolicy :=
  {| rmpol_Cluster := outboundClusterName (default "" (rt_Host <$> rm_Route m)) port;
     rmpol_ExcludeReadCommands := rm_ExcludeReadCommands m;
     rmpol_RuntimeFraction := {| fp_Numerator := u32_of_f64 oob (f64_mul (default (f64_of_Z 0) (rm_Percentage m)) (f64_of_Z 10000));
                                 fp_Denominator := MILLION |} |}.

Definition expected_route (services : gmap string ServiceEntry) (listenPort : Z) (listenPortName : string)
    (r : RedisRoute) : PrefixRoute :=
  let t := default {| rt_Host := ""; rt_Port := 0 |} (rr_Route r) in
  let port := route_port services listenPort listenPortName t in
  let key := default {| km_Prefix := ""; km_RemovePrefix := false |} (rr_Match r ≫= id) in
  {| pr_Cluster := outboundClusterName (rt_Host t) port; pr_Prefix := km_Prefix key;
     pr_RemovePrefix := km_RemovePrefix key; pr_RequestMirrorPolicy := expected_mirror port <$> rr_Mirror r |}.

Lemma buildPrefixRoute_ok services listenPort listenPortName r :
  redis_route_ok r ->
  buildPrefixRoute oob r services listenPort listenPortName =
  Ret (expected_route services listenPort listenPortName r, negb (keyed r)).
Proof.
  intros [[t Ht] Hm]. unfold buildPrefixRoute, expected_route, keyed. rewrite Ht.
  cbn [deref default from_option id mbind outcome_bind option_bind]. fold (route_port services listenPort listenPortName t).
  rewrite (map_panic_Ret _ (expected_mirror (route_port services listenPort listenPortName t))).
  - cbn [mbind outcome_bind]. by destruct (rr_Match r) as [[k|]|].
  - intros m Hin. apply (proj1 (Forall_forall _ _) Hm) in Hin as [[mt Hmt] [p Hp]].
    unfold translatePercentToFractionalPercent, expected_mirror. by rewrite Hmt, Hp.
Qed.

Lemma route_loop services listenPort listenPortName routes proxy :
  Forall redis_route_ok routes ->
  for_each (route_step oob services listenPort listenPortName) routes proxy =
  Ret (with_routes proxy
    (rp_Routes proxy ++ (expected_route services listenPort listenPortName <$> List.filter keyed routes))
    (match last (List.filter (fun r => negb (keyed r)) routes) with
     | Some r => Some (expected_route services listenPort listenPortName r)
     | None => rp_CatchAllRoute proxy
     end)).
Proof.
  intros Hok. induction routes as [|r routes IH] using rev_ind.
  { cbn. rewrite app_nil_r. by destruct proxy. }
  apply Forall_app in Hok as [Hok Hr]. apply Forall_cons in Hr as [Hr _].
  rewrite for_each_app, IH by done. cbn [mbind outcome_bind for_each]. unfold route_step.
  rewrite buildPrefixRoute_ok by done. cbn [mbind outcome_bind].
  rewrite !List.filter_app. cbn [List.filter]. destruct (keyed r); cbn [negb].
  - rewrite app_nil_r, fmap_app. cbn [rp_Routes rp_CatchAllRoute with_routes]. by rewrite <- app_assoc.
  - rewrite app_nil_r, last_snoc. done.
Qed.

(** The mesh is well-formed for a Redis service: its faults have percentages and the
    store lists service entries only. *)
Definition faults_ok (rs : RedisService) : Prop := Forall (fun f => is_Some (fa_Percentage f)) (rsv_Faults rs).
Definition store_ok (store : ConfigStore) (ns : string) : Prop :=
  forall config, config ∈ store_List store GvkServiceEntry ns -> is_Some (asServiceEntry (c_Spec config)).

Lemma hostServices_ok store ns : store_ok store ns -> exists services, hostServices store ns = Ret services.
Proof.
  intros Hs. destruct (for_each_inv (fun _ _ => True) host_entry (store_List store GvkServiceEntry ns) ∅ I)
    as (services & Hh & _); [|by exists services].
  intros d config m _ Hin. unfold host_entry. destruct (Hs config Hin) as [se ->]. eauto.
Qed.

Lemma faults_build rs : faults_ok rs -> exists fs, map_panic (convertFault oob) (rsv_Faults rs) = Ret fs.
Proof.
  intros Hf. apply map_panic_ex. intros f Hin. apply (proj1 (Forall_forall _ _) Hf) in Hin as [p Hp].
  unfold convertFault, translatePercentToFractionalPercent. rewrite Hp. cbn. eauto.
Qed.

Lemma buildSettings_routes proxy rs settings p :
  buildSettings proxy rs settings = Ok p ->
  rp_Routes p = rp_Routes proxy /\ rp_CatchAllRoute p = rp_CatchAllRoute proxy /\ rp_StatPrefix p = rp_StatPrefix proxy.
Proof. unfold buildSettings. by repeat case_match; intros [= <-]. Qed.

(** C35: Redis routing. For a service entry with a well-formed RedisService the proxy is
    built unless a secret cannot be read, and then: the routes with a key prefix become
    the prefix routes, in order; of the routes without key the last one becomes the
    catch-all route; a RedisService without routes sends everything to the service's own
    cluster, and one with keyed routes only has no catch-all route. A target without port
    takes the port found in its service entry, and mirrors take the port of their route. *)
Theorem redis_routes store c listenPort listenPortName targetHost rs :
  let ns := m_Namespace (sew_Meta (ctx_ServiceEntry c)) in
  findTargetHostAndRedisService ns (se_Hosts (sew_Spec (ctx_ServiceEntry c))) = Ok (Some (targetHost, rs)) ->
  faults_ok rs -> store_ok store ns -> Forall redis_route_ok (rsv_Redis rs) ->
  exists services, hostServices store ns = Ret services /\
    ((exists e, buildOutboundProxy oob store c listenPort listenPortName = Ret (Err e) /\
                exists settings auth, rsv_Settings rs = Some settings /\ rs_Auth settings = Some auth /\
                  password (rsv_Namespace rs) (Some auth) = Err e) \/
     exists proxy, buildOutboundProxy oob store c listenPort listenPortName = Ret (Ok (Some proxy)) /\
       rp_StatPrefix proxy = outboundClusterName targetHost listenPort /\
       rp_Routes proxy = expected_route services listenPort listenPortName <$> List.filter keyed (rsv_Redis rs) /\
       rp_CatchAllRoute proxy =
         match rsv_Redis rs with
         | [] => Some (catch_all (outboundClusterName targetHost listenPort))
         | routes => expected_route services listenPort listenPortName <$> last (List.filter (negb ∘ keyed) routes)
         end).
Proof.
  intros ns Hfind Hf Hs Hr. destruct (hostServices_ok store ns Hs) as [services Hsv].
  destruct (faults_build rs Hf) as [faults Hfaults].
  exists services. split; [done|]. unfold buildOutboundProxy. fold ns. rewrite Hfind, Hsv, Hfaults.
  cbn [mbind outcome_bind]. set (p0 := {| rp_StatPrefix := _ |}).
  destruct (match rsv_Settings rs with None => Ok p0 | Some s => buildSettings p0 rs s end) as [p|e] eqn:Es.
  - right.
    assert (Hp : rp_Routes p = [] /\ rp_CatchAllRoute p = None /\ rp_StatPrefix p = outboundClusterName targetHost listenPort).
    { destruct (rsv_Settings rs); [|by injection Es as <-].
      apply buildSettings_routes in Es as (-> & -> & ->). done. }
    destruct Hp as (Hp1 & Hp2 & Hp3). destruct (rsv_Redis rs) as [|r routes] eqn:Er; [by eexists|].
    rewrite <- Er in *. rewrite route_loop by done. cbn [mbind outcome_bind]. eexists. split; [done|].
    cbn [with_routes rp_StatPrefix rp_Routes rp_CatchAllRoute]. rewrite Hp1, Hp2. split_and!; [done..|].
    rewrite Er. by destruct (last _).
  - left. exists e. split; [done|]. destruct (rsv_Settings rs) as [settings|]; [|discriminate Es]. exists settings.
    unfold buildSettings in Es. destruct (rs_Auth settings) as [auth|]; [|discriminate Es]. exists auth.
    split_and!; [done..|]. unfold buildAuth in Es. destruct (password _ _) as [[u w]|e2]; [discriminate Es|by injection Es as <-].
Qed.
End routes.

(** ** Several Redis ports *)
Section ports.
Context `{IstioNaming, RedisEnv, WellKnown, ProtoJSON RedisProxy, ProtoJSON EnvoyCluster, ProtoJSONStruct} (oob : Z).
Variable store : ConfigStore.

(** The name and the listener patch of a filter are those of the first port. *)
Definition first_port_filter (s : ServiceEntryWrapper) (w : EnvoyFilterWrapper) : Prop :=
  exists h port0 v, head (se_Hosts (sew_Spec s)) = Some h /\ head (se_Ports (sew_Spec s)) = Some port0 /\
    ((exists addr, addr ∈ se_Addresses (sew_Spec s) /\
        efw_Name w = outboundEnvoyFilterName h addr (sp_Number port0) /\
        head (ef_ConfigPatches (efw_Envoyfilter w)) = Some (outboundProxyPatch addr port0 REPLACE v)) \/
     (efw_Name w = inboundEnvoyFilterName h (sp_Number port0) /\
        head (ef_ConfigPatches (efw_Envoyfilter w)) = Some (inboundProxyPatch port0 REPLACE v))).

Lemma index_head {A} (l : list A) a : index l 0 = Ret a -> head l = Some a.
Proof. destruct l; intros [= ->]. done. Qed.

Lemma append_patches_first s patches w : first_port_filter s w -> first_port_filter s (append_patches patches w).
Proof.
  intros (h & p & v & Hh & Hp & Hcase). exists h, p, v. split; [done|]. split; [done|].
  unfold append_patches. destruct (ef_WorkloadSelector (efw_Envoyfilter w)); [done|].
  cbn [efw_Name efw_Envoyfilter ef_ConfigPatches]. destruct (ef_ConfigPatches (efw_Envoyfilter w)); naive_solver.
Qed.

Definition same_frame (s0 s : ServiceEntryWrapper) : Prop :=
  sew_Meta s = sew_Meta s0 /\ se_Hosts (sew_Spec s) = se_Hosts (sew_Spec s0) /\
  se_Ports (sew_Spec s) = se_Ports (sew_Spec s0) /\ se_Addresses (sew_Spec s) = se_Addresses (sew_Spec s0).

Lemma first_port_same s0 s w : same_frame s0 s -> first_port_filter s w -> first_port_filter s0 w.
Proof. unfold first_port_filter. by intros (_ & -> & -> & ->). Qed.

Lemma generate_first c port fs s :
  generate oob store c port = Ret (fs, s) ->
  same_frame (ctx_ServiceEntry c) s /\ Forall (first_port_filter (ctx_ServiceEntry c)) fs.
Proof.
  unfold generate, GenerateReplaceNetworkFilter. intros (port0 & Hp0 & Hg)%bind_Ret_inv.
  apply bind_Ret_inv in Hg as (outbound & _ & Hg). apply bind_Ret_inv in Hg as (inbound & _ & Hg).
  apply bind_Ret_inv in Hg as ([fs1 s1] & Hn & Hg). apply bind_Ret_inv in Hg as (cluster & _ & [= <- <-]).
  split; [by apply generateNetworkFilter_frame in Hn|].
  assert (Hfs : Forall (first_port_filter (ctx_ServiceEntry c)) fs1).
  { apply Forall_forall. intros w Hw.
    destruct (generateNetworkFilter_elem _ _ _ _ _ _ _ _ _ _ Hn Hw) as (h & v & Hh & Hcase).
    exists h, port0, v. split; [by apply index_head|]. split; [by apply index_head|].
    destruct Hcase as [(addr & Ha & ->)|(sel & Hs & ->)]; [left; by exists addr|by right]. }
  destruct cluster as [cl|]; [|done]. apply Forall_fmap. eapply Forall_impl; [exact Hfs|].
  intros w. apply append_patches_first.
Qed.

(** Only the first port of a service entry gets Redis proxies. Whichever of its ports
    are Redis ports, every filter generated patches a listener of the entry's first port
    and is named after it, so that the filters of several Redis ports have the same names
    and replace each other in the controller's map. *)
Theorem redis_first_port_only c fs err :
  Generate oob store c = Ret (fs, err) -> Forall (first_port_filter (ctx_ServiceEntry c)) fs.
Proof.
  unfold Generate. intros ([fs' s'] & Hloop & [= <- _])%bind_Ret_inv. cbn [fst].
  apply (for_each_preserve
    (fun acc => same_frame (ctx_ServiceEntry c) (snd acc) /\ Forall (first_port_filter (ctx_ServiceEntry c)) (fst acc)))
    in Hloop; [by apply Hloop| |split; [done|by constructor]].
  intros [fs1 s1] port [fs2 s2] _ [Hs1 Hf1]. unfold generate_step. cbn [fst snd] in *.
  destruct (HasPrefix (sp_Name port) "tcp-redis"); [|by intros [= <- <-]].
  intros ([fs3 s3] & Hg & [= <- <-])%bind_Ret_inv. apply generate_first in Hg as [Hs3 Hf3]. cbn [set_service ctx_ServiceEntry fst snd] in *.
  split.
  - destruct Hs1 as (? & ? & ? & ?), Hs3 as (? & ? & ? & ?). repeat split; congruence.
  - apply Forall_app. split; [done|]. eapply Forall_impl; [exact Hf3|]. intros w. by apply first_port_same.
Qed.
End ports.

(** ** The cluster *)
Section cluster.
Context `{IstioNaming, RedisEnv, WellKnown}.

(** Some keep-alive setting is present. *)
Definition keepalive_set (k : TcpKeepalive) : Prop :=
  0 < ka_Probes k \/ is_Some (ka_Time k) \/ is_Some (ka_Interval k).

Lemma setKeepAliveSettings_panics k : panics (setKeepAliveSettings k) = true <-> keepalive_set k.
Proof.
  unfold setKeepAliveSettings, keepalive_set. destruct (Z.ltb_spec 0 (ka_Probes k)).
  - split; [by left|done].
  - destruct (ka_Time k), (ka_Interval k); cbn; split; try done; try (intros _; right; eauto);
      intros [?|[[? ?]|[? ?]]]; done || lia.
Qed.

(** The connection pool the cluster of a context is built from, once its Redis settings
    (endpoints, credentials) could be read. *)
Definition usable_pool (c : EnvoyFilterContext) (host : string) (listenPort : Z) (pool : ConnectionPool) : Prop :=
  let se := ctx_ServiceEntry c in
  exists items destination, RedisDestinations_List (m_Namespace (sew_Meta se)) = Ok items /\
    find_destination items (se_Hosts (sew_Spec se)) = Some destination /\
    rdn_TrafficPolicy destination = Some (Some pool) /\
    forall conn, cp_Redis pool = Some conn ->
      is_Some (cluster_mode (base_cluster host listenPort) conn (rdn_Host destination) listenPort
                 ≫= fun cl => cluster_auth cl conn (m_Namespace (sew_Meta se))).

Lemma pool_cluster_panics c cl destination pool listenPort :
  panics (pool_cluster c cl destination pool listenPort) = true <->
  (forall conn, cp_Redis pool = Some conn ->
     is_Some (cluster_mode cl conn (rdn_Host destination) listenPort
                ≫= fun cl => cluster_auth cl conn (m_Namespace (sew_Meta (ctx_ServiceEntry c))))) /\
  exists tcp k, cp_Tcp pool = Some tcp /\ tc_TcpKeepalive tcp = Some k /\ keepalive_set k.
Proof.
  unfold pool_cluster. set (r := match cp_Redis pool with None => _ | _ => _ end).
  assert (Hr : is_Some r <-> forall conn, cp_Redis pool = Some conn ->
     is_Some (cluster_mode cl conn (rdn_Host destination) listenPort
                ≫= fun cl => cluster_auth cl conn (m_Namespace (sew_Meta (ctx_ServiceEntry c))))).
  { unfold r. destruct (cp_Redis pool) as [conn|]; [|naive_solver]. split; [by intros ? ? [= <-]|eauto]. }
  rewrite <- Hr. clearbody r. destruct r as [cl'|]; [|split; [done|intros [[? ?] _]; done]].
  transitivity (exists tcp k, cp_Tcp pool = Some tcp /\ tc_TcpKeepalive tcp = Some k /\ keepalive_set k);
    [|naive_solver eauto].
  destruct (cp_Tcp pool) as [tcp|]; [|naive_solver]. unfold cluster_tcp.
  destruct (tc_TcpKeepalive tcp) as [k|] eqn:Ek; [|naive_solver]. pose proof (setKeepAliveSettings_panics k) as Hk.
  destruct (setKeepAliveSettings k); cbn in *; naive_solver.
Qed.

(** The construction of the Redis cluster crashes exactly when the entry has no host or
    the connection pool of its RedisDestination sets any TCP keep-alive option: the options
    are written into a nil part of the cluster. *)
Theorem redis_cluster_panics c listenPort :
  panics (buildOutboundCluster c listenPort) = true <->
  se_Hosts (sew_Spec (ctx_ServiceEntry c)) = [] \/
  exists host pool tcp k, head (se_Hosts (sew_Spec (ctx_ServiceEntry c))) = Some host /\
    usable_pool c host listenPort pool /\ cp_Tcp pool = Some tcp /\ tc_TcpKeepalive tcp = Some k /\ keepalive_set k.
Proof.
  unfold buildOutboundCluster, usable_pool. destruct (se_Hosts (sew_Spec (ctx_ServiceEntry c))) as [|h hs]; [naive_solver|].
  cbn [index lookup list_lookup mbind outcome_bind head].
  destruct (RedisDestinations_List _) as [items|e]; [|naive_solver].
  destruct (find_destination items (h :: hs)) as [d|] eqn:Ed; [|naive_solver].
  destruct (rdn_TrafficPolicy d) as [[pool|]|] eqn:Et; [|naive_solver..].
  rewrite pool_cluster_panics. split.
  - intros (Hu & tcp & k & Hrest). right. exists h, pool, tcp, k. split; [done|]. split; [|done]. by exists items, d.
  - intros [?|(h' & pool' & tcp & k & [= <-] & (items' & d' & [= <-] & Hd & Ht & Hu) & Hrest)]; [done|].
    rewrite Ed in Hd. injection Hd as <-. rewrite Et in Ht. injection Ht as <-. split; [done|]. by exists tcp, k.
Qed.
End cluster.

(** ** Discovery endpoints *)
Lemma digits_value_app s t acc : digits_value acc (s +:+ t) = digits_value (digits_value acc s) t.
Proof. revert acc. induction s as [|a s IH]; intros acc; [done|]. apply IH. Qed.

Lemma pretty_N_go_value x s :
  exists d, pretty_N_go x s = d +:+ s /\ digits_value 0 d = Z.of_N x.
Proof.
  revert s. induction (N.lt_wf_0 x) as [x _ IH]; intros s. destruct (decide (x = 0%N)) as [->|Hx].
  { exists "". by rewrite pretty_N_go_0. }
  rewrite pretty_N_go_step by lia. assert (Hlt : (x `div` 10 < x)%N) by (apply N.div_lt; lia).
  destruct (IH _ Hlt (String (pretty_N_char (x `mod` 10)) s)) as (d & -> & Hd).
  exists (d +:+ String (pretty_N_char (x `mod` 10)) ""). split; [by rewrite str_app_assoc|].
  rewrite digits_value_app, Hd. cbn [digits_value].
  assert (Hc : Z.of_N (N_of_ascii (pretty_N_char (x `mod` 10))) - 48 = Z.of_N (x `mod` 10)).
  { assert (Hm : (x `mod` 10 < 10)%N) by (apply N.mod_lt; lia). revert Hm. generalize (x `mod` 10)%N as m. intros m Hm.
    assert (m = 0 \/ m = 1 \/ m = 2 \/ m = 3 \/ m = 4 \/ m = 5 \/ m = 6 \/ m = 7 \/ m = 8 \/ m = 9)%N as Hcases by lia.
    by repeat destruct Hcases as [->|Hcases]; [..|subst m]. }
  rewrite Hc. pose proof (N.div_mod x 10 ltac:(lia)). lia.
Qed.

Lemma Itoa_value p : 0 <= p -> digits_value 0 (Itoa p) = p.
Proof.
  intros Hp. destruct p as [|p|p]; [done| |lia]. rewrite Itoa_pos. unfold pretty, pretty_N.
  rewrite decide_False by done. destruct (pretty_N_go_value (Npos p) "") as (d & -> & Hd).
  by rewrite str_app_nil_r, Hd.
Qed.

Lemma Atoi_value_Itoa p : 0 <= p < 2^63 -> Atoi_value (Itoa p) = p.
Proof.
  intros Hp. assert (Hd : all_digits (Itoa p) = true).
  { destruct p as [|p|p]; [done| |lia]. rewrite Itoa_pos. apply pretty_N_numeral. }
  pose proof (Itoa_value p ltac:(lia)) as Hv. pose proof (Itoa_nonempty p) as Hne.
  unfold Atoi_value. destruct (Itoa p) as [|a s] eqn:E; [done|].
  assert (Ha : is_digit a = true) by (by apply andb_true_iff in Hd as [? _]).
  assert ((match String a s with String "-" r => (true, r) | String "+" r => (false, r) | _ => (false, String a s) end)
    = (false, String a s)) as ->.
  { destruct a as [[] [] [] [] [] [] [] []]; done. }
  rewrite Hd. cbn [negb orb String.eqb]. rewrite Hv. lia.
Qed.

Lemma LastIndexByte_app h c p : ContainsChar p c = false -> LastIndexByte (h +:+ String c p) c = Some (String.length h).
Proof.
  intros Hp. assert (Hnone : LastIndexByte p c = None).
  { revert Hp. induction p as [|a p IH]; [done|]. cbn [ContainsChar LastIndexByte].
    destruct (Ascii.eqb a c); [done|]. by intros ->%IH. }
  induction h as [|a h IH]; cbn [String.append LastIndexByte String.length].
  - by rewrite Hnone, ascii_eqb_refl.
  - by rewrite IH.
Qed.

Lemma LastIndexByte_None s c : ContainsChar s c = false -> LastIndexByte s c = None.
Proof.
  induction s as [|a s IH]; [done|]. cbn [ContainsChar LastIndexByte].
  destruct (Ascii.eqb a c); [done|]. by intros ->%IH.
Qed.

(** A host name or IPv4 address: no colon, no bracket. *)
Definition plain_host (h : string) : bool :=
  negb (ContainsChar h ":") && negb (ContainsChar h "[") && negb (ContainsChar h "]").

Lemma SplitHostPort_plain h p :
  plain_host h = true -> plain_host p = true -> SplitHostPort (h +:+ String ":" p) = Ok (h, p).
Proof.
  unfold plain_host. rewrite !andb_true_iff, !negb_true_iff. intros [[Hc Hl] Hr] [[Hpc Hpl] Hpr].
  unfold SplitHostPort. rewrite LastIndexByte_app by done.
  assert (HasPrefix (h +:+ String ":" p) "[" = false) as ->.
  { destruct h as [|a h]; [done|]. cbn [ContainsChar String.append HasPrefix] in Hl |- *.
    destruct (Ascii.eqb "[" a) eqn:E; [|done]. apply Ascii.eqb_eq in E as <-. done. }
  rewrite take_str_app, Hc. cbn [drop_str]. rewrite !ContainsChar_app, Hl, Hr. cbn [ContainsChar Ascii.eqb Bool.eqb orb].
  rewrite Hpl, Hpr. cbn. do 2 f_equal.
  rewrite str_app_cons. pose proof (drop_str_app (h +:+ ":") p) as Hd.
  rewrite str_length_app in Hd. cbn [String.length] in Hd. by rewrite Nat.add_1_r in Hd.
Qed.

(** Discovery endpoints of a Redis cluster are read as they are written: a host with a
    port gives that host and port, a host alone gets the port of the listener, and the
    order is kept; an endpoint with too many colons, such as an IPv6 address without
    brackets, makes the whole cluster disappear. *)
Theorem redis_discovery_endpoints eps listenPort :
  (forall h p, (h, p) ∈ eps -> plain_host h = true /\ forall n, p = Some n -> 0 <= n < 2^32) ->
  discovery_endpoints
    ((fun '(h, p) => match p with Some n => h +:+ String ":" (Itoa n) | None => h end) <$> eps) listenPort =
  Some ((fun '(h, p) => {| hp_Host := h; hp_Port := default listenPort p |}) <$> eps) /\
  discovery_endpoints ["::1"] listenPort = None.
Proof.
  intros Hok. split; [|done]. induction eps as [|[h p] eps IH]; [done|].
  destruct (Hok h p ltac:(by left)) as [Hh Hp]. rewrite !fmap_cons. cbn [discovery_endpoints].
  rewrite IH by (intros h' p' ?; apply Hok; by right). destruct p as [n|].
  - specialize (Hp n eq_refl). rewrite SplitHostPort_plain; [|done|].
    + rewrite Atoi_value_Itoa by lia. by rewrite u32_id.
    + unfold plain_host. by rewrite !Itoa_free.
  - unfold SplitHostPort. rewrite LastIndexByte_None; [done|].
    unfold plain_host in Hh. by destruct (ContainsChar h ":").
Qed.

(** ** Credentials and settings *)
Lemma secret_defaults `{RedisEnv} ns name data :
  Secrets_Get ns name = Ok data -> data !! "" = None ->
  password ns (Some (Auth_Secret {| sr_Name := name; sr_UsernameField := ""; sr_PasswordField := "" |})) =
  Ok ("", match data !! defaultPassword, data !! defaultPassword2 with
          | Some v, _ => TrimSpace v
          | None, Some v => TrimSpace v
          | None, None => ""
          end).
Proof.
  intros Hs He. unfold password. cbn [sr_Name sr_UsernameField sr_PasswordField String.eqb]. rewrite Hs, He.
  destruct (data !! defaultPassword) eqn:Ep; cbn; [by rewrite Ep|]. by destruct (data !! "token").
Qed.

(** The read policy is translated to its name sake except for [PREFER_REPLICA]. *)
Lemma convertPolicy_prefer_replica p : convertPolicy p = PREFER_REPLICA -> False.
Proof. by destruct p. Qed.

(** ** Concrete instances *)
Definition demo_redis_service : RedisService :=
  {| rsv_Name := "r"; rsv_Namespace := "ns"; rsv_Host := ["demo.svc"]; rsv_Settings := None;
     rsv_Redis :=
       [{| rr_Route := Some {| rt_Host := "a"; rt_Port := 6379 |}; rr_Mirror := [];
           rr_Match := Some (Some {| km_Prefix := "user:"; km_RemovePrefix := true |}) |};
        {| rr_Route := Some {| rt_Host := "b"; rt_Port := 0 |}; rr_Mirror := []; rr_Match := None |}];
     rsv_Faults := [] |}.
Definition demo_keepalive : TcpConn :=
  {| tc_MaxConnections := 0; tc_ConnectTimeout := None;
     tc_TcpKeepalive := Some {| ka_Probes := 3; ka_Time := None; ka_Interval := None |} |}.
Definition demo_redis_env : RedisEnv :=
  {| RedisServices_List := fun _ => Ok [demo_redis_service];
     RedisDestinations_List := fun _ => Ok [{| rdn_Host := "other.svc"; rdn_TrafficPolicy := None |}];
     Secrets_Get := fun _ _ => Err "not found"; anypb_New := fun _ _ => true; IstioMetadataKey := "istio"; TCPClusterMx_Name := "mx" |}.
Definition demo_keepalive_env : RedisEnv :=
  {| RedisServices_List := fun _ => Ok []; RedisDestinations_List := fun _ => Ok [{| rdn_Host := "demo.svc";
       rdn_TrafficPolicy := Some (Some {| cp_Redis := None; cp_Tcp := Some demo_keepalive |}) |}];
     Secrets_Get := fun _ _ => Err "not found"; anypb_New := fun _ _ => true; IstioMetadataKey := "istio"; TCPClusterMx_Name := "mx" |}.
Definition demo_store : ConfigStore := {| store_List := fun _ _ => [] |}.
Definition demo_redis_port (n : Z) : ServicePort :=
  {| sp_Number := n; sp_Protocol := "tcp"; sp_Name := "tcp-redis"; sp_TargetPort := n |}.
Definition demo_redis_entry : ServiceEntryWrapper :=
  {| sew_Meta := sew_Meta demo_service;
     sew_Spec := {| se_Hosts := ["demo.svc"]; se_Addresses := ["240.240.0.1"];
                    se_Ports := [demo_redis_port 6379; demo_redis_port 6380]; se_Resolution := STATIC;
                    se_WorkloadSelector := None |} |}.
Definition demo_redis_context : EnvoyFilterContext :=
  {| ctx_MeshConfig := {| mesh_AccessLogFile := ""; mesh_AccessLogFormat := ""; mesh_AccessLogEncoding := TEXT;
                          mesh_EnableTracing := false; mesh_DefaultConfig := None |};
     ctx_Gateway := None; ctx_ServiceEntry := demo_redis_entry; ctx_VirtualService := None; ctx_MetaRouter := None |}.
Definition demo_redis_json : ProtoJSON RedisProxy := fun m =>
  match m with Message p => Ok ("{" +:+ rp_StatPrefix p +:+ "}") | NilPointer => Ok "{}" | NilInterface => Err "nil" end.
Definition demo_cluster_json : ProtoJSON EnvoyCluster := fun m =>
  match m with Message p => Ok ("{" +:+ cl_Name p +:+ "}") | NilPointer => Ok "{}" | NilInterface => Err "nil" end.

Lemma redis_routes_witness :
  exists proxy, @buildOutboundProxy istio_subset_key demo_redis_env 0 demo_store demo_redis_context 6379 "tcp-redis"
      = Ret (Ok (Some proxy)) /\
    pr_Prefix <$> rp_Routes proxy = ["user:"] /\
    pr_Cluster <$> rp_CatchAllRoute proxy = Some "outbound|6379||b".
Proof.
  destruct (@redis_routes istio_subset_key demo_redis_env 0 demo_store demo_redis_context 6379 "tcp-redis"
    "demo.svc" demo_redis_service eq_refl ltac:(constructor) ltac:(intros c Hc; by apply elem_of_nil in Hc)
    ltac:(repeat constructor; by eexists)) as (services & Hs & [(e & _ & s & a & [=] & _)|(proxy & Hp & _ & Hr & Hc)]).
  exists proxy. split; [exact Hp|]. injection Hs as <-. rewrite Hr, Hc. split; reflexivity.
Defined.

Lemma redis_first_port_only_witness :
  exists w1 w2 w3 w4, @Generate istio_subset_key demo_redis_env 0 demo_well_known demo_redis_json demo_cluster_json
      demo_json_struct demo_store demo_redis_context = Ret ([w1; w2; w3; w4], None) /\
    efw_Name w1 = efw_Name w3 /\ efw_Name w2 = efw_Name w4 /\
    Forall (@first_port_filter demo_well_known demo_redis_entry) [w1; w2; w3; w4].
Proof.
  eexists _, _, _, _. split; [vm_compute; reflexivity|]. split; [reflexivity|]. split; [reflexivity|].
  apply (@redis_first_port_only istio_subset_key demo_redis_env demo_well_known demo_redis_json demo_cluster_json
    demo_json_struct 0 demo_store demo_redis_context _ None). vm_compute. reflexivity.
Defined.

Example keepalive_crashes :
  panics (@buildOutboundCluster istio_subset_key demo_keepalive_env demo_well_known demo_redis_context 6379) = true.
Proof. reflexivity. Qed.

Lemma redis_discovery_endpoints_witness :
  discovery_endpoints ["redis-0:6380"; "redis-1"] 6379 =
    Some [{| hp_Host := "redis-0"; hp_Port := 6380 |}; {| hp_Host := "redis-1"; hp_Port := 6379 |}].
Proof.
  refine (proj1 (redis_discovery_endpoints [("redis-0", Some 6380); ("redis-1", None)] 6379 _)).
  intros h p [[= -> ->]|[[= -> ->]|Hin%elem_of_nil]%elem_of_cons]%elem_of_cons; [..|done];
    (split; [reflexivity|]); intros n [=]; lia.
Defined.
