(* ===== verification/Plugins.v ===== *)
(** * The Thrift, Kafka and ZooKeeper plugins, and the contract of all generators

    [src/internal/plugin/thrift], [kafka] and [zookeeper], a module each; the map of
    generators the program starts with ([initGenerators] of [src/cmd/aeraki/main.go] and
    the Dubbo and Redis generators added by [src/internal/bootstrap/server.go]).

    [OwnListeners] is what a generator promises to the controller that distributes its
    filters: a filter generated for a sidecar changes listeners of its own service entry
    only. *)

From S2P Require Import Prelude Api Model NetworkFilter EnvoyFilterController Xds MetaProtocolPlugin Authz Dubbo Redis.

Module Thrift.
(** A route matches on the method name, where the empty name matches all methods. *)
Record Route := { tr_MethodName : string; tr_Route : ClusterSpecifier }.
Record RouteConfiguration := { trc_Name : string; trc_Routes : list Route }.
Inductive TransportType := AUTO_TRANSPORT.
Inductive ProtocolType := AUTO_PROTOCOL.
Record ThriftProxy := {
  thp_StatPrefix : string;
  thp_Transport : TransportType;
  thp_Protocol : ProtocolType;
  thp_RouteConfig : RouteConfiguration;
  thp_ThriftFilters : list string }.

Section thrift.
Context `{IstioNaming}.

(** route.go *)
Definition defaultRoute (clusterName : string) : Route :=
  {| tr_MethodName := ""; tr_Route := Cluster clusterName |}.

Definition buildSingleCluster (http : HTTPRoute) (service : ServiceEntry) : outcome ClusterSpecifier :=
  r ← index (hr_Route http) 0;
  destination ← deref (hrd_Destination r);
  host ← index (se_Hosts service) 0;
  port ← index (se_Ports service) 0;
  Ret (Cluster (BuildClusterName TrafficDirectionOutbound (d_Subset destination) host (sp_Number port))).

(** The total weight is computed and not put into the message. *)
Definition buildWeightedCluster (http : HTTPRoute) (service : ServiceEntry) : outcome ClusterSpecifier :=
  clusterWeights ← map_panic (fun route =>
    destination ← deref (hrd_Destination route);
    host ← index (se_Hosts service) 0;
    port ← index (se_Ports service) 0;
    Ret {| cw_Name := BuildClusterName TrafficDirectionOutbound (d_Subset destination) host (sp_Number port);
           cw_Weight := u32 (hrd_Weight route) |}) (hr_Route http);
  Ret (WeightedClusters {| wc_Clusters := clusterWeights; wc_TotalWeight := None |}).

Definition buildRoute (service : ServiceEntry) (vs : VirtualService) : outcome (list Route) :=
  map_panic (fun http =>
    routeAction ← (if (1 <? length (hr_Route http))%nat then buildWeightedCluster http service
                   else buildSingleCluster http service);
    Ret {| tr_MethodName := ""; tr_Route := routeAction |}) (vs_Http vs).

Definition buildOutboundRouteConfig (context : EnvoyFilterContext) : outcome RouteConfiguration :=
  let service := sew_Spec (ctx_ServiceEntry context) in
  host ← index (se_Hosts service) 0;
  port ← index (se_Ports service) 0;
  let clusterName := BuildClusterName TrafficDirectionOutbound "" host (sp_Number port) in
  route ← match ctx_VirtualService context with
          | None => Ret [defaultRoute clusterName]
          | Some vs => buildRoute service (vsw_Spec vs)
          end;
  Ret {| trc_Name := clusterName; trc_Routes := route |}.

Definition buildInboundRouteConfig (context : EnvoyFilterContext) : outcome RouteConfiguration :=
  let service := sew_Spec (ctx_ServiceEntry context) in
  host ← index (se_Hosts service) 0;
  port ← index (se_Ports service) 0;
  let clusterName := BuildClusterName TrafficDirectionInbound "" host (sp_Number port) in
  Ret {| trc_Name := clusterName; trc_Routes := [defaultRoute clusterName] |}.

(** thriftproxy.go *)
Definition newThriftProxy (context : EnvoyFilterContext) (route : RouteConfiguration)
    (trafficDirection : TrafficDirection) : outcome ThriftProxy :=
  let service := sew_Spec (ctx_ServiceEntry context) in
  host ← index (se_Hosts service) 0;
  port ← index (se_Ports service) 0;
  Ret {| thp_StatPrefix := BuildClusterName trafficDirection "" host (sp_Number port);
         thp_Transport := AUTO_TRANSPORT; thp_Protocol := AUTO_PROTOCOL;
         thp_RouteConfig := route; thp_ThriftFilters := ["envoy.filters.thrift.router"] |}.

Definition buildOutboundProxy (context : EnvoyFilterContext) : outcome ThriftProxy :=
  route ← buildOutboundRouteConfig context;
  newThriftProxy context route TrafficDirectionOutbound.

Definition buildInboundProxy (context : EnvoyFilterContext) : outcome ThriftProxy :=
  route ← buildInboundRouteConfig context;
  newThriftProxy context route TrafficDirectionInbound.

(** generator.go *)
Context `{ProtoJSON ThriftProxy, ProtoJSONStruct, WellKnown}.

Definition Generate : Generator := fun context =>
  port ← index (se_Ports (sew_Spec (ctx_ServiceEntry context))) 0;
  outboundProxy ← buildOutboundProxy context;
  inboundProxy ← buildInboundProxy context;
  r ← GenerateReplaceNetworkFilter (ctx_ServiceEntry context) port (Message outboundProxy) (Message inboundProxy)
        "envoy.filters.network.thrift_proxy"
        "type.googleapis.com/envoy.extensions.filters.network.thrift_proxy.v3.ThriftProxy";
  Ret (fst r, None).
End thrift.
End Thrift.

Module Kafka.
Record KafkaBroker := { kb_StatPrefix : string }.

Section kafka.
Context `{IstioNaming, ProtoJSON KafkaBroker, ProtoJSONStruct, WellKnown}.

(** kafkafilter.go *)
Definition buildOutboundProxy (context : EnvoyFilterContext) : outcome KafkaBroker :=
  host ← index (se_Hosts (sew_Spec (ctx_ServiceEntry context))) 0;
  port ← index (se_Ports (sew_Spec (ctx_ServiceEntry context))) 0;
  Ret {| kb_StatPrefix := BuildClusterName TrafficDirectionOutbound "" host (sp_Number port) |}.

Definition buildInboundProxy (context : EnvoyFilterContext) : outcome KafkaBroker :=
  host ← index (se_Hosts (sew_Spec (ctx_ServiceEntry context))) 0;
  port ← index (se_Ports (sew_Spec (ctx_ServiceEntry context))) 0;
  Ret {| kb_StatPrefix := BuildClusterName TrafficDirectionInbound "" host (sp_Number port) |}.

(** generator.go *)
Definition Generate : Generator := fun context =>
  outboundProxy ← buildOutboundProxy context;
  inboundProxy ← buildInboundProxy context;
  r ← GenerateInsertBeforeNetworkFilter (ctx_ServiceEntry context) (Message outboundProxy) (Message inboundProxy)
        "envoy.filters.network.kafka_broker"
        "type.googleapis.com/envoy.extensions.filters.network.kafka_broker.v3.KafkaBroker";
  Ret (fst r, None).
End kafka.
End Kafka.

Module Zookeeper.
Record ZooKeeperProxy := { zk_StatPrefix : string }.

Section zookeeper.
Context `{IstioNaming, ProtoJSON ZooKeeperProxy, ProtoJSONStruct, WellKnown}.

(** zookeeperfilter.go *)
Definition buildOutboundProxy (context : EnvoyFilterContext) : outcome ZooKeeperProxy :=
  host ← index (se_Hosts (sew_Spec (ctx_ServiceEntry context))) 0;
  port ← index (se_Ports (sew_Spec (ctx_ServiceEntry context))) 0;
  Ret {| zk_StatPrefix := BuildClusterName TrafficDirectionOutbound "" host (sp_Number port) |}.

Definition buildInboundProxy (context : EnvoyFilterContext) : outcome ZooKeeperProxy :=
  host ← index (se_Hosts (sew_Spec (ctx_ServiceEntry context))) 0;
  port ← index (se_Ports (sew_Spec (ctx_ServiceEntry context))) 0;
  Ret {| zk_StatPrefix := BuildClusterName TrafficDirectionInbound "" host (sp_Number port) |}.

(** generator.go *)
Definition Generate : Generator := fun context =>
  outboundProxy ← buildOutboundProxy context;
  inboundProxy ← buildInboundProxy context;
  r ← GenerateInsertBeforeNetworkFilter (ctx_ServiceEntry context) (Message outboundProxy) (Message inboundProxy)
        "envoy.filters.network.zookeeper_proxy"
        "type.googleapis.com/envoy.extensions.filters.network.zookeeper_proxy.v3.ZooKeeperProxy";
  Ret (fst r, None).
End zookeeper.
End Zookeeper.

(** ** What every generator promises *)
(** The filter has one patch, of the TCP proxy of a listener: the one named after an address
    and a port of the service, or the inbound one at a port of the service, for the workloads
    of a selector with labels. *)
Definition own_listener `{WellKnown} (service : ServiceEntryWrapper) (w : EnvoyFilterWrapper) : Prop :=
  exists patch port, port ∈ se_Ports (sew_Spec service) /\
    ef_ConfigPatches (efw_Envoyfilter w) = [patch] /\ cp_ApplyTo patch = NETWORK_FILTER /\
    ((exists addr, addr ∈ se_Addresses (sew_Spec service) /\
        cp_Match patch = Some (ListenerMatch (addr +:+ "_" +:+ Itoa (sp_Number port)) 0 TCPProxy) /\
        ef_WorkloadSelector (efw_Envoyfilter w) = None) \/
     (cp_Match patch = Some (ListenerMatch "virtualInbound" (sp_Number port) TCPProxy) /\
      exists labels, labels <> ∅ /\
        ef_WorkloadSelector (efw_Envoyfilter w) = Some {| ws_Labels := Some labels |})).

Class OwnListeners `{WellKnown} (g : Generator) := own_listeners : forall context fs err,
  ctx_Gateway context = None -> g context = Ret (fs, err) -> Forall (own_listener (ctx_ServiceEntry context)) fs.

Section network_filter.
Context {M : Type} `{ProtoJSON M, ProtoJSONStruct, WellKnown}.

Lemma generateNetworkFilter_own service port (o i : ProtoMessage M) name ty op fs s' :
  port ∈ se_Ports (sew_Spec service) ->
  generateNetworkFilter service port o i name ty op = Ret (fs, s') -> Forall (own_listener service) fs.
Proof.
  intros Hp Hg. apply Forall_forall. intros w Hw.
  destruct (generateNetworkFilter_elem _ _ _ _ _ _ _ _ _ _ Hg Hw) as (h & v & _ & [(addr & Ha & ->)|(sel & Hs & ->)]);
    eexists _, port; (split_and!; [done|reflexivity|reflexivity|]); [left; by exists addr|right].
  split; [reflexivity|]. rewrite hasInboundWorkloadSelector_spec in Hs. apply negb_true_iff, bool_decide_eq_false in Hs.
  destruct sel as [[labels|]]; [by exists labels|done].
Qed.
End network_filter.

Lemma index_elem {A} (l : list A) i a : index l i = Ret a -> a ∈ l.
Proof. unfold index. destruct (l !! i) eqn:E; intros [= <-]. by apply list_elem_of_lookup_2 in E. Qed.

(** Ltac step: the first bound call returned. *)
Ltac bound H := let a := fresh "a" in let Ha := fresh "Ha" in apply bind_Ret_inv in H as (a & Ha & H).

Section instances.
Context `{MapRange, IstioNaming, WellKnown, LogFormatParser, AuthzEnv, ProtoJSONStruct}.
Context `{ProtoJSON Thrift.ThriftProxy, ProtoJSON Kafka.KafkaBroker, ProtoJSON Zookeeper.ZooKeeperProxy,
  ProtoJSON DubboProxy, ProtoJSON MetaProtocolProxy, ProtoJSON RedisProxy, ProtoJSON EnvoyCluster, RedisEnv}.

Global Instance thrift_own : OwnListeners Thrift.Generate.
Proof.
  intros context fs err _ Hg. unfold Thrift.Generate in Hg.
  bound Hg. bound Hg. bound Hg. bound Hg. destruct a2 as [fs' s']. injection Hg as <- _.
  apply index_elem in Ha. unfold GenerateReplaceNetworkFilter in *.
  by eapply (generateNetworkFilter_own (M:=Thrift.ThriftProxy)).
Qed.

Global Instance kafka_own : OwnListeners Kafka.Generate.
Proof.
  intros context fs err _ Hg. unfold Kafka.Generate, GenerateInsertBeforeNetworkFilter in Hg.
  bound Hg. bound Hg. bound Hg. destruct a1 as [fs' s']. injection Hg as <- _.
  bound Ha1. apply index_elem in Ha2. unfold GenerateReplaceNetworkFilter in *.
  by eapply (generateNetworkFilter_own (M:=Kafka.KafkaBroker)).
Qed.

Global Instance zookeeper_own : OwnListeners Zookeeper.Generate.
Proof.
  intros context fs err _ Hg. unfold Zookeeper.Generate, GenerateInsertBeforeNetworkFilter in Hg.
  bound Hg. bound Hg. bound Hg. destruct a1 as [fs' s']. injection Hg as <- _.
  bound Ha1. apply index_elem in Ha2. unfold GenerateReplaceNetworkFilter in *.
  by eapply (generateNetworkFilter_own (M:=Zookeeper.ZooKeeperProxy)).
Qed.

Global Instance dubbo_own policies : OwnListeners (Dubbo.Generate policies).
Proof.
  intros context fs err _ Hg. unfold Dubbo.Generate in Hg.
  bound Hg. bound Hg. bound Hg. bound Hg. destruct a2 as [fs' s']. injection Hg as <- _.
  apply index_elem in Ha. unfold GenerateReplaceNetworkFilter in *.
  by eapply (generateNetworkFilter_own (M:=DubboProxy)).
Qed.

Lemma own_listener_same s0 s w :
  se_Ports (sew_Spec s) = se_Ports (sew_Spec s0) -> se_Addresses (sew_Spec s) = se_Addresses (sew_Spec s0) ->
  own_listener s w -> own_listener s0 w.
Proof. unfold own_listener. by intros -> ->. Qed.

Global Instance metaprotocol_own codecs protocols : OwnListeners (MetaProtocolPlugin.Generate codecs protocols).
Proof.
  intros context fs err Hgw Hg. unfold MetaProtocolPlugin.Generate, generateSidecarEnvoyFilters in Hg.
  rewrite Hgw in Hg. bound Hg. set (s0 := ctx_ServiceEntry context) in *.
  apply (loop_inv
    (fun '(fs, s) => Forall (own_listener s0) fs /\ se_Ports (sew_Spec s) = se_Ports (sew_Spec s0) /\
       se_Addresses (sew_Spec s) = se_Addresses (sew_Spec s0))
    (fun r => Forall (own_listener s0) (fst r))) in Ha; [|clear|done].
  - destruct a as [[fs' s']|[fs' e]]; injection Hg as <- _; naive_solver.
  - intros [fs s] port r Hin (Hfs & Hp & Hadr) Hs. unfold sidecar_step in Hs.
    destruct (negb _); [by injection Hs as <-|]. bound Hs.
    destruct a as [po|e]; [|injection Hs as <-; by constructor]. bound Hs.
    destruct a as [pi|e]; [|injection Hs as <-; by constructor]. bound Hs.
    destruct a as [fs1 s1]. injection Hs as <-. cbn [fst snd]. unfold GenerateReplaceNetworkFilter in Ha1.
    pose proof (generateNetworkFilter_frame _ _ _ _ _ _ _ _ _ Ha1) as (_ & _ & Hp1 & Ha1').
    apply generateNetworkFilter_own in Ha1; [|by rewrite Hp].
    split_and!; [apply Forall_app; split; [done|]|congruence|congruence].
    eapply Forall_impl; [exact Ha1|]. intros w. by apply own_listener_same.
Qed.

(** [initGenerators] of the main function. *)
Definition initGenerators (codecs : gmap string string) (protocols : gmap string Instance_)
    : gmap Instance_ Generator :=
  <[Model.Thrift := Thrift.Generate]>
    (<[Model.Kafka := Kafka.Generate]>
      (<[Model.Zookeeper := Zookeeper.Generate]>
        (<[Model.MetaProtocol := MetaProtocolPlugin.Generate codecs protocols]> ∅))).

(** The map after the server has added its two generators. *)
Definition server_generators (codecs : gmap string string) (protocols : gmap string Instance_)
    (policies : string -> res (list DubboAuthorizationPolicy)) (oob : Z) (store : ConfigStore)
    : gmap Instance_ Generator :=
  <[Model.Redis := Redis.Generate oob store]> (<[Model.Dubbo := Dubbo.Generate policies]> (initGenerators codecs protocols)).

(** C20: Isolation of services. Whatever the service entry, virtual service and MetaRouter,
    a filter made for a sidecar by a registered generator (Redis, which also patches
    clusters, apart) has a single patch, and the patch is of a listener of that service
    entry: of one of its addresses at one of its ports, or of the inbound listener at one
    of its ports, and then only for the workloads a non-empty selector picks. *)
Theorem generators_touch_own_listeners codecs protocols policies oob store instance g context fs err :
  server_generators codecs protocols policies oob store !! instance = Some g -> instance <> Model.Redis ->
  ctx_Gateway context = None -> g context = Ret (fs, err) ->
  Forall (own_listener (ctx_ServiceEntry context)) fs.
Proof.
  unfold server_generators, initGenerators. intros Hg Hr Hgw Hc.
  rewrite lookup_insert_ne in Hg by done.
  repeat (apply lookup_insert_Some in Hg as [[_ <-]|[_ Hg]]; [exact (own_listeners _ _ _ Hgw Hc)|]).
  discriminate Hg.
Qed.
End instances.

(** ** Thrift routing *)
Section thrift_routing.
Context `{IstioNaming}.

(** The Thrift router takes the first route whose method name is empty or the call's. *)
Definition thrift_selected (method : string) (rc : Thrift.RouteConfiguration) : option ClusterSpecifier :=
  Thrift.tr_Route <$>
    find (fun r => String.eqb (Thrift.tr_MethodName r) "" || String.eqb (Thrift.tr_MethodName r) method)
      (Thrift.trc_Routes rc).

(** The action of a route, without total weight. *)
Definition thrift_action (host : string) (port : ServicePort) (http : HTTPRoute) : ClusterSpecifier :=
  match hr_Route http with
  | [r] => Cluster (subset_cluster host port r)
  | rs => WeightedClusters
            {| wc_Clusters := (fun r => {| cw_Name := subset_cluster host port r; cw_Weight := u32 (hrd_Weight r) |}) <$> rs;
               wc_TotalWeight := None |}
  end.

Lemma thrift_buildRoute_ok service host hs port ports vs :
  se_Hosts service = host :: hs -> se_Ports service = port :: ports ->
  (forall http, http ∈ vs_Http vs -> has_destinations http) ->
  Thrift.buildRoute service vs =
  Ret ((fun http => {| Thrift.tr_MethodName := ""; Thrift.tr_Route := thrift_action host port http |}) <$> vs_Http vs).
Proof.
  intros Hh Hp Hvs. unfold Thrift.buildRoute. apply map_panic_Ret. intros http Hin.
  destruct (Hvs http Hin) as [Hne Hd]. unfold thrift_action, Thrift.buildWeightedCluster, Thrift.buildSingleCluster.
  rewrite (map_panic_Ret _ (fun r => {| cw_Name := subset_cluster host port r; cw_Weight := u32 (hrd_Weight r) |})).
  - destruct (hr_Route http) as [|r [|r' rs]]; [done| |done].
    apply Forall_cons in Hd as [[d Hd] _]. cbn. rewrite Hd, Hh, Hp. cbn. unfold subset_cluster. by rewrite ?Hd.
  - intros r Hr. apply (proj1 (Forall_forall _ _) Hd) in Hr as [d Hd'].
    rewrite Hd', Hh, Hp. cbn. unfold subset_cluster. by rewrite ?Hd'.
Qed.

(** Routing of Thrift calls. With a virtual service whose routes have destinations,
    every call, whatever its method, takes the first HTTP route: the matches of the virtual
    service are not translated and its later routes are never used. Without virtual service
    every call goes to the entry's own cluster; a virtual service without HTTP routes
    leaves every call without a route. *)
Theorem thrift_first_route context host hs port ports :
  se_Hosts (sew_Spec (ctx_ServiceEntry context)) = host :: hs ->
  se_Ports (sew_Spec (ctx_ServiceEntry context)) = port :: ports ->
  (forall vs http, ctx_VirtualService context = Some vs -> http ∈ vs_Http (vsw_Spec vs) -> has_destinations http) ->
  exists rc, Thrift.buildOutboundRouteConfig context = Ret rc /\
    forall method, thrift_selected method rc =
      match ctx_VirtualService context with
      | None => Some (Cluster (BuildClusterName TrafficDirectionOutbound "" host (sp_Number port)))
      | Some vs => thrift_action host port <$> head (vs_Http (vsw_Spec vs))
      end.
Proof.
  intros Hh Hp Hd. unfold Thrift.buildOutboundRouteConfig. rewrite Hh, Hp.
  cbn [index lookup list_lookup mbind outcome_bind]. destruct (ctx_VirtualService context) as [vs|].
  - rewrite (thrift_buildRoute_ok _ _ _ _ _ _ Hh Hp) by eauto.
    eexists. split; [done|]. intros method. unfold thrift_selected. by destruct (vs_Http (vsw_Spec vs)).
  - by eexists.
Qed.
End thrift_routing.

(** ** Concrete instances *)
Definition demo_thrift_json : ProtoJSON Thrift.ThriftProxy := fun m =>
  match m with Message p => Ok ("{" +:+ Thrift.thp_StatPrefix p +:+ "}") | NilPointer => Ok "{}" | NilInterface => Err "nil" end.
Definition demo_kafka_json : ProtoJSON Kafka.KafkaBroker := fun m =>
  match m with Message p => Ok ("{" +:+ Kafka.kb_StatPrefix p +:+ "}") | NilPointer => Ok "{}" | NilInterface => Err "nil" end.
Definition demo_zookeeper_json : ProtoJSON Zookeeper.ZooKeeperProxy := fun m =>
  match m with Message p => Ok ("{" +:+ Zookeeper.zk_StatPrefix p +:+ "}") | NilPointer => Ok "{}" | NilInterface => Err "nil" end.
Definition demo_meta_json : ProtoJSON MetaProtocolProxy := fun m =>
  match m with Message p => Ok ("{" +:+ mpp_StatPrefix p +:+ "}") | NilPointer => Ok "{}" | NilInterface => Err "nil" end.
Definition demo_no_format : LogFormatParser := fun _ => Err "no format".

Lemma generators_touch_own_listeners_witness :
  exists fs, @Kafka.Generate istio_subset_key demo_kafka_json demo_json_struct demo_well_known
      (demo_context demo_annotations) = Ret (fs, None) /\ length fs = 3%nat /\
    Forall (@own_listener demo_well_known (demo_dubbo_service demo_annotations)) fs.
Proof.
  eexists. split; [reflexivity|]. split; [reflexivity|].
  exact (@generators_touch_own_listeners canonical_range istio_subset_key demo_well_known demo_no_format demo_authz
    demo_json_struct demo_thrift_json demo_kafka_json demo_zookeeper_json demo_dubbo_json demo_meta_json
    demo_redis_json demo_cluster_json demo_redis_env ∅ ∅ demo_policies 0 demo_store Model.Kafka
    (@Kafka.Generate istio_subset_key demo_kafka_json demo_json_struct demo_well_known)
    (demo_context demo_annotations) _ None eq_refl ltac:(discriminate) eq_refl eq_refl).
Defined.

Lemma thrift_first_route_witness :
  exists rc, @Thrift.buildOutboundRouteConfig istio_subset_key (demo_context demo_annotations) = Ret rc /\
    thrift_selected "anything" rc =
      Some (WeightedClusters {| wc_Clusters := [{| cw_Name := "outbound|20880|v1|demo.svc"; cw_Weight := 20 |};
                                                {| cw_Name := "outbound|20880|v2|demo.svc"; cw_Weight := 80 |}];
                                wc_TotalWeight := None |}).
Proof.
  destruct (@thrift_first_route istio_subset_key (demo_context demo_annotations) "demo.svc" [] demo_port []
    eq_refl eq_refl) as (rc & Hrc & Hsel).
  { intros vs http [= <-]. cbn [demo_vs vsw_Spec vs_Http].
    intros [->|[->|Hin%elem_of_nil]%elem_of_cons]%elem_of_cons; [..|done]; split; cbn [hr_Route]; try done;
      repeat constructor; by eexists. }
  exists rc. split; [exact Hrc|]. rewrite Hsel. reflexivity.
Defined.
