(* ===== verification/ConfigController.v ===== *)
(** * The Istio config controller

    [src/internal/controller/istio/controller.go]: which changes of Istio resources are passed on
    to the EnvoyFilter controller and the route cache; the controller's construction and
    handlers; and the loop that connects to istiod, with the settings it dials with.  The
    store that the connection fills is a parameter, and so are [reflect.DeepEqual] and the
    clients of Istio's libraries. *)

From S2P Require Import Prelude Api Model ApiServer NetworkFilter EnvoyFilterController.

Inductive Event := EventAdd | EventUpdate | EventDelete.

Section filter.
Context (protocols : gmap string Instance_) (store : ConfigStore).
Context (DeepEqual : ConfigSpec -> ConfigSpec -> bool).

Definition isNilConfig (config : Config) : bool :=
  String.eqb (m_Name (c_Meta config)) "" && match c_Spec config with SpecNil => true | _ => false end.

Definition has_supported_port (service : ServiceEntry) : bool :=
  existsb (fun port => IsAerakiSupportedProtocols protocols (sp_Name port)) (se_Ports service).

Definition shouldHandleServiceEntry (seConfig : Config) : bool :=
  match asServiceEntry (c_Spec seConfig) with
  | None => false
  | Some service => has_supported_port service
  end.

(** The loop over the service entries: [related] is the comparison of a host and its
    namespace; an entry of another type ends the search. *)
Fixpoint any_service (related : string -> string -> bool) (serviceEntries : list Config) : bool :=
  match serviceEntries with
  | [] => false
  | config :: rest =>
      match asServiceEntry (c_Spec config) with
      | None => false
      | Some service =>
          if existsb (fun host => related host (m_Namespace (c_Meta config)) && has_supported_port service)
               (se_Hosts service)
          then true else any_service related rest
      end
  end.

Definition shouldHandleVirtualService (vsConfig : Config) : bool :=
  match asVirtualService (c_Spec vsConfig) with
  | None => false
  | Some vs =>
      any_service (fun host ns =>
        match vs_Hosts vs with
        | [] => false
        | h0 :: _ => IsFQDNEquals host ns h0 (m_Namespace (c_Meta vsConfig))
        end) (store_List store GvkServiceEntry "")
  end.

Definition shouldHandleDestinationRule (drConfig : Config) : bool :=
  match asDestinationRule (c_Spec drConfig) with
  | None => false
  | Some dr =>
      any_service (fun host ns => IsFQDNEquals host ns (dr_Host dr) (m_Namespace (c_Meta drConfig)))
        (store_List store GvkServiceEntry "")
  end.

Definition shouldHandleGateway (gwConfig : Config) : bool :=
  match asGateway (c_Spec gwConfig) with
  | None => false
  | Some gw =>
      existsb (fun s => match srv_Port s with
                        | Some port => IsMetaProtocol (GetLayer7ProtocolFromPortName protocols (p_Name port))
                        | None => false
                        end) (gw_Servers gw)
  end.

Definition shouldHandleServiceEntryChange (prev curr : Config) : bool :=
  shouldHandleServiceEntry curr || (negb (isNilConfig prev) && shouldHandleServiceEntry prev).
Definition shouldHandleVirtualServiceChange (prev curr : Config) : bool :=
  shouldHandleVirtualService curr || (negb (isNilConfig prev) && shouldHandleVirtualService prev).
Definition shouldHandleDestinationRuleChange (prev curr : Config) : bool :=
  shouldHandleDestinationRule curr || (negb (isNilConfig prev) && shouldHandleDestinationRule prev).
Definition shouldHandleGatewayChange (prev curr : Config) : bool :=
  shouldHandleGateway curr || (negb (isNilConfig prev) && shouldHandleGateway prev).

(** Whether the wrapper made by [RegisterEventHandler] calls the handler. *)
Definition handlerWrapper (prev curr : Config) (event : Event) : bool :=
  if (match event with EventUpdate => true | _ => false end) && DeepEqual (c_Spec prev) (c_Spec curr) then false
  else
    match m_GroupVersionKind (c_Meta curr) with
    | GvkServiceEntry => shouldHandleServiceEntryChange prev curr
    | GvkVirtualService => shouldHandleVirtualServiceChange prev curr
    | GvkDestinationRule => shouldHandleDestinationRuleChange prev curr
    | GvkGateway => shouldHandleGatewayChange prev curr
    | _ => false
    end.

(** ** What is dropped does not matter *)
Section harmless.
Context (c : Controller) (Hprotocols : protocolMap c = protocols).
Hypothesis Hgenerators : generators c !! Unsupported = None.

Lemma no_generator ports :
  existsb (fun port => IsAerakiSupportedProtocols protocols (sp_Name port)) ports = false ->
  first_generator c ports = None.
Proof.
  induction ports as [|port ports IH]; [done|]. cbn [existsb first_generator].
  intros [Hp Hrest]%orb_false_iff. unfold IsAerakiSupportedProtocols in Hp.
  apply negb_false_iff, String.eqb_eq in Hp. rewrite Hprotocols, Hp, Hgenerators. by apply IH.
Qed.

Lemma service_entry_inert config service m :
  asServiceEntry (c_Spec config) = Some service -> se_Hosts service <> [] ->
  shouldHandleServiceEntry config = false -> service_step c m config = Ret (Next m).
Proof.
  unfold shouldHandleServiceEntry, service_step. intros -> Hh Hs.
  destruct (se_Hosts service); [done|]. by rewrite no_generator.
Qed.

Lemma gateway_inert config gw st :
  asGateway (c_Spec config) = Some gw -> shouldHandleGateway config = false -> gateway_step c st config = Ret (Next st).
Proof.
  unfold shouldHandleGateway, gateway_step. intros ->. cbn [deref mbind outcome_bind].
  induction (gw_Servers gw) as [|s servers IH]; [done|]. cbn [existsb loop].
  intros [Hs Hrest]%orb_false_iff.
  assert (gateway_server_step c gw config st s = Ret (Next st)) as ->; [|exact (IH Hrest)].
  unfold gateway_server_step. destruct (srv_Port s) as [port|]; [|done]. cbv zeta. by rewrite Hprotocols, Hs.
Qed.

Lemma loop_skip {S R A} (body : S -> A -> outcome (flow S R)) l1 a l2 s :
  (forall s, body s a = Ret (Next s)) -> loop body (l1 ++ a :: l2) s = loop body (l1 ++ l2) s.
Proof.
  intros Ha. rewrite !loop_app. destruct (loop body l1 s) as [[s'|r]|w]; try done.
  cbn [mbind outcome_bind loop]. by rewrite Ha.
Qed.

Lemma change_dropped (handle : Config -> bool) prev curr :
  handle curr || (negb (isNilConfig prev) && handle prev) = false -> isNilConfig prev = false ->
  handle curr = false /\ handle prev = false.
Proof. intros [Hc Hp]%orb_false_iff Hn. by rewrite Hn in Hp. Qed.

End harmless.

(** ** Virtual services and destination rules *)
Lemma any_service_spec related entries :
  (forall config, config ∈ entries -> is_Some (asServiceEntry (c_Spec config))) ->
  any_service related entries = true <->
  exists config service host, config ∈ entries /\ asServiceEntry (c_Spec config) = Some service /\
    host ∈ se_Hosts service /\ related host (m_Namespace (c_Meta config)) = true /\ has_supported_port service = true.
Proof.
  induction entries as [|config entries IH]; intros Hok.
  { split; [done|]. by intros (? & ? & ? & ?%elem_of_nil & _). }
  cbn [any_service]. destruct (Hok config ltac:(by left)) as [service Hs]. rewrite Hs.
  specialize (IH ltac:(intros; apply Hok; by right)).
  destruct (existsb _ (se_Hosts service)) eqn:Ex.
  - split; [intros _|done]. apply existsb_exists in Ex as (host & Hin & [Hr Hp]%andb_true_iff).
    exists config, service, host. apply list_elem_of_In in Hin. split_and!; [by left|done..].
  - rewrite IH. split.
    + intros (config' & service' & host & Hin & Hrest). exists config', service', host. split; [by right|done].
    + intros (config' & service' & host & [->|Hin]%elem_of_cons & Hs' & Hh & Hr & Hp); [|by exists config', service', host].
      exfalso. rewrite Hs in Hs'. injection Hs' as <-.
      assert (existsb (fun host => related host (m_Namespace (c_Meta config)) && has_supported_port service)
        (se_Hosts service) = true) as Ht; [|congruence].
      apply existsb_exists. exists host. split; [by apply list_elem_of_In|]. by rewrite Hr, Hp.
Qed.

(** A virtual service counts exactly when its first host is, as a fully qualified name,
    a host of a service entry with a supported port. This covers every virtual service of a
    single fully qualified host the EnvoyFilter controller applies to such an entry; for
    one that names the entry as a later host see [second_host_missed]. *)
Theorem virtual_service_filter config vs :
  asVirtualService (c_Spec config) = Some vs ->
  (forall se, se ∈ store_List store GvkServiceEntry "" -> is_Some (asServiceEntry (c_Spec se))) ->
  (shouldHandleVirtualService config = true <->
   exists h0 rest se service host, vs_Hosts vs = h0 :: rest /\ se ∈ store_List store GvkServiceEntry "" /\
     asServiceEntry (c_Spec se) = Some service /\ host ∈ se_Hosts service /\ has_supported_port service = true /\
     fqdn host (m_Namespace (c_Meta se)) = fqdn h0 (m_Namespace (c_Meta config))) /\
  (forall h se service, vs_Hosts vs = [h] -> ContainsChar h "." = true ->
     se ∈ store_List store GvkServiceEntry "" -> asServiceEntry (c_Spec se) = Some service ->
     has_supported_port service = true -> hosts_contain (vs_Hosts vs) service = Ret true ->
     shouldHandleVirtualService config = true).
Proof.
  intros Hv Hok.
  assert (Hiff : shouldHandleVirtualService config = true <->
   exists h0 rest se service host, vs_Hosts vs = h0 :: rest /\ se ∈ store_List store GvkServiceEntry "" /\
     asServiceEntry (c_Spec se) = Some service /\ host ∈ se_Hosts service /\ has_supported_port service = true /\
     fqdn host (m_Namespace (c_Meta se)) = fqdn h0 (m_Namespace (c_Meta config))).
  { unfold shouldHandleVirtualService. rewrite Hv, any_service_spec by done. destruct (vs_Hosts vs) as [|h0 rest].
    - split; [by intros (? & ? & ? & _ & _ & _ & ? & _)|by intros (? & ? & ? & ? & ? & ? & _)].
    - split.
      + intros (se & service & host & Hin & Hs & Hh & Hr & Hp). apply IsFQDNEquals_fqdn in Hr.
        by exists h0, rest, se, service, host.
      + intros (h & r & se & service & host & [= <- <-] & Hin & Hs & Hh & Hp & Hr).
        exists se, service, host. rewrite IsFQDNEquals_fqdn. by split_and!. }
  split; [done|]. intros h se service Hhosts Hdot Hin Hs Hp Hc. apply Hiff.
  rewrite Hhosts in Hc. cbn [hosts_contain] in Hc. destruct (se_Hosts service) as [|h1 hs] eqn:Eh; [done|].
  cbn [index lookup list_lookup mbind outcome_bind] in Hc.
  destruct (String.eqb h h1) eqn:Eq; [|done]. apply String.eqb_eq in Eq as ->.
  exists h1, [], se, service, h1. rewrite Eh. split_and!; try done; [by left|].
  unfold fqdn. by rewrite Hdot.
Qed.
End filter.

(** An update that leaves the spec as it was is dropped, also when it changes the
    annotations the generators read. *)
Lemma metadata_update_dropped protocols store DeepEqual prev curr :
  DeepEqual (c_Spec prev) (c_Spec curr) = true ->
  handlerWrapper protocols store DeepEqual prev curr EventUpdate = false.
Proof. unfold handlerWrapper. by intros ->. Qed.

(** ** Changes of the store

    What an event of a watched kind says of the store before and after it, for the list of
    all namespaces and that of its own; and the changes whose events are dropped. *)
Definition store_changed (event : Event) (prev curr : Config) (s s' : ConfigStore) : Prop :=
  forall kind ns,
    if bool_decide (kind = m_GroupVersionKind (c_Meta curr)) &&
       (String.eqb ns "" || String.eqb ns (m_Namespace (c_Meta curr)))
    then exists before after, match event with
         | EventAdd => store_List s kind ns = before ++ after /\ store_List s' kind ns = before ++ curr :: after
         | EventUpdate =>
             store_List s kind ns = before ++ prev :: after /\ store_List s' kind ns = before ++ curr :: after
         | EventDelete => store_List s kind ns = before ++ curr :: after /\ store_List s' kind ns = before ++ after
         end
    else store_List s' kind ns = store_List s kind ns.

Definition filtered_change (DeepEqual : ConfigSpec -> ConfigSpec -> bool) (protocols : gmap string Instance_)
    (s s' : ConfigStore) : Prop :=
  exists event prev curr,
    store_changed event prev curr s s' /\ handlerWrapper protocols s' DeepEqual prev curr event = false.

(** ** What is dropped does not matter *)
Section dropped.
Context (DeepEqual : ConfigSpec -> ConfigSpec -> bool) (c c' : Controller).

(** The two controllers differ in their store, and in the one generator that reads the
    store: that of Redis. *)
Definition same_but_store : Prop :=
  metaRouterList c' = metaRouterList c /\ namespaceScoped c' = namespaceScoped c /\ namespace c' = namespace c /\
  meshConfig c' = meshConfig c /\ protocolMap c' = protocolMap c /\
  forall k, k <> Model.Redis -> generators c' !! k = generators c !! k.

Definition uses_redis (config : Config) : Prop :=
  exists service port, asServiceEntry (c_Spec config) = Some service /\ port ∈ se_Ports service /\
    GetLayer7ProtocolFromPortName (protocolMap c) (sp_Name port) = Model.Redis.

Hypothesis Hsame : same_but_store.

Lemma first_generator_same ports :
  (forall port, port ∈ ports -> GetLayer7ProtocolFromPortName (protocolMap c) (sp_Name port) <> Model.Redis) ->
  first_generator c' ports = first_generator c ports.
Proof.
  destruct Hsame as (_ & _ & _ & _ & Hp & Hg). induction ports as [|port ports IH]; intros Hr; [done|].
  cbn [first_generator]. rewrite Hp, Hg by (apply Hr; by left). rewrite IH; [done|]. intros p Hin. apply Hr. by right.
Qed.

Lemma service_step_same config m :
  store_List (configStore c') GvkVirtualService "" = store_List (configStore c) GvkVirtualService "" ->
  ~ uses_redis config -> service_step c' m config = service_step c m config.
Proof.
  intros Hvs Hr. unfold service_step. destruct (asServiceEntry (c_Spec config)) as [service|] eqn:Hse; [|done].
  destruct (se_Hosts service); [done|].
  rewrite first_generator_same by (intros port Hin Heq; apply Hr; by exists service, port).
  destruct (first_generator c (se_Ports service)) as [g|]; [|done].
  destruct Hsame as (Hm & Hs & Hn & Hmesh & _).
  unfold envoyFilterContext, findRelatedVirtualService, findRelatedMetaRouter, createEnvoyFiltersOnExportNSs,
    defaultEnvoyFilterNS.
  by rewrite Hvs, Hm, Hs, Hn, Hmesh.
Qed.

Lemma gateway_context_same gw gateway port mr gws :
  gateway_context c' gw gateway port mr gws = gateway_context c gw gateway port mr gws.
Proof.
  destruct Hsame as (_ & _ & _ & Hmesh & _). induction gws as [|g gws IH]; [done|].
  cbn [gateway_context]. by rewrite IH, Hmesh.
Qed.

Lemma gateway_step_same st config : gateway_step c' st config = gateway_step c st config.
Proof.
  destruct Hsame as (Hm & Hs & Hn & Hmesh & Hp & Hg). unfold gateway_step. destruct (deref _) as [gw|]; [|done].
  cbn. apply loop_ext. intros st' server. unfold gateway_server_step, gatewayEnvoyFilterContexts.
  destruct (srv_Port server) as [port|]; [|done]. cbn zeta. rewrite Hp.
  destruct (IsMetaProtocol (GetLayer7ProtocolFromPortName (protocolMap c) (p_Name port))) eqn:Em; [|done]. cbn [negb].
  apply String.eqb_eq in Em. rewrite Em, Hg, Hm by done.
  destruct (generators c !! _); [|done]. destruct (metaRouterList c); [|done].
  erewrite map_panic_ext; [done|]. intros mr. apply gateway_context_same.
Qed.

Lemma service_loop_same l m :
  store_List (configStore c') GvkVirtualService "" = store_List (configStore c) GvkVirtualService "" ->
  Forall (fun config => ~ uses_redis config) l -> loop (service_step c') l m = loop (service_step c) l m.
Proof.
  intros Hvs Hl. revert m. induction Hl as [|config l Hr _ IH]; intros m; [done|]. cbn [loop].
  rewrite service_step_same by done. destruct (service_step c m config) as [[m'|?]|]; [apply IH|done..].
Qed.

(** C22: Which dropped events lose nothing. Let an update of a service entry with hosts (before
    and after), or of a gateway, change its spec and not be passed on; let no service entry
    of the store have a port of the protocol Redis, whose generator reads the other entries
    of the store, and let no generator be registered for ports of no supported protocol, as
    none is. Then the EnvoyFilters generated with the store after the update
    are those generated with the store before it. *)
Theorem dropped_update_harmless {StV} `{ApiServer StV VirtualService, ProtoEqual VirtualService, MapRange}
    prev curr (sv : StV) :
  store_changed EventUpdate prev curr (configStore c) (configStore c') ->
  isNilConfig prev = false -> DeepEqual (c_Spec prev) (c_Spec curr) = false ->
  handlerWrapper (protocolMap c) (configStore c') DeepEqual prev curr EventUpdate = false ->
  generators c !! Unsupported = None ->
  Forall (fun config => ~ uses_redis config) (store_List (configStore c) GvkServiceEntry "") ->
  match m_GroupVersionKind (c_Meta curr) with
  | GvkServiceEntry => exists p q, asServiceEntry (c_Spec prev) = Some p /\ asServiceEntry (c_Spec curr) = Some q /\
                         se_Hosts p <> [] /\ se_Hosts q <> []
  | GvkGateway => is_Some (asGateway (c_Spec prev)) /\ is_Some (asGateway (c_Spec curr))
  | _ => False
  end ->
  generateEnvoyFilters c' sv = generateEnvoyFilters c sv.
Proof.
  intros Hch Hn Hd Hw Hun Hr Hkind. pose proof Hsame as (_ & _ & _ & _ & Hp & Hg).
  assert (Hun' : generators c' !! Unsupported = None) by (by rewrite Hg).
  unfold handlerWrapper in Hw. rewrite Hd in Hw. cbn [andb] in Hw. unfold generateEnvoyFilters, generateGatewayEnvoyFilters.
  destruct (m_GroupVersionKind (c_Meta curr)) eqn:Ek; try done.
  - destruct Hkind as (p & q & Hpe & Hqe & Hph & Hqh). apply change_dropped in Hw as [Hc Hpr]; [|done].
    pose proof (Hch GvkServiceEntry "") as Hse. rewrite Ek in Hse. destruct Hse as (before & after & Hl & Hl').
    pose proof (Hch GvkVirtualService "") as Hvs. pose proof (Hch GvkGateway "") as Hgw. rewrite Ek in Hvs, Hgw. cbn in Hvs, Hgw.
    rewrite Hl, Hl', Hgw. rewrite Hl, Forall_app, Forall_cons in Hr. destruct Hr as (Hr1 & _ & Hr2).
    rewrite (loop_skip _ before curr after), (loop_skip _ before prev after).
    + rewrite service_loop_same by (done || by apply Forall_app). destruct (loop _ _ _) as [[m|[m e]]|]; [|done..].
      cbn. by rewrite (loop_ext _ _ _ _ gateway_step_same).
    + intros s. by apply (service_entry_inert (protocolMap c) c eq_refl Hun prev p).
    + intros s. by apply (service_entry_inert (protocolMap c) c' Hp Hun' curr q).
  - destruct Hkind as [[p Hpe] [q Hqe]]. apply change_dropped in Hw as [Hc Hpr]; [|done].
    pose proof (Hch GvkGateway "") as Hgw. rewrite Ek in Hgw. destruct Hgw as (before & after & Hl & Hl').
    pose proof (Hch GvkVirtualService "") as Hvs. pose proof (Hch GvkServiceEntry "") as Hse. rewrite Ek in Hvs, Hse. cbn in Hvs, Hse.
    rewrite Hl, Hl', Hse, service_loop_same by done. destruct (loop _ _ _) as [[m|[m e]]|]; [|done..]. cbn.
    rewrite (loop_skip _ before curr after), (loop_skip _ before prev after).
    + by rewrite (loop_ext _ _ _ _ gateway_step_same).
    + intros s. by apply (gateway_inert (protocolMap c) c eq_refl prev p).
    + intros s. by apply (gateway_inert (protocolMap c) c' Hp curr q).
Qed.
End dropped.

(** ** Concrete instances *)
Definition demo_entry (addresses : list string) (port : string) : Config :=
  {| c_Meta := {| m_GroupVersionKind := GvkServiceEntry; m_Name := "web"; m_Namespace := "ns"; m_Labels := ∅;
                  m_Annotations := ∅ |};
     c_Spec := SpecServiceEntry {| se_Hosts := ["web.svc"]; se_Addresses := addresses;
       se_Ports := [{| sp_Number := 80; sp_Protocol := "tcp"; sp_Name := port; sp_TargetPort := 80 |}];
       se_Resolution := STATIC; se_WorkloadSelector := None |} |}.
Definition demo_same_addresses (a b : ConfigSpec) : bool :=
  match a, b with
  | SpecServiceEntry p, SpecServiceEntry q => bool_decide (se_Addresses p = se_Addresses q)
  | SpecNil, SpecNil => true
  | _, _ => false
  end.
Definition demo_dubbo_store : ConfigStore := {| store_List := fun _ _ => [demo_entry [] "tcp-dubbo"] |}.
Definition demo_vs_config (hosts : list string) : Config :=
  {| c_Meta := {| m_GroupVersionKind := GvkVirtualService; m_Name := "vs"; m_Namespace := "ns"; m_Labels := ∅;
                  m_Annotations := ∅ |};
     c_Spec := SpecVirtualService {| vs_Hosts := hosts; vs_Gateways := []; vs_Http := []; vs_Tcp := [] |} |}.

Definition demo_ctl_of (entry : Config) : Controller :=
  {| configStore := {| store_List := fun k ns => match k with
       | GvkServiceEntry => if String.eqb ns "" || String.eqb ns "ns" then [demo_entry [] "tcp-dubbo"; entry] else []
       | _ => [] end |};
     metaRouterList := Ok []; generators := {[Model.Dubbo := demo_generate]};
     namespaceScoped := false; namespace := "istio-system"; meshConfig := demo_mesh; protocolMap := protocolMap_init |}.

#[local] Existing Instance mem_server.
#[local] Existing Instance spec_equal.
#[local] Existing Instance canonical_range.
Lemma dropped_update_harmless_witness :
  handlerWrapper protocolMap_init (configStore (demo_ctl_of (demo_entry ["10.0.0.1"] "tcp-http"))) demo_same_addresses
    (demo_entry [] "tcp-http") (demo_entry ["10.0.0.1"] "tcp-http") EventUpdate = false /\
  generateEnvoyFilters (demo_ctl_of (demo_entry ["10.0.0.1"] "tcp-http")) (demo_empty : MemServer VirtualService) =
  generateEnvoyFilters (demo_ctl_of (demo_entry [] "tcp-http")) (demo_empty : MemServer VirtualService).
Proof.
  split; [reflexivity|].
  apply (dropped_update_harmless demo_same_addresses (demo_ctl_of (demo_entry [] "tcp-http"))
    (demo_ctl_of (demo_entry ["10.0.0.1"] "tcp-http")) ltac:(by split_and!) (demo_entry [] "tcp-http")
    (demo_entry ["10.0.0.1"] "tcp-http")); try reflexivity.
  - intros kind ns. destruct kind; cbn [bool_decide m_GroupVersionKind c_Meta demo_entry andb]; try reflexivity.
    destruct (String.eqb ns "" || String.eqb ns "ns") eqn:E; cbn; rewrite E; cbn; [|reflexivity].
    exists [demo_entry [] "tcp-dubbo"], []. split; reflexivity.
  - repeat constructor; intros (service & port & [= <-] & Hin & Heq); apply list_elem_of_singleton in Hin as ->;
      discriminate Heq.
  - exists {| se_Hosts := ["web.svc"]; se_Addresses := []; se_Ports := [{| sp_Number := 80; sp_Protocol := "tcp";
      sp_Name := "tcp-http"; sp_TargetPort := 80 |}]; se_Resolution := STATIC; se_WorkloadSelector := None |}.
    eexists. split; [reflexivity|]. split; [reflexivity|]. split; discriminate.
Defined.

Lemma virtual_service_filter_witness :
  shouldHandleVirtualService protocolMap_init demo_dubbo_store (demo_vs_config ["web.svc"]) = true.
Proof.
  refine (proj2 (virtual_service_filter protocolMap_init demo_dubbo_store (demo_vs_config ["web.svc"]) _ eq_refl _)
    "web.svc" (demo_entry [] "tcp-dubbo") _ eq_refl eq_refl _ eq_refl eq_refl eq_refl); cbn.
  - intros se [->|Hin%elem_of_nil]%elem_of_cons; [by eexists|done].
  - by left.
Defined.

(** A virtual service the EnvoyFilter controller applies to the Dubbo entry, whose changes
    are not passed on. *)
Example second_host_missed :
  findRelatedVirtualService {| configStore := {| store_List := fun k _ => match k with
        | GvkVirtualService => [demo_vs_config ["other.svc"; "web.svc"]] | _ => [demo_entry [] "tcp-dubbo"] end |};
      metaRouterList := Ok []; generators := ∅; namespaceScoped := false; namespace := ""; meshConfig := demo_mesh;
      protocolMap := protocolMap_init |}
    {| se_Hosts := ["web.svc"]; se_Addresses := []; se_Ports := []; se_Resolution := STATIC; se_WorkloadSelector := None |}
  = Ret (Ok (Some {| vsw_Meta := c_Meta (demo_vs_config []);
                     vsw_Spec := {| vs_Hosts := ["other.svc"; "web.svc"]; vs_Gateways := []; vs_Http := []; vs_Tcp := [] |} |})) /\
  shouldHandleVirtualService protocolMap_init demo_dubbo_store (demo_vs_config ["other.svc"; "web.svc"]) = false.
Proof. split; reflexivity. Qed.

(** ** What is watched *)
Definition configCollection : list GVK :=
  [GvkServiceEntry; GvkVirtualService; GvkDestinationRule; GvkEnvoyFilter; GvkGateway].

(** The store as far as it is watched. *)
Definition watched_store (s : ConfigStore) : ConfigStore :=
  {| store_List := fun k ns => if bool_decide (k ∈ configCollection) then store_List s k ns else [] |}.

(** ** The controller and its connection to istiod

    What the code takes from Istio's libraries: the names of the kinds and of the token file. *)
Class IstioNames := { gvk_String : GVK -> string; K8sSAJwtFileName : string }.

(** One request per kind. *)
Definition configInitialRequests `{IstioNames} : list string := gvk_String <$> configCollection.

Record Options := { opt_PodName : string; opt_ClusterID : string; opt_NameSpace : string; opt_IstiodAddr : string }.

(** [security.Options] and [adsc.Config]; a secret manager is known by the options it is made of. *)
Record SecurityOptions := {
  so_CAEndpoint : string; so_ClusterID : string; so_WorkloadNamespace : string; so_TrustDomain : string;
  so_ServiceAccount : string; so_WorkloadRSAKeySize : Z; so_CredFetcher : string }.

Record AdscConfig := {
  ac_Namespace : string; ac_Generator : string; ac_ClusterID : string; ac_Workload : string;
  ac_InitialDiscoveryRequests : list string; ac_SecretManager : option SecurityOptions }.

(** What the store of a client is: the cache of the controller, or one of its own. *)
Inductive ClientStore := ControllerCache | OwnCache.

(** Clients are named after the attempt that made them. *)
Record Client := { cl_attempt : nat; cl_Store : ClientStore }.

(** [configCache] is known by the handlers registered with it. *)
Record IstioController (H : Type) := {
  options : Options; xdsMCP : option Client; configCache : option (list (GVK * H)) }.
Arguments Build_IstioController {H} _ _ _.
Arguments options {H} _.
Arguments xdsMCP {H} _.
Arguments configCache {H} _.

Definition NewController {H} (o : Options) : IstioController H :=
  {| options := o; xdsMCP := None; configCache := Some [] |}.

(** The wrapped handler is put into the cache for every kind. *)
Definition RegisterEventHandler {H} (handler : H) (c : IstioController H) : outcome (IstioController H) :=
  handlers ← deref (configCache c);
  Ret {| options := options c; xdsMCP := xdsMCP c;
         configCache := Some (handlers ++ ((fun k => (k, handler)) <$> configCollection)) |}.

Definition istiodCACertPath : string := "/var/run/secrets/istio/root-cert.pem".

(** What an attempt to connect meets: the clients of Istio's security packages, then the
    connection and its start. *)
Record Attempt := {
  at_citadel : SecurityOptions -> string -> option error; at_manager : SecurityOptions -> option error;
  at_dial : string -> AdscConfig -> option error; at_run : option error }.

(** Whether the address is taken for one with TLS. *)
Definition uses_tls (addr : string) : bool := negb (HasSuffix addr ":15010").

Section connection.
Context `{IstioNames} {Handler : Type}.

Definition newSecretManager (c : IstioController Handler) (a : Attempt) : res SecurityOptions :=
  let o := {| so_CAEndpoint := opt_IstiodAddr (options c); so_ClusterID := opt_ClusterID (options c);
              so_WorkloadNamespace := opt_NameSpace (options c); so_TrustDomain := "cluster.local";
              so_ServiceAccount := "aeraki"; so_WorkloadRSAKeySize := 2048; so_CredFetcher := K8sSAJwtFileName |} in
  match at_citadel a o istiodCACertPath with
  | Some err => Err err
  | None => match at_manager a o with Some err => Err err | None => Ok o end
  end.

(** The controller beside the clients that are open. *)
Definition set_client (client : option Client) (c : IstioController Handler) : IstioController Handler :=
  {| options := options c; xdsMCP := client; configCache := configCache c |}.

Definition closeConnection (st : IstioController Handler * list nat) : outcome (IstioController Handler * list nat) :=
  client ← deref (xdsMCP (fst st));
  Ret (fst st, filter (fun m => m <> cl_attempt client) (snd st)).

(** The settings before the loop. *)
Definition adsc_config (c : IstioController Handler) : AdscConfig :=
  {| ac_Namespace := opt_NameSpace (options c); ac_Generator := "api"; ac_ClusterID := "";
     ac_Workload := opt_PodName (options c); ac_InitialDiscoveryRequests := configInitialRequests;
     ac_SecretManager := None |}.

Definition with_manager (config : AdscConfig) (sm : SecurityOptions) : AdscConfig :=
  {| ac_Namespace := ac_Namespace config; ac_Generator := ac_Generator config; ac_ClusterID := ac_ClusterID config;
     ac_Workload := ac_Workload config; ac_InitialDiscoveryRequests := ac_InitialDiscoveryRequests config;
     ac_SecretManager := Some sm |}.

(** The secret manager of one turn of the loop, when the address asks for one. *)
Definition with_secrets (c : IstioController Handler) (a : Attempt) (config : AdscConfig) : res AdscConfig :=
  if uses_tls (opt_IstiodAddr (options c)) then
    match newSecretManager c a with Err err => Err err | Ok sm => Ok (with_manager config sm) end
  else Ok config.

Definition client_store (c : IstioController Handler) : ClientStore :=
  match configCache c with None => OwnCache | Some _ => ControllerCache end.

(** The loop tries until a client is created and runs; the [n]-th turn meets [attempts n].
    The waits of five seconds are left out. *)
Fixpoint connect_loop (fuel : nat) (attempts : nat -> Attempt) (n : nat) (config : AdscConfig)
    (st : IstioController Handler * list nat) : option (outcome (IstioController Handler * list nat)) :=
  match fuel with
  | O => None
  | S fuel =>
      let '(c, opened) := st in
      match with_secrets c (attempts n) config with
      | Err _ => connect_loop fuel attempts (S n) config st
      | Ok config =>
          match at_dial (attempts n) (opt_IstiodAddr (options c)) config with
          | Some _ => connect_loop fuel attempts (S n) config (set_client None c, opened)
          | None =>
              let st := (set_client (Some {| cl_attempt := n; cl_Store := client_store c |}) c, n :: opened) in
              match at_run (attempts n) with
              | None => Some (Ret st)
              | Some _ =>
                  match closeConnection st with
                  | Ret st => connect_loop fuel attempts (S n) config st
                  | Panic w => Some (Panic w)
                  end
              end
          end
      end
  end.

Definition connectIstio (fuel : nat) (attempts : nat -> Attempt) (n : nat) (st : IstioController Handler * list nat)
    : option (outcome (IstioController Handler * list nat)) :=
  connect_loop fuel attempts n (adsc_config (fst st)) st.

Definition reconnectIstio (fuel : nat) (attempts : nat -> Attempt) (n : nat) (st : IstioController Handler * list nat)
    : option (outcome (IstioController Handler * list nat)) :=
  match closeConnection st with
  | Ret st => connectIstio fuel attempts n st
  | Panic w => Some (Panic w)
  end.

(** The settings an attempt dials with, if it gets that far. *)
Definition dial_config (c : IstioController Handler) (a : Attempt) : res AdscConfig := with_secrets c a (adsc_config c).

Definition succeeds (c : IstioController Handler) (a : Attempt) : bool :=
  match dial_config c a with
  | Err _ => false
  | Ok config =>
      match at_dial a (opt_IstiodAddr (options c)) config, at_run a with None, None => true | _, _ => false end
  end.

(** A secret manager of an earlier turn makes no difference: a turn that uses one makes it. *)
Lemma with_secrets_twice c a b config config' :
  with_secrets c a config = Ok config' -> with_secrets c b config' = with_secrets c b config.
Proof.
  unfold with_secrets. destruct (uses_tls _); [|by intros [= <-]].
  destruct (newSecretManager c a); [|done]. by intros [= <-].
Qed.

Definition settled (c : IstioController Handler) (config : AdscConfig) : Prop :=
  forall a, with_secrets c a config = dial_config c a.

(** Closing the client just made leaves the others open. *)
Lemma close_new c n store opened :
  (forall m, m ∈ opened -> (m < n)%nat) ->
  closeConnection (set_client (Some {| cl_attempt := n; cl_Store := store |}) c, n :: opened) =
  Ret (set_client (Some {| cl_attempt := n; cl_Store := store |}) c, opened).
Proof.
  intros Hold. unfold closeConnection. cbn [fst snd xdsMCP set_client deref mbind outcome_bind cl_attempt].
  rewrite filter_cons_False by naive_solver. f_equal. f_equal.
  induction opened as [|m l IH]; [done|]. rewrite filter_cons_True.
  - f_equal. apply IH. intros k Hk. apply Hold. by right.
  - intros ->. assert (n < n)%nat by (apply Hold; by left). lia.
Qed.

Lemma connect_fails c config attempts fuel n opened :
  settled c config -> (forall m, m ∈ opened -> (m < n)%nat) -> succeeds c (attempts n) = false ->
  exists client config', settled (set_client client c) config' /\
    connect_loop (S fuel) attempts n config (c, opened) =
    connect_loop fuel attempts (S n) config' (set_client client c, opened).
Proof.
  intros Hset Hold Hf. cbn [connect_loop]. unfold succeeds in Hf. rewrite <- Hset in Hf.
  destruct (with_secrets c (attempts n) config) as [config'|] eqn:Hw.
  2: { exists (xdsMCP c), config. by destruct c. }
  assert (forall client, settled (set_client client c) config') as Hset'.
  { intros client a. change (with_secrets c a config' = dial_config c a). rewrite <- (Hset a).
    by apply (with_secrets_twice c (attempts n)). }
  destruct (at_dial (attempts n) _ config'); [by eauto|]. destruct (at_run (attempts n)); [|done].
  rewrite close_new by done. by eauto.
Qed.

(** C33: The connection loop returns at the first attempt that succeeds, whatever the earlier
    ones met, and then the stored client is that attempt's, writes to the cache of the
    controller if it has one, and is the only one opened that is still open; the rest of the
    controller is as before.  It does not return, and does not panic, as long as none succeeds. *)
Theorem connect_first_success c attempts k :
  (forall j, (j < k)%nat -> succeeds c (attempts j) = false) ->
  (succeeds c (attempts k) = true -> forall fuel, (k < fuel)%nat ->
     connectIstio fuel attempts 0 (c, []) =
     Some (Ret (set_client (Some {| cl_attempt := k; cl_Store := client_store c |}) c, [k]))) /\
  connectIstio k attempts 0 (c, []) = None.
Proof.
  intros Hfail. unfold connectIstio. cbn [fst].
  assert (Hsteps : forall extra, exists client config, settled (set_client client c) config /\
    connect_loop (k + extra) attempts 0 (adsc_config c) (c, []) =
    connect_loop extra attempts k config (set_client client c, [])).
  { revert Hfail. induction k as [|k IH]; intros Hfail extra.
    { exists (xdsMCP c), (adsc_config c). by destruct c. }
    destruct (IH ltac:(intros j Hj; apply Hfail; lia) (S extra)) as (client & config & Hset & Hc).
    destruct (connect_fails (set_client client c) config attempts extra k []) as (client' & config' & Hset' & Hc');
      [done|by intros m ?%elem_of_nil|apply (Hfail k); lia|].
    exists client', config'. split; [done|]. rewrite Nat.add_succ_r in Hc. cbn [Nat.add]. by rewrite Hc, Hc'. }
  split.
  - intros Hok fuel Hfuel. destruct (Hsteps (S (fuel - k - 1))) as (client & config & Hset & Hc).
    replace (k + S (fuel - k - 1))%nat with fuel in Hc by lia. rewrite Hc. cbn [connect_loop]. rewrite Hset.
    unfold succeeds in Hok. change (dial_config (set_client client c)) with (dial_config c).
    destruct (dial_config c (attempts k)) as [config'|]; [|done]. cbn [options set_client].
    destruct (at_dial (attempts k) _ config'), (at_run (attempts k)); done.
  - destruct (Hsteps 0%nat) as (client & config & _ & Hc). rewrite Nat.add_0_r in Hc. by rewrite Hc.
Qed.

(** With TLS every attempt dials with the settings of the options and a secret manager that
    speaks to the same address; without it there is no secret manager. *)
Lemma dial_config_settings c a config :
  dial_config c a = Ok config ->
  ac_Namespace config = opt_NameSpace (options c) /\ ac_Workload config = opt_PodName (options c) /\
  ac_InitialDiscoveryRequests config = gvk_String <$> configCollection /\
  (so_CAEndpoint <$> ac_SecretManager config) =
    if uses_tls (opt_IstiodAddr (options c)) then Some (opt_IstiodAddr (options c)) else None.
Proof.
  unfold dial_config, with_secrets, newSecretManager. destruct (uses_tls _); [|by intros [= <-]].
  destruct (at_citadel _ _ _); [done|]. destruct (at_manager _ _); [done|]. by intros [= <-].
Qed.
End connection.

(** Two handlers registered with a new controller are both called for every kind, in the
    order of their registration. *)
Lemma register_twice {H} o (h1 h2 : H) :
  (c ← RegisterEventHandler h1 (NewController o); RegisterEventHandler h2 c) =
  Ret {| options := o; xdsMCP := None;
         configCache := Some (((fun k => (k, h1)) <$> configCollection) ++ ((fun k => (k, h2)) <$> configCollection)) |}.
Proof. done. Qed.

Definition demo_attempt (secret dial run : option error) : Attempt :=
  {| at_citadel := fun _ _ => None; at_manager := fun _ => secret; at_dial := fun _ _ => dial; at_run := run |}.
Definition demo_attempts (n : nat) : Attempt :=
  match n with
  | O => demo_attempt (Some "no token") None None
  | 1%nat => demo_attempt None None (Some "connection reset")
  | 2%nat => demo_attempt None (Some "refused") None
  | _ => demo_attempt None None None
  end.
Definition demo_options : Options :=
  {| opt_PodName := "aeraki-0"; opt_ClusterID := ""; opt_NameSpace := "istio-system";
     opt_IstiodAddr := "istiod.istio-system:15012" |}.
#[local] Instance demo_names : IstioNames :=
  {| gvk_String := fun _ => "networking.istio.io/v1alpha3/Kind"; K8sSAJwtFileName := "/var/run/secrets/tokens/istio-token" |}.

Lemma connect_first_success_witness :
  connectIstio 9 demo_attempts 0 (@NewController unit demo_options, []) =
  Some (Ret (set_client (Some {| cl_attempt := 3; cl_Store := ControllerCache |}) (NewController demo_options), [3%nat])).
Proof.
  refine (proj1 (connect_first_success (NewController demo_options) demo_attempts 3 _) eq_refl 9%nat _).
  - intros j Hj. destruct j as [|[|[|j]]]; [reflexivity..|lia].
  - lia.
Defined.
