(* ===== verification/Consistency.v ===== *)
(** * The event loops and their work

    [mainLoop] of [src/internal/envoyfilter/controller.go] and of
    [src/internal/xds/cache_mgr.go] together with what they run: the state that the work is
    done on, the configuration it is done from, and changes of either, whose events are sent
    some time after.  The interface [LoopWork] is what a loop needs to know
    of its work; [push_work] and [route_work] are its two instances.

    A run reads the configuration at one moment; a change that falls into a run has its
    event still to be sent.  A change of the store is one step with the decision of the
    event filter on it; Istio's queue between the store and its handlers is not modelled. *)

From S2P Require Import Prelude Api Model EventLoop ApiServer EnvoyFilterController Xds XdsServer ConfigController.

Class LoopWork (C A : Type) := {
  lw_runs : C -> A -> option error -> A -> Prop;
  lw_blocked : C -> A -> Prop;
  lw_change : C -> A -> C -> A -> Prop;
  lw_silent : C -> C -> Prop;
  lw_config : C -> Prop;
  lw_state : A -> Prop;
  lw_synced : C -> A -> Prop;
  lw_quiet : A -> A -> Prop;
  lw_progress : forall c a, lw_blocked c a \/ exists e a', lw_runs c a e a';
  lw_change_ok : forall c a c' a', lw_config c -> lw_state a -> lw_change c a c' a' ->
    lw_config c' /\ lw_state a';
  lw_silent_ok : forall c c', lw_config c -> lw_silent c c' ->
    lw_config c' /\ forall a, lw_synced c a -> lw_synced c' a;
  lw_runs_ok : forall c a e a', lw_config c -> lw_state a -> lw_runs c a e a' ->
    lw_state a' /\ (e = None \/ lw_synced c a -> lw_synced c a');
  lw_quiet_ok : forall c a a', lw_state a -> lw_quiet a a' ->
    lw_state a' /\ (lw_synced c a -> lw_synced c a') }.

Section loop.
Context {C A : Type} `{LoopWork C A}.

Record world := { w_config : C; w_state : A; w_loop : loop_state; w_unsent : nat }.

Definition failed (e : option error) : bool := match e with Some _ => true | None => false end.

(** The steps of the program itself carry [true]: sending the event of a change, receiving
    one, running the debounced callback. *)
Inductive world_step : bool -> world -> world -> Prop :=
| change_step w c a : lw_change (w_config w) (w_state w) c a ->
    world_step false w {| w_config := c; w_state := a; w_loop := w_loop w; w_unsent := S (w_unsent w) |}
| silent_step w c : lw_silent (w_config w) c ->
    world_step false w {| w_config := c; w_state := w_state w; w_loop := w_loop w; w_unsent := w_unsent w |}
| quiet_step w a : lw_quiet (w_state w) a ->
    world_step false w {| w_config := w_config w; w_state := a; w_loop := w_loop w; w_unsent := w_unsent w |}
| event_step w n : w_unsent w = S n -> pending (w_loop w) < channelCapacity ->
    world_step true w {| w_config := w_config w; w_state := w_state w; w_loop := send (w_loop w); w_unsent := n |}
| receive_step w : 0 < pending (w_loop w) ->
    world_step true w {| w_config := w_config w; w_state := w_state w; w_loop := receive (w_loop w); w_unsent := w_unsent w |}
| work_step w e a : bounced (w_loop w) = true -> lw_runs (w_config w) (w_state w) e a ->
    (snd (callback (failed e) (retries (w_loop w))) = true -> pending (w_loop w) < channelCapacity) ->
    world_step true w {| w_config := w_config w; w_state := a; w_loop := fire (failed e) (w_loop w);
                         w_unsent := w_unsent w |}.

(** A process that has just started, with the event of its first configuration to come. *)
Definition starts (w : world) : Prop :=
  lw_config (w_config w) /\ lw_state (w_state w) /\ w_loop w = initial /\ (0 < w_unsent w)%nat.

Definition world_reachable (w0 w : world) : Prop := rtc (fun w w' => exists own, world_step own w w') w0 w.

Definition world_inv (w : world) : Prop :=
  lw_config (w_config w) /\ lw_state (w_state w) /\ loop_inv (w_loop w) /\
  (w_unsent w = 0%nat -> stale (w_loop w) = false -> lw_synced (w_config w) (w_state w)).

Lemma fire_stale b t : stale (fire b t) = if b then stale t else false.
Proof. unfold fire. by destruct (callback b (retries t)). Qed.

Lemma world_step_inv own w w' : world_inv w -> world_step own w w' -> world_inv w'.
Proof.
  intros (Hc & Ha & Hl & Hs) Hstep.
  destruct Hstep as [w c a Hc'|w c Hc'|w a Hq|w n Hn Hcap|w Hp|w e a Hb Hrun Hcap]; unfold world_inv; simpl.
  - destruct (lw_change_ok _ _ _ _ Hc Ha Hc') as [??]. by split_and!.
  - destruct (lw_silent_ok _ _ Hc Hc') as [??]. split_and!; auto.
  - destruct (lw_quiet_ok (w_config w) _ _ Ha Hq) as [Ha' Hq']. split_and!; auto.
  - split_and!; [done..|eapply step_inv; [done|by apply step_send]|done].
  - split_and!; [done..|eapply step_inv; [done|by apply step_receive]|done].
  - destruct (lw_runs_ok _ _ _ _ Hc Ha Hrun) as [Ha' Hsync]. split_and!; [done..| |].
    + eapply step_inv; [done|]. by apply step_fire.
    + intros Hu Hst. rewrite fire_stale in Hst. apply Hsync. destruct e as [e|]; [|by left]. right. by apply Hs.
Qed.

Lemma world_reachable_inv w0 w : starts w0 -> world_reachable w0 w -> world_inv w.
Proof.
  intros (Hc & Ha & Hl & Hu). apply rtc_invariant.
  - intros a b Hab [own Hstep]. by eapply world_step_inv.
  - split_and!; [done..| |lia]. rewrite Hl. apply reachable_inv. constructor.
Qed.

Definition world_potential (w : world) : Z := potential (w_loop w) + 9 * Z.of_nat (w_unsent w).

Lemma world_potential_decreases w w' :
  world_inv w -> world_step true w w' -> world_potential w' < world_potential w.
Proof.
  intros (_ & _ & Hl & _) Hstep. remember true as own eqn:Hown.
  destruct Hstep as [w c a Hc'|w c Hc'|w a Hq|w n Hn Hcap|w Hp|w e a Hb Hrun Hcap]; [done..| | |]; unfold world_potential; simpl.
  - rewrite potential_send, Hn. lia.
  - assert (potential (receive (w_loop w)) < potential (w_loop w)); [|lia].
    by eapply (potential_decreases _ ReceiveEvent); [|done|constructor].
  - assert (potential (fire (failed e) (w_loop w)) < potential (w_loop w)); [|lia].
    by eapply (potential_decreases _ (Fire (failed e))); [|done|constructor].
Qed.

(** At rest the channel is empty, no callback is due and all events are sent, unless the
    work cannot be done. *)
Lemma world_rest w :
  world_inv w -> (forall w', ~ world_step true w w') ->
  lw_blocked (w_config w) (w_state w) \/
  (pending (w_loop w) = 0 /\ bounced (w_loop w) = false /\ w_unsent w = 0%nat).
Proof.
  intros (_ & _ & (Hr & Hp & _) & _) Hrest.
  assert (Hp0 : pending (w_loop w) = 0).
  { destruct (decide (0 < pending (w_loop w))) as [Hpos|]; [|lia]. exfalso. by eapply Hrest, receive_step. }
  assert (Hu : w_unsent w = 0%nat).
  { destruct (w_unsent w) as [|n] eqn:Hn; [done|]. exfalso. eapply Hrest, (event_step w n Hn). by rewrite Hp0. }
  destruct (bounced (w_loop w)) eqn:Hb; [|by right].
  destruct (lw_progress (w_config w) (w_state w)) as [?|(e & a & Hrun)]; [by left|].
  exfalso. eapply Hrest, (work_step w e a Hb Hrun). by rewrite Hp0.
Qed.

Lemma eventually_consistent w0 w n w' :
  starts w0 -> world_reachable w0 w -> nsteps (world_step true) n w w' ->
  Z.of_nat n <= 8 * pending (w_loop w) + 9 * Z.of_nat (w_unsent w) + 13 /\
  ((forall w'', ~ world_step true w' w'') ->
   lw_blocked (w_config w') (w_state w') \/ given_up (w_loop w') \/ lw_synced (w_config w') (w_state w')).
Proof.
  intros Hs Hr Hrun. pose proof (world_reachable_inv _ _ Hs Hr) as Hinv.
  destruct (nsteps_measure (world_step true) world_inv world_potential n w w') as [Hinv' Hn]; [|done..|].
  { intros a b Ha Hstep. split; [by eapply world_step_inv|by apply world_potential_decreases]. }
  split.
  - pose proof (loop_inv_potential _ (proj1 (proj2 (proj2 Hinv')))). destruct Hinv as (_ & _ & (Hre & _) & _).
    unfold world_potential, potential, maxRetries in *. destruct (bounced (w_loop w)); lia.
  - intros Hrest. destruct (world_rest w' Hinv' Hrest) as [?|(Hp & Hb & Hu)]; [by left|right].
    destruct Hinv' as (_ & _ & (_ & _ & Hst) & Hsync). destruct (stale (w_loop w')) eqn:Hstale; [left|right; auto].
    destruct (Hst eq_refl) as [?|[?|?]]; [lia|congruence|done].
Qed.

(** One change, its event and one successful run. *)
Definition started_world (c : C) (a : A) : world :=
  {| w_config := c; w_state := a; w_loop := initial; w_unsent := 1 |}.
Definition served_world (c : C) (a : A) : world :=
  {| w_config := c; w_state := a; w_loop := fire false (receive (send initial)); w_unsent := 0 |}.

Lemma one_change c a a' :
  lw_runs c a None a' -> nsteps (world_step true) 3 (started_world c a) (served_world c a').
Proof.
  intros Hrun. eapply nsteps_l; [by apply (event_step (started_world c a) 0)|].
  eapply nsteps_l; [by apply receive_step|]. eapply nsteps_l; [by apply (work_step _ None a')|]. apply nsteps_O.
Qed.

Lemma idle_rests w w' :
  w_unsent w = 0%nat -> pending (w_loop w) = 0 -> bounced (w_loop w) = false -> ~ world_step true w w'.
Proof.
  intros Hu Hp Hb Hstep. remember true as own eqn:Hown.
  destruct Hstep as [w c' a' ?|w c' ?|w a' ?|w n Hn ?|w Hlt|w e a' Hb' ? ?]; [done..|congruence|lia|congruence].
Qed.
End loop.

(** ** The EnvoyFilter loop *)
Section push_loop.
Context {StE StV : Type} `{ApiServerLaws StE EnvoyFilter, ApiServer StV VirtualService}.
Context `{ProtoEqualLaws EnvoyFilter, ProtoEqual VirtualService, MapRange}.

(** What the filters are generated from: the store, the meta routers, the mesh
    configuration, the protocols, and whatever else the generators read ([R]: the Aeraki
    resources of the other kinds, codecs, secrets), of which [unwatched] are the changes
    that nothing watches. *)
Context {R : Type} (generators_of : R -> ConfigStore -> gmap Instance_ Generator) (unwatched : R -> R -> Prop).
Context (scoped : bool) (root : string) (DeepEqual : ConfigSpec -> ConfigSpec -> bool).

Record Resources := {
  rs_store : ConfigStore; rs_routers : list MetaRouter; rs_mesh : MeshConfig;
  rs_protocols : gmap string Instance_; rs_other : R }.

Definition controller_of (r : Resources) : Controller :=
  {| configStore := rs_store r; metaRouterList := Ok (rs_routers r);
     generators := generators_of (rs_other r) (rs_store r); namespaceScoped := scoped; namespace := root;
     meshConfig := rs_mesh r; protocolMap := rs_protocols r |}.

(** The changes without an event: those the event filter drops and those nothing watches. *)
Inductive unnoticed : Resources -> Resources -> Prop :=
| filtered_out r s : filtered_change DeepEqual (rs_protocols r) (rs_store r) s ->
    unnoticed r {| rs_store := s; rs_routers := rs_routers r; rs_mesh := rs_mesh r;
                   rs_protocols := rs_protocols r; rs_other := rs_other r |}
| not_watched r o : unwatched (rs_other r) o ->
    unnoticed r {| rs_store := rs_store r; rs_routers := rs_routers r; rs_mesh := rs_mesh r;
                   rs_protocols := rs_protocols r; rs_other := o |}.

(** The addresses that belong to Aeraki: its map keys tell them apart. *)
Variable own_address : string -> string -> Prop.
Hypothesis own_address_inj : forall ns name ns' name', own_address ns name -> own_address ns' name' ->
  envoyFilterMapKey name ns = envoyFilterMapKey name' ns' -> ns = ns' /\ name = name'.

Definition own_filters (c : Controller) : Prop :=
  forall sv m err sv' k w, generateEnvoyFilters c sv = Ret (m, err, sv') -> m !! k = Some w ->
    own_address (efw_Namespace w) (efw_Name w).

Definition managed_own (se : StE) : Prop :=
  forall ns name o, api_get se (ns, name) = Some o -> managed o <-> own_address ns name.

(** The managed EnvoyFilters are the ones generated from the configuration. *)
Definition filters_synced (c : Controller) (se : StE) : Prop :=
  exists sv m sv', generateEnvoyFilters c sv = Ret (m, None, sv') /\
    forall ns name ef,
      (exists o, api_get se (ns, name) = Some o /\ managed o /\ o_Spec o = ef) <->
      m !! envoyFilterMapKey name ns = Some {| efw_Name := name; efw_Namespace := ns; efw_Envoyfilter := ef |}.

(** They are, up to changes without an event since. *)
Definition filters_follow (r : Resources) (se : StE) : Prop :=
  exists r', rtc unnoticed r' r /\ filters_synced (controller_of r') se.

(** The listeners of the gateways do not change what is generated. *)
Lemma generated_unique c (sv1 sv2 sv1' sv2' : StV) m1 m2 e1 e2 :
  generateEnvoyFilters c sv1 = Ret (m1, e1, sv1') -> generateEnvoyFilters c sv2 = Ret (m2, e2, sv2') -> m1 = m2.
Proof.
  unfold generateEnvoyFilters, generateGatewayEnvoyFilters.
  intros (r & Hr & H1')%bind_Ret_inv (r' & Hr' & H2')%bind_Ret_inv. rewrite Hr in Hr'. injection Hr' as <-.
  destruct r as [m|[m e]]; [|congruence].
  apply bind_Ret_inv in H1' as (g & Hg & H1'), H2' as (g' & Hg' & H2'). rewrite Hg in Hg'. injection Hg' as <-.
  destruct g as [[m' ctxs]|m']; [|congruence].
  destruct (generateListenerForGateway ctxs sv1), (generateListenerForGateway ctxs sv2). congruence.
Qed.

(** Others may write at other addresses. *)
Definition others_write (a a' : StE * StV) : Prop :=
  managed_own (fst a') /\
  forall ns name, own_address ns name -> api_get (fst a') (ns, name) = api_get (fst a) (ns, name).

Lemma own_push_syncs c se (sv sv' : StV) m :
  own_filters c -> managed_own se -> generateEnvoyFilters c sv = Ret (m, None, sv') ->
  exists se', pushEnvoyFilters2APIServer c (se, sv) = Ret (None, (se', sv')) /\
    (forall ns name ef,
       (exists o, api_get se' (ns, name) = Some o /\ managed o /\ o_Spec o = ef) <->
       m !! envoyFilterMapKey name ns = Some {| efw_Name := name; efw_Namespace := ns; efw_Envoyfilter := ef |}) /\
    (forall a o, ~ managed o -> api_get se' a = Some o <-> api_get se a = Some o).
Proof.
  intros Hown Hman Hgen. pose proof (generateEnvoyFilters_keyed _ _ _ _ _ Hgen) as Hkeyed.
  apply push_syncs; [done|..].
  - intros o w Ho Hm Hg. apply own_address_inj; [by eapply Hown|by eapply Hman|].
    symmetry. by apply (Hkeyed _ _ Hg).
  - intros k w o Hg Ho. apply (Hman _ _ _ Ho). by eapply Hown.
Qed.

Lemma push_step_ok c (a : StE * StV) e a' :
  own_filters c -> managed_own (fst a) -> pushEnvoyFilters2APIServer c a = Ret (e, a') ->
  managed_own (fst a') /\ (e = None \/ filters_synced c (fst a) -> filters_synced c (fst a')).
Proof.
  destruct a as [se sv]. cbn [fst]. intros Hown Hman Hpush.
  destruct (generateEnvoyFilters c sv) as [[[m [err|]] sv']|] eqn:Hgen.
  - unfold pushEnvoyFilters2APIServer in Hpush. cbn [fst snd] in Hpush. rewrite Hgen in Hpush.
    injection Hpush as <- <-. split; [done|]. by intros [|].
  - destruct (own_push_syncs c se sv sv' m Hown Hman Hgen) as (se' & Hp & Hin & Hun).
    rewrite Hp in Hpush. injection Hpush as <- <-. cbn [fst]. split; [|intros _; by exists sv, m, sv'].
    intros ns name o Ho. destruct (decide (managed o)) as [Hm|Hm].
    + split; [intros _|done]. pose proof (proj1 (Hin ns name (o_Spec o)) (ex_intro _ o (conj Ho (conj Hm eq_refl)))) as Hg.
      exact (Hown _ _ _ _ _ _ Hgen Hg).
    + split; [done|]. intros Ha. apply (Hun _ _ Hm) in Ho. by apply (Hman _ _ _ Ho).
  - unfold pushEnvoyFilters2APIServer in Hpush. cbn [fst snd] in Hpush. by rewrite Hgen in Hpush.
Qed.

(** The API calls succeed, so a push that fails has failed before them. *)
Lemma push_failed c (a : StE * StV) e a' :
  own_filters c -> managed_own (fst a) -> pushEnvoyFilters2APIServer c a = Ret (Some e, a') -> fst a' = fst a.
Proof.
  destruct a as [se sv]. cbn [fst]. intros Hown Hman Hpush.
  destruct (generateEnvoyFilters c sv) as [[[m [err|]] sv']|] eqn:Hgen.
  - unfold pushEnvoyFilters2APIServer in Hpush. cbn [fst snd] in Hpush. rewrite Hgen in Hpush. by injection Hpush as _ <-.
  - destruct (own_push_syncs c se sv sv' m Hown Hman Hgen) as (se' & Hp & _). by rewrite Hp in Hpush.
  - unfold pushEnvoyFilters2APIServer in Hpush. cbn [fst snd] in Hpush. by rewrite Hgen in Hpush.
Qed.

Lemma others_write_ok c (a a' : StE * StV) :
  managed_own (fst a) -> others_write a a' ->
  managed_own (fst a') /\ (filters_synced c (fst a) -> filters_synced c (fst a')).
Proof.
  intros Hman [Hman' Hsame]. split; [done|]. intros (sv & m & sv' & Hgen & Hin). exists sv, m, sv'.
  split; [done|]. intros ns name ef. rewrite <- (Hin ns name ef). split; intros (o & Ho & Hm & Hsp); exists o.
  - rewrite <- (Hsame ns name) by (by apply (Hman' _ _ _ Ho)). done.
  - rewrite (Hsame ns name) by (by apply (Hman _ _ _ Ho)). done.
Qed.

#[local] Instance push_work : LoopWork Resources (StE * StV).
Proof.
  refine {| lw_runs := fun r a e a' => pushEnvoyFilters2APIServer (controller_of r) a = Ret (e, a');
            lw_blocked := fun r a => panics (pushEnvoyFilters2APIServer (controller_of r) a) = true;
            lw_change := fun _ a r' a' => own_filters (controller_of r') /\ a' = a;
            lw_silent := fun r r' => own_filters (controller_of r') /\ unnoticed r r';
            lw_config := fun r => own_filters (controller_of r); lw_state := fun a => managed_own (fst a);
            lw_synced := fun r a => filters_follow r (fst a); lw_quiet := others_write |}.
  - intros r a. destruct (pushEnvoyFilters2APIServer (controller_of r) a) as [[e a']|]; [right; by exists e, a'|by left].
  - by intros r a r' a' _ Ha [? ->].
  - intros r r' _ [Ho Hu]. split; [done|]. intros a (r0 & Hr0 & Hs). exists r0. split; [by eapply rtc_r|done].
  - intros r a e a' Hc Ha Hrun. destruct (push_step_ok _ _ _ _ Hc Ha Hrun) as [Ha' Hsync]. split; [done|].
    intros [->|(r0 & Hr0 & Hs)]; [exists r; split; [apply rtc_refl|by apply Hsync; left]|].
    destruct e as [e|]; [|exists r; split; [apply rtc_refl|by apply Hsync; left]].
    rewrite (push_failed _ _ _ _ Hc Ha Hrun). by exists r0.
  - intros r a a' Ha Hq. split; [by apply (others_write_ok (controller_of r) a)|].
    intros (r0 & Hr0 & Hs). exists r0. split; [done|]. by apply (others_write_ok (controller_of r0) a).
Defined.

End push_loop.
Arguments Resources R : clear implicits.

(** ** The route loop *)
Section route_loop.
Context `{MapRange, IstioNaming} (oob : Z) {St Snap : Type}.
Context `{SnapshotCacheLaws St Snap, !WatchCache St Snap, !WatchCacheLaws St Snap}.
Context (DeepEqual : ConfigSpec -> ConfigSpec -> bool).

Definition lists_routers (c : CacheMgr) : Prop := exists l, cm_metaRouters c = Ok l.

(** The cache manager and the nodes whose request was seen by the callback and whose watch
    is still to be created.  [rw_missed] is ghost state: the nodes whose watch comes, or
    came, too late: after the update that their request asked for, or after their snapshot
    was cleared because another stream of theirs was closed. *)
Record RouteWork := { rw_mgr : XdsState St; rw_opening : list string; rw_missed : list string }.
Abbreviation rw_cache a := (xs_cache (rw_mgr a)).

Definition only_subscribed (a : RouteWork) : Prop :=
  forall n snap, GetSnapshot (rw_cache a) n = Some snap -> n ∈ GetStatusKeys (rw_cache a).

(** The changes without an event: those of the store that the event filter of the config
    controller drops, or that of the cache manager. *)
Definition route_unnoticed (c c' : CacheMgr) : Prop :=
  cm_metaRouters c' = cm_metaRouters c /\ cm_protocolMap c' = cm_protocolMap c /\
  exists event prev curr, store_changed event prev curr (cm_configStore c) (cm_configStore c') /\
    (handlerWrapper (cm_protocolMap c') (cm_configStore c') DeepEqual prev curr event = false \/
     ConfigUpdated c' prev curr = Ret 0%nat).

(** The node has the routes of the configuration, up to changes without an event since. *)
Definition routes_follow (c : CacheMgr) (a : RouteWork) (node : string) : Prop :=
  exists c' snap, rtc route_unnoticed c' c /\ GetSnapshot (rw_cache a) node = Some snap /\
    current_snapshot oob c' snap.

Definition routes_synced (c : CacheMgr) (a : RouteWork) : Prop :=
  (forall n, n ∈ rw_opening a -> n ∈ GetStatusKeys (rw_cache a) \/ n ∈ rw_missed a) /\
  (forall n, n ∈ GetStatusKeys (rw_cache a) -> n ∉ rw_missed a -> routes_follow c a n).

(** An update serves the subscribed nodes; it overtakes the others that are opening. *)
Definition update_runs (c : CacheMgr) (a : RouteWork) (e : option error) (a' : RouteWork) : Prop :=
  exists now s, updateRouteCache oob c now (rw_cache a) = Ret (e, s) /\
    a' = {| rw_mgr := with_cache s (rw_mgr a); rw_opening := rw_opening a;
            rw_missed := match e with
                         | None => filter (fun n => n ∉ GetStatusKeys (rw_cache a)) (rw_opening a)
                         | Some _ => rw_missed a
                         end |}.

(** What sends an event: a new configuration, and a request of a node without snapshot. *)
Inductive route_change : CacheMgr -> RouteWork -> CacheMgr -> RouteWork -> Prop :=
| configured c a c' : lists_routers c' -> route_change c a c' a
| requested c a id node m : OnStreamRequest id (request_of node) (rw_mgr a) = Ret (None, m) ->
    xs_events m = S (xs_events (rw_mgr a)) ->
    route_change c a c {| rw_mgr := m; rw_opening := node :: rw_opening a; rw_missed := rw_missed a |}.

(** What sends none: a watch, a request of a node with a snapshot, a closed stream. *)
Inductive stream_event (a : RouteWork) : RouteWork -> Prop :=
| watched id node rest : rw_opening a ≡ₚ node :: rest ->
    stream_event a {| rw_mgr := with_cache (CreateWatch id node (rw_cache a)) (rw_mgr a);
                      rw_opening := rest; rw_missed := rw_missed a |}
| renewed id node : OnStreamRequest id (request_of node) (rw_mgr a) = Ret (None, rw_mgr a) ->
    hasNode node (rw_mgr a) = true ->
    stream_event a {| rw_mgr := rw_mgr a; rw_opening := node :: rw_opening a; rw_missed := rw_missed a |}
| closed id node m : OnStreamClosed id (Some {| node_Id := node |}) (rw_mgr a) = Ret m ->
    stream_event a {| rw_mgr := m; rw_opening := rw_opening a;
                      rw_missed := if bool_decide (node ∈ rw_opening a) then node :: rw_missed a
                                   else rw_missed a |}.

Lemma update_step_ok c a e a' :
  only_subscribed a -> update_runs c a e a' ->
  only_subscribed a' /\ (e = None \/ routes_synced c a -> routes_synced c a').
Proof.
  intros Hsub (now & s & Hu & ->). destruct (update_outcome oob _ _ _ _ _ Hu) as (Hk & Hg & Hall).
  unfold only_subscribed, routes_synced, routes_follow. cbn. rewrite Hk. split.
  { intros n snap Hn. destruct (Hg n) as [He|[? _]]; [|done]. rewrite He in Hn. by eapply Hsub. }
  destruct e as [e|].
  - intros [|[Ho Hsy]]; [done|]. split; [done|]. intros n Hn Hm.
    destruct (Hg n) as [->|[_ (snap & ? & ?)]]; [by apply Hsy|]. exists c, snap. by split; [apply rtc_refl|].
  - intros _. split; [|intros n Hn _; destruct (Hall eq_refl n Hn) as (snap & ? & ?);
      exists c, snap; by split; [apply rtc_refl|]].
    intros n Hn. destruct (decide (n ∈ GetStatusKeys (rw_cache a))); [by left|right].
    by apply list_elem_of_filter.
Qed.

Lemma route_change_ok c a c' a' : only_subscribed a -> route_change c a c' a' -> only_subscribed a'.
Proof.
  intros Hsub Hc. destruct Hc as [c a c' _|c a id node m Hreq _]; [done|]. unfold OnStreamRequest in Hreq.
  cbn in Hreq. injection Hreq as <-. unfold only_subscribed. cbn. by destruct (CacheMgr_hasNode node (rw_mgr a)).
Qed.

Lemma stream_event_ok c a a' :
  only_subscribed a -> stream_event a a' -> only_subscribed a' /\ (routes_synced c a -> routes_synced c a').
Proof.
  intros Hsub [id node rest Hperm|id node _ Hn|id node m Hm]; unfold only_subscribed, routes_synced, routes_follow; cbn.
  - split; [intros n snap; rewrite CreateWatch_snapshot, CreateWatch_keys; intros ?%Hsub; by left|].
    intros [Ho Hsy]. split.
    + intros n Hin. rewrite CreateWatch_keys. destruct (Ho n) as [?|?]; [rewrite Hperm; by right|by left; left|by right].
    + intros n. rewrite CreateWatch_keys, CreateWatch_snapshot. intros [?| ->] Hm; [by apply Hsy|].
      apply Hsy; [|done]. destruct (Ho node) as [?|?]; [rewrite Hperm; by left|done..].
  - split; [done|]. intros [Ho Hsy]. split; [|done]. intros n [->|?]%elem_of_cons; [left|by apply Ho].
    cbn in Hn. unfold CacheMgr_hasNode in Hn. destruct (GetSnapshot (rw_cache a) node) eqn:E; [|done]. by eapply Hsub.
  - injection Hm as <-. cbn. split.
    { intros n snap. rewrite ClearSnapshot_spec, ClearSnapshot_keys. case_decide; [done|]. intros ?%Hsub. done. }
    intros [Ho Hsy]. split.
    + intros n Hin. rewrite ClearSnapshot_keys. destruct (decide (n = node)) as [->|Hne].
      * right. rewrite bool_decide_true by done. by left.
      * destruct (Ho n Hin); [by left|right]. case_bool_decide; [by right|done].
    + intros n. rewrite ClearSnapshot_keys, ClearSnapshot_spec. intros [? ?] Hm. rewrite decide_False by done.
      apply Hsy; [done|]. intros Hin. apply Hm. case_bool_decide; [by right|done].
Qed.

Lemma route_unnoticed_ok c c' :
  lists_routers c -> route_unnoticed c c' -> lists_routers c' /\ forall a, routes_synced c a -> routes_synced c' a.
Proof.
  intros Hl Hu. split; [destruct Hl as [l Hl]; exists l; by rewrite (proj1 Hu)|]. intros a [Ho Hsy]. split; [done|].
  intros n Hn Hm. destruct (Hsy n Hn Hm) as (c0 & snap & Hc0 & ?). exists c0, snap. split; [by eapply rtc_r|done].
Qed.

#[local] Instance route_work : LoopWork CacheMgr RouteWork.
Proof.
  refine {| lw_runs := update_runs;
            lw_blocked := fun c a => exists now, panics (updateRouteCache oob c now (rw_cache a)) = true;
            lw_change := route_change; lw_silent := route_unnoticed;
            lw_config := lists_routers; lw_state := only_subscribed;
            lw_synced := routes_synced; lw_quiet := stream_event |}.
  - intros c a. destruct (updateRouteCache oob c 0 (rw_cache a)) as [[e s]|w] eqn:E.
    + right. eexists e, _. by exists 0, s.
    + left. exists 0. by rewrite E.
  - intros c a c' a' Hl Hs Hc. split; [by destruct Hc|]. by eapply route_change_ok.
  - apply route_unnoticed_ok.
  - intros c a e a' _. apply update_step_ok.
  - apply stream_event_ok.
Defined.

End route_loop.
Arguments RouteWork St : clear implicits.

(** ** The configuration that is watched

    The kinds of resources that are requested from istiod are all that the two works read:
    nothing else in the store makes a difference. *)
Definition watched_controller (c : Controller) : Controller :=
  {| configStore := watched_store (configStore c); metaRouterList := metaRouterList c; generators := generators c;
     namespaceScoped := namespaceScoped c; namespace := namespace c; meshConfig := meshConfig c;
     protocolMap := protocolMap c |}.
Definition watched_manager (c : CacheMgr) : CacheMgr :=
  {| cm_metaRouters := cm_metaRouters c; cm_configStore := watched_store (cm_configStore c);
     cm_protocolMap := cm_protocolMap c |}.

Lemma first_generator_watched c ports : first_generator (watched_controller c) ports = first_generator c ports.
Proof. induction ports as [|port ports IH]; [done|]. cbn. by rewrite IH. Qed.

Lemma gateway_context_watched c gw gateway port mr gws :
  gateway_context (watched_controller c) gw gateway port mr gws = gateway_context c gw gateway port mr gws.
Proof.
  induction gws as [|g gws IH]; [done|]. cbn [gateway_context]. destruct (negb _); [done|].
  destruct (isMatchPort _ _) as [[]|]; done.
Qed.

Lemma service_step_watched c m config : service_step (watched_controller c) m config = service_step c m config.
Proof.
  unfold service_step. destruct (asServiceEntry (c_Spec config)) as [service|]; [|done].
  destruct (se_Hosts service); [done|]. by rewrite first_generator_watched.
Qed.

Lemma gateway_step_watched c st config : gateway_step (watched_controller c) st config = gateway_step c st config.
Proof.
  unfold gateway_step. destruct (deref _) as [gw|]; [|done]. cbn. apply loop_ext. intros st' server.
  unfold gateway_server_step, gatewayEnvoyFilterContexts. destruct (srv_Port server); [|done]. cbn.
  destruct (negb _); [done|]. destruct (generators c !! _); [|done]. destruct (metaRouterList c); [|done].
  erewrite map_panic_ext; [done|]. intros mr. apply gateway_context_watched.
Qed.

Theorem watched_kinds_suffice `{MapRange, IstioNaming, ApiServer StE EnvoyFilter, ApiServer StV VirtualService}
    `{ProtoEqual EnvoyFilter, ProtoEqual VirtualService, SnapshotCache St Snap} oob now c (a : StE * StV) m (s : St) :
  pushEnvoyFilters2APIServer (watched_controller c) a = pushEnvoyFilters2APIServer c a /\
  updateRouteCache oob (watched_manager m) now s = updateRouteCache oob m now s.
Proof.
  split; [|reflexivity]. unfold pushEnvoyFilters2APIServer.
  assert (Hgen : generateEnvoyFilters (watched_controller c) (snd a) = generateEnvoyFilters c (snd a)); [|by rewrite Hgen].
  unfold generateEnvoyFilters, generateGatewayEnvoyFilters.
  rewrite (loop_ext _ _ _ _ (service_step_watched c)). cbn.
  destruct (loop (service_step c) _ ∅) as [[m'|[m' e]]|]; [|done..]. cbn.
  by rewrite (loop_ext _ _ _ _ (gateway_step_watched c)).
Qed.

(** ** Concrete runs *)
Section demo.
#[local] Existing Instance mem_server.
#[local] Existing Instance mem_server_laws.
#[local] Existing Instance spec_equal.
#[local] Existing Instance spec_equal_laws.
#[local] Existing Instance canonical_range.
#[local] Existing Instance istio_subset_key.
#[local] Existing Instance mem_watch_cache.
#[local] Existing Instance mem_watch_cache_laws.
#[local] Existing Instance mem_watches.
#[local] Existing Instance mem_watches_laws.

Definition demo_own (ns name : string) : Prop := ns = "istio-system".

Lemma demo_own_inj ns name ns' name' : demo_own ns name -> demo_own ns' name' ->
  envoyFilterMapKey name ns = envoyFilterMapKey name' ns' -> ns = ns' /\ name = name'.
Proof. intros -> -> [=]. done. Qed.

Definition demo_before : MemServer EnvoyFilter * MemServer VirtualService :=
  (demo_server (demo_old "old" demo_filter), demo_empty).
Definition demo_after : MemServer EnvoyFilter * MemServer VirtualService :=
  match pushEnvoyFilters2APIServer demo_c1 demo_before with Ret (_, a) => a | Panic _ => demo_before end.

Lemma demo_own_filters : own_filters (StV := MemServer VirtualService) demo_own demo_c1.
Proof.
  intros sv m err sv' k w Hgen Hk.
  assert (Hm : generateEnvoyFilters demo_c1 (demo_empty : MemServer VirtualService) =
    Ret ({["istio-system-a.svc" := demo_new_filter]}, None, demo_empty)) by (vm_compute; reflexivity).
  rewrite (generated_unique _ _ _ _ _ _ _ _ _ Hgen Hm) in Hk. by apply lookup_singleton_Some in Hk as [_ <-].
Qed.

Lemma demo_managed_own : managed_own demo_own (fst demo_before).
Proof. by intros ns name o [[= -> ->] ->]%demo_server_get. Qed.

Definition demo_resources : Resources unit :=
  {| rs_store := configStore demo_c1; rs_routers := []; rs_mesh := meshConfig demo_c1;
     rs_protocols := protocolMap demo_c1; rs_other := () |}.
Definition demo_generators (_ : unit) (_ : ConfigStore) : gmap Instance_ Generator := generators demo_c1.


(** A node subscribes, then its event is served. *)
Definition demo_request : RouteWork MemWatch :=
  {| rw_mgr := {| xs_cache := (([], ∅), ∅); xs_events := 0 |}; rw_opening := []; rw_missed := [] |}.
Definition demo_watched : RouteWork MemWatch :=
  {| rw_mgr := {| xs_cache := ((["n1"], ∅), {["n1" := [4]]}); xs_events := 1 |}; rw_opening := []; rw_missed := [] |}.
Definition demo_cached : RouteWork MemWatch :=
  {| rw_mgr := with_cache match updateRouteCache 0 demo_mgr 7 (xs_cache (rw_mgr demo_watched)) with
                          | Ret (_, s) => s | Panic _ => (([], ∅), ∅) end (rw_mgr demo_watched);
     rw_opening := []; rw_missed := [] |}.

End demo.
