(* ===== verification/Webhook.v ===== *)
(** * The admission webhook

    [src/internal/webhook/validation/server/server.go] and [monitoring.go], the schemas of
    [scheme/collections.go] and the registration of the webhook in
    [src/internal/webhook/validation/configuration.go].  The state of the server is the set
    of its counters; a handler returns what it writes to the HTTP response.

    Parameters (class [WebhookEnv]): decoding and encoding of JSON and of admission reviews,
    Istio's schema lookup, conversion and call of a schema's check, and the text of a joined
    error. Bytes are strings. *)

From S2P Require Import Prelude Api Model Xds Validation.

(** ** Requests, responses, counters *)
Inductive AdmissionOperation :=
| OpCreate
| OpUpdate
| OpOther (name : string).

Record GroupVersionResource := { gvr_Group : string; gvr_Version : string; gvr_Resource : string }.
Record GroupVersionKind := { gvk_Group : string; gvk_Version : string; gvk_Kind : string }.

Record AdmissionRequest := {
  req_UID : string; req_Kind : string; req_Resource : GroupVersionResource;
  req_Namespace : string; req_Operation : AdmissionOperation; req_Raw : string }.

(** [Result] is its message. *)
Record AdmissionResponse := {
  resp_UID : string; resp_Allowed : bool; resp_Result : option string; resp_Warnings : list string }.

Record AdmissionReview := {
  rev_APIVersion : string; rev_Kind : string;
  rev_Request : option AdmissionRequest; rev_Response : option AdmissionResponse }.

(** The counters by the values of their labels. *)
Record Metrics := {
  validation_passed : gmap (list string) Z;
  validation_failed : gmap (list string) Z;
  validation_http_error : gmap (list string) Z }.

Definition increment (labels : list string) (m : gmap (list string) Z) : gmap (list string) Z :=
  <[labels := default 0 (m !! labels) + 1]> m.

Definition reasonUnsupportedOperation : string := "unsupported_operation".
Definition reasonYamlDecodeError : string := "yaml_decode_error".
Definition reasonUnknownType : string := "unknown_type".
Definition reasonCRDConversionError : string := "crd_conversion_error".
Definition reasonInvalidConfig : string := "invalid_resource".

Definition resource_labels (request : AdmissionRequest) : list string :=
  [gvr_Group (req_Resource request); gvr_Version (req_Resource request); gvr_Resource (req_Resource request)].

Definition reportValidationFailed (request : AdmissionRequest) (reason : string) (m : Metrics) : Metrics :=
  {| validation_passed := validation_passed m;
     validation_failed := increment (resource_labels request ++ [reason]) (validation_failed m);
     validation_http_error := validation_http_error m |}.

Definition reportValidationPass (request : AdmissionRequest) (m : Metrics) : Metrics :=
  {| validation_passed := increment (resource_labels request) (validation_passed m);
     validation_failed := validation_failed m;
     validation_http_error := validation_http_error m |}.

Definition reportValidationHTTPError (status : Z) (m : Metrics) : Metrics :=
  {| validation_passed := validation_passed m; validation_failed := validation_failed m;
     validation_http_error := increment [Itoa status] (validation_http_error m) |}.

(** ** Resources and schemas *)
Inductive ResourceSpec :=
| SpecMetaRouter (mr : MetaRouterSpec)
| SpecApplicationProtocol (ap : ApplicationProtocol)
| SpecUnknown.

Record ResourceConfig := { rc_Namespace : string; rc_Name : string; rc_Spec : ResourceSpec }.

Record IstioKind := { ik_APIVersion : string; ik_Kind : string; ik_Name : string; ik_Object : string }.

Record Schema := {
  s_Group : string; s_Kind : string; s_Plural : string; s_Version : string;
  s_VersionAliases : list string;
  s_ValidateProto : ResourceConfig -> errors * errors }.

Class WebhookEnv := {
  json_IstioKind : string -> res IstioKind;
  json_Fields : string -> res (gmap string string);
  IstioKind_GroupVersionKind : IstioKind -> GroupVersionKind;
  FindByGroupVersionKind : list Schema -> GroupVersionKind -> option Schema;
  ConvertObject : Schema -> IstioKind -> string -> res ResourceConfig;
  ValidateConfig : Schema -> ResourceConfig -> errors * errors;
  errors_Error : errors -> string;
  Decode : string -> res string;
  AdmissionReviewKubeToAdapter : string -> res AdmissionReview;
  marshal_review : AdmissionReview -> string -> res string }.

(** What the handlers rely on: a lookup returns one of the schemas, of the right group and
    kind, and finds the exact version; a schema's check is the function it was built with. *)
Class WebhookLaws `{WebhookEnv} := {
  Find_sound : forall l gvk s, FindByGroupVersionKind l gvk = Some s ->
    s ∈ l /\ s_Group s = gvk_Group gvk /\ s_Kind s = gvk_Kind gvk;
  Find_complete : forall l s, s ∈ l ->
    FindByGroupVersionKind l {| gvk_Group := s_Group s; gvk_Version := s_Version s; gvk_Kind := s_Kind s |} <> None;
  ValidateConfig_calls : forall s c, ValidateConfig s c = s_ValidateProto s c }.

Section schemas.
Context `{ValidationEnv, MapRange}.

Definition AerakiMetaprotocolV1Alpha1Applicationprotocols : Schema :=
  {| s_Group := "metaprotocol.aeraki.io"; s_Kind := "ApplicationProtocol"; s_Plural := "applicationprotocols";
     s_Version := "v1alpha1"; s_VersionAliases := ["v1"];
     s_ValidateProto := fun cfg =>
       ValidateApplicationProtocol (match rc_Spec cfg with SpecApplicationProtocol ap => Some ap | _ => None end) |}.

Definition AerakiMetaprotocolV1Alpha1Metarouters : Schema :=
  {| s_Group := "metaprotocol.aeraki.io"; s_Kind := "MetaRouter"; s_Plural := "metarouters";
     s_Version := "v1alpha1"; s_VersionAliases := ["v1"];
     s_ValidateProto := fun cfg =>
       ValidateMetaRouter (rc_Namespace cfg) (match rc_Spec cfg with SpecMetaRouter mr => Some mr | _ => None end) |}.

Definition Aeraki : list Schema :=
  [AerakiMetaprotocolV1Alpha1Applicationprotocols; AerakiMetaprotocolV1Alpha1Metarouters].
End schemas.

(** ** The handler *)
Record Webhook := { wh_schemas : list Schema; wh_domainSuffix : string }.

(** [mux] is the set of paths with a handler. *)
Definition New (schemas : list Schema) (domainSuffix : string) (mux : option (list string))
    : res (Webhook * list string) :=
  match mux with
  | None => Err "expected mux to be passed, but was not passed"
  | Some paths => Ok ({| wh_schemas := schemas; wh_domainSuffix := domainSuffix |},
                      paths ++ ["/validate"; "/validate/"])
  end.

Definition toAdmissionResponse (err : error) : AdmissionResponse :=
  {| resp_UID := ""; resp_Allowed := false; resp_Result := Some err; resp_Warnings := [] |}.
Definition allowed (warnings : list string) : AdmissionResponse :=
  {| resp_UID := ""; resp_Allowed := true; resp_Result := None; resp_Warnings := warnings |}.

Definition validFields : list string := ["apiVersion"; "kind"; "metadata"; "spec"; "status"].

Definition toKubeWarnings (warn : errors) : list string :=
  match warn with
  | [] => []
  | me => foldl (fun res e => res ++ [e]) [] me
  end.

Fixpoint check_keys (keys : list string) (kind namespace name : string) : string * option error :=
  match keys with
  | [] => ("", None)
  | key :: keys =>
      if bool_decide (key ∈ validFields) then check_keys keys kind namespace name
      else (reasonInvalidConfig, Some ("unknown field " +:+ quoted key +:+ " on " +:+ kind +:+ " resource " +:+
                                       namespace +:+ "/" +:+ name))
  end.

Section handler.
Context `{WebhookEnv, MapRange}.

Definition checkFields (raw kind namespace name : string) : string * option error :=
  match json_Fields raw with
  | Err e => (reasonYamlDecodeError, Some ("cannot decode configuration fields: " +:+ e))
  | Ok trial => check_keys (fst <$> range trial) kind namespace name
  end.

Definition validate_object (wh : Webhook) (request : AdmissionRequest) (m : Metrics)
    : AdmissionResponse * Metrics :=
  let failed reason msg := (toAdmissionResponse msg, reportValidationFailed request reason m) in
  match json_IstioKind (req_Raw request) with
  | Err e => failed reasonYamlDecodeError ("cannot decode configuration: " +:+ e)
  | Ok obj =>
      match FindByGroupVersionKind (wh_schemas wh) (IstioKind_GroupVersionKind obj) with
      | None => failed reasonUnknownType ("unrecognized type " +:+ ik_Kind obj)
      | Some s =>
          match ConvertObject s obj (wh_domainSuffix wh) with
          | Err e => failed reasonCRDConversionError ("error decoding configuration: " +:+ e)
          | Ok out =>
              let '(warnings, err) := ValidateConfig s out in
              match err with
              | _ :: _ => failed reasonInvalidConfig ("configuration is invalid: " +:+ errors_Error err)
              | [] =>
                  match checkFields (req_Raw request) (req_Kind request) (req_Namespace request) (ik_Name obj) with
                  | (reason, Some err) => failed reason err
                  | (_, None) => (allowed (toKubeWarnings warnings), reportValidationPass request m)
                  end
              end
          end
      end
  end.

(** A review without a request makes [request] nil. *)
Definition validate (wh : Webhook) (request : option AdmissionRequest) (m : Metrics)
    : outcome (AdmissionResponse * Metrics) :=
  request ← deref request;
  match req_Operation request with
  | OpCreate | OpUpdate => Ret (validate_object wh request m)
  | OpOther _ => Ret (allowed [], reportValidationFailed request reasonUnsupportedOperation m)
  end.

(** ** The HTTP layer

    A request is its body, nil or read with or without an error, and its content type. *)
Record HttpRequest := { http_Body : option (res string); http_ContentType : string }.
Inductive HttpWrite :=
| HttpError (msg : string) (code : Z)
| HttpBody (s : string).

Definition StatusBadRequest : Z := 400.
Definition StatusUnsupportedMediaType : Z := 415.
Definition StatusInternalServerError : Z := 500.

Definition set_uid (uid : string) (r : AdmissionResponse) : AdmissionResponse :=
  {| resp_UID := uid; resp_Allowed := resp_Allowed r; resp_Result := resp_Result r;
     resp_Warnings := resp_Warnings r |}.

(** [ar] is nil when the body could not be decoded. *)
Definition respond (write : string -> option error) (ar : option AdmissionReview)
    (reviewResponse : AdmissionResponse) (m : Metrics) : list HttpWrite * Metrics :=
  let apiVersion := match ar with Some ar => rev_APIVersion ar | None => "" end in
  let response :=
    {| rev_APIVersion := apiVersion; rev_Kind := match ar with Some ar => rev_Kind ar | None => "" end;
       rev_Request := None;
       rev_Response := Some match ar with
                            | Some ar => match rev_Request ar with
                                         | Some request => set_uid (req_UID request) reviewResponse
                                         | None => reviewResponse
                                         end
                            | None => reviewResponse
                            end |} in
  match marshal_review response apiVersion with
  | Err e => ([HttpError ("could encode response: " +:+ e) StatusInternalServerError],
              reportValidationHTTPError StatusInternalServerError m)
  | Ok resp =>
      match write resp with
      | None => ([HttpBody resp], m)
      | Some e => ([HttpBody resp; HttpError ("could write response: " +:+ e) StatusInternalServerError],
                   reportValidationHTTPError StatusInternalServerError m)
      end
  end.

Definition serve (write : string -> option error) (r : HttpRequest)
    (admitted_by : option AdmissionRequest -> Metrics -> outcome (AdmissionResponse * Metrics)) (m : Metrics)
    : outcome (list HttpWrite * Metrics) :=
  match http_Body r with
  | Some (Err e) => Ret ([HttpError e StatusBadRequest], m)
  | body =>
      let body := match body with Some (Ok data) => data | _ => "" end in
      if String.eqb body "" then
        Ret ([HttpError "no body found" StatusBadRequest], reportValidationHTTPError StatusBadRequest m)
      else if negb (String.eqb (http_ContentType r) "application/json") then
        Ret ([HttpError "invalid Content-Type, want `application/json`" StatusUnsupportedMediaType],
             reportValidationHTTPError StatusUnsupportedMediaType m)
      else
        match Decode body with
        | Err e => Ret (respond write None (toAdmissionResponse ("could not decode body: " +:+ e)) m)
        | Ok out =>
            match AdmissionReviewKubeToAdapter out with
            | Err e => Ret (respond write None (toAdmissionResponse ("could not decode object: " +:+ e)) m)
            | Ok ar =>
                a ← admitted_by (rev_Request ar) m;
                Ret (respond write (Some ar) (fst a) (snd a))
            end
        end
  end.

Definition serveValidate (wh : Webhook) (write : string -> option error) (r : HttpRequest) (m : Metrics)
    : outcome (list HttpWrite * Metrics) := serve write r (validate wh) m.
End handler.

(** ** Options *)
Record Options := { opt_DomainSuffix : string; opt_Port : Z }.

Definition validatePort (port : Z) : option error :=
  if (port >=? 1) && (port <=? 65535) then None
  else Some ("port number " +:+ Itoa port +:+ " must be in the range 1..65535").

(** [int(o.Port)] of a 64-bit unsigned number wraps. *)
Definition int_of_uint (n : Z) : Z := if n <? 2^63 then n else n - 2^64.

Definition Options_Validate (o : Options) : errors :=
  match validatePort (int_of_uint (opt_Port o)) with Some err => [] ++ [err] | None => [] end.

(** ** Registration of the webhook *)
Record Rule := {
  rule_Operations : list AdmissionOperation; rule_APIGroups : list string;
  rule_APIVersions : list string; rule_Resources : list string }.

Inductive FailurePolicyType :=
| FailClosed
| Ignore.

Record ValidatingWebhook := {
  vw_Name : string; vw_CABundle : string;
  vw_ServiceName : string; vw_ServiceNamespace : string; vw_ServicePath : string;
  vw_Rules : list Rule; vw_FailurePolicy : FailurePolicyType; vw_SideEffects : string;
  vw_AdmissionReviewVersions : list string }.

Record ValidatingWebhookConfiguration := {
  vwc_Name : string; vwc_ResourceVersion : string; vwc_Webhooks : list ValidatingWebhook }.

Global Instance AdmissionOperation_eq_dec : EqDecision AdmissionOperation.
Proof. solve_decision. Defined.
Global Instance Rule_eq_dec : EqDecision Rule.
Proof. solve_decision. Defined.
Global Instance FailurePolicyType_eq_dec : EqDecision FailurePolicyType.
Proof. solve_decision. Defined.
Global Instance ValidatingWebhook_eq_dec : EqDecision ValidatingWebhook.
Proof. solve_decision. Defined.

Inductive ConfigLookup :=
| LookupOk (c : ValidatingWebhookConfiguration)
| LookupNotFound
| LookupErr (e : error).

(** The client for the webhook configurations of the cluster: first the connection settings
    of the process ([ctrl.GetConfig]) and the client made of them, which may fail. *)
Class WebhookConfigClient (Server : Type) := {
  ctrl_GetConfig : res string;
  kubernetes_NewForConfig : string -> option error;
  vwc_Get : Server -> string -> ConfigLookup;
  vwc_Create : Server -> ValidatingWebhookConfiguration -> option error * Server;
  vwc_Update : Server -> ValidatingWebhookConfiguration -> option error * Server }.

(** A server that can be connected to and answers: a create needs a free name, an update the current version; both
    store the webhooks with the defaults the server fills in. *)
Class WebhookConfigLaws (Server : Type) `{WebhookConfigClient Server} := {
  vwc_defaults : ValidatingWebhook -> ValidatingWebhook;
  vwc_connects : exists config, ctrl_GetConfig = Ok config /\ kubernetes_NewForConfig config = None;
  vwc_Get_answers : forall s n e, vwc_Get s n <> LookupErr e;
  vwc_Create_spec : forall s c, vwc_Get s (vwc_Name c) = LookupNotFound ->
    exists s' c', vwc_Create s c = (None, s') /\ vwc_Get s' (vwc_Name c) = LookupOk c' /\
      vwc_Webhooks c' = vwc_defaults <$> vwc_Webhooks c;
  vwc_Update_spec : forall s c old, vwc_Get s (vwc_Name c) = LookupOk old ->
    vwc_ResourceVersion c = vwc_ResourceVersion old ->
    exists s' c', vwc_Update s c = (None, s') /\ vwc_Get s' (vwc_Name c) = LookupOk c' /\
      vwc_Webhooks c' = vwc_defaults <$> vwc_Webhooks c }.

Definition webhookCfgName (namespace : string) : string := "aeraki-" +:+ namespace.

Definition webhook_config (caCert namespace : string) : ValidatingWebhookConfiguration :=
  {| vwc_Name := webhookCfgName namespace; vwc_ResourceVersion := "";
     vwc_Webhooks :=
       [{| vw_Name := "validation.aeraki.io"; vw_CABundle := caCert;
           vw_ServiceName := "aeraki"; vw_ServiceNamespace := namespace; vw_ServicePath := "/validate";
           vw_Rules := [{| rule_Operations := [OpCreate; OpUpdate];
                           rule_APIGroups := ["metaprotocol.aeraki.io"];
                           rule_APIVersions := ["*"]; rule_Resources := ["metarouters"] |}];
           vw_FailurePolicy := FailClosed; vw_SideEffects := "None";
           vw_AdmissionReviewVersions := ["v1"; "v1beta1"] |}] |}.

Definition GenerateWebhookConfig {Server} `{WebhookConfigClient Server} (caCert namespace : string) (s : Server)
    : outcome (option error * Server) :=
  match ctrl_GetConfig with
  | Err _ => Panic "exit"   (* GetConfigOrDie *)
  | Ok kubeConfig =>
      match kubernetes_NewForConfig kubeConfig with
      | Some _ => Panic "failed to set go -client"
      | None =>
          let config := webhook_config caCert namespace in
          Ret match vwc_Get s (webhookCfgName namespace) with
              | LookupNotFound => vwc_Create s config
              | LookupErr e => (Some e, s)
              | LookupOk old =>
                  if negb (bool_decide (vwc_Webhooks old = vwc_Webhooks config)) then
                    vwc_Update s {| vwc_Name := vwc_Name config; vwc_ResourceVersion := vwc_ResourceVersion old;
                                    vwc_Webhooks := vwc_Webhooks config |}
                  else (None, s)
              end
      end
  end.

(** ** What the webhook decides *)
Lemma toKubeWarnings_id warn : toKubeWarnings warn = warn.
Proof.
  assert (H : forall l acc, foldl (fun res (e : error) => res ++ [e]) acc l = acc ++ l).
  { induction l as [|e l IH]; intros acc; simpl; [by rewrite app_nil_r|]. by rewrite IH, <- app_assoc. }
  destruct warn as [|w warn]; [done|]. apply (H (w :: warn) []).
Qed.

Lemma check_keys_ok keys kind namespace name :
  snd (check_keys keys kind namespace name) = None <-> Forall (.∈ validFields) keys.
Proof.
  induction keys as [|k keys IH]; simpl; [by split|]. case_bool_decide as Hk.
  - rewrite IH, Forall_cons. naive_solver.
  - split; [done|]. rewrite Forall_cons. naive_solver.
Qed.

Lemma Forall_range_keys `{MapRange} {V} (P : string -> Prop) (m : gmap string V) :
  Forall P (fst <$> range m) <-> forall k v, m !! k = Some v -> P k.
Proof.
  rewrite range_perm, Forall_fmap, Forall_forall. split.
  - intros Hall k v Hk. apply (Hall (k, v)). by apply elem_of_map_to_list.
  - intros Hall [k v] Hk. apply elem_of_map_to_list in Hk. by apply (Hall k v).
Qed.

Section decision.
Context `{WebhookLaws, MapRange}.

(** The object is of a known kind, converts, passes the check of its kind and has no
    unknown top-level field; [out] is the converted resource. *)
Definition admissible (wh : Webhook) (request : AdmissionRequest) (s : Schema) (out : ResourceConfig) : Prop :=
  exists obj fields,
    json_IstioKind (req_Raw request) = Ok obj /\
    FindByGroupVersionKind (wh_schemas wh) (IstioKind_GroupVersionKind obj) = Some s /\
    ConvertObject s obj (wh_domainSuffix wh) = Ok out /\
    snd (s_ValidateProto s out) = [] /\
    json_Fields (req_Raw request) = Ok fields /\
    forall k v, fields !! k = Some v -> k ∈ validFields.

Lemma checkFields_ok raw kind namespace name :
  snd (checkFields raw kind namespace name) = None <->
  exists fields, json_Fields raw = Ok fields /\ forall k v, fields !! k = Some v -> k ∈ validFields.
Proof.
  unfold checkFields. destruct (json_Fields raw) as [fields|e]; simpl; [|naive_solver].
  rewrite check_keys_ok, Forall_range_keys. naive_solver.
Qed.

Lemma validate_object_spec wh request m :
  (exists s out, admissible wh request s out /\
     validate_object wh request m = (allowed (fst (s_ValidateProto s out)), reportValidationPass request m)) \/
  ((forall s out, ~ admissible wh request s out) /\
     exists reason msg, validate_object wh request m =
       (toAdmissionResponse msg, reportValidationFailed request reason m)).
Proof.
  unfold validate_object, admissible.
  destruct (json_IstioKind (req_Raw request)) as [obj|e];
    [|right; split; [by intros s out (? & ? & ? & _)|eauto]].
  destruct (FindByGroupVersionKind (wh_schemas wh) (IstioKind_GroupVersionKind obj)) as [s|] eqn:Hf;
    [|right; split; [intros s out (? & ? & [= <-] & ? & _); congruence|eauto]].
  destruct (ConvertObject s obj (wh_domainSuffix wh)) as [out|e] eqn:Hc;
    [|right; split; [intros s' out (? & ? & [= <-] & ? & ? & _); congruence|eauto]].
  rewrite ValidateConfig_calls. destruct (s_ValidateProto s out) as [warnings [|e err]] eqn:Hv;
    [|right; split; [|eauto]; intros s' out' (? & ? & [= <-] & Hs & Ho & Hn & _); rewrite Hf in Hs;
      injection Hs as <-; rewrite Hc in Ho; injection Ho as <-; by rewrite Hv in Hn].
  pose proof (checkFields_ok (req_Raw request) (req_Kind request) (req_Namespace request) (ik_Name obj)) as Hk.
  destruct (checkFields _ _ _ _) as [reason [e|]]; simpl in Hk.
  - right. split; [|eauto]. intros s' out' (obj' & fields & Ho & _ & _ & _ & Hfields & Hin).
    destruct Hk as [_ Hk]. discriminate Hk. by exists fields.
  - left. destruct Hk as [(fields & Hfields & Hin) _]; [done|]. exists s, out. rewrite Hv, toKubeWarnings_id.
    split; [|done]. by exists obj, fields.
Qed.

Lemma admissible_unique wh request s out s' out' :
  admissible wh request s out -> admissible wh request s' out' -> s' = s /\ out' = out.
Proof.
  intros (obj & f & Ho & Hs & Hc & _) (obj' & f' & Ho' & Hs' & Hc' & _). rewrite Ho in Ho'. injection Ho' as <-.
  rewrite Hs in Hs'. injection Hs' as <-. rewrite Hc in Hc'. by injection Hc' as <-.
Qed.

(** C18: A create or update is allowed exactly when the object is of a kind the webhook
    knows, converts, passes the check of its kind and has no unknown top-level field, in
    every order of its fields; the warnings of the check are returned. An allowed object is
    counted as passed and a refused one as failed, each once, and a refusal has a message. *)
Theorem admission_decision wh request m :
  req_Operation request = OpCreate \/ req_Operation request = OpUpdate ->
  (forall s out, admissible wh request s out ->
     validate wh (Some request) m =
       Ret (allowed (fst (s_ValidateProto s out)), reportValidationPass request m)) /\
  ((forall s out, ~ admissible wh request s out) ->
     exists reason msg, validate wh (Some request) m =
       Ret (toAdmissionResponse msg, reportValidationFailed request reason m)).
Proof.
  intros Hop. unfold validate. cbn [deref mbind outcome_bind].
  destruct (validate_object_spec wh request m) as [(s & out & Ha & Hv)|[Hn (reason & msg & Hv)]].
  - split; [|naive_solver]. intros s' out' Ha'. destruct (admissible_unique _ _ _ _ _ _ Ha Ha') as [-> ->].
    by destruct Hop as [->| ->]; rewrite Hv.
  - split; [naive_solver|]. intros _. exists reason, msg. by destruct Hop as [->| ->]; rewrite Hv.
Qed.
End decision.

Section aeraki.
Context `{WebhookLaws, ValidationEnv, MapRange, IstioNaming}.

(** C6: A MetaRouter that the webhook of Aeraki lets through is well-formed and can be
    served: for every service with a host and every port its route configuration is built
    without panic, one entry per route, and so is its HTTP carrier. *)
Theorem admitted_router_served request m resp m' suffix obj :
  req_Operation request = OpCreate \/ req_Operation request = OpUpdate ->
  validate {| wh_schemas := Aeraki; wh_domainSuffix := suffix |} (Some request) m = Ret (resp, m') ->
  resp_Allowed resp = true ->
  json_IstioKind (req_Raw request) = Ok obj -> gvk_Kind (IstioKind_GroupVersionKind obj) = "MetaRouter" ->
  exists cfg mr, ConvertObject AerakiMetaprotocolV1Alpha1Metarouters obj suffix = Ok cfg /\
    rc_Spec cfg = SpecMetaRouter mr /\ router_wf (rc_Namespace cfg) mr /\
    forall name service port dr oob h hs, se_Hosts service = h :: hs ->
      exists rc http,
        constructRoute oob service port
          {| mtr_Name := name; mtr_Namespace := rc_Namespace cfg; mtr_Spec := mr |} dr = Ret rc /\
        Forall2 entry_served (mrs_Routes mr) (mrc_Routes rc) /\ metaProtocolRoute2HttpRoute rc = Ret http.
Proof.
  intros Hop Hval Hok Hobj Hkind. unfold validate in Hval. cbn [deref mbind outcome_bind] in Hval.
  assert (Hvo : validate_object {| wh_schemas := Aeraki; wh_domainSuffix := suffix |} request m = (resp, m'))
    by (destruct Hop as [Hop|Hop]; rewrite Hop in Hval; by injection Hval).
  destruct (validate_object_spec {| wh_schemas := Aeraki; wh_domainSuffix := suffix |} request m)
    as [(s & out & (obj' & fields & Ho & Hs & Hc & Hv & _) & _)|[_ (reason & msg & Hr)]];
    [|rewrite Hr in Hvo; injection Hvo as <- _; discriminate Hok].
  rewrite Hobj in Ho. injection Ho as <-. apply Find_sound in Hs as (Hin & _ & Hk).
  rewrite Hkind in Hk. cbn [wh_schemas wh_domainSuffix] in *.
  apply elem_of_cons in Hin as [->|Hin]; [discriminate Hk|]. apply list_elem_of_singleton in Hin as ->.
  cbn [s_ValidateProto AerakiMetaprotocolV1Alpha1Metarouters] in Hv.
  destruct (rc_Spec out) as [mr|ap|] eqn:Hspec; [|done..]. apply ValidateMetaRouter_ok in Hv.
  exists out, mr. split_and!; [done..|]. intros name service port dr oob h hs Hh.
  destruct (router_wf_served (rc_Namespace out)
    {| mtr_Name := name; mtr_Namespace := rc_Namespace out; mtr_Spec := mr |} service port dr oob h hs Hv Hh)
    as (rc & Hrc & _ & Hes & http & Hhttp). by exists rc, http.
Qed.
End aeraki.

Section http.
Context `{WebhookEnv, MapRange}.

Definition decoded_review (r : HttpRequest) (ar : AdmissionReview) : Prop :=
  exists body out, http_Body r = Some (Ok body) /\ body <> "" /\ http_ContentType r = "application/json" /\
    Decode body = Ok out /\ AdmissionReviewKubeToAdapter out = Ok ar.

(** The answer to a review: its type, the identifier of its request, the decision. *)
Definition review_answer (ar : AdmissionReview) (uid : string) (resp : AdmissionResponse) : AdmissionReview :=
  {| rev_APIVersion := rev_APIVersion ar; rev_Kind := rev_Kind ar; rev_Request := None;
     rev_Response := Some (set_uid uid resp) |}.

Lemma validate_some wh request m : exists resp m', validate wh (Some request) m = Ret (resp, m').
Proof.
  unfold validate. cbn [deref mbind outcome_bind]. destruct (req_Operation request); try by eexists _, _.
  all: destruct (validate_object wh request m) as [resp m']; by exists resp, m'.
Qed.

Lemma respond_writes write ar resp m : fst (respond write ar resp m) <> [].
Proof. unfold respond. destruct (marshal_review _ _) as [a|]; [|done]. by destruct (write a). Qed.

Lemma serve_cases wh write r m :
  (exists ar, decoded_review r ar /\
     serveValidate wh write r m =
       (a ← validate wh (rev_Request ar) m; Ret (respond write (Some ar) (fst a) (snd a)))) \/
  ((forall ar, ~ decoded_review r ar) /\
     exists ws m', serveValidate wh write r m = Ret (ws, m') /\ ws <> []).
Proof.
  unfold serveValidate, serve, decoded_review.
  destruct (http_Body r) as [[body|e]|]; [|right; split; [intros ? (? & ? & ? & ? & ? & ? & ?); congruence|by eexists _, _]..].
  destruct (String.eqb body "") eqn:He; [apply String.eqb_eq in He; right; split; [intros ? (? & ? & ? & ? & ? & ? & ?); congruence|by eexists _, _]|].
  apply String.eqb_neq in He. destruct (String.eqb (http_ContentType r) "application/json") eqn:Hct; cbn [negb].
  2:{ apply String.eqb_neq in Hct. right. split; [intros ? (? & ? & ? & ? & ? & ? & ?); congruence|by eexists _, _]. }
  apply String.eqb_eq in Hct.
  assert (Hwrites : forall ar resp, exists ws m', Ret (respond write ar resp m) = Ret (ws, m') /\ ws <> []).
  { intros ar resp. pose proof (respond_writes write ar resp m) as Hw.
    destruct (respond write ar resp m) as [ws m']. by exists ws, m'. }
  destruct (Decode body) as [out|e] eqn:Hd; [|right; split; [intros ? (? & ? & ? & ? & ? & ? & ?); congruence|apply Hwrites]].
  destruct (AdmissionReviewKubeToAdapter out) as [ar|e] eqn:Ha; [|right; split; [intros ? (? & ? & ? & ? & ? & ? & ?); congruence|apply Hwrites]].
  left. exists ar. split; [|done]. by exists body, out.
Qed.

Lemma decoded_review_unique r ar ar' : decoded_review r ar -> decoded_review r ar' -> ar' = ar.
Proof. intros (b & o & Hb & _ & _ & Hd & Ha) (b' & o' & Hb' & _ & _ & Hd' & Ha'). congruence. Qed.

(** C28: The HTTP handler panics exactly on a review without a request. Every other call
    writes an answer; for a decoded review it is the review's own type with the identifier
    of its request and the decision of the webhook, when it can be encoded and written. *)
Theorem serve_answers wh write r m :
  (panics (serveValidate wh write r m) = true <->
     exists ar, decoded_review r ar /\ rev_Request ar = None) /\
  (forall ws m', serveValidate wh write r m = Ret (ws, m') -> ws <> []) /\
  (forall ar request text, decoded_review r ar -> rev_Request ar = Some request ->
     (forall resp, marshal_review (review_answer ar (req_UID request) resp) (rev_APIVersion ar) = Ok (text resp)) ->
     (forall s, write s = None) ->
     exists resp m', validate wh (Some request) m = Ret (resp, m') /\
       serveValidate wh write r m = Ret ([HttpBody (text resp)], m')).
Proof.
  destruct (serve_cases wh write r m) as [(ar & Har & ->)|[Hn (ws & m' & -> & Hws)]].
  - split_and!.
    + split.
      * destruct (rev_Request ar) as [request|] eqn:Hr; [|by exists ar].
        by destruct (validate_some wh request m) as (resp & m' & ->).
      * intros (ar' & Har' & Hr). rewrite (decoded_review_unique _ _ _ Har Har') in Hr. by rewrite Hr.
    + intros ws m' Hret. destruct (rev_Request ar) as [request|]; [|done].
      destruct (validate_some wh request m) as (resp & m1 & Hv). rewrite Hv in Hret.
      injection Hret as Hret. pose proof (respond_writes write (Some ar) resp m1) as Hw. by rewrite Hret in Hw.
    + intros ar' request text Har' Hr Htext Hwrite. rewrite (decoded_review_unique _ _ _ Har Har') in Hr, Htext.
      destruct (validate_some wh request m) as (resp & m1 & Hv). exists resp, m1. split; [done|].
      rewrite Hr, Hv. cbn [mbind outcome_bind fst snd]. unfold respond. rewrite Hr.
      unfold review_answer in Htext. by rewrite Htext, Hwrite.
  - split_and!; [|by intros ? ? [= <- <-]|by intros ar request text Har; destruct (Hn ar)].
    split; [done|]. intros (ar & Har & _). by destruct (Hn ar).
Qed.
End http.

(** ** Registration *)
Section registration.
Context {Server : Type} `{WebhookConfigLaws Server}.

Lemma generate_config_stores caCert namespace (s : Server) :
  exists s' c, GenerateWebhookConfig caCert namespace s = Ret (None, s') /\
    vwc_Get s' (webhookCfgName namespace) = LookupOk c /\
    (vwc_Webhooks c = vwc_Webhooks (webhook_config caCert namespace) \/
     vwc_Webhooks c = vwc_defaults <$> vwc_Webhooks (webhook_config caCert namespace)).
Proof.
  unfold GenerateWebhookConfig. destruct vwc_connects as (kc & -> & ->).
  destruct (vwc_Get s (webhookCfgName namespace)) as [old| |e] eqn:Hg;
    [|destruct (vwc_Create_spec s (webhook_config caCert namespace) Hg) as (s' & c & Hc & Hget & Hw);
       exists s', c; rewrite Hc; by auto|by destruct (vwc_Get_answers s (webhookCfgName namespace) e)].
  case_bool_decide as Heq; cbn [negb]; [exists s, old; by auto|].
  set (config := {| vwc_Name := _ |}).
  destruct (vwc_Update_spec s config old Hg eq_refl) as (s' & c & Hc & Hget & Hw). exists s', c. rewrite Hc. by auto.
Qed.

(** C29: On a server that can be connected to and answers, whatever is stored under the name
    before, the registration succeeds and the stored webhooks are the ones of this version and
    authority, up to the defaults the server fills in; a second registration leaves the
    server as it is when the server fills in none. *)
Theorem webhook_registered caCert namespace (s : Server) :
  exists s' c, GenerateWebhookConfig caCert namespace s = Ret (None, s') /\
    vwc_Get s' (webhookCfgName namespace) = LookupOk c /\
    (vwc_Webhooks c = vwc_Webhooks (webhook_config caCert namespace) \/
     vwc_Webhooks c = vwc_defaults <$> vwc_Webhooks (webhook_config caCert namespace)) /\
    (vwc_defaults <$> vwc_Webhooks (webhook_config caCert namespace) =
       vwc_Webhooks (webhook_config caCert namespace) ->
     GenerateWebhookConfig caCert namespace s' = Ret (None, s')).
Proof.
  destruct (generate_config_stores caCert namespace s) as (s' & c & Hgen & Hget & Hw).
  exists s', c. split_and!; [done..|]. intros Hdef. unfold GenerateWebhookConfig.
  destruct vwc_connects as (kc & -> & ->). rewrite Hget.
  rewrite bool_decide_eq_true_2; [done|]. destruct Hw as [->| ->]; by rewrite ?Hdef.
Qed.
End registration.

(** Which requests the API server sends to a webhook: by operation, group, version and
    resource, where a star is any version. *)
Definition rule_matches (r : Rule) (op : AdmissionOperation) (gvr : GroupVersionResource) : bool :=
  bool_decide (op ∈ rule_Operations r) && bool_decide (gvr_Group gvr ∈ rule_APIGroups r) &&
  (bool_decide ("*" ∈ rule_APIVersions r) || bool_decide (gvr_Version gvr ∈ rule_APIVersions r)) &&
  bool_decide (gvr_Resource gvr ∈ rule_Resources r).
Definition sent (c : ValidatingWebhookConfiguration) (op : AdmissionOperation) (gvr : GroupVersionResource) : bool :=
  existsb (fun w => existsb (fun r => rule_matches r op gvr) (vw_Rules w)) (vwc_Webhooks c).

(** Of the two kinds the webhook has a check for, only MetaRouters are registered: every
    create and update of a MetaRouter of any version is sent to it, and none of an
    application protocol, whose check is therefore never run. *)
Theorem registered_resources `{ValidationEnv, MapRange} caCert namespace version :
  (forall op, op = OpCreate \/ op = OpUpdate ->
     sent (webhook_config caCert namespace) op
       {| gvr_Group := s_Group AerakiMetaprotocolV1Alpha1Metarouters; gvr_Version := version;
          gvr_Resource := s_Plural AerakiMetaprotocolV1Alpha1Metarouters |} = true) /\
  (forall op, sent (webhook_config caCert namespace) op
       {| gvr_Group := s_Group AerakiMetaprotocolV1Alpha1Applicationprotocols; gvr_Version := version;
          gvr_Resource := s_Plural AerakiMetaprotocolV1Alpha1Applicationprotocols |} = false).
Proof.
  split.
  - by intros op [->| ->].
  - intros op. unfold sent, rule_matches. simpl.
    by rewrite ?andb_false_r.
Qed.

(** ** Witnesses

    A decoder for a handful of bodies, a lookup by group, kind and version or alias, and a
    server that holds one configuration. *)
Definition find_schema (l : list Schema) (gvk : GroupVersionKind) : option Schema :=
  List.find (fun s => String.eqb (s_Group s) (gvk_Group gvk) && String.eqb (s_Kind s) (gvk_Kind gvk) &&
                      (String.eqb (s_Version s) (gvk_Version gvk) ||
                       existsb (String.eqb (gvk_Version gvk)) (s_VersionAliases s))) l.

Definition demo_fields (raw : string) : res (gmap string string) :=
  if String.eqb raw "broken" then Err "unexpected end of JSON input"
  else Ok (if String.eqb raw "extra" then {["kind" := ""; "spec" := ""; "extra" := ""]}
           else {["kind" := ""; "spec" := ""]}).

Definition demo_request (op : AdmissionOperation) (raw : string) : AdmissionRequest :=
  {| req_UID := "u1"; req_Kind := "MetaRouter";
     req_Resource := {| gvr_Group := "metaprotocol.aeraki.io"; gvr_Version := "v1alpha1";
                        gvr_Resource := "metarouters" |};
     req_Namespace := "ns"; req_Operation := op; req_Raw := raw |}.

Definition demo_webhook_env : WebhookEnv :=
  {| json_IstioKind := fun raw =>
       if String.eqb raw "broken" then Err "unexpected end of JSON input"
       else Ok {| ik_APIVersion := "metaprotocol.aeraki.io/v1alpha1"; ik_Kind := "MetaRouter"; ik_Name := "r";
                  ik_Object := raw |};
     json_Fields := demo_fields;
     IstioKind_GroupVersionKind := fun obj =>
       {| gvk_Group := "metaprotocol.aeraki.io"; gvk_Version := "v1alpha1"; gvk_Kind := ik_Kind obj |};
     FindByGroupVersionKind := find_schema;
     ConvertObject := fun s obj suffix =>
       Ok {| rc_Namespace := "ns"; rc_Name := ik_Name obj;
             rc_Spec := SpecMetaRouter (if String.eqb (ik_Object obj) "weights"
                          then demo_spec [demo_route [demo_destination 30; demo_destination 60]]
                          else mtr_Spec demo_mr) |};
     ValidateConfig := fun s c => s_ValidateProto s c;
     errors_Error := fun errs => String.concat "; " errs;
     Decode := fun body => Ok body;
     AdmissionReviewKubeToAdapter := fun body =>
       Ok {| rev_APIVersion := "admission.k8s.io/v1"; rev_Kind := "AdmissionReview";
             rev_Request := if String.eqb body "null" then None else Some (demo_request OpCreate body);
             rev_Response := None |};
     marshal_review := fun r _ =>
       Ok match rev_Response r with
          | Some resp => resp_UID resp +:+ (if resp_Allowed resp then " allowed" else " refused")
          | None => ""
          end |}.

Lemma demo_webhook_laws : @WebhookLaws demo_webhook_env.
Proof.
  split; [| |done].
  - intros l gvk s Hf. apply List.find_some in Hf as [Hin Hm]. apply list_elem_of_In in Hin.
    apply andb_prop in Hm as [Hm _]. apply andb_prop in Hm as [Hg Hk].
    split; [done|]. by apply String.eqb_eq in Hg, Hk.
  - intros l s Hin Hf. apply list_elem_of_In in Hin. pose proof (List.find_none _ _ Hf _ Hin) as Hn.
    simpl in Hn. by rewrite !String.eqb_refl in Hn.
Qed.

Definition one_config_server : WebhookConfigClient (option ValidatingWebhookConfiguration) :=
  {| ctrl_GetConfig := Ok "cluster"; kubernetes_NewForConfig := fun _ => None;
     vwc_Get := fun s n => match s with
                           | Some c => if String.eqb (vwc_Name c) n then LookupOk c else LookupNotFound
                           | None => LookupNotFound
                           end;
     vwc_Create := fun s c => (None, Some c);
     vwc_Update := fun s c => (None, Some c) |}.

Definition one_config_laws : @WebhookConfigLaws _ one_config_server.
Proof.
  refine (@Build_WebhookConfigLaws _ one_config_server (fun w => w) _ _ _ _); [by exists "cluster"|..].
  - intros [c|] n e; simpl; [by destruct (String.eqb (vwc_Name c) n)|done].
  - intros s c _. exists (Some c), c. simpl. by rewrite String.eqb_refl, list_fmap_id.
  - intros s c old _ _. exists (Some c), c. simpl. by rewrite String.eqb_refl, list_fmap_id.
Defined.

Section demo.
#[local] Existing Instance canonical_range.
#[local] Existing Instance istio_subset_key.
#[local] Existing Instance demo_env.
#[local] Existing Instance demo_webhook_env.
#[local] Existing Instance demo_webhook_laws.
#[local] Existing Instance one_config_server.
#[local] Existing Instance one_config_laws.

Definition demo_wh : Webhook := {| wh_schemas := Aeraki; wh_domainSuffix := "cluster.local" |}.
Definition no_metrics : Metrics :=
  {| validation_passed := ∅; validation_failed := ∅; validation_http_error := ∅ |}.

Example decisions :
  (fun raw => match validate demo_wh (Some (demo_request OpUpdate raw)) no_metrics with
              | Ret (r, _) => resp_Result r
              | Panic _ => None
              end) <$> ["ok"; "broken"; "weights"; "extra"] =
  [None; Some "cannot decode configuration: unexpected end of JSON input";
   Some "configuration is invalid: total destination weight 90 != 100";
   Some ("unknown field " +:+ quoted "extra" +:+ " on MetaRouter resource ns/r")].
Proof. by vm_compute. Qed.

Example deletions_counted_as_failed :
  validate demo_wh (Some (demo_request (OpOther "DELETE") "ok")) no_metrics =
  Ret (allowed [], reportValidationFailed (demo_request (OpOther "DELETE") "ok") reasonUnsupportedOperation no_metrics).
Proof. reflexivity. Qed.

Lemma admission_decision_witness :
  validate demo_wh (Some (demo_request OpCreate "ok")) no_metrics =
    Ret (allowed [], reportValidationPass (demo_request OpCreate "ok") no_metrics).
Proof.
  destruct (admission_decision demo_wh (demo_request OpCreate "ok") no_metrics (or_introl eq_refl)) as [Hok _].
  specialize (Hok AerakiMetaprotocolV1Alpha1Metarouters
    {| rc_Namespace := "ns"; rc_Name := "r"; rc_Spec := SpecMetaRouter (mtr_Spec demo_mr) |}).
  rewrite Hok; [reflexivity|].
  exists {| ik_APIVersion := "metaprotocol.aeraki.io/v1alpha1"; ik_Kind := "MetaRouter"; ik_Name := "r";
            ik_Object := "ok" |}, (<["kind" := ""]> (<["spec" := ""]> ∅)).
  split; [reflexivity|]. split; [reflexivity|]. split; [reflexivity|]. split; [vm_compute; reflexivity|].
  split; [reflexivity|]. intros k v Hk.
  apply lookup_insert_Some in Hk as [[<- _]|[_ Hk]]; [by apply (bool_decide_unpack _)|].
  apply lookup_insert_Some in Hk as [[<- _]|[_ Hk]]; [by apply (bool_decide_unpack _)|].
  by rewrite lookup_empty in Hk.
Defined.

Lemma admitted_router_served_witness : router_wf "ns" (mtr_Spec demo_mr).
Proof.
  destruct (admitted_router_served (demo_request OpCreate "ok") no_metrics (allowed [])
    (reportValidationPass (demo_request OpCreate "ok") no_metrics) "cluster.local"
    {| ik_APIVersion := "metaprotocol.aeraki.io/v1alpha1"; ik_Kind := "MetaRouter"; ik_Name := "r";
       ik_Object := "ok" |}) as (cfg & mr & Hcfg & Hmr & Hwf & _);
    [by left|vm_compute; reflexivity|reflexivity|reflexivity|reflexivity|].
  injection Hcfg as <-. injection Hmr as <-. exact Hwf.
Defined.

Lemma serve_answers_witness :
  serveValidate demo_wh (fun _ => None) {| http_Body := Some (Ok "weights"); http_ContentType := "application/json" |}
    no_metrics =
  Ret ([HttpBody "u1 refused"],
       reportValidationFailed (demo_request OpCreate "weights") reasonInvalidConfig no_metrics).
Proof.
  destruct (serve_answers demo_wh (fun _ => None)
    {| http_Body := Some (Ok "weights"); http_ContentType := "application/json" |} no_metrics) as (_ & _ & Hserve).
  destruct (Hserve {| rev_APIVersion := "admission.k8s.io/v1"; rev_Kind := "AdmissionReview";
      rev_Request := Some (demo_request OpCreate "weights"); rev_Response := None |}
    (demo_request OpCreate "weights")
    (fun resp => "u1" +:+ (if resp_Allowed resp then " allowed" else " refused")))
    as (resp & m' & Hv & Hs); [|reflexivity|reflexivity|reflexivity|].
  - exists "weights", "weights". split; [reflexivity|]. split; [discriminate|]. split; reflexivity || (split; reflexivity).
  - rewrite Hs. assert (Hc : validate demo_wh (Some (demo_request OpCreate "weights")) no_metrics =
      Ret (toAdmissionResponse "configuration is invalid: total destination weight 90 != 100",
           reportValidationFailed (demo_request OpCreate "weights") reasonInvalidConfig no_metrics))
      by (vm_compute; reflexivity).
    rewrite Hc in Hv. injection Hv as <- <-. reflexivity.
Defined.

Lemma webhook_registered_witness :
  exists s' c, GenerateWebhookConfig "ca2" "istio-system" (Some (webhook_config "ca1" "istio-system")) = Ret (None, s') /\
    vwc_Get s' "aeraki-istio-system" = LookupOk c /\ (vw_CABundle <$> vwc_Webhooks c) = ["ca2"] /\
    GenerateWebhookConfig "ca2" "istio-system" s' = Ret (None, s').
Proof.
  destruct (webhook_registered "ca2" "istio-system" (Some (webhook_config "ca1" "istio-system")))
    as (s' & c & Hgen & Hget & Hw & Hagain).
  exists s', c. split; [exact Hgen|]. split; [exact Hget|]. split; [|apply Hagain; reflexivity].
  destruct Hw as [Hw|Hw]; rewrite Hw; reflexivity.
Defined.
End demo.
