(* ===== verification/Certificates.v ===== *)
(** * The certificate of the server

    [src/internal/ca/istio_ca.go] (which certificate authority is used) and
    [src/internal/ca/certificate.go] (the server certificate it signs).

    Parameters: Istio's constructors of authorities (class [CaLibrary]), of which the one
    that is given the client of the cluster [K] reads and stores the secret of the authority
    there, key generation, signing and PEM encoding (class [Crypto]), and the environment of
    the process: the two directories, which files exist, the clock. *)

From S2P Require Import Prelude Validation Webhook.

(** ** [path.Join] *)
(** The elements of a path without empty ones, [.] and resolvable [..]; [acc] is reversed. *)
Fixpoint clean_parts (rooted : bool) (acc parts : list string) : list string :=
  match parts with
  | [] => rev acc
  | p :: parts =>
      if String.eqb p "" || String.eqb p "." then clean_parts rooted acc parts
      else if String.eqb p ".." then
        match acc with
        | [] => clean_parts rooted (if rooted then [] else [p]) parts
        | a :: acc' => if String.eqb a ".." then clean_parts rooted (p :: acc) parts else clean_parts rooted acc' parts
        end
      else clean_parts rooted (p :: acc) parts
  end.

Definition path_Clean (s : string) : string :=
  let rooted := HasPrefix s "/" in
  let body := String.concat "/" (clean_parts rooted [] (Split s "/")) in
  if rooted then "/" +:+ body else if String.eqb body "" then "." else body.

(** [path.Join] of two elements ignores empty ones. *)
Definition path_Join (a b : string) : string :=
  if String.eqb a "" then (if String.eqb b "" then "" else path_Clean b)
  else if String.eqb b "" then path_Clean a else path_Clean (a +:+ "/" +:+ b).

(** ** The authority *)
Record SigningCAFileBundle := {
  RootCertFile : string; CertChainFiles : list string; SigningCertFile : string; SigningKeyFile : string }.

Record caOptions := {
  opt_ExternalCAType : string; opt_TrustDomain : string; opt_Namespace : string; opt_CertSignerDomain : string }.

(** The authority as its users see it. *)
Record CaBundle := { cab_Cert : string; cab_PrivKey : option string; cab_RootCertPem : string }.

Class CaLibrary (K : Type) := {
  CAPrivateKeyFile : string; RootCertFileName : string; CertChainFileName : string; CACertFileName : string;
  NewSelfSignedIstioCAOptions : string -> string -> string -> K -> res CaBundle * K;
  NewSelfSignedDebugIstioCAOptions : string -> string -> res CaBundle;
  NewPluggedCertIstioCAOptions : SigningCAFileBundle -> res CaBundle }.

(** The directory of Istio's own setting, the one of [ROOT_CA_DIR], the external authority
    and the files that exist. *)
Record CaEnvironment := {
  istio_LocalCertDir : string; localCertDir : string; externalCaType : string; file_exists : string -> bool }.

Section authority.
Context {K : Type} `{CaLibrary K}.

Definition signing_files (env : CaEnvironment) : SigningCAFileBundle :=
  let rootCertFile := path_Join (localCertDir env) RootCertFileName in
  {| RootCertFile := if file_exists env rootCertFile then rootCertFile else "";
     CertChainFiles := [path_Join (localCertDir env) CertChainFileName];
     SigningCertFile := path_Join (localCertDir env) CACertFileName;
     SigningKeyFile := path_Join (istio_LocalCertDir env) CAPrivateKeyFile |}.

Definition ca_options (env : CaEnvironment) (namespace : string) : caOptions :=
  {| opt_ExternalCAType := externalCaType env; opt_TrustDomain := "aeraki.net"; opt_Namespace := namespace;
     opt_CertSignerDomain := "aeraki.net" |}.

Definition getIstioCA (env : CaEnvironment) (client : bool) (namespace : string) (k : K) : res CaBundle * K :=
  let opts := ca_options env namespace in
  let fileBundle := signing_files env in
  if negb (file_exists env (SigningKeyFile fileBundle)) then
    let '(caOpts, k) :=
      if client then NewSelfSignedIstioCAOptions (opt_TrustDomain opts) (opt_Namespace opts) (RootCertFile fileBundle) k
      else (NewSelfSignedDebugIstioCAOptions (RootCertFile fileBundle) (opt_TrustDomain opts), k) in
    (match caOpts with
     | Err err => Err ("failed to create a self-signed istiod CA: " +:+ err)
     | Ok b => Ok b
     end, k)
  else (match NewPluggedCertIstioCAOptions fileBundle with
        | Err err => Err ("failed to create an istiod CA: " +:+ err)
        | Ok b => Ok b
        end, k).
End authority.

(** ** The clock *)
Record Time := { t_Year : Z; t_Month : Z; t_Day : Z; t_Nanos : Z }.

Definition leap (y : Z) : bool := (y mod 4 =? 0) && (negb (y mod 100 =? 0) || (y mod 400 =? 0)).

(** [AddDate(years, 0, 0)] normalises the 29th of February of a year without one. *)
Definition add_years (years : Z) (t : Time) : Time :=
  let y := t_Year t + years in
  if (t_Month t =? 2) && (t_Day t =? 29) && negb (leap y)
  then {| t_Year := y; t_Month := 3; t_Day := 1; t_Nanos := t_Nanos t |}
  else {| t_Year := y; t_Month := t_Month t; t_Day := t_Day t; t_Nanos := t_Nanos t |}.

(** ** The certificate *)
Record Certificate := {
  crt_SignatureAlgorithm : string; crt_DNSNames : list string; crt_SerialNumber : Z;
  crt_CommonName : string; crt_Organization : list string; crt_NotBefore : Time; crt_NotAfter : Time;
  crt_SubjectKeyId : list Z; crt_ExtKeyUsage : list string; crt_KeyUsage : string; crt_Version : Z }.

Record KeyPair := { kp_Public : string; kp_Private : string }.

Class Crypto := {
  rsa_GenerateKey : Z -> res KeyPair;
  CreateCertificate : Certificate -> string -> string -> string -> res string;
  pem_Encode : string -> string -> string;
  MarshalPKCS1PrivateKey : string -> string }.

Record KeyCertBundle := { CertPem : string; KeyPem : string; CABundle : string }.

Definition server_certificate (namespace : string) (now : Time) (later : Time) : Certificate :=
  {| crt_SignatureAlgorithm := "SHA256WithRSA";
     crt_DNSNames := ["aeraki"; "aeraki." +:+ namespace; "aeraki." +:+ namespace +:+ ".svc"];
     crt_SerialNumber := 1658; crt_CommonName := "aeraki.default.svc"; crt_Organization := ["aeraki.net"];
     crt_NotBefore := now; crt_NotAfter := add_years 10 later;
     crt_SubjectKeyId := [1; 2; 3; 4; 6]; crt_ExtKeyUsage := ["ClientAuth"; "ServerAuth"];
     crt_KeyUsage := "DigitalSignature"; crt_Version := 3 |}.

(** Without a client [client.Kube()] panics. The clock is read twice. A bundle without key
    makes [*caPrivKey] panic. *)
Definition GenerateKeyCertBundle {K} `{CaLibrary K, Crypto} (env : CaEnvironment) (now later : Time) (client : bool)
    (namespace : string) (k : K) : outcome (res KeyCertBundle * K) :=
  if negb client then Panic "nil pointer dereference"
  else
    match getIstioCA env client namespace k with
    | (Err err, k) => Ret (Err err, k)
    | (Ok ca, k) =>
        let cert := server_certificate namespace now later in
        match rsa_GenerateKey 4096 with
        | Err err => Ret (Err err, k)
        | Ok serverPrivKey =>
            caPrivKey ← deref (cab_PrivKey ca);
            match CreateCertificate cert (cab_Cert ca) (kp_Public serverPrivKey) caPrivKey with
            | Err err => Ret (Err err, k)
            | Ok serverCertBytes =>
                Ret (Ok {| CertPem := pem_Encode "CERTIFICATE" serverCertBytes;
                           KeyPem := pem_Encode "RSA PRIVATE KEY" (MarshalPKCS1PrivateKey (kp_Private serverPrivKey));
                           CABundle := cab_RootCertPem ca |}, k)
            end
        end
    end.

(** ** What the certificate is for *)
(** The server name under which the API server calls a webhook of the cluster. *)
Definition webhook_server_name (w : ValidatingWebhook) : string :=
  vw_ServiceName w +:+ "." +:+ vw_ServiceNamespace w +:+ ".svc".

Definition time_le (a b : Time) : Prop :=
  t_Year a < t_Year b \/ (t_Year a = t_Year b /\ (t_Month a < t_Month b \/
    (t_Month a = t_Month b /\ (t_Day a < t_Day b \/ (t_Day a = t_Day b /\ t_Nanos a <= t_Nanos b))))).

(** C32: The certificate fits its use: the name under which the API server calls the
    registered webhook is one of the names of the certificate, in every namespace; it may be
    used by a server; it is valid from its creation for nine years at the least, whichever
    day it is made on; and the trust bundle handed on is the one of the authority that
    signed it. *)
Theorem certificate_serves_webhook {K} `{CaLibrary K, Crypto} env now later client namespace (k k' : K) bundle :
  GenerateKeyCertBundle env now later client namespace k = Ret (Ok bundle, k') -> time_le now later ->
  exists ca key bytes,
    getIstioCA env client namespace k = (Ok ca, k') /\ cab_PrivKey ca = Some key /\ CABundle bundle = cab_RootCertPem ca /\
    CertPem bundle = pem_Encode "CERTIFICATE" bytes /\
    (exists pub, CreateCertificate (server_certificate namespace now later) (cab_Cert ca) pub key = Ok bytes) /\
    Forall (fun w => webhook_server_name w ∈ crt_DNSNames (server_certificate namespace now later))
      (vwc_Webhooks (webhook_config (CABundle bundle) namespace)) /\
    "ServerAuth" ∈ crt_ExtKeyUsage (server_certificate namespace now later) /\
    t_Year now + 9 < t_Year (crt_NotAfter (server_certificate namespace now later)).
Proof.
  unfold GenerateKeyCertBundle. intros Hgen Hnow. destruct client; [|done]. cbn [negb] in Hgen.
  destruct (getIstioCA env true namespace k) as [[ca|] k1]; [|done].
  destruct (rsa_GenerateKey 4096) as [kp|]; [|done]. destruct (cab_PrivKey ca) as [key|] eqn:Hkey; [|done].
  cbn [deref mbind outcome_bind] in Hgen.
  destruct (CreateCertificate _ _ _ _) as [bytes|] eqn:Hc; [|done]. injection Hgen as <- <-.
  exists ca, key, bytes. split_and!; [done..|by eexists| | |].
  - apply Forall_singleton. apply elem_of_cons. right. apply elem_of_cons. right. by left.
  - apply elem_of_cons. right. by left.
  - cbn. assert (t_Year now <= t_Year later) by (unfold time_le in Hnow; lia).
    unfold add_years. destruct (_ && _); simpl; lia.
Qed.

(** The cluster is written to at most by the constructor of a self-signed authority. *)
Definition authority_stored {K} `{CaLibrary K} (namespace : string) (k k' : K) : Prop :=
  k' = k \/ exists root, k' = snd (NewSelfSignedIstioCAOptions "aeraki.net" namespace root k).

Lemma getIstioCA_stored {K} `{CaLibrary K} env client namespace (k : K) :
  authority_stored namespace k (snd (getIstioCA env client namespace k)).
Proof.
  unfold getIstioCA. destruct (file_exists env _); cbn [negb]; [by left|]. destruct client; [right|by left].
  exists (RootCertFile (signing_files env)). cbn [opt_TrustDomain opt_Namespace ca_options].
  by destruct (NewSelfSignedIstioCAOptions _ _ _ k).
Qed.

Lemma GenerateKeyCertBundle_stored {K} `{CaLibrary K, Crypto} env now later client namespace (k k' : K) r :
  GenerateKeyCertBundle env now later client namespace k = Ret (r, k') -> authority_stored namespace k k'.
Proof.
  unfold GenerateKeyCertBundle. pose proof (getIstioCA_stored env client namespace k) as Hs.
  destruct client; [|done]. cbn [negb]. destruct (getIstioCA env true namespace k) as [[ca|] k1]; cbn [snd] in Hs.
  - destruct (rsa_GenerateKey 4096); [|by intros [= _ <-]]. destruct (cab_PrivKey ca); [|done]. cbn.
    destruct (CreateCertificate _ _ _ _); by intros [= _ <-].
  - by intros [= _ <-].
Qed.

(** The authority is the configured one exactly when its signing key exists, and then the
    cluster is left alone; otherwise a self-signed one is made, in the cluster when there is
    a client. *)
Theorem authority_choice {K} `{CaLibrary K} env client namespace (k k' : K) ca :
  getIstioCA env client namespace k = (Ok ca, k') ->
  if file_exists env (SigningKeyFile (signing_files env))
  then NewPluggedCertIstioCAOptions (signing_files env) = Ok ca /\ k' = k
  else if client
  then NewSelfSignedIstioCAOptions "aeraki.net" namespace (RootCertFile (signing_files env)) k = (Ok ca, k')
  else NewSelfSignedDebugIstioCAOptions (RootCertFile (signing_files env)) "aeraki.net" = Ok ca /\ k' = k.
Proof.
  unfold getIstioCA. destruct (file_exists env _); cbn [negb].
  - destruct (NewPluggedCertIstioCAOptions _); [|done]. by intros [= -> ->].
  - destruct client; cbn [opt_TrustDomain opt_Namespace ca_options].
    + destruct (NewSelfSignedIstioCAOptions _ _ _ k) as [[b|] k1]; [|done]. by intros [= -> ->].
    + destruct (NewSelfSignedDebugIstioCAOptions _ _); [|done]. by intros [= -> ->].
Qed.

(** ** Witnesses *)
(** A cluster whose configuration is kept; the secret of the authority is not looked at. *)
Definition demo_ca_library {K} : CaLibrary K :=
  {| CAPrivateKeyFile := "ca-key.pem"; RootCertFileName := "root-cert.pem"; CertChainFileName := "cert-chain.pem";
     CACertFileName := "ca-cert.pem";
     NewSelfSignedIstioCAOptions := fun td ns root k =>
       (Ok {| cab_Cert := td; cab_PrivKey := Some "ca key"; cab_RootCertPem := "root of " +:+ ns |}, k);
     NewSelfSignedDebugIstioCAOptions := fun root td =>
       Ok {| cab_Cert := td; cab_PrivKey := Some "ca key"; cab_RootCertPem := root |};
     NewPluggedCertIstioCAOptions := fun files =>
       Ok {| cab_Cert := SigningCertFile files; cab_PrivKey := Some (SigningKeyFile files);
             cab_RootCertPem := RootCertFile files |} |}.
Definition demo_crypto : Crypto :=
  {| rsa_GenerateKey := fun _ => Ok {| kp_Public := "pub"; kp_Private := "priv" |};
     CreateCertificate := fun c ca pub key => Ok (String.concat "," (crt_DNSNames c));
     pem_Encode := fun t s => t +:+ ":" +:+ s; MarshalPKCS1PrivateKey := fun s => s |}.

Section demo.
#[local] Existing Instance demo_ca_library.
#[local] Existing Instance demo_crypto.

Definition demo_ca_env : CaEnvironment :=
  {| istio_LocalCertDir := "./etc/cacerts"; localCertDir := "./etc/cacerts"; externalCaType := "";
     file_exists := fun f => String.eqb f "etc/cacerts/root-cert.pem" |}.
Definition demo_leap_day : Time := {| t_Year := 2024; t_Month := 2; t_Day := 29; t_Nanos := 0 |}.

Example clean_paths :
  path_Join "./etc/cacerts" "ca-key.pem" = "etc/cacerts/ca-key.pem" /\ path_Join "/a/../.." "b" = "/b" /\
  path_Join "a/../.." "b" = "../b" /\ path_Join "" "" = "" /\ path_Clean "a/.." = ".".
Proof. by vm_compute. Qed.

Example leap_day_expiry : add_years 10 demo_leap_day = {| t_Year := 2034; t_Month := 3; t_Day := 1; t_Nanos := 0 |}.
Proof. reflexivity. Qed.

(** A cluster with the namespaces that have the secret of an authority. *)
Definition demo_secret_library : CaLibrary (list string) :=
  {| CAPrivateKeyFile := "ca-key.pem"; RootCertFileName := "root-cert.pem"; CertChainFileName := "cert-chain.pem";
     CACertFileName := "ca-cert.pem";
     NewSelfSignedIstioCAOptions := fun td ns root k =>
       (Ok {| cab_Cert := td; cab_PrivKey := Some "ca key"; cab_RootCertPem := "root of " +:+ ns |},
        if bool_decide (ns ∈ k) then k else ns :: k);
     NewSelfSignedDebugIstioCAOptions := fun root td => Err "no";
     NewPluggedCertIstioCAOptions := fun files => Err "no" |}.
#[local] Existing Instance demo_secret_library.

Lemma certificate_serves_webhook_witness :
  exists ca, getIstioCA demo_ca_env true "istio-system" [] = (Ok ca, ["istio-system"]) /\
    cab_RootCertPem ca = "root of istio-system".
Proof.
  destruct (certificate_serves_webhook demo_ca_env demo_leap_day demo_leap_day true "istio-system" [] ["istio-system"]
    {| CertPem := "CERTIFICATE:aeraki,aeraki.istio-system,aeraki.istio-system.svc";
       KeyPem := "RSA PRIVATE KEY:priv"; CABundle := "root of istio-system" |})
    as (ca & key & bytes & Hca & _ & Hroot & _); [reflexivity|unfold time_le; simpl; lia|].
  exists ca. split; [exact Hca|]. symmetry. exact Hroot.
Defined.

Lemma authority_choice_witness :
  NewSelfSignedIstioCAOptions "aeraki.net" "istio-system" "etc/cacerts/root-cert.pem" [] =
  (Ok {| cab_Cert := "aeraki.net"; cab_PrivKey := Some "ca key"; cab_RootCertPem := "root of istio-system" |},
   ["istio-system"]).
Proof. exact (authority_choice demo_ca_env true "istio-system" [] _ _ eq_refl). Defined.
End demo.
