(* ===== verification/KubeControllers.v ===== *)
(** * The Kubernetes controllers that forward changes

    [metarouter.go], [metaprotocol.go], [redis.go], [dubbo.go], [namesapce.go], the watch of
    [serviceentry.go] and [sidecar_bootstrap_config.go] of [src/internal/controller/kube], and
    their wiring in [createScalableControllers] of [src/internal/bootstrap/server.go]: which
    changes of which resources reach the two event loops.

    A callback acts on [Effects]: the codec table and the sends to the event loops, in
    order. A reconcile then runs as a worker whose sends interleave with the loops
    ([system_step]). Parameters: the manager library (registration and predicates, class
    [ControllerRuntime]) and the API server. *)

From S2P Require Import Prelude Api Model VipAllocator EventLoop.

(** ** Watches *)
Inductive Kind :=
| KMetaRouter
| KApplicationProtocol
| KRedisService
| KRedisDestination
| KDubboAuthorizationPolicy
| KServiceEntry
| KNamespace.
Global Instance Kind_eq_dec : EqDecision Kind.
Proof. solve_decision. Defined.

(** [DeletionTimestamp] is a pointer, and compared as one: an address, or nil. *)
Record WatchObject := {
  wo_Kind : Kind; wo_Generation : Z; wo_DeletionTimestamp : option positive }.

Inductive WatchEvent :=
| CreateEvent (o : WatchObject)
| UpdateEvent (old new : WatchObject)
| DeleteEvent (o : WatchObject)
| GenericEvent (o : WatchObject).

Record Funcs := {
  CreateFunc : option (WatchObject -> bool);
  UpdateFunc : option (WatchObject -> WatchObject -> bool);
  DeleteFunc : option (WatchObject -> bool);
  GenericFunc : option (WatchObject -> bool) }.

(** The common test of the update functions. *)
Definition object_changed (old new : WatchObject) : bool :=
  negb (bool_decide (wo_DeletionTimestamp old = wo_DeletionTimestamp new)) ||
  negb (wo_Generation old =? wo_Generation new).

Definition updates_of (k : Kind) (old new : WatchObject) : bool :=
  if bool_decide (wo_Kind old = k) then
    if bool_decide (wo_Kind new = k) then object_changed old new else false
  else false.

Definition always (_ : WatchObject) : bool := true.

Definition metaRouterlPredicates : Funcs :=
  {| CreateFunc := Some always; DeleteFunc := Some always;
     UpdateFunc := Some (updates_of KMetaRouter); GenericFunc := None |}.
Definition metaProtocolPredicates : Funcs :=
  {| CreateFunc := Some always; DeleteFunc := Some always;
     UpdateFunc := Some (updates_of KApplicationProtocol); GenericFunc := None |}.
Definition redisPredicates : Funcs :=
  {| CreateFunc := Some always; DeleteFunc := Some always;
     UpdateFunc := Some (fun old new =>
       match wo_Kind old with
       | KRedisService => if bool_decide (wo_Kind new = KRedisService) then object_changed old new else false
       | KRedisDestination => if bool_decide (wo_Kind new = KRedisDestination) then object_changed old new else false
       | _ => false
       end);
     GenericFunc := None |}.
Definition dubboPredicates : Funcs :=
  {| CreateFunc := Some always; DeleteFunc := Some always;
     UpdateFunc := Some (updates_of KDubboAuthorizationPolicy); GenericFunc := None |}.
Definition serviceEntryPredicates : Funcs :=
  {| CreateFunc := Some always; DeleteFunc := Some always;
     UpdateFunc := Some (updates_of KServiceEntry); GenericFunc := None |}.
Definition namespacePredicates : Funcs :=
  {| CreateFunc := Some always; UpdateFunc := Some (fun _ _ => true);
     DeleteFunc := None; GenericFunc := None |}.

(** ** Reconcilers *)
Inductive Channel :=
| PushChannel
| RouteChannel.

Record Effects := { eff_codecs : gmap string string; eff_sends : list Channel }.
Abbreviation Trigger := (Effects -> option error * Effects).

Record Result := { Requeue : bool }.
Abbreviation Reconciler := (ObjectKey -> Effects -> (Result * option error) * Effects).

(** The body that four of the controllers share. *)
Definition forward (triggerPush : option Trigger) (e : Effects) : (Result * option error) * Effects :=
  match triggerPush with
  | Some trigger =>
      match trigger e with
      | (Some err, e) => (({| Requeue := true |}, Some err), e)
      | (None, e) => (({| Requeue := false |}, None), e)
      end
  | None => (({| Requeue := false |}, None), e)
  end.

Module MetaRouterController.
Definition Reconcile (metaRouterCallback : option Trigger) : Reconciler := fun _ => forward metaRouterCallback.
End MetaRouterController.

Module RedisController.
Definition Reconcile (triggerPush : option Trigger) : Reconciler := fun _ => forward triggerPush.
End RedisController.

Module DubboController.
Definition Reconcile (triggerPush : option Trigger) : Reconciler := fun _ => forward triggerPush.
End DubboController.

Module MetaProtocolController.
Definition Reconcile (Get : ObjectKey -> res ApplicationProtocol) (triggerPush : option Trigger) : Reconciler :=
  fun request e =>
  match Get request with
  | Err err => (({| Requeue := true |}, Some err), e)
  | Ok protocol =>
      forward triggerPush
        {| eff_codecs := SetApplicationProtocolCodec (ap_Protocol protocol) (ap_Codec protocol) (eff_codecs e);
           eff_sends := eff_sends e |}
  end.
End MetaProtocolController.

(** ** Registration and wiring *)
Record namespaceController := { AerakiAddr : string; AerakiPort : string }.

Record ManagerOptions := {
  mo_MetricsBindAddress : string; mo_LeaderElection : bool; mo_LeaderElectionID : string;
  mo_LeaderElectionNamespace : string }.

Class ControllerRuntime := {
  manager_New : ManagerOptions -> option error;
  controller_New : string -> option error;
  controller_Watch : string -> Kind -> option error;
  AddToScheme : option error;
  passes : Funcs -> WatchEvent -> bool }.

(** A function of the predicates decides, and where there is none the event passes. *)
Class ControllerRuntimeLaws `{ControllerRuntime} := {
  passes_create : forall p o, passes p (CreateEvent o) = match CreateFunc p with Some f => f o | None => true end;
  passes_update : forall p o o', passes p (UpdateEvent o o') = match UpdateFunc p with Some f => f o o' | None => true end;
  passes_delete : forall p o, passes p (DeleteEvent o) = match DeleteFunc p with Some f => f o | None => true end;
  passes_generic : forall p o, passes p (GenericEvent o) = match GenericFunc p with Some f => f o | None => true end }.

Record Registration (R : Type) := {
  reg_Name : string; reg_Kind : Kind; reg_Predicates : Funcs; reg_Reconciler : R }.
Arguments reg_Name {R} _.
Arguments reg_Kind {R} _.
Arguments reg_Predicates {R} _.
Arguments reg_Reconciler {R} _.
Abbreviation Manager := (list (Registration Reconciler)).

(** The reconcilers of the singleton manager, by the controller they run with. *)
Inductive SingletonReconciler :=
| ServiceEntries (c : serviceEntryController)
| Namespaces (c : namespaceController).

Section wiring.
Context `{ControllerRuntime}.

(** [NewManager] of [manager.go]; a new manager has no controllers. *)
Definition NewManager {R} (namespace : string) (leaderElection : bool) (leaderElectionID : string)
    : res (list (Registration R)) :=
  match manager_New {| mo_MetricsBindAddress := "0"; mo_LeaderElection := leaderElection;
                       mo_LeaderElectionID := leaderElectionID; mo_LeaderElectionNamespace := namespace |} with
  | Some err => Err err
  | None => Ok []
  end.

Definition add_controller {R} (name : string) (k : Kind) (p : Funcs) (r : R) (mgr : list (Registration R))
    : option error * list (Registration R) :=
  match controller_New name with
  | Some err => (Some err, mgr)
  | None =>
      match controller_Watch name k with
      | Some err => (Some err, mgr)
      | None => (None, mgr ++ [{| reg_Name := name; reg_Kind := k; reg_Predicates := p; reg_Reconciler := r |}])
      end
  end.

Definition AddRedisServiceController (mgr : Manager) (triggerPush : Trigger) : option error * Manager :=
  add_controller "aeraki-redis-service-controller" KRedisService redisPredicates
    (RedisController.Reconcile (Some triggerPush)) mgr.
Definition AddRedisDestinationController (mgr : Manager) (triggerPush : Trigger) : option error * Manager :=
  add_controller "aeraki-redis-destination-controller" KRedisDestination redisPredicates
    (RedisController.Reconcile (Some triggerPush)) mgr.
Definition AddDubboAuthorizationPolicyController (mgr : Manager) (triggerPush : Trigger) : option error * Manager :=
  add_controller "aeraki-dubbo-authorization-policy-controller" KDubboAuthorizationPolicy dubboPredicates
    (DubboController.Reconcile (Some triggerPush)) mgr.
Definition AddApplicationProtocolController (Get : ObjectKey -> res ApplicationProtocol) (mgr : Manager)
    (triggerPush : Trigger) : option error * Manager :=
  add_controller "aeraki-meta-protocol-application-protocol-controller" KApplicationProtocol metaProtocolPredicates
    (MetaProtocolController.Reconcile Get (Some triggerPush)) mgr.
Definition AddMetaRouterController (mgr : Manager) (triggerPush : Trigger) : option error * Manager :=
  add_controller "aeraki-meta-protocol-meta-router-controller" KMetaRouter metaRouterlPredicates
    (MetaRouterController.Reconcile (Some triggerPush)) mgr.

(** [ConfigUpdated] and [UpdateRoute] send to the channel of their loop. *)
Definition ConfigUpdated (e : Effects) : Effects :=
  {| eff_codecs := eff_codecs e; eff_sends := eff_sends e ++ [PushChannel] |}.
Definition UpdateRoute (e : Effects) : Effects :=
  {| eff_codecs := eff_codecs e; eff_sends := eff_sends e ++ [RouteChannel] |}.

Definition updateEnvoyFilter : Trigger := fun e => (None, ConfigUpdated e).
Definition metaRouterChanged : Trigger := fun e =>
  match updateEnvoyFilter e with
  | (Some err, e) => (Some err, e)
  | (None, e) => (None, UpdateRoute e)
  end.

Fixpoint add_all (adds : list (Manager -> option error * Manager)) (mgr : Manager) : res Manager :=
  match adds with
  | [] => Ok mgr
  | add :: adds => match add mgr with (Some err, _) => Err err | (None, mgr) => add_all adds mgr end
  end.

Definition createScalableControllers (namespace : string) (Get : ObjectKey -> res ApplicationProtocol) : res Manager :=
  match NewManager namespace false "" with
  | Err err => Err err
  | Ok mgr =>
      match add_all [fun mgr => AddRedisServiceController mgr updateEnvoyFilter;
                     fun mgr => AddRedisDestinationController mgr updateEnvoyFilter;
                     fun mgr => AddDubboAuthorizationPolicyController mgr updateEnvoyFilter;
                     fun mgr => AddApplicationProtocolController Get mgr updateEnvoyFilter;
                     fun mgr => AddMetaRouterController mgr metaRouterChanged] mgr with
      | Err err => Err err
      | Ok mgr => match AddToScheme with Some err => Err err | None => Ok mgr end
      end
  end.

Definition AllocateVIPController : string := "aeraki-service-entry-vip-allocation-controller-election".

Definition AddServiceEntryController (mgr : list (Registration SingletonReconciler))
    : option error * list (Registration SingletonReconciler) :=
  add_controller "aeraki-service-entry-controller" KServiceEntry serviceEntryPredicates
    (ServiceEntries newServiceEntryController) mgr.
Definition AddNamespaceController (mgr : list (Registration SingletonReconciler)) (aerakiAddr aerakiPort : string)
    : option error * list (Registration SingletonReconciler) :=
  add_controller "aeraki-namespace-controller" KNamespace namespacePredicates
    (Namespaces {| AerakiAddr := aerakiAddr; AerakiPort := aerakiPort |}) mgr.

(** A controller that cannot be added ends the process ([Fatalf]). *)
Definition createSingletonControllers (namespace aerakiXdsAddr aerakiXdsPort : string)
    : outcome (res (list (Registration SingletonReconciler))) :=
  match NewManager namespace true AllocateVIPController with
  | Err err => Ret (Err err)
  | Ok mgr =>
      match AddServiceEntryController mgr with
      | (Some err, _) => Panic "exit"
      | (None, mgr) =>
          match AddNamespaceController mgr aerakiXdsAddr aerakiXdsPort with
          | (Some err, _) => Panic "exit"
          | (None, mgr) => match AddToScheme with Some _ => Panic "exit" | None => Ret (Ok mgr) end
          end
      end
  end.

Definition event_kind (e : WatchEvent) : Kind :=
  match e with CreateEvent o | DeleteEvent o | GenericEvent o | UpdateEvent _ o => wo_Kind o end.

(** The reconcilers that a change of an object starts. *)
Definition started (mgr : Manager) (e : WatchEvent) : list Reconciler :=
  omap (M:=list) (fun r => if bool_decide (reg_Kind r = event_kind e) && passes (reg_Predicates r) e
                           then Some (reg_Reconciler r) else None) mgr.
End wiring.

(** ** The namespace controller *)
(** A constant of the source with its double quotes written as single ones. *)
Fixpoint requote (s : string) : string :=
  match s with
  | EmptyString => EmptyString
  | String a s => String (if Ascii.eqb a "'" then "034"%char else a) (requote s)
  end.

Definition bootstrapConfig : string := requote
"
    {
       'static_resources':{
          'clusters':[
             {
                'name':'aeraki-xds',
                'type':'STRICT_DNS',
                'connect_timeout':'1s',
                'max_requests_per_connection':1,
                'circuit_breakers':{
                   'thresholds':[
                      {
                         'max_connections':100000,
                         'max_pending_requests':100000,
                         'max_requests':100000
                      },
                      {
                         'priority':'HIGH',
                         'max_connections':100000,
                         'max_pending_requests':100000,
                         'max_requests':100000
                      }
                   ]
                },
                'http2_protocol_options':{

                },
                'upstream_connection_options':{
                   'tcp_keepalive':{
                      'keepalive_time':300
                   }
                },
                'load_assignment':{
                   'cluster_name':'aeraki-xds',
                   'endpoints':[
                      {
                         'lb_endpoints':[
                            {
                               'endpoint':{
                                  'address':{
                                     'socket_address':{
                                        'address':'{{.Address}}',
                                        'port_value'{{.PortValue}}
                                     }
                                  }
                               }
                            }
                         ]
                      }
                   ]
                },
                'transport_socket': {
                   'name': 'envoy.transport_sockets.tls',
                   'typed_config': {
                      '@type': 'type.googleapis.com/envoy.extensions.transport_sockets.tls.v3.UpstreamTlsContext',
                      'common_tls_context': {
                         'validation_context_sds_secret_config': {
                            'name': 'ROOTCA',
                            'sds_config': {
                               'api_config_source': {
                                  'api_type': 'GRPC',
                                  'grpc_services': [{
                                     'envoy_grpc': {
                                        'cluster_name': 'sds-grpc'
                                     }
                                  }],
                                  'set_node_on_first_message_only': true,
                                  'transport_api_version': 'V3'
                               },
                               'initial_fetch_timeout': '0s',
                               'resource_api_version': 'V3'
                            }
                         },
                         'tls_certificate_sds_secret_configs': [{
                            'name': 'default',
                            'sds_config': {
                               'api_config_source': {
                                  'api_type': 'GRPC',
                                  'grpc_services': [{
                                     'envoy_grpc': {
                                        'cluster_name': 'sds-grpc'
                                     }
                                  }],
                                  'set_node_on_first_message_only': true,
                                  'transport_api_version': 'V3'
                               },
                               'initial_fetch_timeout': '0s',
                               'resource_api_version': 'V3'
                            }
                         }]
                      }
                   }
                }
             }
          ]
       }
    }
".

Record BootstrapConfig := { bc_Address : string; bc_PortValue : string }.

(** [text/template] on a template whose actions are all of the form {{.Field}}: the text up
    to an opening brace pair, then the field. An unknown field or an unclosed action is an
    error. *)
Fixpoint until (close : string) (s : string) : option (string * string) :=
  if HasPrefix s close then Some ("", drop_str (String.length close) s)
  else match s with
       | EmptyString => None
       | String a s => match until close s with Some (x, rest) => Some (String a x, rest) | None => None end
       end.

Definition template_field (bc : BootstrapConfig) (action : string) : option string :=
  if String.eqb action ".Address" then Some (bc_Address bc)
  else if String.eqb action ".PortValue" then Some (bc_PortValue bc)
  else None.

Fixpoint execute (fuel : nat) (bc : BootstrapConfig) (t : string) : option string :=
  match until "{{" t with
  | None => Some t
  | Some (text, rest) =>
      match fuel with
      | O => None
      | S fuel =>
          match until "}}" rest with
          | None => None
          | Some (action, rest) =>
              match template_field bc action, execute fuel bc rest with
              | Some value, Some out => Some (text +:+ value +:+ out)
              | _, _ => None
              end
          end
      end
  end.

(** Neither the parse nor the execution of this template fails, see [bootstrap_text]; the
    process would exit. *)
Definition GetBootstrapConfig (address portValue : string) : outcome string :=
  match execute (String.length bootstrapConfig)
          {| bc_Address := address; bc_PortValue := portValue |} bootstrapConfig with
  | Some out => Ret out
  | None => Panic "exit"
  end.

Inductive NamespaceLookup :=
| NamespaceFound (name : string) (labels : gmap string string)
| NamespaceNotFound
| NamespaceError (e : error).

Inductive CreateError :=
| AlreadyExists
| CreateFailed (e : error).

Record ConfigMap := { cm_Name : string; cm_Namespace : string; cm_Data : gmap string string }.

Class CoreClient (Server : Type) := {
  get_Namespace : Server -> string -> NamespaceLookup;
  create_ConfigMap : Server -> ConfigMap -> string -> option CreateError * Server }.

Definition shouldHandle (labels : gmap string string) : bool :=
  String.eqb (lookup_str labels "istio-injection") "enabled" || negb (String.eqb (lookup_str labels "istio.io/rev") "").

Section namespaces.
Context {Server : Type} `{CoreClient Server}.

(** Errors are only logged. *)
Definition createBootstrapConfigMap (c : namespaceController) (ns : string) (s : Server) : outcome Server :=
  text ← GetBootstrapConfig (AerakiAddr c) (AerakiPort c);
  Ret (snd (create_ConfigMap s
    {| cm_Name := "aeraki-bootstrap-config"; cm_Namespace := ns; cm_Data := {["custom_bootstrap.json" := text]} |}
    "Aeraki")).

Definition reconcile_namespace (c : namespaceController) (request : string) (s : Server)
    : outcome ((Result * option error) * Server) :=
  match get_Namespace s request with
  | NamespaceNotFound => Ret (({| Requeue := false |}, None), s)
  | NamespaceError e => Ret (({| Requeue := false |}, Some ("could not fetch Namespace: " +:+ e)), s)
  | NamespaceFound name labels =>
      s ← (if shouldHandle labels then createBootstrapConfigMap c name s else Ret s);
      Ret (({| Requeue := false |}, None), s)
  end.
End namespaces.

(** ** Which changes count *)
(** Every event but an update that keeps the generation of the object and the pointer to
    its deletion timestamp, or is about objects of different kinds.  The pointers of two
    objects that are not being deleted are both nil; those of two versions of an object that
    is being deleted differ. *)
Definition relevant (e : WatchEvent) : Prop :=
  match e with
  | UpdateEvent old new =>
      wo_Kind old = wo_Kind new /\
      (wo_Generation old <> wo_Generation new \/ wo_DeletionTimestamp old <> wo_DeletionTimestamp new)
  | _ => True
  end.

Global Instance relevant_dec e : Decision (relevant e).
Proof. destruct e; apply _. Defined.

Definition scalable_kind (k : Kind) : bool :=
  match k with KServiceEntry | KNamespace => false | _ => true end.

(** The sends of a reconcile of the kind that succeeds. *)
Definition sends_of (k : Kind) : list Channel :=
  match k with
  | KMetaRouter => [PushChannel; RouteChannel]
  | KServiceEntry | KNamespace => []
  | _ => [PushChannel]
  end.

Definition reconciler_of (Get : ObjectKey -> res ApplicationProtocol) (k : Kind) : Reconciler :=
  match k with
  | KMetaRouter => MetaRouterController.Reconcile (Some metaRouterChanged)
  | KApplicationProtocol => MetaProtocolController.Reconcile Get (Some updateEnvoyFilter)
  | KDubboAuthorizationPolicy => DubboController.Reconcile (Some updateEnvoyFilter)
  | _ => RedisController.Reconcile (Some updateEnvoyFilter)
  end.

Section dispatch.
Context `{ControllerRuntimeLaws}.

Lemma add_controller_ok {R} name k p (r : R) mgr mgr' :
  add_controller name k p r mgr = (None, mgr') ->
  mgr' = mgr ++ [{| reg_Name := name; reg_Kind := k; reg_Predicates := p; reg_Reconciler := r |}].
Proof.
  unfold add_controller. destruct (controller_New name); [done|].
  destruct (controller_Watch name k); [done|]. by intros [= <-].
Qed.

Lemma createScalableControllers_ok ns Get mgr :
  createScalableControllers ns Get = Ok mgr ->
  (fun r => (reg_Kind r, reg_Predicates r, reg_Reconciler r)) <$> mgr =
    (fun '(k, p) => (k, p, reconciler_of Get k)) <$>
      [(KRedisService, redisPredicates); (KRedisDestination, redisPredicates);
       (KDubboAuthorizationPolicy, dubboPredicates); (KApplicationProtocol, metaProtocolPredicates);
       (KMetaRouter, metaRouterlPredicates)].
Proof.
  unfold createScalableControllers, NewManager. destruct (manager_New _); [done|]. cbn [add_all].
  destruct (AddRedisServiceController _ _) as [[|] m1] eqn:H1; [done|]. apply add_controller_ok in H1 as ->.
  destruct (AddRedisDestinationController _ _) as [[|] m2] eqn:H2; [done|]. apply add_controller_ok in H2 as ->.
  destruct (AddDubboAuthorizationPolicyController _ _) as [[|] m3] eqn:H3; [done|]. apply add_controller_ok in H3 as ->.
  destruct (AddApplicationProtocolController _ _ _) as [[|] m4] eqn:H4; [done|]. apply add_controller_ok in H4 as ->.
  destruct (AddMetaRouterController _ _) as [[|] m5] eqn:H5; [done|]. apply add_controller_ok in H5 as ->.
  destruct AddToScheme; [done|]. by intros [= <-].
Qed.

Lemma createScalableControllers_kinds ns Get mgr :
  createScalableControllers ns Get = Ok mgr ->
  reg_Kind <$> mgr = [KRedisService; KRedisDestination; KDubboAuthorizationPolicy; KApplicationProtocol; KMetaRouter].
Proof.
  intros Hmgr. apply createScalableControllers_ok in Hmgr.
  apply (f_equal (fmap (fun x => x.1.1))) in Hmgr. by rewrite <- list_fmap_compose in Hmgr.
Qed.

Lemma createSingletonControllers_kinds ns addr port mgr :
  createSingletonControllers ns addr port = Ret (Ok mgr) -> reg_Kind <$> mgr = [KServiceEntry; KNamespace].
Proof.
  unfold createSingletonControllers, NewManager. destruct (manager_New _); [done|].
  destruct (AddServiceEntryController []) as [[|] m1] eqn:Ha; [done|]. apply add_controller_ok in Ha as ->.
  destruct (AddNamespaceController _ _ _) as [[|] m2] eqn:Hb; [done|]. apply add_controller_ok in Hb as ->.
  destruct AddToScheme; [done|]. by intros [= <-].
Qed.

Definition kind_predicates (k : Kind) : Funcs :=
  match k with
  | KMetaRouter => metaRouterlPredicates
  | KApplicationProtocol => metaProtocolPredicates
  | KDubboAuthorizationPolicy => dubboPredicates
  | KServiceEntry => serviceEntryPredicates
  | KNamespace => namespacePredicates
  | _ => redisPredicates
  end.

Lemma object_changed_spec old new :
  object_changed old new =
  bool_decide (wo_Generation old <> wo_Generation new \/ wo_DeletionTimestamp old <> wo_DeletionTimestamp new).
Proof.
  unfold object_changed. destruct (Z.eqb_spec (wo_Generation old) (wo_Generation new)) as [->|Hg];
    repeat case_bool_decide; cbn; naive_solver.
Qed.

Lemma passes_relevant e :
  event_kind e <> KNamespace -> passes (kind_predicates (event_kind e)) e = bool_decide (relevant e).
Proof.
  intros Hns. destruct e as [o|old new|o|o];
    rewrite ?passes_create, ?passes_delete, ?passes_generic, ?passes_update; simpl in *.
  1,3,4: by destruct (wo_Kind o).
  destruct (wo_Kind new) eqn:Hn; simpl; unfold updates_of; rewrite ?Hn; try done;
    destruct (wo_Kind old) eqn:Ho; rewrite ?object_changed_spec; cbn [bool_decide];
    symmetry; (apply bool_decide_ext || apply bool_decide_false); naive_solver.
Qed.

Lemma started_spec ns Get mgr e :
  createScalableControllers ns Get = Ok mgr -> scalable_kind (event_kind e) = true ->
  started mgr e = if decide (relevant e) then [reconciler_of Get (event_kind e)] else [].
Proof.
  intros Hmgr Hk. apply createScalableControllers_ok in Hmgr. unfold started.
  assert (Hp : passes (kind_predicates (event_kind e)) e = bool_decide (relevant e))
    by (apply passes_relevant; by destruct (event_kind e)).
  destruct mgr as [|r1 [|r2 [|r3 [|r4 [|r5 [|]]]]]]; try discriminate Hmgr.
  destruct r1, r2, r3, r4, r5. cbn in Hmgr. injection Hmgr as -> -> -> -> -> -> -> -> -> -> -> -> -> -> ->.
  destruct (event_kind e); try discriminate Hk; cbn; cbn in Hp; rewrite Hp; rewrite decide_bool_decide; by destruct (bool_decide (relevant e)).
Qed.

(** C21: What a change does once the controllers are registered. A create, a delete and an
    update that the watch lets through start one reconcile: for MetaRouters it
    notifies the EnvoyFilter loop and then the route loop, for Redis resources and Dubbo
    policies the EnvoyFilter loop only, for an application protocol that can be read the
    codec is registered first. An update starts nothing exactly when it keeps the generation
    and the pointer to the deletion timestamp, such as an update of the status alone of an
    object that is not being deleted. *)
Theorem change_dispatch ns Get mgr e request codecs :
  createScalableControllers ns Get = Ok mgr -> scalable_kind (event_kind e) = true ->
  (~ relevant e -> started mgr e = []) /\
  (relevant e -> exists r, started mgr e = [r] /\
     r request {| eff_codecs := codecs; eff_sends := [] |} =
       match event_kind e, Get request with
       | KApplicationProtocol, Err err =>
           (({| Requeue := true |}, Some err), {| eff_codecs := codecs; eff_sends := [] |})
       | KApplicationProtocol, Ok p =>
           (({| Requeue := false |}, None),
            {| eff_codecs := <[ap_Protocol p := ap_Codec p]> codecs; eff_sends := [PushChannel] |})
       | k, _ => (({| Requeue := false |}, None), {| eff_codecs := codecs; eff_sends := sends_of k |})
       end).
Proof.
  intros Hmgr Hk. rewrite (started_spec ns Get mgr e Hmgr Hk). split; [by intros ?; rewrite decide_False|].
  intros ?. rewrite decide_True by done. eexists. split; [done|]. by destruct (event_kind e).
Qed.
End dispatch.

(** ** Changes and the event loops

    A started reconcile is a worker with the sends it has left; workers, the two loops and
    further changes interleave. [owed] is ghost state: a change that concerns the loop was
    accepted since the last successful run of the loop. *)
Record system := {
  sys_loop : Channel -> loop_state;
  sys_workers : list (list Channel);
  sys_codecs : gmap string string;
  sys_owed : Channel -> bool }.

Global Instance Channel_eq_dec : EqDecision Channel.
Proof. solve_decision. Defined.

Global Instance label_eq_dec : EqDecision label.
Proof. solve_decision. Defined.

Definition upd {A} (c : Channel) (a : A) (f : Channel -> A) : Channel -> A :=
  fun c' => if decide (c' = c) then a else f c'.

Section system_steps.
Context `{ControllerRuntimeLaws}.

Inductive system_step : bool -> system -> system -> Prop :=
| change_step s ns Get mgr e r request res eff :
    createScalableControllers ns Get = Ok mgr -> r ∈ started mgr e ->
    r request {| eff_codecs := sys_codecs s; eff_sends := [] |} = (res, eff) ->
    system_step false s
      {| sys_loop := sys_loop s; sys_workers := sys_workers s ++ [eff_sends eff]; sys_codecs := eff_codecs eff;
         sys_owed := fun c => bool_decide (c ∈ eff_sends eff) || sys_owed s c |}
| worker_step s before c rest after :
    sys_workers s = before ++ (c :: rest) :: after -> pending (sys_loop s c) < channelCapacity ->
    system_step true s
      {| sys_loop := upd c (send (sys_loop s c)) (sys_loop s); sys_workers := before ++ rest :: after;
         sys_codecs := sys_codecs s; sys_owed := sys_owed s |}
| loop_step s c l t :
    step (sys_loop s c) l t ->
    system_step (match l with ReceiveEvent | Fire _ => true | _ => false end) s
      {| sys_loop := upd c t (sys_loop s); sys_workers := sys_workers s; sys_codecs := sys_codecs s;
         sys_owed := match l with Fire false => upd c false (sys_owed s) | _ => sys_owed s end |}.

Definition system_initial : system :=
  {| sys_loop := fun _ => initial; sys_workers := []; sys_codecs := applicationProtocols_init;
     sys_owed := fun _ => false |}.

Definition system_reachable (s : system) : Prop :=
  rtc (fun s s' => exists own, system_step own s s') system_initial s.

(** [n] steps of the program itself: workers, receives and callbacks. *)
Definition system_run : nat -> system -> system -> Prop := nsteps (system_step true).

Definition system_inv (s : system) : Prop :=
  forall c, loop_inv (sys_loop s c) /\
    (sys_owed s c = true -> (exists w, w ∈ sys_workers s /\ c ∈ w) \/ stale (sys_loop s c) = true).

Lemma step_stale t l t' : step t l t' -> stale t = true -> l <> Fire false -> stale t' = true.
Proof.
  intros Hstep Hs Hl. destruct Hstep as [t|t|t failed Hb Hc|t|t]; try done.
  unfold fire. destruct (callback failed (retries t)). by destruct failed.
Qed.

Lemma system_step_inv b s s' : system_inv s -> system_step b s s' -> system_inv s'.
Proof.
  intros Hinv Hstep c. destruct (Hinv c) as [Hl Ho].
  destruct Hstep as [s ns Get mgr e r request res eff Hmgr Hr Heff|s before c0 rest after Hw Hcap|s c0 l t Ht]; simpl.
  - split; [done|]. intros Howed. case_bool_decide as Hc.
    + left. exists (eff_sends eff). split; [|done]. apply elem_of_app. right. by apply list_elem_of_singleton.
    + destruct (Ho Howed) as [(w & Hw & Hcw)|]; [|by right]. left. exists w. split; [|done]. apply elem_of_app. by left.
  - unfold upd. case_decide as Hc; [subst c0|].
    + split; [|by right]. eapply step_inv; [done|]. by apply step_send.
    + split; [done|]. intros Howed. destruct (Ho Howed) as [(w & Hin & Hcw)|]; [|by right].
      left. rewrite Hw in Hin. apply elem_of_app in Hin as [Hin|Hin].
      * exists w. split; [|done]. apply elem_of_app. by left.
      * apply elem_of_cons in Hin as [->|Hin].
        -- apply elem_of_cons in Hcw as [->|Hcw]; [done|]. exists rest. split; [|done].
           apply elem_of_app. right. apply elem_of_cons. by left.
        -- exists w. split; [|done]. apply elem_of_app. right. apply elem_of_cons. by right.
  - unfold upd at 1 3. case_decide as Hc; [subst c0|].
    + split; [by eapply step_inv|]. intros Howed. destruct (decide (l = Fire false)) as [->|Hne].
      * unfold upd in Howed. by rewrite decide_True in Howed.
      * assert (sys_owed s c = true) as Hold by (destruct l as [| |[|]| |]; done).
        destruct (Ho Hold) as [?|?]; [by left|]. right. by eapply step_stale.
    + split; [done|]. intros Howed. apply Ho. destruct l as [| |[|]| |]; try done.
      unfold upd in Howed. by rewrite decide_False in Howed.
Qed.

Lemma system_reachable_inv s : system_reachable s -> system_inv s.
Proof.
  apply rtc_invariant.
  - intros a b Ha [own Hstep]. by eapply system_step_inv.
  - intros c. split; [|done]. apply reachable_inv. constructor.
Qed.

(** Work left: the potential of the loops, and nine for every send to come. *)
Definition sends_left (s : system) : Z := Z.of_nat (length (concat (sys_workers s))).
Definition system_potential (s : system) : Z :=
  potential (sys_loop s PushChannel) + potential (sys_loop s RouteChannel) + 9 * sends_left s.

Lemma potential_upd s c t d :
  potential t = potential (sys_loop s c) + d ->
  potential (upd c t (sys_loop s) PushChannel) + potential (upd c t (sys_loop s) RouteChannel) =
  potential (sys_loop s PushChannel) + potential (sys_loop s RouteChannel) + d.
Proof. intros Ht. unfold upd. destruct c; simpl; lia. Qed.

Lemma system_potential_decreases s s' :
  system_inv s -> system_step true s s' -> system_potential s' < system_potential s.
Proof.
  intros Hinv Hstep. remember true as b eqn:Hb.
  destruct Hstep as [|s before c rest after Hw Hcap|s c l t Ht]; [done|..]; unfold system_potential, sends_left; simpl.
  - rewrite (potential_upd s c _ 8) by apply potential_send. rewrite Hw, !concat_app, !length_app. simpl.
    rewrite !length_app. lia.
  - rewrite (potential_upd s c t (potential t - potential (sys_loop s c))) by lia.
    assert (internal l) as Hl by (by destruct l).
    pose proof (potential_decreases _ _ _ (proj1 (Hinv c)) Hl Ht). lia.
Qed.

Lemma system_run_bound n s s' :
  system_inv s -> system_run n s s' ->
  system_inv s' /\ Z.of_nat n + system_potential s' <= system_potential s.
Proof.
  apply nsteps_measure. intros a b Ha Hstep. split; [by eapply system_step_inv|].
  by apply system_potential_decreases.
Qed.

Lemma system_rest s :
  system_inv s -> (forall s', ~ system_step true s s') ->
  (forall c, pending (sys_loop s c) = 0 /\ bounced (sys_loop s c) = false) /\
  (forall w, w ∈ sys_workers s -> w = []).
Proof.
  intros Hinv Hrest.
  assert (Hq : forall c, pending (sys_loop s c) = 0 /\ bounced (sys_loop s c) = false).
  { intros c. destruct (Hinv c) as [(_ & Hp & _) _]. split.
    - destruct (decide (0 < pending (sys_loop s c))) as [Hpos|]; [|lia].
      exfalso. eapply Hrest, (loop_step s c ReceiveEvent), step_receive, Hpos.
    - destruct (bounced (sys_loop s c)) eqn:Hb; [|done].
      exfalso. eapply Hrest, (loop_step s c (Fire false)), step_fire; [done|done]. }
  split; [done|]. intros [|c w] Hw; [done|]. apply list_elem_of_split in Hw as (before & after & Hw).
  exfalso. eapply Hrest, (worker_step s before c w after Hw). destruct (Hq c) as [-> _]. done.
Qed.

End system_steps.

(** ** Application protocols are never forgotten *)
Section deletion.
Context `{ControllerRuntimeLaws}.

(** C39: The deletion of an application protocol starts a reconcile that reads the deleted
    object, fails and asks to be queued again, as often as it is run; the codec stays
    registered and no push is triggered. *)
Theorem deleted_protocol_kept ns Get mgr o request e err n :
  createScalableControllers ns Get = Ok mgr -> wo_Kind o = KApplicationProtocol -> Get request = Err err ->
  exists r, started mgr (DeleteEvent o) = [r] /\
    let e' := Nat.iter n (fun e => snd (r request e)) e in
    fst (r request e') = ({| Requeue := true |}, Some err) /\
    (forall protocol, GetApplicationProtocolCodec (eff_codecs e') protocol =
                      GetApplicationProtocolCodec (eff_codecs e) protocol) /\
    eff_sends e' = eff_sends e.
Proof.
  intros Hmgr Hk Hget. exists (reconciler_of Get KApplicationProtocol). split.
  - rewrite (started_spec ns Get mgr _ Hmgr); simpl; by rewrite Hk.
  - assert (Hr : forall e, reconciler_of Get KApplicationProtocol request e = (({| Requeue := true |}, Some err), e))
      by (intros e0; simpl; unfold MetaProtocolController.Reconcile; by rewrite Hget).
    assert (Nat.iter n (fun e => snd (reconciler_of Get KApplicationProtocol request e)) e = e) as ->
      by (induction n as [|n IH]; [done|]; rewrite Nat.iter_succ, IH; by rewrite Hr).
    cbv zeta. by rewrite Hr.
Qed.
End deletion.

(** ** Bootstrap configuration of the sidecars *)
(** The text before the address, between address and port, and after the port. *)
Definition bootstrap_head : string :=
  match until "{{" bootstrapConfig with Some (x, _) => x | None => "" end.
Definition bootstrap_rest : string := drop_str (String.length bootstrap_head + String.length "{{.Address}}") bootstrapConfig.
Definition bootstrap_middle : string :=
  match until "{{" bootstrap_rest with Some (x, _) => x | None => "" end.
Definition bootstrap_tail : string :=
  drop_str (String.length bootstrap_middle + String.length "{{.PortValue}}") bootstrap_rest.

Lemma bootstrap_execute fuel address portValue :
  execute (S (S fuel)) {| bc_Address := address; bc_PortValue := portValue |} bootstrapConfig =
  Some (bootstrap_head +:+ address +:+ bootstrap_middle +:+ portValue +:+ bootstrap_tail).
Proof.
  assert (H1 : until "{{" bootstrapConfig = Some (bootstrap_head, ".Address}}" +:+ bootstrap_rest)) by (by vm_compute).
  assert (H2 : until "}}" (".Address}}" +:+ bootstrap_rest) = Some (".Address", bootstrap_rest)) by (by vm_compute).
  assert (H3 : until "{{" bootstrap_rest = Some (bootstrap_middle, ".PortValue}}" +:+ bootstrap_tail)) by (by vm_compute).
  assert (H4 : until "}}" (".PortValue}}" +:+ bootstrap_tail) = Some (".PortValue", bootstrap_tail)) by (by vm_compute).
  assert (H5 : until "{{" bootstrap_tail = None) by (by vm_compute).
  assert (H6 : execute fuel {| bc_Address := address; bc_PortValue := portValue |} bootstrap_tail = Some bootstrap_tail)
    by (destruct fuel; cbn [execute]; by rewrite H5).
  cbn [execute]. by rewrite H1, H2, H3, H4, H6.
Qed.

(** The bootstrap text has the address as a string and the port directly after the quoted
    key: the separating colon has to be part of the configured port (it is in the default). *)
Theorem bootstrap_text address portValue :
  GetBootstrapConfig address portValue =
    Ret (bootstrap_head +:+ address +:+ bootstrap_middle +:+ portValue +:+ bootstrap_tail) /\
  HasSuffix bootstrap_head (quoted "address" +:+ ":" +:+ String "034" "") = true /\
  HasSuffix bootstrap_middle (quoted "port_value") = true.
Proof.
  split_and!; [|by vm_compute..]. unfold GetBootstrapConfig.
  assert (exists fuel, String.length bootstrapConfig = S (S fuel)) as [fuel ->]
    by (eexists (String.length bootstrapConfig - 2)%nat; by vm_compute).
  by rewrite bootstrap_execute.
Qed.

(** A server that answers: a config map is created unless one of that name exists. *)
Class CoreClientLaws (Server : Type) `{CoreClient Server} := {
  get_ConfigMap : Server -> string * string -> option ConfigMap;
  create_free : forall s cm m, get_ConfigMap s (cm_Namespace cm, cm_Name cm) = None ->
    exists s', create_ConfigMap s cm m = (None, s') /\
      forall k, get_ConfigMap s' k = if decide (k = (cm_Namespace cm, cm_Name cm)) then Some cm else get_ConfigMap s k;
  create_taken : forall s cm m old, get_ConfigMap s (cm_Namespace cm, cm_Name cm) = Some old ->
    create_ConfigMap s cm m = (Some AlreadyExists, s) }.

Section namespaces_correct.
Context {Server : Type} `{CoreClientLaws Server}.

(** A namespace with sidecar injection has a bootstrap config map after its reconcile,
    made from the configured address and port when there was none; one that is there stays
    as it is, also when it was made for another address. Nothing else changes, and other
    namespaces are left alone. *)
Theorem namespace_bootstrap c request (s : Server) name labels :
  get_Namespace s request = NamespaceFound name labels ->
  exists s', reconcile_namespace c request s = Ret (({| Requeue := false |}, None), s') /\
    (shouldHandle labels = false -> s' = s) /\
    (shouldHandle labels = true ->
       exists text, GetBootstrapConfig (AerakiAddr c) (AerakiPort c) = Ret text /\
         get_ConfigMap s' (name, "aeraki-bootstrap-config") =
           Some (default {| cm_Name := "aeraki-bootstrap-config"; cm_Namespace := name;
                            cm_Data := {["custom_bootstrap.json" := text]} |}
                   (get_ConfigMap s (name, "aeraki-bootstrap-config"))) /\
         forall k, k <> (name, "aeraki-bootstrap-config") -> get_ConfigMap s' k = get_ConfigMap s k).
Proof.
  intros Hns. unfold reconcile_namespace. rewrite Hns.
  destruct (shouldHandle labels); [|by exists s].
  destruct (bootstrap_text (AerakiAddr c) (AerakiPort c)) as (Htext & _).
  unfold createBootstrapConfigMap. rewrite Htext. cbn [mbind outcome_bind].
  set (text := bootstrap_head +:+ _). set (cm := {| cm_Name := _ |}).
  destruct (get_ConfigMap s (name, "aeraki-bootstrap-config")) as [old|] eqn:Hold.
  - rewrite (create_taken s cm "Aeraki" old Hold). exists s. split; [done|]. split; [done|]. intros _. by exists text.
  - destruct (create_free s cm "Aeraki" Hold) as (s' & -> & Hs'). exists s'. split; [done|]. split; [done|].
    intros _. exists text. split; [done|]. split.
    + by rewrite Hs', decide_True.
    + intros k Hk. by rewrite Hs', decide_False.
Qed.
End namespaces_correct.

(** ** Witnesses *)
Definition demo_runtime : ControllerRuntime :=
  {| manager_New := fun _ => None; controller_New := fun _ => None; controller_Watch := fun _ _ => None; AddToScheme := None;
     passes := fun p e =>
       match e with
       | CreateEvent o => match CreateFunc p with Some f => f o | None => true end
       | UpdateEvent o o' => match UpdateFunc p with Some f => f o o' | None => true end
       | DeleteEvent o => match DeleteFunc p with Some f => f o | None => true end
       | GenericEvent o => match GenericFunc p with Some f => f o | None => true end
       end |}.
Lemma demo_runtime_laws : @ControllerRuntimeLaws demo_runtime.
Proof. by split. Qed.

Definition demo_core : CoreClient (gmap (string * string) ConfigMap) :=
  {| get_Namespace := fun _ n => NamespaceFound n {["istio-injection" := "enabled"]};
     create_ConfigMap := fun s cm _ =>
       match s !! (cm_Namespace cm, cm_Name cm) with
       | Some _ => (Some AlreadyExists, s)
       | None => (None, <[(cm_Namespace cm, cm_Name cm) := cm]> s)
       end |}.
Definition demo_core_laws : @CoreClientLaws _ demo_core.
Proof.
  refine (@Build_CoreClientLaws _ demo_core (fun s k => s !! k) _ _).
  - intros s cm m Hn. simpl. rewrite Hn. eexists. split; [done|]. intros k. case_decide as Hk.
    + subst k. by rewrite lookup_insert_eq.
    + by rewrite lookup_insert_ne.
  - intros s cm m old Ho. simpl. by rewrite Ho.
Defined.

Section demo.
#[local] Existing Instance demo_runtime.
#[local] Existing Instance demo_runtime_laws.
#[local] Existing Instance demo_core.
#[local] Existing Instance demo_core_laws.

Definition demo_Get (k : ObjectKey) : res ApplicationProtocol :=
  if String.eqb (snd k) "gone" then Err "not found"
  else Ok {| ap_Protocol := snd k; ap_Codec := "codec." +:+ snd k |}.
Definition demo_object (k : Kind) (g : Z) (t : option positive) : WatchObject :=
  {| wo_Kind := k; wo_Generation := g; wo_DeletionTimestamp := t |}.
Definition demo_mgr : Manager :=
  match createScalableControllers "istio-system" demo_Get with Ok mgr => mgr | Err _ => [] end.

Lemma demo_mgr_created : createScalableControllers "istio-system" demo_Get = Ok demo_mgr.
Proof. reflexivity. Defined.

Example five_controllers :
  reg_Kind <$> demo_mgr = [KRedisService; KRedisDestination; KDubboAuthorizationPolicy; KApplicationProtocol; KMetaRouter].
Proof. reflexivity. Qed.

(** While an object is being deleted every update counts: the timestamps are compared by
    address. *)
Example timestamps_by_address :
  object_changed (demo_object KMetaRouter 1 (Some 1%positive)) (demo_object KMetaRouter 1 (Some 2%positive)) = true /\
  object_changed (demo_object KMetaRouter 1 None) (demo_object KMetaRouter 1 None) = false.
Proof. by vm_compute. Qed.

Lemma change_dispatch_witness :
  exists r, started demo_mgr (UpdateEvent (demo_object KMetaRouter 1 None) (demo_object KMetaRouter 2 None)) = [r] /\
    eff_sends (snd (r ("ns", "r") {| eff_codecs := ∅; eff_sends := [] |})) = [PushChannel; RouteChannel].
Proof.
  destruct (change_dispatch "istio-system" demo_Get demo_mgr
    (UpdateEvent (demo_object KMetaRouter 1 None) (demo_object KMetaRouter 2 None)) ("ns", "r") ∅ demo_mgr_created eq_refl)
    as [_ Hr].
  destruct Hr as (r & Hs & He); [cbn; by split; [|left]|]. exists r. split; [exact Hs|]. rewrite He. reflexivity.
Defined.

Lemma deleted_protocol_kept_witness :
  exists r, started demo_mgr (DeleteEvent (demo_object KApplicationProtocol 1 None)) = [r] /\
    fst (r ("ns", "gone") {| eff_codecs := <["gone" := "codec.gone"]> ∅; eff_sends := [] |}) =
      ({| Requeue := true |}, Some "not found").
Proof.
  destruct (deleted_protocol_kept "istio-system" demo_Get demo_mgr (demo_object KApplicationProtocol 1 None) ("ns", "gone")
    {| eff_codecs := <["gone" := "codec.gone"]> ∅; eff_sends := [] |} "not found" 0 demo_mgr_created eq_refl eq_refl)
    as (r & Hs & Hf & _).
  exists r. split; [exact Hs|exact Hf].
Defined.

(** The state after a MetaRouter was created and its first event sent. *)
Definition demo_changed : system :=
  {| sys_loop := fun _ => initial; sys_workers := [[PushChannel; RouteChannel]]; sys_codecs := applicationProtocols_init;
     sys_owed := fun c => bool_decide (c ∈ [PushChannel; RouteChannel]) || false |}.
Definition demo_sent : system :=
  {| sys_loop := upd PushChannel (send initial) (fun _ => initial); sys_workers := [[RouteChannel]];
     sys_codecs := applicationProtocols_init; sys_owed := sys_owed demo_changed |}.

Lemma demo_changed_reachable : system_reachable demo_changed.
Proof.
  apply rtc_once. exists false.
  apply (change_step system_initial "istio-system" demo_Get demo_mgr (CreateEvent (demo_object KMetaRouter 1 None))
    (reconciler_of demo_Get KMetaRouter) ("ns", "r") ({| Requeue := false |}, None)
    {| eff_codecs := applicationProtocols_init; eff_sends := [PushChannel; RouteChannel] |});
    [exact demo_mgr_created|by apply list_elem_of_singleton|reflexivity].
Defined.


Definition empty_store : gmap (string * string) ConfigMap := ∅.

Lemma namespace_bootstrap_witness :
  exists s', reconcile_namespace {| AerakiAddr := "aeraki.istio-system"; AerakiPort := ":15010" |} "shop" empty_store =
      Ret (({| Requeue := false |}, None), s') /\
    (exists cm, get_ConfigMap s' ("shop", "aeraki-bootstrap-config") = Some cm /\ cm_Namespace cm = "shop").
Proof.
  assert (Hn : get_Namespace empty_store "shop" = NamespaceFound "shop" {["istio-injection" := "enabled"]})
    by reflexivity.
  destruct (namespace_bootstrap {| AerakiAddr := "aeraki.istio-system"; AerakiPort := ":15010" |} "shop" empty_store "shop"
    {["istio-injection" := "enabled"]} Hn) as (s' & Hs & _ & Hh).
  exists s'. split; [exact Hs|]. destruct (Hh eq_refl) as (text & _ & Hget & _).
  rewrite Hget. eexists. split; [reflexivity|]. reflexivity.
Defined.
End demo.
