(* ===== verification/Bootstrap.v ===== *)
(** * Start-up, leader election and shutdown

    [src/internal/leaderelection/leaderelection.go], the decisions of
    [src/internal/bootstrap/server.go] (which API server to use, the order of
    initialisation, what [Start] starts, readiness), [bootstrap/webhook.go],
    [bootstrap/aeraki_ca.go] and [bootstrap/validation.go], and [initArgsWithEnv] and the
    shutdown of [src/cmd/aeraki/main.go].

    Leader election is a step relation over the replicas of a deployment: of the election
    library it has the callback when the lock is acquired and the return of [Run] when the
    lock is lost or its context is cancelled, but not that there is one leader at a time:
    replicas win and lose independently of each other. *)

From S2P Require Import Prelude Api Validation VipAllocator ConfigController Webhook Certificates KubeControllers.

(** ** Arguments *)
Record AerakiArgs := {
  Master : bool; IstiodAddr : string; AerakiXdsAddr : string; AerakiXdsPort : string; PodName : string;
  IstioConfigMapName : string; HTTPSAddr : string; HTTPAddr : string; RootNamespace : string; ClusterID : string;
  ConfigStoreSecret : string; ElectionID : string; ServerID : string; LogLevel : string;
  KubeDomainSuffix : string; EnableEnvoyFilterNSScope : bool }.

Definition override (env : string) (flag : string) : string := if String.eqb env "" then flag else env.

Definition initArgsWithEnv (Getenv : string -> string) (args : AerakiArgs) : AerakiArgs :=
  {| Master := Master args;
     AerakiXdsAddr := override (Getenv "AERAKI_XDS_ADDR") (AerakiXdsAddr args);
     AerakiXdsPort := override (Getenv "AERAKI_XDS_PORT") (AerakiXdsPort args);
     IstiodAddr := override (Getenv "AERAKI_ISTIOD_ADDR") (IstiodAddr args);
     RootNamespace := override (Getenv "AERAKI_NAMESPACE") (RootNamespace args);
     ClusterID := override (Getenv "AERAKI_CLUSTER_ID") (ClusterID args);
     ConfigStoreSecret := override (Getenv "AERAKI_ISTIO_CONFIG_STORE_SECRET") (ConfigStoreSecret args);
     LogLevel := override (Getenv "AERAKI_LOG_LEVEL") (LogLevel args);
     PodName := override (Getenv "POD_NAME") (ServerID args);
     IstioConfigMapName := IstioConfigMapName args; HTTPSAddr := HTTPSAddr args; HTTPAddr := HTTPAddr args;
     ElectionID := ElectionID args; ServerID := ServerID args; KubeDomainSuffix := KubeDomainSuffix args;
     EnableEnvoyFilterNSScope := EnableEnvoyFilterNSScope args |}.

(** The values of the command-line flags that are not given. *)
Definition default_args : AerakiArgs :=
  {| Master := true; EnableEnvoyFilterNSScope := false; AerakiXdsAddr := "aeraki.istio-system";
     AerakiXdsPort := ":15010"; IstiodAddr := "istiod.istio-system:15010"; IstioConfigMapName := "istio";
     RootNamespace := "istio-system"; ClusterID := ""; ConfigStoreSecret := ""; ElectionID := "aeraki-controller";
     ServerID := ""; LogLevel := "all:info"; KubeDomainSuffix := "cluster.local"; HTTPSAddr := ":15017";
     HTTPAddr := ":8080"; PodName := "" |}.

(** The main function fills in a server identifier before. *)
Definition server_args (uuid : string) (Getenv : string -> string) (args : AerakiArgs) : AerakiArgs :=
  initArgsWithEnv Getenv
    {| Master := Master args; IstiodAddr := IstiodAddr args; AerakiXdsAddr := AerakiXdsAddr args;
       AerakiXdsPort := AerakiXdsPort args; PodName := PodName args; IstioConfigMapName := IstioConfigMapName args;
       HTTPSAddr := HTTPSAddr args; HTTPAddr := HTTPAddr args; RootNamespace := RootNamespace args;
       ClusterID := ClusterID args; ConfigStoreSecret := ConfigStoreSecret args; ElectionID := ElectionID args;
       ServerID := if String.eqb (ServerID args) "" then "Aeraki-" +:+ uuid else ServerID args;
       LogLevel := LogLevel args; KubeDomainSuffix := KubeDomainSuffix args;
       EnableEnvoyFilterNSScope := EnableEnvoyFilterNSScope args |}.

Inductive Level := DebugLevel | InfoLevel | WarnLevel | ErrorLevel | FatalLevel | NoneLevel.

Definition stringToLevel : gmap string Level :=
  {["debug" := DebugLevel; "info" := InfoLevel; "warn" := WarnLevel; "error" := ErrorLevel;
    "fatal" := FatalLevel; "none" := NoneLevel]}.

(** The zero value of the level type is the one without output. *)
Definition setLogLevels (level : string) (opts : gmap string Level) : gmap string Level :=
  foldl (fun opts l => match Split l ":" with
                       | [scope; lv] => <[scope := default NoneLevel (stringToLevel !! lv)]> opts
                       | _ => opts
                       end) opts (Split level ",").

(** ** The API server of the configuration *)
Class KubeEnv := {
  RestConfig : Type;
  GetConfig : res RestConfig;
  NewForConfig : RestConfig -> option error;
  get_Secret : RestConfig -> string -> string -> res (gmap string string);
  RawConfig : Type;
  clientcmd_Load : string -> res RawConfig;
  clientcmd_Validate : RawConfig -> option error;
  ClientConfig : RawConfig -> res RestConfig }.

Section kube.
Context `{KubeEnv}.

Definition getRestConfig (kubeConfig : string) : res RestConfig :=
  if String.eqb kubeConfig "" then Err "kubeconfig is empty"
  else match clientcmd_Load kubeConfig with
       | Err err => Err ("kubeconfig cannot be loaded: " +:+ err)
       | Ok rawConfig =>
           match clientcmd_Validate rawConfig with
           | Some err => Err ("kubeconfig is not valid: " +:+ err)
           | None => match ClientConfig rawConfig with
                     | Err err => Err ("failed to create kube clients: " +:+ err)
                     | Ok restConfig => Ok restConfig
                     end
           end
       end.

Definition getConfigStoreKubeConfig (args : AerakiArgs) : res RestConfig :=
  match GetConfig with
  | Err err => Err ("can not get kubernetes config: " +:+ err)
  | Ok kubeConfig =>
      if negb (String.eqb (RootNamespace args) "") && negb (String.eqb (ConfigStoreSecret args) "") then
        match NewForConfig kubeConfig with
        | Some err => Err ("failed to get Kube client: " +:+ err)
        | None =>
            match get_Secret kubeConfig (RootNamespace args) (ConfigStoreSecret args) with
            | Err err => Err ("failed to get Istio config store secret: " +:+ err)
            | Ok data =>
                match getRestConfig (lookup_str data "kubeconfig.admin") with
                | Err err => Err ("failed to get Istio config store secret: " +:+ err)
                | Ok config => Ok config
                end
            end
        end
      else Ok kubeConfig
  end.
End kube.

(** ** The server *)
(** The TLS settings of the xDS server: where its certificate comes from is
    [getAerakiCertificate]. *)
Record TLSConfig := { tls_MinVersion : string; tls_RequireClientCert : bool; tls_ClientCAs : string }.

Record Server := {
  srv_scalable : Manager; srv_singleton : list (Registration SingletonReconciler);
  srv_kubeClient : bool; srv_istiodCert : option string; srv_CABundle : string;
  srv_xdsTLS : option TLSConfig;
  srv_httpsMux : option (list string); srv_httpMux : option (list string);
  srv_meshHandler : option Trigger;
  srv_probes : gmap string (bool -> bool); srv_serverReady : bool }.

Definition newServer (scalable : Manager) (singleton : list (Registration SingletonReconciler)) : Server :=
  {| srv_scalable := scalable; srv_singleton := singleton; srv_kubeClient := false; srv_istiodCert := None;
     srv_CABundle := ""; srv_xdsTLS := None; srv_httpsMux := None; srv_httpMux := None; srv_meshHandler := None;
     srv_probes := ∅; srv_serverReady := false |}.

(** Assignments to fields of the server. *)
Definition set_kubeClient (s : Server) : Server :=
  {| srv_scalable := srv_scalable s; srv_singleton := srv_singleton s; srv_kubeClient := true;
     srv_istiodCert := srv_istiodCert s; srv_CABundle := srv_CABundle s; srv_xdsTLS := srv_xdsTLS s;
     srv_httpsMux := srv_httpsMux s; srv_httpMux := srv_httpMux s; srv_meshHandler := srv_meshHandler s;
     srv_probes := srv_probes s; srv_serverReady := srv_serverReady s |}.
Definition set_cert (cert ca : string) (s : Server) : Server :=
  {| srv_scalable := srv_scalable s; srv_singleton := srv_singleton s; srv_kubeClient := srv_kubeClient s;
     srv_istiodCert := Some cert; srv_CABundle := ca; srv_xdsTLS := srv_xdsTLS s;
     srv_httpsMux := srv_httpsMux s; srv_httpMux := srv_httpMux s; srv_meshHandler := srv_meshHandler s;
     srv_probes := srv_probes s; srv_serverReady := srv_serverReady s |}.
Definition set_xdsTLS (c : TLSConfig) (s : Server) : Server :=
  {| srv_scalable := srv_scalable s; srv_singleton := srv_singleton s; srv_kubeClient := srv_kubeClient s;
     srv_istiodCert := srv_istiodCert s; srv_CABundle := srv_CABundle s; srv_xdsTLS := Some c;
     srv_httpsMux := srv_httpsMux s; srv_httpMux := srv_httpMux s; srv_meshHandler := srv_meshHandler s;
     srv_probes := srv_probes s; srv_serverReady := srv_serverReady s |}.
Definition set_httpsMux (paths : list string) (s : Server) : Server :=
  {| srv_scalable := srv_scalable s; srv_singleton := srv_singleton s; srv_kubeClient := srv_kubeClient s;
     srv_istiodCert := srv_istiodCert s; srv_CABundle := srv_CABundle s; srv_xdsTLS := srv_xdsTLS s;
     srv_httpsMux := Some paths; srv_httpMux := srv_httpMux s; srv_meshHandler := srv_meshHandler s;
     srv_probes := srv_probes s; srv_serverReady := srv_serverReady s |}.
Definition set_httpMux (paths : list string) (s : Server) : Server :=
  {| srv_scalable := srv_scalable s; srv_singleton := srv_singleton s; srv_kubeClient := srv_kubeClient s;
     srv_istiodCert := srv_istiodCert s; srv_CABundle := srv_CABundle s; srv_xdsTLS := srv_xdsTLS s;
     srv_httpsMux := srv_httpsMux s; srv_httpMux := Some paths; srv_meshHandler := srv_meshHandler s;
     srv_probes := srv_probes s; srv_serverReady := srv_serverReady s |}.
Definition initConfigMapWatcher (handler : Trigger) (s : Server) : Server :=
  {| srv_scalable := srv_scalable s; srv_singleton := srv_singleton s; srv_kubeClient := srv_kubeClient s;
     srv_istiodCert := srv_istiodCert s; srv_CABundle := srv_CABundle s; srv_xdsTLS := srv_xdsTLS s;
     srv_httpsMux := srv_httpsMux s; srv_httpMux := srv_httpMux s; srv_meshHandler := Some handler;
     srv_probes := srv_probes s; srv_serverReady := srv_serverReady s |}.
Definition addReadinessProbe (name : string) (probe : bool -> bool) (s : Server) : Server :=
  {| srv_scalable := srv_scalable s; srv_singleton := srv_singleton s; srv_kubeClient := srv_kubeClient s;
     srv_istiodCert := srv_istiodCert s; srv_CABundle := srv_CABundle s; srv_xdsTLS := srv_xdsTLS s;
     srv_httpsMux := srv_httpsMux s; srv_httpMux := srv_httpMux s; srv_meshHandler := srv_meshHandler s;
     srv_probes := <[name := probe]> (srv_probes s); srv_serverReady := srv_serverReady s |}.
Definition set_ready (s : Server) : Server :=
  {| srv_scalable := srv_scalable s; srv_singleton := srv_singleton s; srv_kubeClient := srv_kubeClient s;
     srv_istiodCert := srv_istiodCert s; srv_CABundle := srv_CABundle s; srv_xdsTLS := srv_xdsTLS s;
     srv_httpsMux := srv_httpsMux s; srv_httpMux := srv_httpMux s; srv_meshHandler := srv_meshHandler s;
     srv_probes := srv_probes s; srv_serverReady := true |}.

(** The clients of Istio and Kubernetes, the process environment that the certificate is
    made in, [tls.X509KeyPair] and reading Istio's root certificate. *)
Class BootstrapEnv `{KubeEnv} := {
  istio_Client : RestConfig -> option error;
  aeraki_Clientset : option error;
  kubernetes_Clientset : option error;
  kube_Client : option error;
  ca_environment : CaEnvironment;
  ca_times : Time * Time;
  X509KeyPair : string -> string -> res string;
  read_root_cert : res string }.

Section init.
Context `{BootstrapEnv, Crypto} {K : Type} `{CaLibrary K, WebhookConfigClient K}.

Definition initKubeClient (s : Server) : option error * Server :=
  match kube_Client with
  | Some err => (Some err, s)
  | None => (None, set_kubeClient s)
  end.

Definition initRootCA (args : AerakiArgs) (s : Server) (k : K) : outcome (option error * Server * K) :=
  match srv_istiodCert s with
  | Some _ => Ret (None, s, k)
  | None =>
      r ← GenerateKeyCertBundle ca_environment (fst ca_times) (snd ca_times) (srv_kubeClient s) (RootNamespace args) k;
      match r with
      | (Err err, k) => Ret (Some err, s, k)
      | (Ok bundle, k) =>
          match X509KeyPair (CertPem bundle) (KeyPem bundle) with
          | Err err => Ret (Some err, s, k)
          | Ok x509Cert => Ret (None, set_cert x509Cert (CABundle bundle) s, k)
          end
      end
  end.

Definition getAerakiCertificate (s : Server) : res string :=
  match srv_istiodCert s with Some c => Ok c | None => Err "cert not initialized" end.

Definition initXdsServer (s : Server) : option error * Server :=
  match read_root_cert with
  | Err err => (Some ("failed to read istio ca cert file: " +:+ err), s)
  | Ok caCrt => (None, set_xdsTLS {| tls_MinVersion := "1.2"; tls_RequireClientCert := true; tls_ClientCAs := caCrt |} s)
  end.

Definition initSecureWebhookServer (args : AerakiArgs) (s : Server) (k : K) : outcome (option error * Server * K) :=
  let s := set_httpsMux [] s in
  r ← GenerateWebhookConfig (srv_CABundle s) (RootNamespace args) k;
  match r with
  | (Some err, k) => Ret (Some ("failed to generate webhook cofigruation " +:+ err), s, k)
  | (None, k) => Ret (None, s, k)
  end.

Definition initConfigValidation `{ValidationEnv, MapRange} (args : AerakiArgs) (s : Server) : option error * Server :=
  if negb (srv_kubeClient s) then (None, s)
  else match New Aeraki (KubeDomainSuffix args) (srv_httpsMux s) with
       | Err err => (Some err, s)
       | Ok (_, paths) => (None, set_httpsMux paths s)
       end.

Definition initReadinessProbes (s : Server) : Server := addReadinessProbe "aeraki" (fun ready => ready) s.

Definition initServers (s : Server) : Server := set_httpMux [] s.

Definition initAerakiServer (s : Server) : Server :=
  let s := initServers (initReadinessProbes s) in
  set_httpMux (default [] (srv_httpMux s) ++ ["/ready"]) s.

(** The part of [NewServer] after the controllers are created. *)
Definition init_server `{ValidationEnv, MapRange} (args : AerakiArgs) (s : Server) (k : K)
    : outcome (res Server * K) :=
  match initKubeClient s with
  | (Some err, _) => Ret (Err ("error initializing kube client: " +:+ err), k)
  | (None, s) =>
      root ← initRootCA args s k;
      match root with
      | (Some err, _, k) => Ret (Err ("error initializing root ca: " +:+ err), k)
      | (None, s, k) =>
          match initXdsServer s with
          | (Some err, _) => Ret (Err ("error initializing xds server: " +:+ err), k)
          | (None, s) =>
              webhook ← initSecureWebhookServer args s k;
              match webhook with
              | (Some err, _, k) => Ret (Err ("error initializing webhook server: " +:+ err), k)
              | (None, s, k) =>
                  match initConfigValidation args s with
                  | (Some err, _) => Ret (Err ("error initializing config validator: " +:+ err), k)
                  | (None, s) => Ret (Ok (initAerakiServer (initConfigMapWatcher updateEnvoyFilter s)), k)
                  end
              end
          end
      end
  end.

(** The generators that need clients; without a client the process ends ([Fatalf]). *)
Definition dubbo_NewGenerator : outcome unit :=
  match aeraki_Clientset with Some _ => Panic "exit" | None => Ret tt end.
Definition redis_New : outcome unit :=
  match aeraki_Clientset with
  | Some _ => Panic "exit"
  | None => match kubernetes_Clientset with Some _ => Panic "exit" | None => Ret tt end
  end.

(** The config controller, the EnvoyFilter controller, the route cache and the xDS server
    are created in between without a failure ([Wiring]). *)
Definition NewServer `{ValidationEnv, MapRange, ControllerRuntime}
    (Get : ObjectKey -> res ApplicationProtocol) (args : AerakiArgs) (k : K) : outcome (res Server * K) :=
  match getConfigStoreKubeConfig args with
  | Err err => Ret (Err ("failed to get Istio kube config store : " +:+ err), k)
  | Ok kubeConfig =>
      match istio_Client kubeConfig with
      | Some err => Ret (Err ("failed to create istio client: " +:+ err), k)
      | None =>
          match createScalableControllers (RootNamespace args) Get with
          | Err err => Ret (Err err, k)
          | Ok scalable =>
              _ ← dubbo_NewGenerator;
              _ ← redis_New;
              r ← createSingletonControllers (RootNamespace args) (AerakiXdsAddr args) (AerakiXdsPort args);
              match r with
              | Err err => Ret (Err err, k)
              | Ok singleton => init_server args (newServer scalable singleton) k
              end
          end
      end
  end.
End init.

(** ** Starting *)
Definition StatusOK : Z := 200.
Definition StatusServiceUnavailable : Z := 503.

Definition aerakiReadyHandler `{MapRange} (s : Server) : Z :=
  if forallb (fun '(_, probe) => probe (srv_serverReady s)) (range (srv_probes s))
  then StatusOK else StatusServiceUnavailable.

Inductive Thread :=
| PprofServer
| EnvoyFilterElection
| ConfigWatch
| RouteLoop
| XdsServer (listener : res string)
| ScalableControllers
| SingletonControllers
| WebhookServer (listener : res string)
| ReadinessServer
| ShutdownWait.

(** The readiness listener: its error is returned, otherwise a goroutine serves it. *)
Definition serveHTTP (args : AerakiArgs) (Listen : string -> res string) : option error * list Thread :=
  match Listen (HTTPAddr args) with
  | Err err => (Some err, [])
  | Ok _ => (None, [ReadinessServer])
  end.

(** The goroutines that [Start] leaves running; the errors of the two listeners are only
    logged. *)
Definition Start (args : AerakiArgs) (Listen : string -> res string) (s : Server) : list Thread * Server :=
  ([PprofServer] ++ (if Master args then [EnvoyFilterElection] else []) ++
   [ConfigWatch; RouteLoop; XdsServer (Listen (AerakiXdsPort args)); ScalableControllers; SingletonControllers;
    WebhookServer (Listen (HTTPSAddr args))] ++
   snd (serveHTTP args Listen) ++
   [ShutdownWait], set_ready s).

(** The beginning of two of the goroutines, with the listener they are given: the webhook
    server logs the address of its listener, which is nil when listening failed; the xDS
    server ends the process when it cannot listen. *)
Definition webhook_begins (listener : res string) : outcome unit :=
  match listener with Err _ => Panic "nil pointer dereference" | Ok _ => Ret tt end.
Definition xds_begins (listener : res string) : outcome unit :=
  match listener with Err _ => Panic "exit" | Ok _ => Ret tt end.

(** [IsUnexpectedListenerError] of [util/error.go], with the errors that wrap [net.ErrClosed]
    and [http.ErrServerClosed]: a closed listener is the expected end of a server. *)
Inductive ListenerError := ErrClosed | ErrServerClosed | OtherError (err : error).
Definition IsUnexpectedListenerError (err : option ListenerError) : bool :=
  match err with
  | None => false
  | Some ErrClosed => false
  | Some ErrServerClosed => false
  | Some (OtherError _) => true
  end.

(** ** Leader election *)
(** What a started loop listens to for the end of its work: the channel of the election
    cycle in which it was started, or the one of the whole server. *)
Inductive StopChan :=
| ElectionStop (cycle : Z)
| ServerStop.
Global Instance StopChan_eq_dec : EqDecision StopChan.
Proof. solve_decision. Defined.

(** A function run by the leader gets the channel of the election and starts a loop. *)
Abbreviation RunFn := (StopChan -> StopChan).

Record LeaderElection := {
  le_namespace : string; le_name : string; le_electionID : string; le_runFns : list RunFn; le_ttl : Z }.

(** Durations are in nanoseconds. *)
Definition Second : Z := 1000000000.

Definition NewLeaderElection (namespace name electionID : string) : LeaderElection :=
  {| le_namespace := namespace; le_name := if String.eqb name "" then "unknown" else name;
     le_electionID := electionID; le_runFns := []; le_ttl := 30 * Second |}.

Definition AddRunFunction (f : RunFn) (l : LeaderElection) : LeaderElection :=
  {| le_namespace := le_namespace l; le_name := le_name l; le_electionID := le_electionID l;
     le_runFns := le_runFns l ++ [f]; le_ttl := le_ttl l |}.

Record ElectorConfig := {
  ec_LockNamespace : string; ec_LockName : string; ec_Identity : string;
  ec_LeaseDuration : Z; ec_RenewDeadline : Z; ec_RetryPeriod : Z; ec_ReleaseOnCancel : bool }.

Class ElectionLibrary := NewLeaderElector : ElectorConfig -> option error.

(** The configurations the library documents as valid: the lease outlasts the deadline for
    its renewal, the deadline outlasts a retry with its jitter of a fifth. *)
Definition elector_valid (c : ElectorConfig) : Prop :=
  ec_RenewDeadline c < ec_LeaseDuration c /\ 12 * ec_RetryPeriod c < 10 * ec_RenewDeadline c /\
  1 <= ec_LeaseDuration c /\ 1 <= ec_RenewDeadline c /\ 1 <= ec_RetryPeriod c /\ ec_Identity c <> "".
Class ElectionLibraryLaws `{ElectionLibrary} :=
  elector_accepted : forall c, elector_valid c -> NewLeaderElector c = None.

Definition create_config (l : LeaderElection) : ElectorConfig :=
  {| ec_LockNamespace := le_namespace l; ec_LockName := le_electionID l; ec_Identity := le_name l;
     ec_LeaseDuration := le_ttl l; ec_RenewDeadline := Z.quot (le_ttl l) 2; ec_RetryPeriod := Z.quot (le_ttl l) 4;
     ec_ReleaseOnCancel := true |}.
Definition create `{ElectionLibrary} (l : LeaderElection) : res ElectorConfig :=
  match NewLeaderElector (create_config l) with Some err => Err err | None => Ok (create_config l) end.

(** The beginning of a cycle of [Run]. *)
Definition run_begins `{ElectionLibrary} (l : LeaderElection) : outcome ElectorConfig :=
  match create l with
  | Err err => Panic ("LeaderElection creation failed: " +:+ err)
  | Ok le => Ret le
  end.

(** The election that [Start] runs: its function hands the server's channel on. *)
Definition start_election (args : AerakiArgs) : LeaderElection :=
  AddRunFunction (fun _ => ServerStop)
    (NewLeaderElection (RootNamespace args) (ServerID args) "aeraki-envoyfilter-controller-election").

Inductive Phase :=
| Waiting
| Leading
| Exited.
Global Instance Phase_eq_dec : EqDecision Phase.
Proof. solve_decision. Defined.

Record Replica := { rp_phase : Phase; rp_cycle : Z; rp_loops : list StopChan }.
Record Cluster := { cl_replicas : nat -> Replica }.

Definition set_replica (i : nat) (r : Replica) (f : nat -> Replica) : nat -> Replica :=
  fun j => if decide (j = i) then r else f j.

(** [Run]: the first cycle is number one. *)
Definition cluster_initial : Cluster :=
  {| cl_replicas := fun _ => {| rp_phase := Waiting; rp_cycle := 1; rp_loops := [] |} |}.

(** [OnStartedLeading]. *)
Definition acquired (fns : list RunFn) (r : Replica) : Replica :=
  {| rp_phase := Leading; rp_cycle := rp_cycle r;
     rp_loops := rp_loops r ++ ((fun f => f (ElectionStop (rp_cycle r))) <$> fns) |}.

(** [le.Run] returned without a stop: the context of the cycle is cancelled, and the next
    cycle begins. Loops that listen to the context end. *)
Definition lost (r : Replica) : Replica :=
  {| rp_phase := Waiting; rp_cycle := rp_cycle r + 1;
     rp_loops := filter (fun c => c <> ElectionStop (rp_cycle r)) (rp_loops r) |}.

Definition exited (r : Replica) : Replica :=
  {| rp_phase := Exited; rp_cycle := rp_cycle r; rp_loops := [] |}.

Inductive election_step (fns : list RunFn) : Cluster -> Cluster -> Prop :=
| acquire_step cl i :
    rp_phase (cl_replicas cl i) = Waiting ->
    election_step fns cl {| cl_replicas := set_replica i (acquired fns (cl_replicas cl i)) (cl_replicas cl) |}
| lose_step cl i :
    rp_phase (cl_replicas cl i) = Leading ->
    election_step fns cl {| cl_replicas := set_replica i (lost (cl_replicas cl i)) (cl_replicas cl) |}
| exit_step cl i :
    rp_phase (cl_replicas cl i) <> Exited ->
    election_step fns cl {| cl_replicas := set_replica i (exited (cl_replicas cl i)) (cl_replicas cl) |}.

Definition election_reachable (fns : list RunFn) : Cluster -> Prop := rtc (election_step fns) cluster_initial.

(** What the loops of a replica are, by its phase and cycle. *)
Definition loops_inv (P : Phase -> Z -> list StopChan -> Prop) (cl : Cluster) : Prop :=
  forall i, P (rp_phase (cl_replicas cl i)) (rp_cycle (cl_replicas cl i)) (rp_loops (cl_replicas cl i)).

Lemma election_invariant fns (P : Phase -> Z -> list StopChan -> Prop) cl :
  P Waiting 1 [] ->
  (forall c ls, P Waiting c ls -> P Leading c (ls ++ ((fun f => f (ElectionStop c)) <$> fns))) ->
  (forall c ls, P Leading c ls -> P Waiting (c + 1) (filter (fun x => x <> ElectionStop c) ls)) ->
  (forall c, P Exited c []) ->
  election_reachable fns cl -> loops_inv P cl.
Proof.
  intros H0 Hacq Hlost Hexit. apply rtc_invariant; [|intros i; exact H0]. clear cl.
  intros cl cl' IH Hstep j.
  destruct Hstep as [cl i Hw|cl i Hi|cl i Hne]; simpl; unfold set_replica;
    (destruct (decide (j = i)) as [->|Hij]; simpl; [|apply IH]).
  - apply Hacq. rewrite <- Hw. apply IH.
  - apply Hlost. rewrite <- Hi. apply IH.
  - apply Hexit.
Qed.

Lemma filter_all {A} (P : A -> Prop) `{forall x, Decision (P x)} l : Forall P l -> filter P l = l.
Proof. induction 1 as [|x l Hx _ IH]; [done|]. by rewrite filter_cons_True, IH. Qed.

(** If every function keeps to the channel it is given, as the documentation asks, a leading
    replica runs each once and one that does not lead runs none. *)
Lemma election_respected fns cl i :
  (forall f c, f ∈ fns -> f c = c) -> election_reachable fns cl ->
  rp_loops (cl_replicas cl i) =
    if decide (rp_phase (cl_replicas cl i) = Leading)
    then replicate (length fns) (ElectionStop (rp_cycle (cl_replicas cl i))) else [].
Proof.
  intros Hf Hr.
  assert (Hall : forall c, (fun f => f (ElectionStop c)) <$> fns = replicate (length fns) (ElectionStop c)).
  { intros c. clear Hr. induction fns as [|f fns IH]; [done|]. rewrite fmap_cons. simpl. f_equal.
    - apply Hf. by left.
    - apply IH. intros g d Hg. apply Hf. by right. }
  enough (Hcl : loops_inv (fun ph c ls =>
    ls = if decide (ph = Leading) then replicate (length fns) (ElectionStop c) else []) cl) by apply (Hcl i).
  apply (election_invariant fns); [done|..|done|done]; clear Hr.
  - intros c ls ->. apply Hall.
  - intros c ls ->. rewrite !decide_True, decide_False by done. clear Hall. induction (length fns) as [|n IH]; [done|].
    cbn [replicate]. rewrite filter_cons_False by naive_solver. exact IH.
Qed.

(** C38: The function that the server registers hands on the channel of the server instead:
    a replica in its n-th cycle still runs a push loop for every election it ever won, all of
    them alive and none stopped by the loss of the lock. *)
Theorem lost_leader_keeps_pushing args cl i :
  election_reachable (le_runFns (start_election args)) cl ->
  rp_phase (cl_replicas cl i) <> Exited ->
  Z.of_nat (length (rp_loops (cl_replicas cl i))) =
    rp_cycle (cl_replicas cl i) - 1 + (if decide (rp_phase (cl_replicas cl i) = Leading) then 1 else 0).
Proof.
  intros Hr Hne.
  assert (Hcl : loops_inv (fun ph c ls => ph <> Exited -> Forall (eq ServerStop) ls /\
      Z.of_nat (length ls) = c - 1 + (if decide (ph = Leading) then 1 else 0)) cl).
  { apply (election_invariant (le_runFns (start_election args))); [done|..|done|done]; clear Hr Hne.
    - intros c ls H _. destruct H as [Hs Hl]; [done|]. rewrite decide_False in Hl by done. rewrite decide_True by done.
      simpl. rewrite length_app. simpl. split; [|lia].
      apply Forall_app. split; [done|]. by repeat constructor.
    - intros c ls H _. destruct H as [Hs Hl]; [done|]. rewrite decide_True in Hl by done. rewrite decide_False by done.
      rewrite filter_all; [split; [done|lia]|].
      eapply Forall_impl; [exact Hs|]. by intros x <-. }
  by destruct (Hcl i Hne).
Qed.

(** The panic at the beginning of an election cycle is never reached, whatever
    namespace, name, identifier and functions an election is made with: an empty name is
    replaced, and the divisions of the lease time keep the order of the three durations. *)
Theorem election_cycle_begins `{ElectionLibraryLaws} namespace name electionID fns :
  run_begins (foldr AddRunFunction (NewLeaderElection namespace name electionID) fns) =
  Ret (create_config (NewLeaderElection namespace name electionID)).
Proof.
  set (l := foldr _ _ _).
  assert (Hl : create_config l = create_config (NewLeaderElection namespace name electionID)).
  { unfold l. induction fns as [|f fns IH]; [done|]. exact IH. }
  unfold run_begins, create. rewrite Hl, elector_accepted; [done|].
  unfold elector_valid. split_and!; [by vm_compute..|]. simpl. by destruct (String.eqb_spec name "").
Qed.

(** Two replicas: the first wins and loses, the second wins, and both push. *)
Example two_pushers args :
  exists cl, election_reachable (le_runFns (start_election args)) cl /\
    rp_phase (cl_replicas cl 0%nat) = Waiting /\ length (rp_loops (cl_replicas cl 0%nat)) = 1%nat /\
    rp_phase (cl_replicas cl 1%nat) = Leading /\ length (rp_loops (cl_replicas cl 1%nat)) = 1%nat.
Proof.
  eexists. split.
  - eapply rtc_l; [|eapply rtc_l; [|apply rtc_once]].
    + by apply (acquire_step _ _ 0%nat).
    + by apply (lose_step _ _ 0%nat).
    + by apply (acquire_step _ _ 1%nat).
  - by vm_compute.
Qed.

(** ** Initialisation and start *)
Section init_correct.
Context `{BootstrapEnv, Crypto, ValidationEnv, MapRange} {K : Type} `{CaLibrary K, WebhookConfigClient K}.

Lemma range_one {V} (key : string) (v : V) : range {[key := v]} = [(key, v)].
Proof.
  pose proof (range_perm ({[key := v]} : gmap string V)) as Hp.
  rewrite map_to_list_singleton in Hp. by apply Permutation_singleton_r in Hp.
Qed.

(** What an initialised server has. *)
Record initialised (args : AerakiArgs) (s0 s : Server) (k k' : K) : Prop := {
  ini_managers : srv_scalable s = srv_scalable s0 /\ srv_singleton s = srv_singleton s0;
  ini_cert : exists bundle cert k1,
    GenerateKeyCertBundle ca_environment (fst ca_times) (snd ca_times) true (RootNamespace args) k =
      Ret (Ok bundle, k1) /\
    X509KeyPair (CertPem bundle) (KeyPem bundle) = Ok cert /\ getAerakiCertificate s = Ok cert /\
    GenerateWebhookConfig (CABundle bundle) (RootNamespace args) k1 = Ret (None, k');
  ini_xds : exists root, read_root_cert = Ok root /\
    srv_xdsTLS s = Some {| tls_MinVersion := "1.2"; tls_RequireClientCert := true; tls_ClientCAs := root |};
  ini_webhook : srv_httpsMux s = Some ["/validate"; "/validate/"];
  ini_readiness : srv_httpMux s = Some ["/ready"] /\ srv_serverReady s = false /\
    range (srv_probes s) = [("aeraki", fun ready => ready)];
  ini_mesh : srv_meshHandler s = Some updateEnvoyFilter }.

Lemma init_server_ok args (k k' : K) scalable singleton s :
  init_server args (newServer scalable singleton) k = Ret (Ok s, k') ->
  initialised args (newServer scalable singleton) s k k'.
Proof.
  unfold init_server, initKubeClient, initRootCA, initXdsServer, initSecureWebhookServer, initConfigValidation.
  destruct kube_Client; [done|]. cbn [srv_istiodCert srv_kubeClient newServer set_kubeClient].
  destruct (GenerateKeyCertBundle _ _ _ _ _ _) as [[[bundle|] k1]|] eqn:Hb; [|done|done]. cbn [mbind outcome_bind].
  destruct (X509KeyPair (CertPem bundle) (KeyPem bundle)) as [cert|] eqn:Hx; [|done].
  destruct read_root_cert as [root|] eqn:Hroot; [|done]. cbn.
  destruct (GenerateWebhookConfig (CABundle bundle) (RootNamespace args) k1) as [[[err|] k2]|] eqn:Hg; [done| |done].
  intros [= <- <-]. split; cbn; try done; [by exists bundle, cert, k1|by exists root|].
  split_and!; [done..|]. rewrite insert_empty. apply range_one.
Qed.

(** What a creation that fails has written: at most the authority, then at most the
    registration of the webhook. *)
Definition written_by_failure (args : AerakiArgs) (k k' : K) : Prop :=
  exists k1, authority_stored (RootNamespace args) k k1 /\
    (k' = k1 \/ exists ca e, GenerateWebhookConfig ca (RootNamespace args) k1 = Ret (e, k')).

Lemma nothing_written args (k : K) : written_by_failure args k k.
Proof. exists k. split; by left. Qed.

Lemma initRootCA_stored args s (k k' : K) r s' :
  initRootCA args s k = Ret (r, s', k') -> authority_stored (RootNamespace args) k k'.
Proof.
  unfold initRootCA. destruct (srv_istiodCert s); [intros [= _ _ <-]; by left|].
  destruct (GenerateKeyCertBundle _ _ _ _ _ k) as [[b k1]|] eqn:Hb; [|done]. apply GenerateKeyCertBundle_stored in Hb.
  cbn. destruct b as [b|]; [destruct (X509KeyPair _ _)|]; by intros [= _ _ <-].
Qed.

Lemma init_server_error args (k k' : K) s e :
  init_server args s k = Ret (Err e, k') -> written_by_failure args k k'.
Proof.
  unfold init_server, initSecureWebhookServer. destruct (initKubeClient s) as [[|] s1];
    [intros [= _ <-]; apply nothing_written|].
  destruct (initRootCA args s1 k) as [[[r s2] k1]|] eqn:Hroot; [|done]. apply initRootCA_stored in Hroot.
  cbn [mbind outcome_bind]. destruct r; [intros [= _ <-]; by exists k1; split; [|left]|].
  destruct (initXdsServer s2) as [[|] s3]; [intros [= _ <-]; by exists k1; split; [|left]|].
  destruct (GenerateWebhookConfig _ _ k1) as [[[|] k2]|] eqn:Hg; [| |done]; cbn [mbind outcome_bind].
  - intros [= _ <-]. exists k1. split; [done|]. right. by eexists _, _.
  - destruct (initConfigValidation args _) as [[|] s4]; [|done]. intros [= _ <-].
    exists k1. split; [done|]. right. by eexists _, _.
Qed.

Lemma NewServer_initialised `{ControllerRuntime} Get args (k k' : K) s :
  NewServer Get args k = Ret (Ok s, k') ->
  exists scalable singleton, createScalableControllers (RootNamespace args) Get = Ok scalable /\
    createSingletonControllers (RootNamespace args) (AerakiXdsAddr args) (AerakiXdsPort args) = Ret (Ok singleton) /\
    initialised args (newServer scalable singleton) s k k'.
Proof.
  unfold NewServer. destruct (getConfigStoreKubeConfig args) as [cfg|]; [|done].
  destruct (istio_Client cfg); [done|]. destruct (createScalableControllers _ Get) as [scalable|]; [|done].
  destruct dubbo_NewGenerator, redis_New; [|done..]. cbn [mbind outcome_bind].
  destruct (createSingletonControllers _ _ _) as [[singleton|]|]; [|done|done]. cbn [mbind outcome_bind].
  intros Hi%init_server_ok. by exists scalable, singleton.
Qed.

Lemma NewServer_error `{ControllerRuntime} Get args (k k' : K) e :
  NewServer Get args k = Ret (Err e, k') -> written_by_failure args k k'.
Proof.
  unfold NewServer. destruct (getConfigStoreKubeConfig args) as [cfg|]; [|intros [= _ <-]; apply nothing_written].
  destruct (istio_Client cfg); [intros [= _ <-]; apply nothing_written|].
  destruct (createScalableControllers _ Get) as [scalable|]; [|intros [= _ <-]; apply nothing_written].
  destruct dubbo_NewGenerator, redis_New; [|done..]. cbn [mbind outcome_bind].
  destruct (createSingletonControllers _ _ _) as [[singleton|]|]; [|intros [= _ <-]; apply nothing_written|done].
  apply init_server_error.
Qed.

(** The answer of the readiness handler, before and after the start. *)
Lemma ready_after_start args s0 s (k k' : K) :
  initialised args s0 s k k' ->
  aerakiReadyHandler s = StatusServiceUnavailable /\ forall Listen, aerakiReadyHandler (snd (Start args Listen s)) = StatusOK.
Proof.
  intros [_ _ _ _ (_ & Hready & Hprobes) _]. unfold aerakiReadyHandler, Start.
  cbn [snd set_ready srv_probes srv_serverReady]. by rewrite Hprobes, Hready.
Qed.

(** C31: A server that was created has its five shared and two singleton controllers, a
    certificate with which the webhook was registered, an xDS server that demands client
    certificates of Istio's root, handlers for the webhook and for readiness, and a handler
    for changes of the mesh configuration; it answers unavailable until it is started and
    available from then on. A creation that reports an error has written to the cluster at
    most the secret of a self-signed authority for Aeraki's trust domain and, after it, the
    registration of the webhook. *)
Theorem new_server_ready `{ControllerRuntime} Get args (k k' : K) r :
  NewServer Get args k = Ret (r, k') ->
  match r with
  | Err _ => exists k1,
      (k1 = k \/ exists root, k1 = snd (NewSelfSignedIstioCAOptions "aeraki.net" (RootNamespace args) root k)) /\
      (k' = k1 \/ exists ca e, GenerateWebhookConfig ca (RootNamespace args) k1 = Ret (e, k'))
  | Ok s =>
      (exists s0, initialised args s0 s k k') /\
      reg_Kind <$> srv_scalable s =
        [KRedisService; KRedisDestination; KDubboAuthorizationPolicy; KApplicationProtocol; KMetaRouter] /\
      reg_Kind <$> srv_singleton s = [KServiceEntry; KNamespace] /\
      aerakiReadyHandler s = StatusServiceUnavailable /\
      forall Listen, aerakiReadyHandler (snd (Start args Listen s)) = StatusOK
  end.
Proof.
  destruct r as [s|e]; [|by apply NewServer_error].
  intros (scalable & singleton & Hsc & Hsi & Hini)%NewServer_initialised.
  destruct (ini_managers _ _ _ _ _ Hini) as [Hm1 Hm2]. split; [by eexists|]. rewrite Hm1, Hm2. split_and!.
  - by eapply createScalableControllers_kinds.
  - by eapply createSingletonControllers_kinds.
  - by eapply ready_after_start.
  - by eapply ready_after_start.
Qed.
End init_correct.

(** What runs after the start. Replicas that are not master do not take part in the
    EnvoyFilter election but run everything else; a readiness port that cannot be opened is
    ignored; the webhook server and the xDS server are given the result of opening theirs,
    and their goroutines end the process when it is an error. *)
Theorem start_threads args Listen s :
  (EnvoyFilterElection ∈ fst (Start args Listen s) <-> Master args = true) /\
  (forall t, t ∈ [ConfigWatch; RouteLoop; ScalableControllers; SingletonControllers; ShutdownWait] ->
     t ∈ fst (Start args Listen s)) /\
  (ReadinessServer ∈ fst (Start args Listen s) <-> exists l, Listen (HTTPAddr args) = Ok l) /\
  (forall l, WebhookServer l ∈ fst (Start args Listen s) <-> l = Listen (HTTPSAddr args)) /\
  (forall l, XdsServer l ∈ fst (Start args Listen s) <-> l = Listen (AerakiXdsPort args)) /\
  (panics (webhook_begins (Listen (HTTPSAddr args))) = true <-> exists e, Listen (HTTPSAddr args) = Err e) /\
  (panics (xds_begins (Listen (AerakiXdsPort args))) = true <-> exists e, Listen (AerakiXdsPort args) = Err e).
Proof.
  split_and!.
  1-5: unfold Start, serveHTTP; cbn [fst]; destruct (Listen (HTTPAddr args)) as [l'|e'], (Master args); cbn [snd app];
    set_unfold; intuition (subst; try congruence; eauto); by match goal with Hl : exists l, Err _ = Ok l |- _ => destruct Hl end.
  - destruct (Listen (HTTPSAddr args)); naive_solver.
  - destruct (Listen (AerakiXdsPort args)); naive_solver.
Qed.

(** ** The API server of the configuration *)
(** With a secret configured the connection is the one of the secret or an error, never the
    cluster's own; without one it is the cluster's own. *)
Theorem config_store_choice `{KubeEnv} args config :
  getConfigStoreKubeConfig args = Ok config ->
  if bool_decide (RootNamespace args = "" \/ ConfigStoreSecret args = "") then GetConfig = Ok config
  else exists own data raw, GetConfig = Ok own /\
    get_Secret own (RootNamespace args) (ConfigStoreSecret args) = Ok data /\
    lookup_str data "kubeconfig.admin" <> "" /\
    clientcmd_Load (lookup_str data "kubeconfig.admin") = Ok raw /\ clientcmd_Validate raw = None /\
    ClientConfig raw = Ok config.
Proof.
  unfold getConfigStoreKubeConfig. destruct GetConfig as [own|]; [|done].
  destruct (String.eqb_spec (RootNamespace args) "") as [Hr|Hr];
    [rewrite bool_decide_eq_true_2 by auto; done|].
  destruct (String.eqb_spec (ConfigStoreSecret args) "") as [Hs|Hs];
    [rewrite bool_decide_eq_true_2 by auto; done|].
  rewrite bool_decide_eq_false_2 by tauto. cbn [negb andb].
  destruct (NewForConfig own); [done|]. destruct (get_Secret own _ _) as [data|] eqn:Hd; [|done].
  unfold getRestConfig. destruct (String.eqb_spec (lookup_str data "kubeconfig.admin") "") as [|Hk]; [done|].
  destruct (clientcmd_Load _) as [raw|] eqn:Hl; [|done]. destruct (clientcmd_Validate raw) eqn:Hv; [done|].
  destruct (ClientConfig raw) as [c|] eqn:Hc; [|done]. intros [= <-]. by exists own, data, raw.
Qed.

(** Without flags and environment a process watches istiod over plain text, keeps its
    configuration in its own cluster and is named after its identifier. *)
Theorem default_deployment `{KubeEnv} uuid config :
  GetConfig = Ok config ->
  let args := server_args uuid (fun _ => "") default_args in
  uses_tls (IstiodAddr args) = false /\ getConfigStoreKubeConfig args = Ok config /\
  ServerID args = "Aeraki-" +:+ uuid /\ PodName args = ServerID args.
Proof.
  intros Hc args. split_and!; [by vm_compute| |done..]. unfold getConfigStoreKubeConfig. rewrite Hc.
  by rewrite andb_false_r.
Qed.

(** ** Shutdown

    The main function sends one value on the stop channel, which has a buffer of one; every
    goroutine that waits for the end receives from it. *)
Record StopState := { sc_sent : bool; sc_buffered : nat; sc_notified : list Thread }.
Definition stop_initial : StopState := {| sc_sent := false; sc_buffered := 0; sc_notified := [] |}.

Inductive stop_step (threads : list Thread) : StopState -> StopState -> Prop :=
| signal_step s : sc_sent s = false -> (sc_buffered s < 1)%nat ->
    stop_step threads s {| sc_sent := true; sc_buffered := S (sc_buffered s); sc_notified := sc_notified s |}
| notify_step s t n : t ∈ threads -> sc_buffered s = S n ->
    stop_step threads s {| sc_sent := sc_sent s; sc_buffered := n; sc_notified := sc_notified s ++ [t] |}.

Definition stop_reachable (threads : list Thread) : StopState -> Prop := rtc (stop_step threads) stop_initial.

(** What a goroutine does when it is told ([waitForShutdown], and [Run] of the xDS server). *)
Inductive StopEffect := CloseInternalStop | CancelControllers | StopGrpcServer.
Definition waitForShutdown (t : Thread) : list StopEffect :=
  match t with
  | ShutdownWait => [CloseInternalStop; CancelControllers]
  | XdsServer (Ok _) => [StopGrpcServer]
  | _ => []
  end.
Definition stop_effects (s : StopState) : list StopEffect := concat (waitForShutdown <$> sc_notified s).

(** However many goroutines wait for the end of the server, at most one of them is ever
    told: the value is sent once and the channel is not closed. So the controllers and the
    xDS server are never both stopped. *)
Theorem one_goroutine_notified threads s :
  stop_reachable threads s ->
  (length (sc_notified s) + sc_buffered s <= 1)%nat /\
  ~ (CancelControllers ∈ stop_effects s /\ StopGrpcServer ∈ stop_effects s).
Proof.
  intros Hr.
  assert (H : (length (sc_notified s) + sc_buffered s = if sc_sent s then 1 else 0)%nat).
  { revert Hr. apply (rtc_invariant _ (fun s =>
      (length (sc_notified s) + sc_buffered s = if sc_sent s then 1 else 0)%nat)); [|done]. intros a b IH Hstep.
    destruct Hstep as [a Hs Hb|a t n Ht Hn]; simpl.
    - rewrite Hs in IH. lia.
    - rewrite length_app. simpl. rewrite Hn in IH. lia. }
  split; [destruct (sc_sent s); lia|]. unfold stop_effects.
  destruct (sc_notified s) as [|t [|]]; [set_solver| |destruct (sc_sent s); cbn in H; lia].
  cbn. rewrite app_nil_r. destruct t as [| | | |[]| | |[]| |]; set_solver.
Qed.

(** ** Witnesses *)
Definition demo_kube : KubeEnv :=
  {| RestConfig := string; GetConfig := Ok "cluster"; NewForConfig := fun _ => None;
     get_Secret := fun _ _ name => Ok {["kubeconfig.admin" := "kubeconfig of " +:+ name]};
     RawConfig := string; clientcmd_Load := fun s => Ok s; clientcmd_Validate := fun _ => None;
     ClientConfig := fun s => Ok s |}.

Definition demo_bootstrap_env : @BootstrapEnv demo_kube :=
  {| istio_Client := fun _ => None; aeraki_Clientset := None; kubernetes_Clientset := None; kube_Client := None;
     ca_environment := demo_ca_env; ca_times := (demo_leap_day, demo_leap_day);
     X509KeyPair := fun c k => Ok (c +:+ k); read_root_cert := Ok "root" |}.

Section demo.
#[local] Existing Instance canonical_range.
#[local] Existing Instance demo_env.
#[local] Existing Instance demo_bootstrap_env.
#[local] Existing Instance demo_kube.
#[local] Existing Instance demo_ca_library.
#[local] Existing Instance demo_crypto.
#[local] Existing Instance one_config_server.
#[local] Existing Instance demo_runtime.

Definition demo_args : AerakiArgs :=
  {| Master := true; IstiodAddr := "istiod.istio-system:15010"; AerakiXdsAddr := "aeraki.istio-system";
     AerakiXdsPort := ":15010"; PodName := ""; IstioConfigMapName := "istio"; HTTPSAddr := ":15017";
     HTTPAddr := ":8080"; RootNamespace := "istio-system"; ClusterID := ""; ConfigStoreSecret := "store";
     ElectionID := "aeraki-controller"; ServerID := "Aeraki-1"; LogLevel := "all:info";
     KubeDomainSuffix := "cluster.local"; EnableEnvoyFilterNSScope := false |}.

Example environment_wins :
  let args := initArgsWithEnv (fun n => if String.eqb n "AERAKI_NAMESPACE" then "mesh" else "") demo_args in
  RootNamespace args = "mesh" /\ AerakiXdsPort args = ":15010" /\ PodName args = "Aeraki-1".
Proof. by vm_compute. Qed.

(** A level that does not exist turns the scope off. *)
Example unknown_level_silences :
  setLogLevels "all:debug,xds:verbose,broken" ∅ !! "xds" = Some NoneLevel /\
  setLogLevels "all:debug,xds:verbose,broken" ∅ !! "all" = Some DebugLevel.
Proof. by vm_compute. Qed.

Definition demo_won : Cluster :=
  {| cl_replicas := set_replica 0 (acquired (le_runFns (start_election demo_args)) (cl_replicas cluster_initial 0%nat))
                      (cl_replicas cluster_initial) |}.
Definition demo_lost : Cluster :=
  {| cl_replicas := set_replica 0 (lost (cl_replicas demo_won 0%nat)) (cl_replicas demo_won) |}.

Lemma lost_leader_keeps_pushing_witness : Z.of_nat (length (rp_loops (cl_replicas demo_lost 0%nat))) = 2 - 1 + 0.
Proof.
  apply (lost_leader_keeps_pushing demo_args demo_lost 0).
  - apply (rtc_l _ _ demo_won); [|apply rtc_once].
    + by apply (acquire_step _ cluster_initial 0%nat).
    + by apply (lose_step _ demo_won 0%nat).
  - discriminate.
Defined.

Lemma new_server_ready_witness :
  exists s k', NewServer demo_Get demo_args None = Ret (Ok s, k') /\
    (exists s0, initialised demo_args s0 s None k') /\ aerakiReadyHandler s = StatusServiceUnavailable.
Proof.
  destruct (NewServer demo_Get demo_args None) as [[r k']|w] eqn:Hn; [|discriminate Hn].
  pose proof (new_server_ready demo_Get demo_args None k' r Hn) as Hok.
  destruct r as [s|e]; [|discriminate Hn]. destruct Hok as (Hini & _ & _ & Hready & _).
  exists s, k'. split; [reflexivity|]. split; [exact Hini|exact Hready].
Defined.

Definition demo_election : ElectionLibrary := fun c =>
  if (ec_RenewDeadline c <? ec_LeaseDuration c) && (12 * ec_RetryPeriod c <? 10 * ec_RenewDeadline c) &&
     negb (String.eqb (ec_Identity c) "")
  then None else Some "invalid".
Lemma demo_election_laws : @ElectionLibraryLaws demo_election.
Proof.
  intros c (H1 & H2 & _ & _ & _ & H3). unfold NewLeaderElector, demo_election.
  apply Z.ltb_lt in H1, H2. apply String.eqb_neq in H3. by rewrite H1, H2, H3.
Qed.

Lemma election_cycle_begins_witness :
  @run_begins demo_election (AddRunFunction (fun c => c) (NewLeaderElection "istio-system" "" "e")) =
  Ret {| ec_LockNamespace := "istio-system"; ec_LockName := "e"; ec_Identity := "unknown";
         ec_LeaseDuration := 30000000000; ec_RenewDeadline := 15000000000; ec_RetryPeriod := 7500000000;
         ec_ReleaseOnCancel := true |}.
Proof.
  exact (@election_cycle_begins demo_election demo_election_laws "istio-system" "" "e" [fun c => c]).
Defined.

Lemma config_store_choice_witness :
  exists data, get_Secret "cluster" "istio-system" "store" = Ok data /\
    lookup_str data "kubeconfig.admin" = "kubeconfig of store".
Proof.
  pose proof (config_store_choice demo_args "kubeconfig of store" eq_refl) as (own & data & raw & Hown & Hd & _).
  injection Hown as <-. exists data. split; [exact Hd|]. injection Hd as <-. reflexivity.
Defined.

Lemma one_goroutine_notified_witness :
  (length (sc_notified {| sc_sent := true; sc_buffered := 0; sc_notified := [XdsServer (Ok ":15010")] |}) + 0 <= 1)%nat.
Proof.
  apply (one_goroutine_notified [RouteLoop; XdsServer (Ok ":15010"); ShutdownWait]
    {| sc_sent := true; sc_buffered := 0; sc_notified := [XdsServer (Ok ":15010")] |}).
  eapply rtc_l; [|apply rtc_once].
  - apply signal_step; [reflexivity|]. simpl. lia.
  - apply (notify_step _ {| sc_sent := true; sc_buffered := 1; sc_notified := [] |} (XdsServer (Ok ":15010")) 0); [|reflexivity].
    apply elem_of_cons; right; apply elem_of_cons; left; reflexivity.
Defined.
End demo.
