(* ===== verification/Wiring.v ===== *)
(** * The controllers of a server, wired together

    The middle part of [NewServer] in [src/internal/bootstrap/server.go]: the config controller,
    the EnvoyFilter controller and the route cache are created, their handlers registered,
    their clients set.  The map of generators is a Go map: the EnvoyFilter controller is given
    the map of the arguments before the server adds the Dubbo and Redis generators to it, and
    sees them all the same.  It is modelled as one shared value beside the controllers; a
    controller reads it when it runs. *)

From S2P Require Import Prelude Api Model NetworkFilter EnvoyFilterController Xds XdsServer MetaProtocolPlugin.
From S2P Require Import Authz Dubbo Redis Plugins ConfigController Bootstrap.

(** The fields of the two controllers that [NewServer] fills in; a client and the mesh
    configuration are nil first.  The generators are those of the shared map. *)
Record FilterController := {
  fc_configStore : ConfigStore; fc_namespaceScoped : bool; fc_namespace : string;
  fc_MetaRouterControllerClient : option (res (list MetaRouter)); fc_meshConfig : option MeshConfig }.

Definition filter_NewController (store : ConfigStore) (namespaceScoped : bool) (namespace : string) : FilterController :=
  {| fc_configStore := store; fc_namespaceScoped := namespaceScoped; fc_namespace := namespace;
     fc_MetaRouterControllerClient := None; fc_meshConfig := None |}.

Definition InitMeshConfig (mesh : MeshConfig) (c : FilterController) : FilterController :=
  {| fc_configStore := fc_configStore c; fc_namespaceScoped := fc_namespaceScoped c; fc_namespace := fc_namespace c;
     fc_MetaRouterControllerClient := fc_MetaRouterControllerClient c; fc_meshConfig := Some mesh |}.

Record RouteManager := {
  rm_configStore : ConfigStore; rm_MetaRouterControllerClient : option (res (list MetaRouter)) }.

Definition NewCacheMgr (store : ConfigStore) : RouteManager :=
  {| rm_configStore := store; rm_MetaRouterControllerClient := None |}.

(** The functions that [NewServer] registers with the config controller. *)
Inductive Handler := UpdateFilters | UpdateRoutes.

Record Controllers := {
  configController : IstioController Handler;
  envoyFilterController : FilterController;
  xdsCacheMgr : RouteManager;
  xdsServer : XdsServer.Server TLSConfig;
  Protocols : gmap Instance_ Generator }.

Definition config_options (args : AerakiArgs) : ConfigController.Options :=
  {| opt_PodName := PodName args; opt_ClusterID := ClusterID args; opt_NameSpace := RootNamespace args;
     opt_IstiodAddr := IstiodAddr args |}.

(** [MetaRouters] is what the client of the manager lists; [dubbo] and [redis] are the
    generators made of the manager's settings. *)
Definition create_controllers (args : AerakiArgs) (store : ConfigStore) (MetaRouters : res (list MetaRouter))
    (dubbo redis : Generator) (protocols : gmap Instance_ Generator) : outcome Controllers :=
  let config := ConfigController.NewController (config_options args) in
  let filters := filter_NewController store (EnableEnvoyFilterNSScope args) (RootNamespace args) in
  config ← RegisterEventHandler UpdateFilters config;
  let routes := NewCacheMgr store in
  config ← RegisterEventHandler UpdateRoutes config;
  let server := XdsServer.NewServer (AerakiXdsPort args) in
  let routes := {| rm_configStore := rm_configStore routes; rm_MetaRouterControllerClient := Some MetaRouters |} in
  let filters := {| fc_configStore := fc_configStore filters; fc_namespaceScoped := fc_namespaceScoped filters;
                    fc_namespace := fc_namespace filters; fc_MetaRouterControllerClient := Some MetaRouters;
                    fc_meshConfig := fc_meshConfig filters |} in
  let protocols := <[Model.Dubbo := dubbo]> protocols in
  let protocols := <[Model.Redis := redis]> protocols in
  Ret {| configController := config; envoyFilterController := filters; xdsCacheMgr := routes; xdsServer := server;
         Protocols := protocols |}.

(** ** The controllers as the rest of the development has them

    A controller that runs with a nil client or without mesh configuration panics. *)
Definition running_controller (pm : gmap string Instance_) (w : Controllers) : outcome Controller :=
  let c := envoyFilterController w in
  routers ← deref (fc_MetaRouterControllerClient c);
  mesh ← deref (fc_meshConfig c);
  Ret {| configStore := fc_configStore c; metaRouterList := routers; generators := Protocols w;
         namespaceScoped := fc_namespaceScoped c; namespace := fc_namespace c; meshConfig := mesh; protocolMap := pm |}.

Definition running_manager (pm : gmap string Instance_) (w : Controllers) : outcome CacheMgr :=
  routers ← deref (rm_MetaRouterControllerClient (xdsCacheMgr w));
  Ret {| cm_metaRouters := routers; cm_configStore := rm_configStore (xdsCacheMgr w); cm_protocolMap := pm |}.

(** The mesh configuration is set after the controllers are created. *)
Definition with_mesh (mesh : MeshConfig) (w : Controllers) : Controllers :=
  {| configController := configController w; envoyFilterController := InitMeshConfig mesh (envoyFilterController w);
     xdsCacheMgr := xdsCacheMgr w; xdsServer := xdsServer w; Protocols := Protocols w |}.

(** ** A change of a watched resource

    The cache of the config controller is Istio's: it calls the handlers registered for the
    kind of the resource, in their order. *)
Class MemoryCache := handlers_called : forall {H}, list (GVK * H) -> GVK -> list H.
Class MemoryCacheLaws `{MemoryCache} :=
  handlers_called_spec : forall {H} (l : list (GVK * H)) k, handlers_called l k = snd <$> filter (fun p => p.1 = k) l.

(** The events that reach the EnvoyFilter loop and the route loop. *)
Record Notified := { to_filters : nat; to_routes : nat }.

Section change.
Context `{MemoryCache} (DeepEqual : ConfigSpec -> ConfigSpec -> bool) (pm : gmap string Instance_).

Definition call_handler (w : Controllers) (prev curr : Config) (event : Event) (n : Notified) (h : Handler)
    : outcome Notified :=
  if handlerWrapper pm (fc_configStore (envoyFilterController w)) DeepEqual prev curr event then
    match h with
    | UpdateFilters => Ret {| to_filters := S (to_filters n); to_routes := to_routes n |}
    | UpdateRoutes =>
        m ← running_manager pm w;
        k ← Xds.ConfigUpdated m prev curr;
        Ret {| to_filters := to_filters n; to_routes := to_routes n + k |}
    end
  else Ret n.

Fixpoint call_handlers (w : Controllers) (prev curr : Config) (event : Event) (n : Notified) (hs : list Handler)
    : outcome Notified :=
  match hs with
  | [] => Ret n
  | h :: hs => n ← call_handler w prev curr event n h; call_handlers w prev curr event n hs
  end.

Definition config_changed (w : Controllers) (prev curr : Config) (event : Event) : outcome Notified :=
  handlers ← deref (configCache (configController w));
  call_handlers w prev curr event {| to_filters := 0; to_routes := 0 |}
    (handlers_called handlers (m_GroupVersionKind (c_Meta curr))).
End change.

(** ** What the wiring gives *)
Lemma first_generator_None c ports :
  first_generator c ports = None <->
  forall port, port ∈ ports -> generators c !! GetLayer7ProtocolFromPortName (protocolMap c) (sp_Name port) = None.
Proof.
  induction ports as [|port ports IH]; [split; [by intros _ ? ?%elem_of_nil|done]|]. cbn [first_generator].
  setoid_rewrite elem_of_cons. destruct (generators c !! _) as [g|] eqn:E.
  - split; [done|]. intros Hall. by rewrite (Hall port) in E by (by left).
  - rewrite IH. split; [intros Hall ? [->|?]; [done|by apply Hall]|intros Hall q ?; apply Hall; by right].
Qed.

(** The protocols that port names can stand for, and those without a generator. *)
Definition recognised : list Instance_ :=
  [Model.Dubbo; Model.Thrift; Mongo; Model.Redis; MySQL; Model.Kafka; Model.Zookeeper; MetaProtocol; Unsupported].
Definition ungenerated : list Instance_ := [Mongo; MySQL; Unsupported].

Lemma Parse_recognised s : Parse protocolMap_init s ∈ recognised.
Proof.
  unfold Parse. destruct (protocolMap_init !! ToLower s) as [i|] eqn:E; [|unfold recognised; set_solver].
  unfold protocolMap_init in E. unfold recognised.
  repeat (apply lookup_insert_Some in E as [[_ <-]|[_ E]]; [set_solver|]). by rewrite lookup_empty in E.
Qed.

Lemma layer7_recognised name : GetLayer7ProtocolFromPortName protocolMap_init name ∈ recognised.
Proof.
  unfold GetLayer7ProtocolFromPortName.
  destruct (Split name "-") as [|? [|? ?]]; try apply Parse_recognised; unfold recognised; set_solver.
Qed.

(** The handlers of a kind, in the order of their registration. *)
Definition registered : list (GVK * Handler) :=
  ((fun k => (k, UpdateFilters)) <$> configCollection) ++ ((fun k => (k, UpdateRoutes)) <$> configCollection).

Lemma registered_for k :
  snd <$> filter (fun p : GVK * Handler => p.1 = k) registered =
  if bool_decide (k ∈ configCollection) then [UpdateFilters; UpdateRoutes] else [].
Proof. by destruct k. Qed.

Lemma handlerWrapper_watched pm store DeepEqual prev curr event :
  handlerWrapper pm store DeepEqual prev curr event = true -> m_GroupVersionKind (c_Meta curr) ∈ configCollection.
Proof.
  unfold handlerWrapper, configCollection. destruct (_ && _); [done|].
  destruct (m_GroupVersionKind (c_Meta curr)); intros; try done; set_solver.
Qed.

Lemma route_update_entry m prev curr service :
  m_GroupVersionKind (c_Meta curr) = GvkServiceEntry -> c_Spec curr = SpecServiceEntry service ->
  m_GroupVersionKind (c_Meta prev) <> GvkDestinationRule ->
  exists k, Xds.ConfigUpdated m prev curr = Ret k /\
    (forall port, port ∈ se_Ports service -> HasPrefix (sp_Name port) "tcp-metaprotocol" = true -> k = 1%nat).
Proof.
  intros Hk Hs Hprev. unfold Xds.ConfigUpdated.
  assert (exists b, shouldUpdateCache m prev = Ret b) as [b Hb].
  { unfold shouldUpdateCache. destruct (m_GroupVersionKind (c_Meta prev)); try done; try (by exists false).
    destruct (asServiceEntry _); by eexists. }
  assert (shouldUpdateCache m curr =
    Ret (existsb (fun port => HasPrefix (sp_Name port) "tcp-metaprotocol") (se_Ports service))) as ->.
  { unfold shouldUpdateCache. by rewrite Hk, Hs. }
  cbn [mbind outcome_bind]. destruct (existsb _ _) eqn:Hp; [by exists 1%nat|]. rewrite Hb. cbn [mbind outcome_bind].
  exists (if b then 1%nat else 0%nat). split; [by destruct b|]. intros port Hin Hname. exfalso. apply not_true_iff_false in Hp. apply Hp.
  apply existsb_exists. exists port. split; [by apply list_elem_of_In|done].
Qed.

Section wired.
Context `{MapRange, IstioNaming, WellKnown, LogFormatParser, AuthzEnv, ProtoJSONStruct}.
Context `{ProtoJSON Thrift.ThriftProxy, ProtoJSON Kafka.KafkaBroker, ProtoJSON Zookeeper.ZooKeeperProxy,
  ProtoJSON DubboProxy, ProtoJSON MetaProtocolProxy, ProtoJSON RedisProxy, ProtoJSON EnvoyCluster, RedisEnv}.
Context `{MemoryCacheLaws} (DeepEqual : ConfigSpec -> ConfigSpec -> bool).
Context (codecs : gmap string string) (policies : string -> res (list DubboAuthorizationPolicy)) (oob : Z).
Context (args : AerakiArgs) (store : ConfigStore) (routers : res (list MetaRouter)).

Definition wired : outcome Controllers :=
  create_controllers args store routers (Dubbo.Generate policies) (Redis.Generate oob store)
    (initGenerators codecs protocolMap_init).

Lemma wired_lookup i :
  i ∈ recognised ->
  server_generators codecs protocolMap_init policies oob store !! i = None <-> i ∈ ungenerated.
Proof.
  unfold recognised, ungenerated. rewrite !elem_of_cons, elem_of_nil. intros Hi.
  destruct_or!; subst; split; intros; try done; try (destruct_or!; done); tauto.
Qed.

(** The controllers as they run after the creation of the server: the EnvoyFilter controller
    has the generators added after it was created, and both read the same store. *)
Lemma wired_runs mesh w :
  wired = Ret w ->
  running_controller protocolMap_init (with_mesh mesh w) =
    Ret {| configStore := store; metaRouterList := routers;
           generators := server_generators codecs protocolMap_init policies oob store;
           namespaceScoped := EnableEnvoyFilterNSScope args; namespace := RootNamespace args; meshConfig := mesh;
           protocolMap := protocolMap_init |} /\
  running_manager protocolMap_init w =
    Ret {| cm_metaRouters := routers; cm_configStore := store; cm_protocolMap := protocolMap_init |}.
Proof. by intros [= <-]. Qed.

(** A change reaches the EnvoyFilter loop exactly when the filter of the config controller
    lets it through, once, and then the route loop when its own filter does. *)
Lemma wired_change w prev curr event :
  wired = Ret w ->
  config_changed DeepEqual protocolMap_init w prev curr event =
  if handlerWrapper protocolMap_init store DeepEqual prev curr event then
    k ← Xds.ConfigUpdated {| cm_metaRouters := routers; cm_configStore := store; cm_protocolMap := protocolMap_init |}
          prev curr;
    Ret {| to_filters := 1; to_routes := k |}
  else Ret {| to_filters := 0; to_routes := 0 |}.
Proof.
  intros [= <-]. unfold config_changed. cbn [configCache configController deref mbind outcome_bind].
  rewrite handlers_called_spec. fold registered. rewrite registered_for.
  destruct (handlerWrapper _ store _ _ _ _) eqn:Hw.
  - rewrite bool_decide_true by (by eapply handlerWrapper_watched). cbn [call_handlers]. unfold call_handler.
    cbn [envoyFilterController fc_configStore]. rewrite Hw. cbn. by destruct (Xds.ConfigUpdated _ _ _).
  - case_bool_decide; [|done]. cbn [call_handlers]. unfold call_handler.
    cbn [envoyFilterController fc_configStore]. by rewrite Hw.
Qed.

(** C19: A change of a service entry that has a port of a supported protocol (an update that
    changes its spec, or an addition or removal) is passed to the EnvoyFilter loop exactly once,
    and to the route loop when the name of a port begins with tcp-metaprotocol. The controller
    that the former loop runs has the generators registered after its creation, in the
    map it shares with the server, and picks one for the entry unless every port is Mongo's,
    MySQL's or of no known protocol. *)
Theorem service_change_handled mesh w prev curr event service :
  wired = Ret w ->
  m_GroupVersionKind (c_Meta curr) = GvkServiceEntry -> c_Spec curr = SpecServiceEntry service ->
  m_GroupVersionKind (c_Meta prev) <> GvkDestinationRule ->
  (event = EventUpdate -> DeepEqual (c_Spec prev) (c_Spec curr) = false) ->
  has_supported_port protocolMap_init service = true ->
  exists k c, config_changed DeepEqual protocolMap_init w prev curr event = Ret {| to_filters := 1; to_routes := k |} /\
    (forall port, port ∈ se_Ports service -> HasPrefix (sp_Name port) "tcp-metaprotocol" = true -> k = 1%nat) /\
    running_controller protocolMap_init (with_mesh mesh w) = Ret c /\
    (first_generator c (se_Ports service) = None <->
     forall port, port ∈ se_Ports service ->
       GetLayer7ProtocolFromPortName protocolMap_init (sp_Name port) ∈ ungenerated).
Proof.
  intros Hw Hk Hs Hprev Hev Hsup. destruct (wired_runs mesh w Hw) as [Hc _].
  assert (Hpass : handlerWrapper protocolMap_init store DeepEqual prev curr event = true).
  { unfold handlerWrapper, shouldHandleServiceEntryChange, shouldHandleServiceEntry.
    rewrite Hk, Hs. cbn [asServiceEntry]. rewrite Hsup. cbn [orb].
    destruct event; cbn [andb]; [done| |done]. by rewrite <- Hs, Hev. }
  destruct (route_update_entry {| cm_metaRouters := routers; cm_configStore := store; cm_protocolMap := protocolMap_init |}
    prev curr service Hk Hs Hprev) as (k & Hr & Hmeta).
  eexists k, _. rewrite (wired_change w), Hpass, Hr by done. split_and!; [done..|exact Hc|].
  rewrite first_generator_None. cbn [generators protocolMap].
  split; intros Hall port Hin; specialize (Hall port Hin); by apply (wired_lookup _ (layer7_recognised _)).
Qed.

(** C30: A change of a destination rule that concerns a supported service crashes the process
    as long as the store begins with a service entry without hosts: the filter of the config
    controller lets the change through, the EnvoyFilter loop is notified, and the route cache,
    which looks for the entry of the rule, reads the first host of an entry that has none. *)
Theorem rule_event_crashes w prev curr event dr bad rest service :
  wired = Ret w ->
  m_GroupVersionKind (c_Meta curr) = GvkDestinationRule -> asDestinationRule (c_Spec curr) = Some dr ->
  (event = EventUpdate -> DeepEqual (c_Spec prev) (c_Spec curr) = false) ->
  store_List store GvkServiceEntry "" = bad :: rest -> asServiceEntry (c_Spec bad) = Some service ->
  se_Hosts service = [] ->
  shouldHandleDestinationRule protocolMap_init store curr = true ->
  panics (config_changed DeepEqual protocolMap_init w prev curr event) = true.
Proof.
  intros Hw Hk Hs Hev Hl Hse Hh Hdr. rewrite (wired_change w) by done.
  assert (handlerWrapper protocolMap_init store DeepEqual prev curr event = true) as ->.
  { unfold handlerWrapper, shouldHandleDestinationRuleChange. rewrite Hk, Hdr.
    destruct event; cbn [andb orb]; [done| |done]. by rewrite Hev. }
  unfold Xds.ConfigUpdated, shouldUpdateCache. rewrite Hk, Hs. unfold findRelatedServiceEntry.
  cbn [cm_configStore]. rewrite Hl. cbn [find_service]. by rewrite Hse, Hh.
Qed.
End wired.

(** ** Witnesses *)
Definition demo_cache : MemoryCache := fun _ l k => snd <$> filter (fun p => p.1 = k) l.
#[local] Instance demo_cache_laws : @MemoryCacheLaws demo_cache.
Proof. by intros H l k. Qed.

(** A service entry whose port changes from TCP to Kafka: both controllers are the ones the
    server was created with, the EnvoyFilter loop is told once and finds the generator. *)
Lemma service_change_handled_witness :
  exists w c, @wired canonical_range istio_subset_key demo_well_known demo_no_format demo_authz
      demo_json_struct demo_thrift_json demo_kafka_json demo_zookeeper_json demo_dubbo_json demo_meta_json
      demo_redis_json demo_cluster_json demo_redis_env ∅ demo_policies 0 default_args demo_store (Ok []) = Ret w /\
    config_changed (H := demo_cache) (fun _ _ => false) protocolMap_init w (demo_entry [] "tcp") (demo_entry [] "tcp-kafka")
      EventUpdate = Ret {| to_filters := 1; to_routes := 0 |} /\
    running_controller protocolMap_init (with_mesh demo_mesh w) = Ret c /\
    first_generator c [{| sp_Number := 80; sp_Protocol := "tcp"; sp_Name := "tcp-kafka"; sp_TargetPort := 80 |}] <> None.
Proof.
  destruct (@service_change_handled canonical_range istio_subset_key demo_well_known demo_no_format demo_authz
    demo_json_struct demo_thrift_json demo_kafka_json demo_zookeeper_json demo_dubbo_json demo_meta_json
    demo_redis_json demo_cluster_json demo_redis_env demo_cache demo_cache_laws (fun _ _ => false) ∅ demo_policies 0
    default_args demo_store (Ok []) demo_mesh _ (demo_entry [] "tcp") (demo_entry [] "tcp-kafka") EventUpdate _
    eq_refl eq_refl eq_refl ltac:(discriminate) ltac:(reflexivity) eq_refl) as (k & c & Hch & _ & Hc & Hg).
  eexists _, c. split; [reflexivity|]. split; [reflexivity|]. split; [exact Hc|].
  intros Hn. pose proof (proj1 Hg Hn _ ltac:(left)) as Hm. vm_compute in Hm.
  repeat (apply elem_of_cons in Hm as [Hm|Hm]; [discriminate Hm|]). by apply elem_of_nil in Hm.
Defined.

(** Redis proxies take the port of a destination from its service entry, also when that entry
    has no supported port and its changes are dropped: after the entry of the destination b
    moves from port 7000 to 8000 no event is sent, and the proxy would go to another cluster. *)
Definition demo_target (number : Z) : Config :=
  {| c_Meta := c_Meta (demo_entry [] "tcp-http");
     c_Spec := SpecServiceEntry {| se_Hosts := ["b"]; se_Addresses := [];
       se_Ports := [{| sp_Number := number; sp_Protocol := "tcp"; sp_Name := "tcp-http"; sp_TargetPort := number |}];
       se_Resolution := STATIC; se_WorkloadSelector := None |} |}.
Definition demo_target_store (number : Z) : ConfigStore :=
  {| store_List := fun k _ => match k with GvkServiceEntry => [demo_target number] | _ => [] end |}.
Definition demo_catch_all (number : Z) : option string :=
  match @Redis.buildOutboundProxy istio_subset_key demo_redis_env 0 (demo_target_store number) demo_redis_context 6379
          "tcp-redis" with
  | Ret (Ok (Some proxy)) => pr_Cluster <$> rp_CatchAllRoute proxy
  | _ => None
  end.

Example redis_filters_outdated :
  handlerWrapper protocolMap_init (demo_target_store 8000) (fun _ _ => false) (demo_target 7000) (demo_target 8000)
    EventUpdate = false /\
  demo_catch_all 7000 = Some "outbound|7000||b" /\ demo_catch_all 8000 = Some "outbound|8000||b".
Proof. split_and!; reflexivity. Qed.

(** An entry without hosts before the one the rule is for. *)
Definition demo_hostless : Config :=
  {| c_Meta := c_Meta (demo_entry [] "tcp-dubbo");
     c_Spec := SpecServiceEntry {| se_Hosts := []; se_Addresses := []; se_Ports := []; se_Resolution := STATIC;
                                   se_WorkloadSelector := None |} |}.
Definition demo_hostless_store : ConfigStore :=
  {| store_List := fun k _ => match k with GvkServiceEntry => [demo_hostless; demo_entry [] "tcp-dubbo"] | _ => [] end |}.
Definition demo_rule : Config :=
  {| c_Meta := {| m_GroupVersionKind := GvkDestinationRule; m_Name := "dr"; m_Namespace := "ns"; m_Labels := ∅;
                  m_Annotations := ∅ |};
     c_Spec := SpecDestinationRule {| dr_Host := "web.svc"; dr_TrafficPolicy := None; dr_Subsets := [] |} |}.

Lemma rule_event_crashes_witness :
  exists w, @wired canonical_range istio_subset_key demo_well_known demo_no_format demo_authz
      demo_json_struct demo_thrift_json demo_kafka_json demo_zookeeper_json demo_dubbo_json demo_meta_json
      demo_redis_json demo_cluster_json demo_redis_env ∅ demo_policies 0 default_args demo_hostless_store (Ok []) = Ret w /\
    panics (config_changed (H := demo_cache) (fun _ _ => false) protocolMap_init w demo_rule demo_rule EventAdd) = true.
Proof.
  eexists. split; [reflexivity|].
  apply (@rule_event_crashes canonical_range istio_subset_key demo_well_known demo_no_format demo_authz
    demo_json_struct demo_thrift_json demo_kafka_json demo_zookeeper_json demo_dubbo_json demo_meta_json
    demo_redis_json demo_cluster_json demo_redis_env demo_cache demo_cache_laws (fun _ _ => false) ∅ demo_policies 0
    default_args demo_hostless_store (Ok []) _ demo_rule demo_rule EventAdd
    {| dr_Host := "web.svc"; dr_TrafficPolicy := None; dr_Subsets := [] |} demo_hostless [demo_entry [] "tcp-dubbo"]
    {| se_Hosts := []; se_Addresses := []; se_Ports := []; se_Resolution := STATIC; se_WorkloadSelector := None |});
    reflexivity.
Defined.
