(* ===== verification/Main.v ===== *)
(** * The main function

    [main] of [src/cmd/aeraki/main.go] up to the signal that ends the process: the arguments,
    the map of generators, the server with its controllers, the start.  It composes
    [Bootstrap] and [Wiring]; the end of the process after the signal is [Bootstrap.stop_step]. *)

From S2P Require Import Prelude Api Model VipAllocator NetworkFilter EnvoyFilterController Validation MetaProtocolPlugin Authz Dubbo.
From S2P Require Import Redis Plugins ConfigController Webhook Certificates KubeControllers Bootstrap Wiring.

(** [Fatalf] ends the process; [Running] has the goroutines, the server and its controllers. *)
Inductive Process :=
| Exited (reason : error)
| Running (threads : list Thread) (server : Bootstrap.Server) (controllers : Controllers).

Section main.
Context `{MapRange, IstioNaming, WellKnown, LogFormatParser, AuthzEnv, ProtoJSONStruct}.
Context `{ProtoJSON Thrift.ThriftProxy, ProtoJSON Kafka.KafkaBroker, ProtoJSON Zookeeper.ZooKeeperProxy,
  ProtoJSON DubboProxy, ProtoJSON MetaProtocolProxy, ProtoJSON RedisProxy, ProtoJSON EnvoyCluster, RedisEnv}.
Context `{BootstrapEnv, ValidationEnv, ControllerRuntime, Crypto} {K : Type} `{CaLibrary K, WebhookConfigClient K}.

(** What the clients and stores of the process answer. *)
Context (Get : ObjectKey -> res ApplicationProtocol) (store : ConfigStore) (routers : res (list MetaRouter)).
Context (codecs : gmap string string) (policies : string -> res (list DubboAuthorizationPolicy)) (oob : Z).
Context (mesh : MeshConfig) (Listen : string -> res string).

(** [flags] are the values after [flag.Parse]; the set-up of the log ([Bootstrap.setLogLevels])
    has no effect on the rest. *)
Definition main (uuid : string) (Getenv : string -> string) (flags : AerakiArgs) (k : K) : outcome (Process * K) :=
  let args := server_args uuid Getenv flags in
  let protocols := initGenerators codecs protocolMap_init in
  w ← create_controllers args store routers (Dubbo.Generate policies) (Redis.Generate oob store) protocols;
  r ← Bootstrap.NewServer Get args k;
  match r with
  | (Err err, k) => Ret (Exited ("Failed to init Aeraki :" +:+ err), k)
  | (Ok server, k) =>
      let '(threads, server) := Start args Listen server in
      Ret (Running threads server (with_mesh mesh w), k)
  end.

Lemma main_running uuid Getenv flags (k k' : K) threads server w :
  let args := server_args uuid Getenv flags in
  main uuid Getenv flags k = Ret (Running threads server w, k') <->
  exists s w0, Bootstrap.NewServer Get args k = Ret (Ok s, k') /\ Start args Listen s = (threads, server) /\
    wired codecs policies oob args store routers = Ret w0 /\ w = with_mesh mesh w0.
Proof.
  intros args. unfold main. fold args.
  destruct (Bootstrap.NewServer Get args k) as [[[s|err] k1]|p]; cbn [mbind outcome_bind create_controllers].
  - split.
    + intros [= <- <- <- <-]. by eexists s, _.
    + intros (s0 & w0 & [= <- <-] & [= <- <-] & [= <-] & ->). done.
  - split; [done|]. by intros (? & ? & ? & _).
  - split; [done|]. by intros (? & ? & ? & _).
Qed.

(** A process that came up reports ready, runs the loops of the configuration and of the
    routes and the controllers, and takes part in the election of the EnvoyFilter loop exactly
    if it is a master; its controllers are complete, so that a run of the EnvoyFilter loop or
    of the route loop meets no missing client; its routes are served at the configured port,
    to clients with certificates of Istio's root only. *)
Theorem running_process uuid Getenv flags (k k' : K) threads server w :
  let args := server_args uuid Getenv flags in
  main uuid Getenv flags k = Ret (Running threads server w, k') ->
  aerakiReadyHandler server = StatusOK /\
  (forall t, t ∈ [ConfigWatch; RouteLoop; ScalableControllers; SingletonControllers; ShutdownWait] -> t ∈ threads) /\
  (EnvoyFilterElection ∈ threads <-> Master args = true) /\
  (exists c, running_controller protocolMap_init w = Ret c /\
     generators c = server_generators codecs protocolMap_init policies oob store) /\
  (exists m, running_manager protocolMap_init w = Ret m) /\
  XdsServer.xsrv_addr (xdsServer w) = AerakiXdsPort args /\
  (exists root, read_root_cert = Ok root /\
     srv_xdsTLS server = Some {| tls_MinVersion := "1.2"; tls_RequireClientCert := true; tls_ClientCAs := root |}).
Proof.
  intros args (s & w0 & Hs & Hstart & Hw & ->)%main_running. fold args in Hs, Hstart.
  apply NewServer_initialised in Hs as (scalable & singleton & _ & _ & Hini).
  destruct (start_threads args Listen s) as (Hmaster & Hthreads & _).
  destruct (ready_after_start _ _ _ _ _ Hini) as [_ Hready]. specialize (Hready Listen).
  destruct (wired_runs codecs policies oob args store routers mesh w0 Hw) as [Hc Hm].
  rewrite Hstart in Hmaster, Hthreads, Hready. cbn [fst snd] in *.
  split_and!; [done..|by eexists|by exists {| Xds.cm_metaRouters := routers; Xds.cm_configStore := store;
    Xds.cm_protocolMap := protocolMap_init |}|by injection Hw as <-|].
  destruct (ini_xds _ _ _ _ _ Hini) as (root & Hroot & Htls). exists root. split; [done|].
  injection Hstart as <- <-. exact Htls.
Qed.
End main.

(** ** Witness *)
Section demo.
#[local] Existing Instance canonical_range.
#[local] Existing Instance istio_subset_key.
#[local] Existing Instance demo_well_known.
#[local] Existing Instance demo_no_format.
#[local] Existing Instance demo_authz.
#[local] Existing Instance demo_json_struct.
#[local] Existing Instance demo_thrift_json.
#[local] Existing Instance demo_kafka_json.
#[local] Existing Instance demo_zookeeper_json.
#[local] Existing Instance demo_dubbo_json.
#[local] Existing Instance demo_meta_json.
#[local] Existing Instance demo_redis_json.
#[local] Existing Instance demo_cluster_json.
#[local] Existing Instance demo_redis_env.
#[local] Existing Instance demo_kube.
#[local] Existing Instance demo_ca_library.
#[local] Existing Instance demo_crypto.
#[local] Existing Instance demo_bootstrap_env.
#[local] Existing Instance demo_env.
#[local] Existing Instance demo_runtime.
#[local] Existing Instance one_config_server.

Definition demo_main : outcome (Process * option ValidatingWebhookConfiguration) :=
  main demo_Get demo_store (Ok []) ∅ demo_policies 0 demo_mesh (fun addr => Ok addr) "1" (fun _ => "") default_args None.

(** Without flags and environment, on libraries that answer, the process runs as a master. *)
Example default_process_runs :
  exists threads server w k', demo_main = Ret (Running threads server w, k') /\
    aerakiReadyHandler server = StatusOK /\ EnvoyFilterElection ∈ threads.
Proof.
  destruct demo_main as [[p k']|e] eqn:E; [|discriminate E].
  destruct p as [r|threads server w]; [discriminate E|]. exists threads, server, w, k'. split; [reflexivity|].
  unfold demo_main in E. apply running_process in E as (Hr & _ & He & _). split; [exact Hr|]. by apply He.
Qed.
End demo.
